(* ===== verification/_CoqProject ===== *)
-Q . S2P
Prelude.v
Loop.v
CString.v
Bump.v
Heap.v
HeapInv.v
HeapRefine.v
HeapSpec.v
Pty.v
PtySpec.v
Tty.v
Keyboard.v
HanaPath.v
BlockDev.v
Ide.v
IdeSpec.v
IdeThm.v
HanaFs.v
HanaInv.v
HanaImage.v
HanaOps.v
HanaRefine.v
HanaFrame.v
HanaLoad.v
HanaDirSpec.v
Vfs.v
VfsSpec.v
FsHarness.v
Fdtable.v
Sched.v
SchedInv.v
SchedSpec.v
SchedThm.v
SchedLife.v
Elf.v
ElfSpec.v
Syscalls.v
SyscallSpec.v
FileCalls.v
Pipes.v
Initrd.v
Users.v
Shell.v
LibC.v
Fat.v
FatTable.v
FatChain.v
FatDir.v
FatName.v
FatFile.v
FatSearch.v
FatMount.v
FatRoundtrip.v
FatTree.v
FatFresh.v
Commands.v
Login.v
Ext3.v
Ext3Spec.v
Floppy.v
VfsUnion.v
Arch.v
Pci.v
Mouse.v
Framebuffer.v
FbSpec.v
Logger.v
Screen.v
ScreenSpec.v
KeyboardSpec.v
Wm.v
InitrdSpec.v
Boot.v
ModuleRunner.v
Iso.v
IsoSpec.v
IsoDisc.v
Context.v
UserApi.v
BootSpec.v
