(* ===== verification/Prelude.v ===== *)
(** * HanaCore: a verification development of the kernel

    HanaCore is a small x86-64 kernel in C++ (sources under src/kernel).  This library models
    its memory management, devices, terminals, file systems, scheduler, program loader, system
    calls, accounts and start-up as executable definitions, and proves what makes them correct.

    ** Conventions

    A routine is a function that takes the state it reads and returns the state it leaves.
    [res] (below) separates a normal return, undefined behaviour (a load or store outside an
    object, a NULL dereference, a division by zero, a signed overflow) and a loop that runs
    out of fuel.  Machine integers are [Z] with [u8], [u16], [u32], [u64], [i8], [i32], [i64]
    written where the C++ type wraps.  A byte buffer is a [list Z]; a C string is the list of
    its characters before the NUL; an address is a [Z], with 0 for NULL.  Log lines and
    progress callbacks are left out of the components; Logger.v has the logger itself, and
    Boot.v the lines of the start-up.

    ** Parts of the kernel and where they are modelled

    - Memory (mem/bump_alloc.cpp, pma.cpp, vmm.cpp, heap.cpp).  Bump.v: the bump pointer and the
      page and mapping stubs on it.  Heap.v: the first-fit heap with splitting and coalescing
      on a memory of block headers; HeapInv.v, HeapRefine.v: its invariant and the refinement
      to a list of blocks; HeapSpec.v: [kmalloc] and [kfree], and the class [Allocator] /
      [AllocatorSpec] through which every client uses the heap, with lists of owned
      allocations.
    - Terminals (tty/pty.cpp, tty/tty.cpp, drivers/keyboard.cpp).  Pty.v, PtySpec.v: the ring
      buffers of a pseudo-terminal as queues.  Tty.v: virtual terminals and their histories.
      Keyboard.v, KeyboardSpec.v: scan codes to bytes, through modifiers and hot keys, and safety
      on any input.
    - C library (libs/libc.c).  CString.v: strings and memory blocks; LibC.v: numbers,
      searches and the printf family.  Loop.v: loops with early exit on binary fuel.
    - HanaFS (filesystem/hanafs.cpp).  HanaPath.v: path resolution; HanaFs.v: the
      entry list, files, the image on disk, directories and listings.  HanaInv.v,
      HanaOps.v, HanaRefine.v: invariant, operations, refinement to a finite map of paths;
      HanaImage.v, HanaLoad.v: persistence; HanaFrame.v: the sectors an operation writes;
      HanaDirSpec.v: listings and readdir.  Iso.v: the
      mount of a CD, and ramfs.cpp, which forwards to HanaFS; IsoSpec.v: the layout of a disc
      and what the mount makes of it; IsoDisc.v: the drives on the IDE driver, and discs.
    - The block device (drivers/ide.hpp, ide.cpp).  BlockDev.v: the class [BlockDev] of sector
      reads and writes with the laws [BlockDevSpec] of a successful transfer, and [Disk], a
      device whose transfers succeed.  Ide.v: the driver over the class [Bus] of port
      instructions; IdeSpec.v: the class [AtaDevice], a device's registers, commands and data
      port, and the driver's loops on it; IdeThm.v: exact transfers, and the driver as an
      instance of [BlockDevSpec].
    - FAT32 (filesystem/fat32.cpp).  Fat.v: sectors, the allocation table, walks along a
      cluster chain; FatDir.v: names, directory entries, file operations; FatMount.v: mounting
      from ATA or a boot module, reading, listing, reports, formatting.
      FatTable.v, FatChain.v, FatName.v, FatFile.v, FatSearch.v: their
      theory, bottom up; FatRoundtrip.v, FatFresh.v: the theorems, and small volumes; FatTree.v:
      the files of a volume as a tree of directories.
    - ext3 (filesystem/ext3.cpp).  Ext3.v: the reader of an image in memory; Ext3Spec.v: its
      walks as loops over directory entries, its results, termination, on small images too.
    - Floppy (filesystem/floppy.cpp).  Floppy.v: the FAT12 root directory of an image.
    - VFS (filesystem/vfs.cpp, procfs.cpp, devfs.cpp).  Vfs.v, VfsSpec.v: the mount
      table and dispatch.  [FatFs] is the interface to the FAT32 and floppy drivers; VfsUnion.v
      instantiates it with them and describes the union of the file systems.  FsHarness.v
      (tools/fs_ubsan): the host program that tests the VFS over stubs.
    - Boot image (filesystem/initrd.cpp).  Initrd.v, InitrdSpec.v: the tar reader and
      the tree it leaves in HanaFS.
    - Scheduler (scheduler/scheduler.cpp).  Sched.v: tasks as heap objects on a ring;
      SchedInv.v, SchedSpec.v, SchedThm.v, SchedLife.v:
      ring shape, invariant, reaping, the scheduling decision, creation and killing.
      Context.v (scheduler/switch.S, arch/syscall.S): the assembly of the context switch and of
      the system-call entry, on a machine of registers and words.
    - Processor and chips (arch/).  Arch.v: segment and interrupt descriptors, the interrupt
      controller, the timer, the system-call registers, with what the hardware reads from
      them; Context.v (arch/pit_entry.S): the timer's entry.
    - Devices (drivers/).  Pci.v: enumeration.  Mouse.v: initialisation and packets.
      Framebuffer.v, FbSpec.v: pixels, shapes and lines as sets of coloured
      positions.  Screen.v, ScreenSpec.v: text and pixels over the terminal emulator, which is
      the interface [Flanterm].
    - Window manager (graphics/).  Wm.v: the demonstration over framebuffer, mouse, keyboard.
    - Logger (utils/logger.cpp).  Logger.v.
    - Programs and system calls (userland/elf_loader.cpp, fdtable.cpp, syscalls.cpp).  Elf.v,
      ElfSpec.v: the loader.  Fdtable.v, Syscalls.v, SyscallSpec.v, FileCalls.v, Pipes.v: file
      descriptors, the call handlers, open files as byte sequences, pipes.  UserApi.v
      (userland/musl_shim, api/hanaapi.h): the user side of a call.  ModuleRunner.v
      (userland/module_runner.cpp): running a boot module.
    - Accounts, log-in and shell (userland/users.cpp, login.cpp, shell/shell.cpp,
      commands.cpp).  Users.v: accounts, passwords, permissions.  Shell.v: reading, parsing and
      tokenising a line, and what the line reader does to the buffer and the screen.
      Commands.v: the commands and the command loop over the kernel state.  Login.v: the log-in
      loop, and sessions evaluated from the prompt to the halt.
    - Start-up (kernel.cpp, boot/limine_entry.c).  Boot.v: [kernel_main] over the state of all
      parts; BootSpec.v: what is in place when the log-in is called, and the run that refuses
      an intruder.

    ** How the parts interact

    The heap serves HanaFS, FAT32, the VFS, the scheduler and the system calls through
    [Allocator]; the file systems share one device through [BlockDev]. The theorems of a client
    are proved against the classes; HeapSpec.v, BlockDev.v and IdeThm.v discharge them. System
    calls reach files through the VFS and HanaFS. FAT32 registers itself in the VFS mount
    table, and the VFS calls it and the floppy driver through [FatFs]: [fat_driver] works on
    [FatDev], the device with the globals of both drivers, on which HanaFS saves its image too.
    The keyboard feeds the terminals. The log-in and the shell drive the VFS, the loader, the
    scheduler and the accounts on one state ([Session] over [Kernel]), and [kernel_main] sets
    that state up ([Machine]).

    ** What the theorems show

    - Refinements: the heap implements disjoint live blocks ([kmalloc_correct],
      [kfree_correct]); a pseudo-terminal two bounded queues ([pty_run_refines]); HanaFS a map
      from paths to files and directories ([hanafs_refines_map]); an open descriptor a byte
      sequence with an offset ([fd_calls_refine_file]); context switches coroutines
      ([switches_are_coroutines]); a mounted CD the tree on the disc ([iso_mount_copies_tree]);
      the VFS the union of HanaFS, the texts of procfs and devfs, and a FAT32 volume
      ([vfs_union_refines]).
    - Composition: [boot_reaches_login] runs all the initialisation, with an initrd and the
      second [heap_init] of the scheduler, and finds the files, mounts and tables in place;
      [boot_refuses_intruder] runs on through three refused attempts to the halt;
      [musl_syscall_delivers] follows a call from the user's arguments to the dispatcher and
      back; [initrd_unpacks_tree] gives the abstract tree of an archive; [harness_completes] runs
      the test program of the file systems.
    - Round trips: HanaFS to disk and back, FAT32 write and open, open/write/close on a file,
      tokenising, malloc/free, mouse movements to packets and back.
    - Invariants and safety: the task ring under scheduling, creation and killing; fairness of
      the round robin; the mount table; the bump allocator; bounds of the ELF loader; no
      shell without a password ([login_locks_out], [login_admits]).
    - Termination: freeing a cluster chain, every ext3 walk on any image, every IDE call on any
      device.
    - Readers: FAT32 files at any depth ([fat32_open_exact]), ext3 files, floppy listings and
      edited lines are exactly what the volume, the image or the keys say.
    - Devices: a sector transfer moves exactly the addressed sector, and the driver returns
      whatever the device answers; the timer's interrupts arrive at its handler at the
      requested rate ([timer_interrupts_delivered]) and the interrupted program does not notice
      ([timer_interrupt_transparent]); the PCI scan finds exactly the devices present.
    - Pictures: a routine colours exactly its set of pixels and touches no other video memory
      ([draw_line_exact] and the theorems of FbSpec.v, ScreenSpec.v); the cursor of the window
      manager is visible after every round ([wm_cursor_visible]).
    - Equivalence: path resolution with a specification by components; freshly formatted
      volumes; error results of bad descriptors.

    ** Fuel

    Recursion is on data where the code's loop is on data.  Otherwise the fuel is: the number
    of tasks or blocks plus one for walks over the task ring and the block list (a walk that
    is longer has met a node twice); the length of the path for component loops (every round
    consumes a character); 32 rounds where the code counts to 32; and 2^32 steps, as a binary
    number, for the loops over clusters ([Loop.while]): cluster numbers have 28 bits, so a
    longer walk repeats a cluster; the loops over the records of a block and the IDE driver's
    count-downs are shorter than that.  The loops at the prompt run at most once per key.  The
    records of an ISO directory are at least a byte long: its size plus one rounds are enough;
    the recursion into directories takes the depth of the tree.  64 digits and the end are
    enough for a 64-bit number.  The rounds of the window manager and the polls of a device are
    counted by the caller.  The theorems on results are equations with [Ret]: they prove that
    the fuel is enough.  Lines are proved for coordinates below 2^12, where the sums of 32-bit
    floats along axes and diagonals are exact.

    ** Not modelled

    Third-party code (flanterm, limine) is outside the project. The host's printf and malloc
    under the test program are its surroundings: its output is a list of lines, its heap an
    [Allocator]. Functions that only forward to one of the same name in a namespace, and the
    inline assembly of port instructions, have no definition of their own. The lines of
    [kernel_main] behind [login_main] are not reached. hanaapi.h and limine.h declare far more
    than the kernel uses: only the structures and constants that it reads are modelled. *)
From stdpp Require Export base numbers list gmap strings.
From Stdlib Require Export ZArith Lia.
From Stdlib Require Import Ascii.

Global Open Scope Z_scope.
Set Default Goal Selector "!".

(** ** Outcomes of a C++ routine

    [Ret a] is a normal return.  [UB] is undefined behaviour: a null or dangling
    pointer dereference or an access outside the object.  [Diverges] is the answer
    of a loop whose fuel ran out. *)
Inductive res (A : Type) : Type :=
| Ret (a : A)
| UB
| Diverges.
Arguments Ret {A} a.
Arguments UB {A}.
Arguments Diverges {A}.

Definition rbind {A B : Type} (m : res A) (k : A → res B) : res B :=
  match m with
  | Ret a => k a
  | UB => UB
  | Diverges => Diverges
  end.

Definition of_opt {A : Type} (o : option A) : res A :=
  match o with
  | Some a => Ret a
  | None => UB
  end.

Declare Scope hana_scope.
Delimit Scope hana_scope with hana.
Notation "'let!' x ':=' m 'in' k" := (rbind m (λ x, k))
  (at level 10, x pattern, m at level 100, k at level 200) : hana_scope.
Global Open Scope hana_scope.

Lemma rbind_Ret {A B} (m : res A) (k : A → res B) b :
  rbind m k = Ret b ↔ ∃ a, m = Ret a ∧ k a = Ret b.
Proof.
  destruct m as [a| |]; simpl; split; try naive_solver.
Qed.

Lemma rbind_assoc {A B C} (m : res A) (f : A → res B) (g : B → res C) :
  rbind (rbind m f) g = rbind m (λ a, rbind (f a) g).
Proof. by destruct m. Qed.

(** ** Machine integers *)

Definition wrap (w z : Z) : Z := z `mod` 2 ^ w.
Definition u8 (z : Z) : Z := wrap 8 z.
Definition u16 (z : Z) : Z := wrap 16 z.
Definition u32 (z : Z) : Z := wrap 32 z.
Definition u64 (z : Z) : Z := wrap 64 z.
Definition sgn (w z : Z) : Z :=
  let r := wrap w z in if r <? 2 ^ (w - 1) then r else r - 2 ^ w.
Definition i8 (z : Z) : Z := sgn 8 z.
Definition i32 (z : Z) : Z := sgn 32 z.
Definition i64 (z : Z) : Z := sgn 64 z.

Lemma wrap_bound w z : 0 ≤ w → 0 ≤ wrap w z < 2 ^ w.
Proof. intros. apply Z.mod_pos_bound. lia. Qed.
Lemma wrap_small w z : 0 ≤ z < 2 ^ w → wrap w z = z.
Proof. apply Z.mod_small. Qed.
Lemma u8_small z : 0 ≤ z < 256 → u8 z = z.
Proof. apply (wrap_small 8). Qed.
Lemma u16_small z : 0 ≤ z < 2 ^ 16 → u16 z = z.
Proof. apply (wrap_small 16). Qed.
Lemma u32_small z : 0 ≤ z < 2 ^ 32 → u32 z = z.
Proof. apply (wrap_small 32). Qed.
Lemma u64_small z : 0 ≤ z < 2 ^ 64 → u64 z = z.
Proof. apply (wrap_small 64). Qed.
Lemma u8_bound z : 0 ≤ u8 z < 256.
Proof. by apply (wrap_bound 8). Qed.
Lemma u64_bound z : 0 ≤ u64 z < 2 ^ 64.
Proof. by apply (wrap_bound 64). Qed.
Lemma i32_small z : -(2 ^ 31) ≤ z < 2 ^ 31 → i32 z = z.
Proof.
  intros H. unfold i32, sgn, wrap. change (2 ^ (32 - 1)) with (2 ^ 31).
  destruct (Z.ltb_spec (z `mod` 2 ^ 32) (2 ^ 31)) as [Hlt|Hge].
  - destruct (Z_lt_le_dec z 0).
    + rewrite <- (Z_mod_plus_full z 1 (2 ^ 32)), Z.mod_small in Hlt; lia.
    + apply Z.mod_small. lia.
  - destruct (Z_lt_le_dec z 0).
    + rewrite <- (Z_mod_plus_full z 1 (2 ^ 32)), Z.mod_small; lia.
    + rewrite Z.mod_small in Hge; lia.
Qed.

Create HintDb hana.
#[export] Hint Rewrite u8_small u16_small u32_small u64_small i32_small using lia : hana.
#[export] Hint Resolve u8_bound u64_bound : hana.

Definition is_byte (b : Z) : Prop := 0 ≤ b < 256.
Global Instance is_byte_dec b : Decision (is_byte b) := _.

(** ** Lists indexed by integers *)

Definition zlen {A} (l : list A) : Z := Z.of_nat (length l).

Lemma zlen_nonneg {A} (l : list A) : 0 ≤ zlen l.
Proof. unfold zlen. lia. Qed.
Lemma zlen_nil {A} : zlen (@nil A) = 0.
Proof. done. Qed.
Lemma zlen_cons {A} (x : A) l : zlen (x :: l) = 1 + zlen l.
Proof. unfold zlen. simpl. lia. Qed.
Lemma zlen_app {A} (l k : list A) : zlen (l ++ k) = zlen l + zlen k.
Proof. unfold zlen. rewrite length_app. lia. Qed.
#[export] Hint Rewrite @zlen_nil @zlen_cons @zlen_app : hana.
#[export] Hint Resolve zlen_nonneg : hana.

Lemma omap_step {A B} (f : A → option B) x l :
  omap f (x :: l) = match f x with Some y => y :: omap f l | None => omap f l end.
Proof. done. Qed.

(** [bget b i] is the load [b[i]]; outside the object it is undefined. *)
Definition bget (b : list Z) (i : Z) : res Z :=
  if (0 <=? i) && (i <? zlen b) then of_opt (b !! Z.to_nat i) else UB.

(** [bset b i v] is the store [b[i] = v]. *)
Definition bset (b : list Z) (i v : Z) : res (list Z) :=
  if (0 <=? i) && (i <? zlen b) then Ret (<[Z.to_nat i := v]> b) else UB.

Lemma bget_Ret b i v : bget b i = Ret v ↔ 0 ≤ i ∧ b !! Z.to_nat i = Some v.
Proof.
  unfold bget, zlen. destruct (Z.leb_spec 0 i), (Z.ltb_spec i (Z.of_nat (length b))); simpl;
    split; intros Hv; try done.
  - destruct (b !! Z.to_nat i) eqn:E; simpl in *; [|done]. split; [lia|congruence].
  - destruct Hv as [_ ->]. done.
  - destruct Hv as [_ Hv]. apply lookup_lt_Some in Hv. lia.
  - lia.
  - lia.
Qed.

Lemma bset_Ret b i v b' :
  bset b i v = Ret b' ↔ 0 ≤ i < zlen b ∧ b' = <[Z.to_nat i := v]> b.
Proof.
  unfold bset. destruct (Z.leb_spec 0 i), (Z.ltb_spec i (zlen b)); simpl;
    split; intros Hv; try done; try lia.
  - split; [lia|congruence].
  - by destruct Hv as [_ ->].
Qed.

(** ** Little-endian integers *)

Fixpoint le_bytes (n : nat) (z : Z) : list Z :=
  match n with
  | O => []
  | S n => z `mod` 256 :: le_bytes n (z `div` 256)
  end.

Fixpoint le_val (bs : list Z) : Z :=
  match bs with
  | [] => 0
  | b :: bs => b + 256 * le_val bs
  end.

Lemma length_le_bytes n z : length (le_bytes n z) = n.
Proof. revert z; induction n as [|n IH]; intros z; simpl; [done|by rewrite IH]. Qed.

Lemma zlen_le_bytes n z : zlen (le_bytes n z) = Z.of_nat n.
Proof. unfold zlen. by rewrite length_le_bytes. Qed.

Lemma le_bytes_is_byte n z : Forall is_byte (le_bytes n z).
Proof.
  revert z; induction n as [|n IH]; intros z; simpl; constructor; [|apply IH].
  apply Z.mod_pos_bound. lia.
Qed.

Lemma le_val_bytes n z : le_val (le_bytes n z) = z `mod` 2 ^ (8 * Z.of_nat n).
Proof.
  revert z; induction n as [|n IH]; intros z.
  - simpl. by rewrite Z.mod_1_r.
  - simpl le_bytes. cbn [le_val]. rewrite IH.
    replace (8 * Z.of_nat (S n)) with (8 + 8 * Z.of_nat n) by lia.
    rewrite Z.pow_add_r by lia. change (2 ^ 8) with 256.
    rewrite Z.rem_mul_r by lia. lia.
Qed.

Lemma le_val_bytes_small n z :
  0 ≤ z < 2 ^ (8 * Z.of_nat n) → le_val (le_bytes n z) = z.
Proof. intros H. rewrite le_val_bytes. by apply Z.mod_small. Qed.

Lemma le_val_bound bs :
  Forall is_byte bs → 0 ≤ le_val bs < 2 ^ (8 * zlen bs).
Proof.
  induction 1 as [|b bs Hb _ IH]; [simpl; unfold zlen; simpl; lia|].
  rewrite zlen_cons, Z.mul_add_distr_l, Z.pow_add_r by (pose proof (zlen_nonneg bs); lia).
  cbn [le_val]. change (2 ^ (8 * 1)) with 256. unfold is_byte in Hb. lia.
Qed.

(** ** Bit operations as arithmetic *)

Lemma land_ones_mod z n : 0 ≤ n → Z.land z (2 ^ n - 1) = z `mod` 2 ^ n.
Proof. intros. rewrite <- Z.land_ones by done. f_equal. rewrite Z.ones_equiv. lia. Qed.

Lemma land_255 z : Z.land z 255 = z `mod` 256.
Proof. apply (land_ones_mod z 8). lia. Qed.

Lemma lor_shiftl_add a b n : 0 ≤ n → 0 ≤ a < 2 ^ n → Z.lor a (Z.shiftl b n) = a + b * 2 ^ n.
Proof.
  intros Hn Ha. rewrite <- Z.shiftl_mul_pow2 by done.
  rewrite <- Z.lxor_lor, Z.add_nocarry_lxor; [done| |];
    apply Z.bits_inj'; intros i Hi; rewrite Z.land_spec, Z.bits_0;
    destruct (Z_lt_le_dec i n).
  1,3: rewrite (Z.shiftl_spec_low _ _ _ l), andb_false_r; done.
  all: rewrite <- (Z.mod_small a (2 ^ n)), Z.mod_pow2_bits_high by lia; done.
Qed.

(** ** Automation *)

(** Reduce boolean comparisons to propositions, in the context and the goal. *)
Ltac bool_to_prop :=
  repeat match goal with
  | H : (_ && _) = true |- _ => apply andb_true_iff in H; destruct H
  | H : (_ || _) = false |- _ => apply orb_false_iff in H; destruct H
  | H : negb _ = true |- _ => apply negb_true_iff in H
  | H : negb _ = false |- _ => apply negb_false_iff in H
  | H : (_ =? _) = true |- _ => apply Z.eqb_eq in H
  | H : (_ =? _) = false |- _ => apply Z.eqb_neq in H
  | H : (_ <? _) = true |- _ => apply Z.ltb_lt in H
  | H : (_ <? _) = false |- _ => apply Z.ltb_ge in H
  | H : (_ <=? _) = true |- _ => apply Z.leb_le in H
  | H : (_ <=? _) = false |- _ => apply Z.leb_gt in H
  | H : bool_decide _ = true |- _ => apply bool_decide_eq_true in H
  | H : bool_decide _ = false |- _ => apply bool_decide_eq_false in H
  end.

(** Case analysis on the next test of a routine. *)
Ltac case_test :=
  match goal with
  | |- context [if ?b then _ else _] => let E := fresh "E" in destruct b eqn:E
  | H : context [if ?b then _ else _] |- _ => let E := fresh "E" in destruct b eqn:E
  end; bool_to_prop.

(** Invert a successful sequence of [let!]. *)
Ltac inv_ret :=
  repeat match goal with
  | H : rbind _ _ = Ret _ |- _ =>
      let a := fresh "a" in let E := fresh "E" in
      apply rbind_Ret in H; destruct H as [a [E H]]
  | H : Ret _ = Ret _ |- _ => injection H; clear H; intros; subst
  | H : UB = Ret _ |- _ => discriminate H
  | H : Diverges = Ret _ |- _ => discriminate H
  | a : (_ * _)%type |- _ => destruct a
  end.

(** Arithmetic on the lengths of concatenated buffers. *)
Ltac zlen_lia :=
  repeat first [rewrite zlen_app | rewrite zlen_cons | rewrite zlen_nil | rewrite zlen_le_bytes]; lia.

(** Decide a closed test by arithmetic. *)
Ltac test_true := rewrite (proj2 (Z.eqb_eq _ _)) || rewrite (proj2 (Z.ltb_lt _ _))
  || rewrite (proj2 (Z.leb_le _ _)).
Ltac test_false := rewrite (proj2 (Z.eqb_neq _ _)) || rewrite (proj2 (Z.ltb_ge _ _))
  || rewrite (proj2 (Z.leb_gt _ _)).
