(* ===== verification/Loop.v ===== *)
(** * Loops with early exit

    [while] runs a step until it leaves the loop, at most [FUEL] = 2^32 times.  The bound is
    a binary number, so that evaluation stops with the loop.  A loop over 32-bit counters or
    28-bit cluster numbers that does not repeat a state ends within it; a loop that runs out
    is [Diverges].  [for_loop] walks a list of indices. *)
From S2P Require Import Prelude.

Section loops.
Context {S R : Type}.

(** [inl s]: next iteration with state [s]; [inr r]: the loop is left with [r]. *)
Definition exit_bind (m : res (S + R)) (k : S → res (S + R)) : res (S + R) :=
  let! x := m in match x with inl s => k s | inr r => Ret (inr r) end.

Fixpoint iterate (p : positive) (step : S → res (S + R)) (s : S) : res (S + R) :=
  match p with
  | xH => step s
  | xO p => exit_bind (iterate p step s) (iterate p step)
  | xI p => exit_bind (step s) (λ s, exit_bind (iterate p step s) (iterate p step))
  end.

Definition FUEL : positive := 4294967296.
Definition while (step : S → res (S + R)) (s : S) : res R :=
  let! x := iterate FUEL step s in match x with inl _ => Diverges | inr r => Ret r end.

Fixpoint for_loop {I} (l : list I) (body : I → S → res (S + R)) (s : S) : res (S + R) :=
  match l with
  | [] => Ret (inl s)
  | i :: l => exit_bind (body i s) (for_loop l body)
  end.

(** ** Unary iteration *)

Fixpoint iter_nat (n : nat) (step : S → res (S + R)) (s : S) : res (S + R) :=
  match n with
  | O => Ret (inl s)
  | Datatypes.S n => exit_bind (step s) (iter_nat n step)
  end.

Lemma exit_bind_assoc m k k' :
  exit_bind (exit_bind m k) k' = exit_bind m (λ s, exit_bind (k s) k').
Proof. by destruct m as [[s|r]| |]. Qed.

Lemma exit_bind_ext m k k' : (∀ s, k s = k' s) → exit_bind m k = exit_bind m k'.
Proof. intros Hk. destruct m as [[s|r]| |]; cbn; auto. Qed.

Lemma iter_nat_add n m step s :
  iter_nat (n + m) step s = exit_bind (iter_nat n step s) (iter_nat m step).
Proof.
  revert s. induction n as [|n IH]; intros s; [done|]. cbn [Nat.add iter_nat].
  rewrite exit_bind_assoc. by apply exit_bind_ext.
Qed.

Lemma iterate_nat p step s : iterate p step s = iter_nat (Pos.to_nat p) step s.
Proof.
  revert s. induction p as [p IH|p IH|]; intros s; cbn [iterate].
  - rewrite Pos2Nat.inj_xI. cbn [iter_nat]. apply exit_bind_ext. intros s'.
    replace (2 * Pos.to_nat p)%nat with (Pos.to_nat p + Pos.to_nat p)%nat by lia.
    rewrite iter_nat_add, IH. by apply exit_bind_ext.
  - rewrite Pos2Nat.inj_xO. replace (2 * Pos.to_nat p)%nat with (Pos.to_nat p + Pos.to_nat p)%nat by lia.
    rewrite iter_nat_add, IH. by apply exit_bind_ext.
  - change (Pos.to_nat 1) with 1%nat. cbn [iter_nat]. by destruct (step s) as [[s'|r]| |].
Qed.

(** ** Terminating runs *)

(** The loop leaves with [r] after [n] further iterations that stay in it. *)
Inductive runs (step : S → res (S + R)) : nat → S → R → Prop :=
| runs_exit s r : step s = Ret (inr r) → runs step 0 s r
| runs_next n s s' r : step s = Ret (inl s') → runs step n s' r → runs step (Datatypes.S n) s r.

Lemma iter_nat_runs step n s r k :
  runs step n s r → (n < k)%nat → iter_nat k step s = Ret (inr r).
Proof.
  intros Hr. revert k. induction Hr as [s r Hs|n s s' r Hs _ IH]; intros [|k] Hk; try lia; cbn [iter_nat].
  - by rewrite Hs.
  - rewrite Hs. cbn. apply IH. lia.
Qed.

Lemma while_runs step n s r : runs step n s r → Z.of_nat n < 2 ^ 32 → while step s = Ret r.
Proof.
  intros Hr Hn. unfold while. rewrite iterate_nat, (iter_nat_runs _ n _ r); [done|done|].
  unfold FUEL. lia.
Qed.

(** A loop that comes back to its state never ends. *)
Lemma while_stuck step s : step s = Ret (inl s) → while step s = Diverges.
Proof.
  intros Hs. unfold while. rewrite iterate_nat.
  enough (∀ n, iter_nat n step s = Ret (inl s)) as -> by done.
  induction n as [|n IH]; [done|]. cbn. by rewrite Hs.
Qed.

(** ** Index loops *)

Lemma for_loop_app {I} (l k : list I) body s :
  for_loop (l ++ k) body s = exit_bind (for_loop l body s) (for_loop k body).
Proof.
  revert s. induction l as [|i l IH]; intros s; [done|]. cbn [app for_loop].
  rewrite exit_bind_assoc. by apply exit_bind_ext.
Qed.

(** A loop that skips every index ends in its state. *)
Lemma for_loop_skip {I} (l : list I) body s : (∀ i, i ∈ l → body i s = Ret (inl s)) → for_loop l body s = Ret (inl s).
Proof.
  induction l as [|i l IH]; intros Hl; [done|]. cbn [for_loop]. rewrite Hl by set_solver.
  cbn. apply IH. set_solver.
Qed.

(** A loop that skips a prefix and leaves at the next index. *)
Lemma for_loop_exit {I} (l : list I) i k body s r :
  (∀ j, j ∈ l → body j s = Ret (inl s)) → body i s = Ret (inr r) →
  for_loop (l ++ i :: k) body s = Ret (inr r).
Proof. intros Hl Hi. rewrite for_loop_app, for_loop_skip by done. cbn. by rewrite Hi. Qed.

Lemma for_loop_ext {I} (l : list I) body body' s :
  (∀ i s, i ∈ l → body i s = body' i s) → for_loop l body s = for_loop l body' s.
Proof.
  revert s. induction l as [|i l IH]; intros s Hb; [done|]. cbn [for_loop]. rewrite (Hb i s) by left.
  apply exit_bind_ext. intros s'. apply IH. intros j t Hj. apply Hb. by right.
Qed.

(** A loop over an image, and nested loops as one loop over pairs. *)
Lemma for_loop_fmap {I J} (f : I → J) (l : list I) body s :
  for_loop (f <$> l) body s = for_loop l (λ i, body (f i)) s.
Proof.
  revert s. induction l as [|i l IH]; intros s; [done|]. cbn. by apply exit_bind_ext.
Qed.
Lemma for_loop_nested {I J} (F : I → list J) (l : list I) (body : I → J → S → res (S + R)) s :
  for_loop l (λ i, for_loop (F i) (body i)) s
  = for_loop (l ≫= λ i, (λ j, (i, j)) <$> F i) (λ ij, body ij.1 ij.2) s.
Proof.
  revert s. induction l as [|i l IH]; intros s; [done|]. cbn [for_loop mbind list_bind].
  rewrite for_loop_app, for_loop_fmap. by apply exit_bind_ext.
Qed.
End loops.

(** The indices of [for (i = a; i < b; i += k)]. *)
Definition range (a b k : Z) : list Z :=
  (λ i, a + k * Z.of_nat i) <$> seq 0 (Z.to_nat ((b - a + k - 1) `div` k)).

Lemma elem_of_range a b k i : 0 < k → i ∈ range a b k ↔ a ≤ i < b ∧ (i - a) `mod` k = 0.
Proof.
  intros Hk. unfold range. rewrite list_elem_of_fmap. setoid_rewrite elem_of_seq. split.
  - intros (n & -> & Hn). assert (Z.of_nat n < (b - a + k - 1) `div` k) as Hlt by lia.
    assert (k * (Z.of_nat n + 1) ≤ b - a + k - 1).
    { transitivity (k * ((b - a + k - 1) `div` k)); [nia|]. apply Z.mul_div_le. lia. }
    split; [nia|]. rewrite Z.add_simpl_l, Z.mul_comm, Z.mod_mul; lia.
  - intros [[H1 H2] Hm]. apply Z.mod_divide in Hm as [q Hq]; [|lia].
    exists (Z.to_nat q). assert (0 ≤ q) by nia. split; [nia|].
    enough (q < (b - a + k - 1) `div` k) by lia.
    apply Z.lt_le_trans with (q + 1); [lia|]. apply Z.div_le_lower_bound; nia.
Qed.

(** The indices up to [i], [i], and those after. *)
Lemma range_split a b k i :
  0 < k → i ∈ range a b k → range a b k = range a i k ++ i :: range (i + k) b k.
Proof.
  intros Hk Hi. apply elem_of_range in Hi as [[H1 H2] Hm]; [|done].
  apply Z.mod_divide in Hm as [q Hq]; [|lia].
  assert (0 ≤ q) by nia. unfold range.
  assert ((i - a + k - 1) `div` k = q) as ->
    by (symmetry; apply (Z.div_unique _ _ q (k - 1)); lia).
  pose proof (Z.div_add (b - (i + k) + k - 1) (q + 1) k ltac:(lia)) as He.
  replace (b - (i + k) + k - 1 + (q + 1) * k) with (b - a + k - 1) in He by lia.
  set (m := (b - (i + k) + k - 1) `div` k) in *. assert (0 ≤ m) by (apply Z.div_pos; lia).
  rewrite He. replace (Z.to_nat (m + (q + 1))) with (Z.to_nat q + Datatypes.S (Z.to_nat m))%nat by lia.
  rewrite seq_app, fmap_app. f_equal. cbn [seq fmap list_fmap]. f_equal; [lia|].
  rewrite <- (Nat.add_0_r (Datatypes.S _)). rewrite <- !fmap_add_seq, <- list_fmap_compose.
  apply list_fmap_ext. intros n x _. cbn. lia.
Qed.
