(* ===== verification/CString.v ===== *)
(** * C strings and memory blocks (kernel/libs/libc.c)

    A C string value is the list of its bytes before the terminating NUL; a buffer is
    the list of all its bytes.  [cstr] reads the string a buffer holds. *)
From S2P Require Import Prelude.
From Stdlib Require Import Ascii.

(** A character and a string literal. *)
Definition ch (a : ascii) : Z := Z.of_nat (nat_of_ascii a).
Definition str (s : string) : list Z := ch <$> String.list_ascii_of_string s.

(** The bytes of a C string: none of them is NUL. *)
Definition cchar (b : Z) : Prop := 0 < b < 256.
Definition cstr_ok (s : list Z) : Prop := Forall cchar s.
Global Instance cchar_dec b : Decision (cchar b) := _.
Global Instance cstr_ok_dec s : Decision (cstr_ok s) := _.

Fixpoint cstr (b : list Z) : list Z :=
  match b with
  | [] => []
  | c :: b => if c =? 0 then [] else c :: cstr b
  end.

Definition strlen (s : list Z) : Z := zlen s.

Fixpoint strcmp (a b : list Z) : Z :=
  match a, b with
  | [], [] => 0
  | [], y :: _ => 0 - y
  | x :: _, [] => x - 0
  | x :: a', y :: b' => if x =? y then strcmp a' b' else x - y
  end.

Fixpoint strncmp_loop (n : nat) (a b : list Z) : Z :=
  match n with
  | O => 0
  | S n =>
      match a, b with
      | [], [] => 0
      | [], y :: _ => 0 - y
      | x :: _, [] => x - 0
      | x :: a', y :: b' => if x =? y then strncmp_loop n a' b' else x - y
      end
  end.
Definition strncmp (a b : list Z) (n : Z) : Z := strncmp_loop (Z.to_nat n) a b.

(** [strchr s c] is the suffix of [s] at the first [c], or [None]. *)
Fixpoint strchr (s : list Z) (c : Z) : option (list Z) :=
  match s with
  | [] => None
  | x :: s' => if x =? c then Some s else strchr s' c
  end.

(** [memcpy dst d src s n] copies [src[s..s+n)] over [dst[d..d+n)]; the regions lie
    in different objects. *)
Definition memcpy (dst : list Z) (d : Z) (src : list Z) (s n : Z) : res (list Z) :=
  if (0 <=? d) && (0 <=? s) && (0 <=? n) && (d + n <=? zlen dst) && (s + n <=? zlen src)
  then Ret (take (Z.to_nat d) dst ++ take (Z.to_nat n) (drop (Z.to_nat s) src)
            ++ drop (Z.to_nat (d + n)) dst)
  else UB.

Definition memset (dst : list Z) (d c n : Z) : res (list Z) :=
  if (0 <=? d) && (0 <=? n) && (d + n <=? zlen dst)
  then Ret (take (Z.to_nat d) dst ++ replicate (Z.to_nat n) (u8 c) ++ drop (Z.to_nat (d + n)) dst)
  else UB.

(** ** Lemmas *)

Lemma cstr_ok_str_bound a : 0 ≤ ch a < 256.
Proof. unfold ch. pose proof (nat_ascii_bounded a). lia. Qed.

Lemma cstr_ok_nil : cstr_ok [].
Proof. constructor. Qed.
Lemma cstr_ok_cons c s : cchar c → cstr_ok s → cstr_ok (c :: s).
Proof. by constructor. Qed.
Lemma cstr_ok_app s t : cstr_ok s → cstr_ok t → cstr_ok (s ++ t).
Proof. intros. by apply Forall_app. Qed.
Lemma cstr_ok_take n s : cstr_ok s → cstr_ok (take n s).
Proof. apply Forall_take. Qed.
Lemma cstr_ok_drop n s : cstr_ok s → cstr_ok (drop n s).
Proof. apply Forall_drop. Qed.
#[export] Hint Resolve cstr_ok_nil cstr_ok_cons cstr_ok_app cstr_ok_take cstr_ok_drop : hana.

Lemma cstr_cstr_ok b : Forall is_byte b → cstr_ok (cstr b).
Proof.
  induction 1 as [|c b Hc _ IH]; simpl; [constructor|].
  destruct (Z.eqb_spec c 0); constructor; [|done]. unfold is_byte, cchar in *. lia.
Qed.

(** The string stored before a NUL is read back. *)
Lemma cstr_app_nul s t : cstr_ok s → cstr (s ++ 0 :: t) = s.
Proof.
  induction 1 as [|c s Hc _ IH]; simpl; [done|].
  unfold cchar in Hc. destruct (Z.eqb_spec c 0); [lia|]. by rewrite IH.
Qed.

Lemma cstr_id s : cstr_ok s → cstr s = s.
Proof.
  induction 1 as [|c s Hc _ IH]; simpl; [done|].
  unfold cchar in Hc. destruct (Z.eqb_spec c 0); [lia|]. by rewrite IH.
Qed.

Lemma strcmp_0 a b : cstr_ok a → cstr_ok b → strcmp a b = 0 ↔ a = b.
Proof.
  intros Ha. revert b. induction Ha as [|x a Hx _ IH]; intros [|y b] Hb; simpl; try done;
    try (inversion_clear Hb as [|? ? Hy Hb']); unfold cchar in *.
  - split; [lia|done].
  - split; [lia|done].
  - destruct (Z.eqb_spec x y) as [->|Hne].
    + rewrite (IH b Hb'). split; [by intros ->|congruence].
    + split; [lia|congruence].
Qed.

Lemma strcmp_eqb a b :
  cstr_ok a → cstr_ok b → (strcmp a b =? 0) = bool_decide (a = b).
Proof.
  intros Ha Hb. case_bool_decide as Hab; [by apply Z.eqb_eq, strcmp_0|].
  apply Z.eqb_neq. by rewrite strcmp_0.
Qed.

Lemma strcmp_refl a : strcmp a a = 0.
Proof. induction a as [|x a IH]; simpl; [done|]. by rewrite Z.eqb_refl. Qed.

Lemma strncmp_loop_0 n a b :
  cstr_ok a → cstr_ok b → strncmp_loop n a b = 0 ↔ take n a = take n b.
Proof.
  intros Ha. revert n b. induction Ha as [|x a Hx _ IH]; intros [|n] [|y b] Hb; simpl; try done;
    try (inversion_clear Hb as [|? ? Hy Hb']); unfold cchar in *.
  - split; [lia|done].
  - split; [lia|done].
  - destruct (Z.eqb_spec x y) as [->|Hne].
    + rewrite (IH n b Hb'). split; [by intros ->|congruence].
    + split; [lia|congruence].
Qed.

(** [strncmp (s, p, strlen p) == 0] is the prefix test. *)
Lemma strncmp_prefix s p :
  cstr_ok s → cstr_ok p → strncmp s p (strlen p) = 0 ↔ p `prefix_of` s.
Proof.
  intros Hs Hp. unfold strncmp, strlen, zlen. rewrite Nat2Z.id, strncmp_loop_0 by done.
  rewrite (firstn_all p). split.
  - intros <-. exists (drop (length p) s). by rewrite take_drop.
  - intros [k ->]. by rewrite take_app_length.
Qed.

Lemma strncmp_eqb s p :
  cstr_ok s → cstr_ok p → (strncmp s p (strlen p) =? 0) = bool_decide (p `prefix_of` s).
Proof.
  intros Hs Hp. case_bool_decide as Hb; [by apply Z.eqb_eq, strncmp_prefix|].
  apply Z.eqb_neq. by rewrite strncmp_prefix.
Qed.

Lemma strchr_None s c : strchr s c = None ↔ c ∉ s.
Proof.
  induction s as [|x s IH]; simpl.
  - split; [intros _; apply not_elem_of_nil|done].
  - destruct (Z.eqb_spec x c) as [->|Hne].
    + split; [done|]. intros H. destruct H. constructor.
    + rewrite IH, not_elem_of_cons. naive_solver.
Qed.

Lemma strchr_Some s c t :
  strchr s c = Some t → ∃ p, s = p ++ t ∧ c ∉ p ∧ ∃ r, t = c :: r.
Proof.
  induction s as [|x s IH]; simpl; [done|].
  destruct (Z.eqb_spec x c) as [->|Hne].
  - intros [= <-]. exists []. split_and!; [done|apply not_elem_of_nil|eauto].
  - intros (p & -> & Hp & Hr)%IH. exists (x :: p). split_and!; [done| |done].
    apply not_elem_of_cons. split; [congruence|done].
Qed.

Lemma memcpy_Ret dst d src s n :
  0 ≤ d → 0 ≤ s → 0 ≤ n → d + n ≤ zlen dst → s + n ≤ zlen src →
  memcpy dst d src s n =
    Ret (take (Z.to_nat d) dst ++ take (Z.to_nat n) (drop (Z.to_nat s) src)
         ++ drop (Z.to_nat (d + n)) dst).
Proof.
  intros. unfold memcpy. rewrite !(proj2 (Z.leb_le _ _)) by done. done.
Qed.

Lemma memcpy_length dst d src s n dst' :
  memcpy dst d src s n = Ret dst' → zlen dst' = zlen dst.
Proof.
  unfold memcpy. destruct (_ && _) eqn:E; [|done]. bool_to_prop. intros [= <-].
  unfold zlen in *. rewrite !length_app, !length_take, !length_drop. lia.
Qed.

Lemma memset_length dst d c n dst' :
  memset dst d c n = Ret dst' → zlen dst' = zlen dst.
Proof.
  unfold memset. destruct (_ && _) eqn:E; [|done]. bool_to_prop. intros [= <-].
  unfold zlen in *. rewrite !length_app, length_take, length_replicate, length_drop. lia.
Qed.
