(* ===== verification/Bump.v ===== *)
(** * Page-level memory: the bump allocator, the PMA and the VMM shims

    Models [kernel/mem/bump_alloc.cpp], [kernel/mem/pma.cpp] and [kernel/mem/vmm.cpp].
    The only mutable state is the static [bump_ptr] (0 until the first allocation).
    The linker symbol [__kernel_end] and the Limine HHDM response are boot-time
    constants, gathered in [Boot].  Addresses are 64-bit: every addition wraps.
    Logging calls are not modelled: they do not change the allocator. *)
From S2P Require Import Prelude.

Record Boot := {
  kernel_end : Z;          (* &__kernel_end *)
  hhdm : option Z;         (* limine_hhdm_request.response->offset, if any *)
}.

(** [align_up] of bump_alloc.cpp (and, with the same body, of heap.cpp). *)
Definition align_up (v a : Z) : Z :=
  let mask := u64 (a - 1) in
  Z.land (u64 (v + mask)) (u64 (Z.lnot mask)).

Definition bump_start (bi : Boot) : Z :=
  let ke := kernel_end bi in
  let ke :=
    match hhdm bi with
    | Some off => if ke <? 0x100000000 then u64 (ke + off) else ke
    | None => ke
    end in
  align_up ke 0x1000.

(** Returns the allocated address and the new [bump_ptr]. *)
Definition bump_alloc_alloc (bi : Boot) (size align : Z) (bump_ptr : Z) : Z * Z :=
  let bump_ptr := if bump_ptr =? 0 then bump_start bi else bump_ptr in
  let addr := align_up bump_ptr (if align =? 0 then 1 else align) in
  (addr, align_up (u64 (addr + size)) 0x1000).

Definition bump_alloc_used (bi : Boot) (bump_ptr : Z) : Z :=
  if bump_ptr =? 0 then 0 else u64 (bump_ptr - kernel_end bi).

Definition pma_alloc_pages (bi : Boot) (count : Z) (bump_ptr : Z) : Z * Z :=
  if count =? 0 then (0, bump_ptr)
  else bump_alloc_alloc bi (u64 (count * 0x1000)) 0x1000 bump_ptr.

Definition pma_free_pages (addr count : Z) (bump_ptr : Z) : Z := bump_ptr.

Definition vmm_map_range (phys virt size flags : Z) : Z := 0.
Definition vmm_unmap_range (virt size : Z) : Z := 0.

Global Arguments align_up : simpl never.
Global Arguments bump_alloc_alloc : simpl never.

(** ** [align_up] rounds up to a power of two *)

Lemma u64_lnot_land x k : 0 ≤ k < 64 → 0 ≤ x < 2 ^ 64 →
  Z.land x (u64 (Z.lnot (2 ^ k - 1))) = x `div` 2 ^ k * 2 ^ k.
Proof.
  intros Hk Hx. unfold u64, wrap.
  rewrite <- (Z.land_ones (Z.lnot _) 64) by lia.
  rewrite (Z.land_comm (Z.lnot _)), Z.land_assoc, Z.land_ones, Z.mod_small by lia.
  fold (Z.ldiff x (2 ^ k - 1)).
  replace (2 ^ k - 1) with (Z.ones k) by (rewrite Z.ones_equiv; lia).
  rewrite <- Z.ldiff_land, Z.ldiff_ones_r by lia.
  by rewrite Z.shiftl_mul_pow2, Z.shiftr_div_pow2 by lia.
Qed.

Lemma align_up_eq v k : 0 ≤ k < 64 → 0 ≤ v → v + 2 ^ k - 1 < 2 ^ 64 →
  align_up v (2 ^ k) = (v + 2 ^ k - 1) `div` 2 ^ k * 2 ^ k.
Proof.
  intros Hk Hv Hov. unfold align_up.
  assert (0 < 2 ^ k < 2 ^ 64) by (split; [lia|apply Z.pow_lt_mono_r; lia]).
  rewrite (u64_small (2 ^ k - 1)), (u64_small (v + _)) by lia.
  rewrite u64_lnot_land by lia. by replace (v + (2 ^ k - 1)) with (v + 2 ^ k - 1) by lia.
Qed.

(** The one fact the clients use: the result is the least multiple of [2^k] above [v]. *)
Lemma align_up_spec v k : 0 ≤ k < 64 → 0 ≤ v → v + 2 ^ k - 1 < 2 ^ 64 →
  v ≤ align_up v (2 ^ k) < v + 2 ^ k ∧ align_up v (2 ^ k) `mod` 2 ^ k = 0.
Proof.
  intros Hk Hv Hov. rewrite align_up_eq by done.
  assert (0 < 2 ^ k) by lia. split; [|by apply Z.mod_mul; lia].
  pose proof (Z.div_mod (v + 2 ^ k - 1) (2 ^ k)).
  pose proof (Z.mod_pos_bound (v + 2 ^ k - 1) (2 ^ k)). nia.
Qed.

Lemma align_up_id v k : 0 ≤ k < 64 → 0 ≤ v → v + 2 ^ k - 1 < 2 ^ 64 →
  v `mod` 2 ^ k = 0 → align_up v (2 ^ k) = v.
Proof.
  intros Hk Hv Hov Hm. destruct (align_up_spec v k) as [Hb Ha]; [done..|].
  apply Z.mod_divide in Hm as [x Hx]; [|lia]. apply Z.mod_divide in Ha as [y Hy]; [|lia].
  rewrite Hy in Hb |- *. rewrite Hx in Hb |- *. assert (x = y) by nia. by subst.
Qed.

Lemma align_up_page v : 0 ≤ v → v + 4095 < 2 ^ 64 →
  v ≤ align_up v 0x1000 < v + 4096 ∧ align_up v 0x1000 `mod` 4096 = 0.
Proof. intros. apply (align_up_spec v 12); lia. Qed.

Lemma align_up_page_id v : 0 ≤ v → v + 4095 < 2 ^ 64 → v `mod` 4096 = 0 → align_up v 0x1000 = v.
Proof. intros. apply (align_up_id v 12); lia || done. Qed.

Lemma align_up_16 v : 0 ≤ v → v + 15 < 2 ^ 64 →
  v ≤ align_up v 16 < v + 16 ∧ align_up v 16 `mod` 16 = 0.
Proof. intros. apply (align_up_spec v 4); lia. Qed.

(** ** Runs of the bump allocator *)

(** The address space is not exhausted by a request. *)
Definition bump_room (size align bump_ptr : Z) : Prop :=
  bump_ptr + align + size + 2 * 4096 < 2 ^ 64.

Fixpoint bump_run (bi : Boot) (reqs : list (Z * Z)) (bump_ptr : Z) : list (Z * Z) * Z :=
  match reqs with
  | [] => ([], bump_ptr)
  | (size, align) :: reqs =>
      let '(addr, p) := bump_alloc_alloc bi size align bump_ptr in
      let '(regions, q) := bump_run bi reqs p in
      ((addr, size) :: regions, q)
  end.

(** A request is well-formed when its alignment is a power of two below [2^63]. *)
Definition bump_req (r : Z * Z) : Prop :=
  0 ≤ r.1 ∧ ∃ k, 0 ≤ k < 63 ∧ r.2 = 2 ^ k.

Lemma bump_alloc_step bi size k p addr p' :
  0 ≤ size → 0 ≤ k < 63 → 0 < p → bump_room size (2 ^ k) p →
  bump_alloc_alloc bi size (2 ^ k) p = (addr, p') →
  p ≤ addr < p + 2 ^ k ∧ addr `mod` 2 ^ k = 0 ∧
  addr + size ≤ p' < addr + size + 4096 ∧ p' `mod` 4096 = 0.
Proof.
  unfold bump_room. intros Hs Hk Hp Hroom. unfold bump_alloc_alloc.
  assert (0 < 2 ^ k) by lia.
  rewrite !(proj2 (Z.eqb_neq _ _)) by lia. intros [= <- <-].
  destruct (align_up_spec p k) as [Ha Hm]; [lia..|].
  rewrite u64_small by lia.
  destruct (align_up_page (align_up p (2 ^ k) + size)) as [Hb Hm']; [lia..|]. lia.
Qed.

(** Total space a run may consume. *)
Fixpoint bump_need (reqs : list (Z * Z)) : Z :=
  match reqs with
  | [] => 2 * 4096
  | (size, align) :: reqs => size + align + 4096 + bump_need reqs
  end.

Lemma bump_need_ge reqs : Forall bump_req reqs → 2 * 4096 ≤ bump_need reqs.
Proof.
  induction 1 as [|[s a] l [Hs [k [Hk Ha]]] _ IH]; simpl in *; [lia|]. subst. lia.
Qed.

Lemma bump_run_above bi reqs p regions q :
  Forall bump_req reqs → 0 < p → p + bump_need reqs < 2 ^ 64 →
  bump_run bi reqs p = (regions, q) →
  p ≤ q ∧ Forall (λ r : Z * Z, p ≤ r.1 ∧ r.1 + r.2 ≤ q) regions.
Proof.
  intros Hreqs. revert p regions. induction Hreqs as [|[s a] l [Hs [k [Hk Ha]]] Hl IH];
    intros p regions Hp Hroom Hrun; cbn [bump_run bump_need fst snd] in *.
  - injection Hrun as <- <-. split; [lia|constructor].
  - subst a. pose proof (bump_need_ge l Hl). assert (0 < 2 ^ k) by lia.
    destruct (bump_alloc_alloc bi s (2 ^ k) p) as [addr p'] eqn:E.
    apply bump_alloc_step in E as (?&?&?&?); [|unfold bump_room; lia..].
    destruct (bump_run bi l p') as [rs q'] eqn:E'.
    injection Hrun as <- <-. apply IH in E' as [Hq HF]; [|lia..].
    split; [lia|]. constructor; [simpl; lia|].
    eapply Forall_impl; [exact HF|]. simpl. lia.
Qed.

(** Two regions do not overlap. *)
Definition region_disj (r1 r2 : Z * Z) : Prop := r1.1 + r1.2 ≤ r2.1 ∨ r2.1 + r2.2 ≤ r1.1.

Fixpoint all_disj (l : list (Z * Z)) : Prop :=
  match l with
  | [] => True
  | r :: l => Forall (region_disj r) l ∧ all_disj l
  end.

(** The first allocation starts at the page above the kernel image. *)
Lemma bump_run_disj bi reqs p regions q :
  Forall bump_req reqs → 0 < p → p + bump_need reqs < 2 ^ 64 →
  bump_run bi reqs p = (regions, q) → all_disj regions.
Proof.
  intros Hreqs. revert p regions. induction Hreqs as [|[s a] l [Hs [k [Hk Ha]]] Hl IH];
    intros p regions Hp Hroom Hrun; cbn [bump_run bump_need fst snd] in *.
  - injection Hrun as <- <-. done.
  - subst a. pose proof (bump_need_ge l Hl). assert (0 < 2 ^ k) by lia.
    destruct (bump_alloc_alloc bi s (2 ^ k) p) as [addr p'] eqn:E.
    apply bump_alloc_step in E as (?&?&?&?); [|unfold bump_room; lia..].
    destruct (bump_run bi l p') as [rs q'] eqn:E'.
    injection Hrun as <- <-. split.
    + apply bump_run_above in E' as [_ HF]; [|done|lia..].
      eapply Forall_impl; [exact HF|]. unfold region_disj. simpl. lia.
    + eapply IH, E'; lia.
Qed.

Lemma bump_run_first bi reqs : 0 < bump_start bi → reqs ≠ [] →
  bump_run bi reqs 0 = bump_run bi reqs (bump_start bi).
Proof.
  intros Hs Hne. destruct reqs as [|[s a] l]; [done|]. cbn [bump_run].
  unfold bump_alloc_alloc. simpl. by rewrite (proj2 (Z.eqb_neq (bump_start bi) 0)) by lia.
Qed.

(** Starting from the boot state, a run of requests with power-of-two alignments
    that fits in the address space hands out pairwise disjoint regions, all above the
    kernel image. *)
Theorem bump_allocations_disjoint bi reqs regions q :
  Forall bump_req reqs → 0 < bump_start bi → bump_start bi + bump_need reqs < 2 ^ 64 →
  bump_run bi reqs 0 = (regions, q) →
  all_disj regions ∧ Forall (λ r, bump_start bi ≤ r.1) regions.
Proof.
  intros Hreqs Hs Hroom Hrun. destruct (decide (reqs = [])) as [->|Hne].
  - injection Hrun as <- <-. split; [done|constructor].
  - rewrite bump_run_first in Hrun by done. split; [by eapply bump_run_disj|].
    apply bump_run_above in Hrun as [_ HF]; [|done..].
    eapply Forall_impl; [exact HF|]. simpl. lia.
Qed.

Lemma bump_allocations_disjoint_witness :
  let bi := {| kernel_end := 0x200000; hhdm := Some 0xffff800000000000 |} in
  all_disj [(0xffff800000200000, 5000); (0xffff800000202000, 16)] ∧
  Forall (λ r, bump_start bi ≤ r.1) [(0xffff800000200000, 5000); (0xffff800000202000, 16)].
Proof.
  apply (bump_allocations_disjoint {| kernel_end := 0x200000; hhdm := Some 0xffff800000000000 |}
    [(5000, 2 ^ 12); (16, 2 ^ 4)] _ 0xffff800000203000); [|done|done|done].
  repeat constructor; simpl; try lia; [exists 12|exists 4]; lia.
Defined.
