(* ===== verification/Heap.v ===== *)
(** * The kernel heap: [kernel/mem/heap.cpp]

    A first-fit allocator over a singly linked free list.  Every block, free or
    allocated, starts with a 16-byte header [FreeBlock]; [hmem] holds the headers in
    memory by address, [free_list] is the head pointer (0 for [nullptr]).  A header
    that is absorbed by coalescing stays in [hmem] as the stale memory it is.
    [bump] is the [bump_ptr] of the page allocator the heap grows from. *)
From S2P Require Import Prelude Bump.

Record FreeBlock := { fb_size : Z; fb_next : Z }.

Record Heap := {
  hmem : gmap Z FreeBlock;
  free_list : Z;
  heap_start : Z;
  heap_size : Z;
  bump : Z;
}.

Definition sizeof_static_heap : Z := 1024 * 1024.

(** [header] of [kmalloc] and [kfree]: [align_up(sizeof(FreeBlock), 16)]. *)
Definition header : Z := align_up 16 16.

Definition set_free_list (p : Z) (h : Heap) : Heap :=
  {| hmem := hmem h; free_list := p; heap_start := heap_start h;
     heap_size := heap_size h; bump := bump h |}.

Definition set_hmem (m : gmap Z FreeBlock) (h : Heap) : Heap :=
  {| hmem := m; free_list := free_list h; heap_start := heap_start h;
     heap_size := heap_size h; bump := bump h |}.

(** [blk->next = n] and [blk->size = s]: the header must be mapped. *)
Definition store_next (blk n : Z) (h : Heap) : res Heap :=
  match hmem h !! blk with
  | Some b => Ret (set_hmem (<[blk := {| fb_size := fb_size b; fb_next := n |}]> (hmem h)) h)
  | None => UB
  end.

Definition store_size (blk s : Z) (h : Heap) : res Heap :=
  match hmem h !! blk with
  | Some b => Ret (set_hmem (<[blk := {| fb_size := s; fb_next := fb_next b |}]> (hmem h)) h)
  | None => UB
  end.

(** [if (prev) prev->next = n; else free_list = n;] *)
Definition link (prev n : Z) (h : Heap) : res Heap :=
  if negb (prev =? 0) then store_next prev n h else Ret (set_free_list n h).

(** [heap_grow_pages]: the pages come from the PMA; the new block is written at their
    start and prepended to the free list. *)
Definition heap_grow_pages (bi : Boot) (pages : Z) (h : Heap) : bool * Heap :=
  if pages =? 0 then (false, h)
  else
    let '(blk, bump') := pma_alloc_pages bi pages (bump h) in
    let h := {| hmem := hmem h; free_list := free_list h; heap_start := heap_start h;
                heap_size := heap_size h; bump := bump' |} in
    if blk =? 0 then (false, h)
    else
      let grow_size := u64 (pages * 0x1000) in
      if negb (vmm_map_range blk blk grow_size 0 =? 0) then (false, h)
      else
        (true, {| hmem := <[blk := {| fb_size := grow_size; fb_next := free_list h |}]> (hmem h);
                  free_list := blk; heap_start := heap_start h;
                  heap_size := u64 (heap_size h + grow_size); bump := bump h |}).

(** [static_heap] is the address of the static array of heap.cpp. *)
Definition heap_init (static_heap size : Z) (h : Heap) : Heap :=
  if negb (heap_start h =? 0) then h
  else
    let alloc_size := align_up size 0x1000 in
    let alloc_size := if sizeof_static_heap <? alloc_size then sizeof_static_heap else alloc_size in
    {| hmem := <[static_heap := {| fb_size := alloc_size; fb_next := 0 |}]> (hmem h);
       free_list := static_heap; heap_start := static_heap;
       heap_size := alloc_size; bump := bump h |}.

(** The body run once a block [cur] is large enough: split it or use all of it. *)
Definition take_block (total prev cur : Z) (b : FreeBlock) (h : Heap) : res (Z * Heap) :=
  let! h :=
    (if u64 (total + u64 (header + 16)) <=? fb_size b then
      let next := u64 (cur + total) in
      let h := set_hmem (<[next := {| fb_size := u64 (fb_size b - total);
                                      fb_next := fb_next b |}]> (hmem h)) h in
      let! h := store_size cur total h in
      link prev next h
    else link prev (fb_next b) h) in
  Ret (u64 (cur + header), h).

(** The [while (cur)] search of [kmalloc]; [None] when the list is exhausted. *)
Fixpoint kmalloc_search (fuel : nat) (total prev cur : Z) (h : Heap) : res (option Z * Heap) :=
  match fuel with
  | O => Diverges
  | S fuel =>
      if cur =? 0 then Ret (None, h)
      else
        let! b := of_opt (hmem h !! cur) in
        if total <=? fb_size b then
          let! r := take_block total prev cur b h in Ret (Some r.1, r.2)
        else kmalloc_search fuel total cur (fb_next b) h
  end.

(** Enough fuel for one pass over the free list: every node is a mapped header. *)
Definition list_fuel (h : Heap) : nat := S (size (hmem h)).

Definition kmalloc (bi : Boot) (sz : Z) (h : Heap) : res (Z * Heap) :=
  if free_list h =? 0 then Ret (0, h)
  else if sz =? 0 then Ret (0, h)
  else
    let payload := align_up sz 16 in
    let total := u64 (payload + header) in
    let! r := kmalloc_search (list_fuel h) total 0 (free_list h) h in
    match r with
    | (Some p, h) => Ret (p, h)
    | (None, h) =>
        let pages_needed := align_up total 0x1000 `div` 0x1000 in
        let pages_needed := if pages_needed =? 0 then 1 else pages_needed in
        let grow_pages := if pages_needed <? 4 then 4 else pages_needed in
        let '(grew, h) := heap_grow_pages bi grow_pages h in
        if negb grew then Ret (0, h)
        else
          let! r := kmalloc_search (list_fuel h) total 0 (free_list h) h in
          match r with
          | (Some p, h) => Ret (p, h)
          | (None, h) => Ret (0, h)
          end
    end.

(** The [while (cur && cur < blk)] walk of [kfree]. *)
Fixpoint kfree_walk (fuel : nat) (blk prev cur : Z) (h : Heap) : res (Z * Z) :=
  match fuel with
  | O => Diverges
  | S fuel =>
      if negb (cur =? 0) && (cur <? blk) then
        let! b := of_opt (hmem h !! cur) in
        kfree_walk fuel blk cur (fb_next b) h
      else Ret (prev, cur)
  end.

(** Second half of [kfree]: try coalescing [blk] with the following node [cur]. *)
Definition kfree_next (blk cur : Z) (h : Heap) : res Heap :=
  if negb (cur =? 0) then
    let! bb := of_opt (hmem h !! blk) in
    if u64 (blk + fb_size bb) =? cur then
      let! cb := of_opt (hmem h !! cur) in
      let! h := store_size blk (u64 (fb_size bb + fb_size cb)) h in
      store_next blk (fb_next cb) h
    else store_next blk cur h
  else store_next blk 0 h.

(** First half: try coalescing with [prev]; returns the block that now holds [blk]. *)
Definition kfree_prev (blk prev : Z) (h : Heap) : res (Z * Heap) :=
  if negb (prev =? 0) then
    let! pb := of_opt (hmem h !! prev) in
    if u64 (prev + fb_size pb) =? blk then
      let! bb := of_opt (hmem h !! blk) in
      let! h := store_size prev (u64 (fb_size pb + fb_size bb)) h in
      Ret (prev, h)
    else
      let! h := store_next prev blk h in Ret (blk, h)
  else Ret (blk, set_free_list blk h).

Definition kfree (ptr : Z) (h : Heap) : res Heap :=
  if ptr =? 0 then Ret h
  else
    let blk := u64 (ptr - header) in
    let! w := kfree_walk (list_fuel h) blk 0 (free_list h) h in
    let! r := kfree_prev blk w.1 h in
    kfree_next r.1 w.2 r.2.
