(* ===== verification/HeapInv.v ===== *)
(** * The heap invariant and the abstract allocator

    [first_fit] and [free_insert] are the allocator on the abstract free list, a list
    of (address, size) blocks.  [heap_inv h free live] ties them to the memory of
    [Heap.v]: the headers form a chain that spells [free], the blocks of [free] and
    [live] are aligned, large enough, pairwise disjoint, below the page allocator's
    frontier, and account for every byte of [heap_size]. *)
From S2P Require Import Prelude Bump Heap.

Abbreviation block := (Z * Z)%type.

(** ** The abstract allocator *)

Fixpoint first_fit (total : Z) (free : list block) : option (block * list block) :=
  match free with
  | [] => None
  | (a, s) :: l =>
      if total <=? s then
        if total + 32 <=? s then Some ((a, total), (a + total, s - total) :: l)
        else Some ((a, s), l)
      else
        match first_fit total l with
        | Some (b, l') => Some (b, (a, s) :: l')
        | None => None
        end
  end.

Definition join_next (b : block) (l : list block) : list block :=
  match l with
  | (c, t) :: l' => if b.1 + b.2 =? c then (b.1, b.2 + t) :: l' else b :: l
  | [] => [b]
  end.

Definition join_prev (p b : block) (l : list block) : list block :=
  if p.1 + p.2 =? b.1 then join_next (p.1, p.2 + b.2) l else p :: join_next b l.

Fixpoint free_insert (b : block) (free : list block) : list block :=
  match free with
  | [] => [b]
  | (a, s) :: l =>
      if a <? b.1 then
        match l with
        | (c, _) :: _ => if c <? b.1 then (a, s) :: free_insert b l else join_prev (a, s) b l
        | [] => join_prev (a, s) b l
        end
      else join_next b ((a, s) :: l)
  end.

(** ** Blocks *)

Definition ok_block (b : block) : Prop :=
  0 < b.1 ∧ b.1 `mod` 16 = 0 ∧ b.2 `mod` 16 = 0 ∧ 32 ≤ b.2 ∧ b.1 + b.2 < 2 ^ 64.

Definition total_size (l : list block) : Z := foldr (λ b n, b.2 + n) 0 l.

Lemma total_size_app l k : total_size (l ++ k) = total_size l + total_size k.
Proof. unfold total_size. induction l as [|b l IH]; simpl; lia. Qed.

Lemma total_size_perm l k : l ≡ₚ k → total_size l = total_size k.
Proof. unfold total_size. induction 1; simpl; lia. Qed.

Lemma region_disj_sym b c : region_disj b c → region_disj c b.
Proof. unfold region_disj. lia. Qed.

Lemma all_disj_perm l k : l ≡ₚ k → all_disj l → all_disj k.
Proof.
  induction 1 as [|x l l' Hp IH|x y l|]; simpl; [done| | |naive_solver].
  - intros [Hx Hl]. split; [by rewrite <- Hp|auto].
  - intros [Hy [Hx Hl]]. inversion Hy; subst. repeat split; auto.
    constructor; [by apply region_disj_sym|done].
Qed.

Lemma all_disj_app_r l k : all_disj (l ++ k) → all_disj k.
Proof. induction l; simpl; naive_solver. Qed.

Lemma all_disj_app_l l k : all_disj (l ++ k) → all_disj l.
Proof.
  induction l as [|x l IH]; simpl; [done|]. intros [Hx Hl]. apply Forall_app in Hx. naive_solver.
Qed.

Lemma all_disj_NoDup l : Forall ok_block l → all_disj l → NoDup (l.*1).
Proof.
  induction 1 as [|b l Hb Hl IH]; simpl; [constructor|]. intros [Hd Hdl].
  constructor; [|auto]. rewrite list_elem_of_fmap. intros (c & E & Hc).
  rewrite Forall_forall in Hd, Hl. specialize (Hd c Hc). specialize (Hl c Hc).
  unfold region_disj in Hd. unfold ok_block in *. lia.
Qed.

(** Two adjacent blocks may be replaced by their union. *)
Lemma all_disj_merge a s t l :
  Forall ok_block l → all_disj ((a, s) :: (a + s, t) :: l) → all_disj ((a, s + t) :: l).
Proof.
  intros Hok [H1 [H2 Hl]]. apply Forall_cons in H1 as [_ H1]. split; [|done].
  apply Forall_forall. intros c Hc. rewrite Forall_forall in H1, H2, Hok.
  specialize (H1 c Hc). specialize (H2 c Hc). specialize (Hok c Hc).
  unfold region_disj, ok_block in *. simpl in *. lia.
Qed.

(** A block may be split in two. *)
Lemma all_disj_split a s t l : 0 < s → 0 < t →
  all_disj ((a, s + t) :: l) → all_disj ((a, s) :: (a + s, t) :: l).
Proof.
  intros Hs Ht [H Hl]. simpl. repeat split; [|..|done].
  - constructor; [unfold region_disj; simpl; lia|].
    eapply Forall_impl; [exact H|]. unfold region_disj. simpl. lia.
  - eapply Forall_impl; [exact H|]. unfold region_disj. simpl. lia.
Qed.

(** Good heaps of blocks, as a multiset: the part of the invariant that does not
    depend on the order of the blocks. *)
Definition good (top : Z) (l : list block) : Prop :=
  Forall ok_block l ∧ all_disj l ∧ Forall (λ b, b.1 + b.2 ≤ top) l.

Lemma good_perm top l k : l ≡ₚ k → good top l → good top k.
Proof.
  intros Hp (H1 & H2 & H3). split; [by rewrite <- Hp|]. split; [|by rewrite <- Hp].
  by eapply all_disj_perm.
Qed.

Global Instance good_proper top : Proper ((≡ₚ) ==> iff) (good top).
Proof. intros l k Hp. split; apply good_perm; [done|by symmetry]. Qed.

Lemma good_merge top a s t l : good top ((a, s) :: (a + s, t) :: l) → good top ((a, s + t) :: l).
Proof.
  intros (H1 & H2 & H3). rewrite !Forall_cons in H1, H3.
  destruct H1 as (Hb & Hc & H1), H3 as (? & ? & H3). split.
  - constructor; [|done]. unfold ok_block in *. simpl in *.
    repeat split; try lia. rewrite Z.add_mod by lia. destruct Hb as (?&?&->&?), Hc as (?&?&->&?). done.
  - split; [by apply all_disj_merge|]. constructor; [simpl in *; lia|done].
Qed.

Lemma mod16_sub a b : a `mod` 16 = 0 → b `mod` 16 = 0 → (a - b) `mod` 16 = 0.
Proof. intros. rewrite Zminus_mod. by rewrite H, H0. Qed.
Lemma mod16_add a b : a `mod` 16 = 0 → b `mod` 16 = 0 → (a + b) `mod` 16 = 0.
Proof. intros. rewrite Zplus_mod. by rewrite H, H0. Qed.

Lemma good_split top a s n l : 32 ≤ n → n + 32 ≤ s → n `mod` 16 = 0 →
  good top ((a, s) :: l) → good top ((a, n) :: (a + n, s - n) :: l).
Proof.
  intros Hn Hs Hm (H1 & H2 & H3). rewrite !Forall_cons in H1, H3.
  destruct H1 as (Hb & H1), H3 as (? & H3). unfold ok_block in Hb. simpl in *.
  destruct Hb as (?&?&?&?&?). split.
  - repeat constructor; simpl; try lia; try done; [by apply mod16_add|by apply mod16_sub].
  - split.
    + apply all_disj_split; [lia..|]. by replace (n + (s - n)) with s by lia.
    + repeat constructor; simpl; try lia; done.
Qed.

(** ** The abstract operations keep blocks good and lose no byte *)

Lemma first_fit_good top total free b free' live :
  32 ≤ total → total `mod` 16 = 0 → first_fit total free = Some (b, free') →
  good top (free ++ live) →
  good top (free' ++ b :: live) ∧ total ≤ b.2 ∧
  total_size free = b.2 + total_size free'.
Proof.
  intros Ht Hm. revert free' live. induction free as [|[a s] l IH]; intros free' live E Hg; [done|].
  cbn [first_fit] in E. repeat case_test.
  - injection E as <- <-. simpl. split; [|unfold total_size; simpl; lia].
    rewrite <- Permutation_middle, Permutation_swap. by apply good_split.
  - injection E as <- <-. simpl. split; [|unfold total_size; simpl; lia].
    by rewrite <- Permutation_middle.
  - destruct (first_fit total l) as [[b' l']|]; [|done]. injection E as <- <-.
    destruct (IH l' ((a, s) :: live)) as (H1 & H2 & H3); [done| |].
    { by rewrite <- Permutation_middle. }
    simpl. split; [|unfold total_size in *; simpl in *; lia].
    rewrite (Permutation_swap (a, s) b' live), <- Permutation_middle in H1. done.
Qed.

Lemma first_fit_none total free : first_fit total free = None → Forall (λ b, b.2 < total) free.
Proof.
  induction free as [|[a s] l IH]; [constructor|]. cbn [first_fit]. repeat case_test; try done.
  destruct (first_fit total l) as [[? ?]|]; [done|]. intros _. constructor; [done|auto].
Qed.

Lemma join_next_good top b l live :
  good top (b :: l ++ live) → good top (join_next b l ++ live).
Proof.
  destruct b as [a s], l as [|[c t] l]; simpl; [done|]. destruct (Z.eqb_spec (a + s) c) as [<-|]; [|done].
  intros Hg. simpl. by apply good_merge.
Qed.

Lemma join_next_size b l : total_size (join_next b l) = b.2 + total_size l.
Proof.
  destruct b as [a s], l as [|[c t] l]; simpl; [done|]. destruct (a + s =? c); unfold total_size; simpl; lia.
Qed.

Lemma join_prev_good top p b l live :
  good top (b :: p :: l ++ live) → good top (join_prev p b l ++ live).
Proof.
  destruct p as [a s], b as [c t]. unfold join_prev. simpl.
  destruct (Z.eqb_spec (a + s) c) as [<-|]; intros Hg.
  - apply join_next_good, good_merge. by rewrite Permutation_swap.
  - simpl. rewrite Permutation_middle.
    apply join_next_good. by rewrite <- Permutation_middle.
Qed.

Lemma join_prev_size p b l : total_size (join_prev p b l) = p.2 + b.2 + total_size l.
Proof.
  unfold join_prev. destruct (_ =? _); [rewrite join_next_size; simpl; lia|].
  simpl. unfold total_size at 1. simpl. fold (total_size (join_next b l)).
  rewrite join_next_size. lia.
Qed.

Lemma free_insert_good top b free live :
  good top (b :: free ++ live) → good top (free_insert b free ++ live).
Proof.
  revert live. induction free as [|[a s] l IH]; intros live Hg; [done|]. cbn [free_insert].
  destruct (a <? b.1); [|by apply join_next_good].
  assert (Hg' : good top (free_insert b l ++ (a, s) :: live)).
  { apply IH. by rewrite <- Permutation_middle. }
  rewrite <- Permutation_middle in Hg'.
  destruct l as [|[c t] l]; [by apply join_prev_good|]. destruct (c <? b.1); [done|].
  by apply join_prev_good.
Qed.

Lemma free_insert_size b free : total_size (free_insert b free) = b.2 + total_size free.
Proof.
  induction free as [|[a s] l IH]; [unfold total_size; simpl; lia|]. cbn [free_insert].
  destruct (a <? b.1).
  - destruct l as [|[c t] l]; [rewrite join_prev_size; unfold total_size; simpl; lia|].
    destruct (c <? b.1).
    + unfold total_size in *. cbn [foldr]. fold (total_size (free_insert b ((c, t) :: l))) in *.
      unfold total_size in *. cbn [foldr snd] in *. lia.
    + rewrite join_prev_size. unfold total_size. simpl. lia.
  - rewrite join_next_size. done.
Qed.

(** A free list that is sorted with a gap between neighbours: nothing left to coalesce. *)
Fixpoint coalesced (l : list block) : Prop :=
  match l with
  | [] => True
  | b :: l' => match l' with [] => True | c :: _ => b.1 + b.2 < c.1 end ∧ coalesced l'
  end.

Lemma first_fit_coalesced total free b free' :
  0 < total → first_fit total free = Some (b, free') → coalesced free →
  Forall (λ c, 0 ≤ c.2) free →
  coalesced free' ∧ ∀ lo, match free with c :: _ => lo < c.1 | [] => True end →
                        match free' with c :: _ => lo < c.1 | [] => True end.
Proof.
  intros Ht. revert free'. induction free as [|[a s] l IH]; intros free' E Hc Hp; [done|].
  destruct Hc as [Hn Hl]. inversion Hp as [|? ? Hs Hpl]; subst. cbn [first_fit] in E. simpl in Hs. repeat case_test.
  - injection E as <- <-. simpl in *. destruct l as [|[c t] l]; simpl in *; destruct_and?;
      repeat split; intros; try done; lia.
  - injection E as <- <-. destruct l as [|[c t] l]; simpl in *; destruct_and?; repeat split; intros; try done; lia.
  - destruct (first_fit total l) as [[b' l']|] eqn:El; [|done]. injection E as <- <-.
    destruct (IH l') as [Hl' Hlo]; [done..|]. split; [|done]. simpl. split; [|done].
    specialize (Hlo (a + s)). destruct l as [|[c t] l]; [done|]. destruct l'; auto.
Qed.

Lemma join_next_coalesced a s l :
  coalesced l → 0 ≤ s → Forall (λ c, 0 ≤ c.2) l →
  match l with [] => True | c :: _ => a + s ≤ c.1 end →
  coalesced (join_next (a, s) l) ∧ ∀ lo, lo < a → match join_next (a, s) l with c :: _ => lo < c.1 | [] => True end.
Proof.
  destruct l as [|[c t] l]; simpl; [done|]. intros [Hn Hl] Hs Hp Hle.
  destruct (Z.eqb_spec (a + s) c) as [<-|]; simpl; [|repeat split; try done; lia].
  repeat split; try done. destruct l as [|d l]; [done|]. simpl in *. lia.
Qed.

Lemma free_insert_coalesced b free :
  0 ≤ b.2 → Forall (λ c, 0 ≤ c.2) free → coalesced free → Forall (region_disj b) free →
  Forall (λ c, 0 < c.2) free → 0 < b.2 →
  coalesced (free_insert b free) ∧
  ∀ lo, lo < b.1 → match free with c :: _ => lo < c.1 | [] => True end →
        match free_insert b free with c :: _ => lo < c.1 | [] => True end.
Proof.
  destruct b as [x n]. intros Hb0 Hnn. induction Hnn as [|[a s] l Hs Hnn IH];
    intros Hc Hd Hpos Hn; [done|].
  inversion Hd as [|? ? Hda Hdl]; subst. inversion Hpos as [|? ? Hsp Hposl]; subst.
  destruct Hc as [Hgap Hl]. unfold region_disj in Hda. simpl in *.
  destruct (Z.ltb_spec a x) as [Hax|Hax].
  - assert (Hhere : (∀ c t l', l = (c, t) :: l' → x ≤ c) →
      coalesced (join_prev (a, s) (x, n) l) ∧
      ∀ lo, lo < a → match join_prev (a, s) (x, n) l with c :: _ => lo < c.1 | [] => True end).
    { intros Hge. unfold join_prev. simpl.
      assert (Hle : match l with [] => True | c :: _ => x + n ≤ c.1 end).
      { destruct l as [|[c t] l']; [done|]. inversion Hdl as [|? ? Hc' _]; subst.
        inversion Hposl; subst. specialize (Hge c t l' eq_refl).
        unfold region_disj in Hc'. simpl in *. lia. }
      destruct (Z.eqb_spec (a + s) x) as [<-|Hne].
      - apply join_next_coalesced; [done|lia|done|].
        destruct l as [|[c t] l']; [done|]. simpl in *. lia.
      - destruct (join_next_coalesced x n l) as [Hj1 Hj2]; [done..|].
        split; [|done]. split; [|done]. specialize (Hj2 (a + s)).
        destruct (join_next (x, n) l); [done|]. apply Hj2. lia. }
    destruct l as [|[c t] l'].
    + split; [by apply Hhere|]. intros lo ??. by apply Hhere.
    + destruct (Z.ltb_spec c x) as [Hcx|Hcx].
      * destruct IH as [IH1 IH2]; [done..|]. split; [|done]. split; [|done].
        specialize (IH2 (a + s)). destruct (free_insert (x, n) ((c, t) :: l')); [done|].
        apply IH2; simpl in *; lia.
      * split; [apply Hhere; intros ??? [= <- <- <-]; lia|].
        intros lo ??. apply Hhere; [intros ??? [= <- <- <-]; lia|done].
  - destruct (join_next_coalesced x n ((a, s) :: l)) as [Hj1 Hj2]; [done|done|by constructor| |].
    { simpl. lia. }
    split; [done|]. intros lo Hlo _. by apply Hj2.
Qed.

Lemma coalesced_above a s l :
  coalesced ((a, s) :: l) → Forall (λ c, 0 ≤ c.2) l → Forall (λ c, a + s < c.1) l.
Proof.
  revert a s. induction l as [|[c t] l IH]; intros a s [Hn Hl] Hp; [constructor|].
  inversion Hp as [|? ? Ht Hpl]; subst. constructor; [done|]. simpl in *.
  eapply Forall_impl; [apply (IH c t); done|]. simpl. lia.
Qed.

Lemma first_fit_elem total free b free' : first_fit total free = Some (b, free') → b.1 ∈ free.*1.
Proof.
  revert free'. induction free as [|[a s] l IH]; intros free' E; [done|]. cbn [first_fit] in E.
  repeat case_test; [injection E as <- <-; by left..|].
  destruct (first_fit total l) as [[b' l']|]; [|done]. injection E as <- <-. right. by eapply IH.
Qed.

(** Returning the block that [first_fit] handed out restores a coalesced free list. *)
Lemma first_fit_insert total free b free' :
  0 < total → coalesced free → Forall (λ c, 0 < c.2) free →
  first_fit total free = Some (b, free') → free_insert b free' = free.
Proof.
  intros Ht. revert free'. induction free as [|[a s] l IH]; intros free' Hc Hp E; [done|].
  inversion Hp as [|? ? Hs Hpl]; subst. simpl in Hs.
  assert (Hab : Forall (λ c, a + s < c.1) l).
  { apply coalesced_above; [done|]. eapply Forall_impl; [exact Hpl|]. simpl. lia. }
  destruct Hc as [Hn Hl]. cbn [first_fit] in E. repeat case_test.
  - injection E as <- <-. cbn [free_insert fst]. rewrite (proj2 (Z.ltb_ge _ _)) by lia.
    unfold join_next. cbn [fst snd]. rewrite Z.eqb_refl. by replace (total + (s - total)) with s by lia.
  - injection E as <- <-. destruct l as [|[c t] l]; [done|]. cbn [free_insert fst]. simpl in Hn.
    rewrite (proj2 (Z.ltb_ge _ _)) by lia. unfold join_next. cbn [fst snd].
    by rewrite (proj2 (Z.eqb_neq _ _)) by lia.
  - destruct (first_fit total l) as [[b' l']|] eqn:El; [|done]. injection E as <- <-.
    assert (Hb : a + s < b'.1).
    { apply first_fit_elem in El. apply list_elem_of_fmap in El as (c & -> & Hc).
      rewrite Forall_forall in Hab. by apply Hab. }
    specialize (IH l' Hl Hpl eq_refl). cbn [free_insert].
    rewrite (proj2 (Z.ltb_lt a b'.1)) by lia.
    assert (Hj : ∀ k, join_prev (a, s) b' k = (a, s) :: join_next b' k).
    { intros k. unfold join_prev. cbn [fst snd]. by rewrite (proj2 (Z.eqb_neq _ _)) by lia. }
    rewrite <- IH. destruct l' as [|[c t] l']; [by rewrite Hj|]. cbn [free_insert].
    destruct (Z.ltb_spec c b'.1); [done|]. by rewrite Hj.
Qed.
