(* ===== verification/HeapRefine.v ===== *)
(** * The heap in memory refines the abstract allocator *)
From S2P Require Import Prelude Bump Heap HeapInv.

(** ** The free list as a chain of headers *)

Fixpoint lseg (m : gmap Z FreeBlock) (p : Z) (l : list block) (q : Z) : Prop :=
  match l with
  | [] => p = q
  | (a, s) :: l =>
      p = a ∧ a ≠ 0 ∧ ∃ n, m !! a = Some {| fb_size := s; fb_next := n |} ∧ lseg m n l q
  end.

Lemma lseg_app m p l k q : lseg m p (l ++ k) q ↔ ∃ r, lseg m p l r ∧ lseg m r k q.
Proof.
  revert p. induction l as [|[a s] l IH]; intros p; simpl; [naive_solver|].
  split.
  - intros (-> & Ha & n & Hn & Hl). apply IH in Hl as (r & Hr & Hk). naive_solver.
  - intros (r & (-> & Ha & n & Hn & Hl) & Hk). repeat split; [done|]. exists n. split; [done|].
    apply IH. eauto.
Qed.

Lemma lseg_frame m p l q a b : a ∉ l.*1 → lseg m p l q → lseg (<[a := b]> m) p l q.
Proof.
  revert p. induction l as [|[c s] l IH]; intros p Ha; simpl; [done|].
  intros (-> & Hc & n & Hn & Hl). simpl in Ha. apply not_elem_of_cons in Ha as [? ?].
  repeat split; [done|]. exists n. rewrite lookup_insert_ne by done. auto.
Qed.

Lemma lseg_agree m m' p l q :
  (∀ x, x ∈ l.*1 → m' !! x = m !! x) → lseg m p l q → lseg m' p l q.
Proof.
  revert p. induction l as [|[c t] l IH]; intros p Hm Hl; [done|]. simpl in Hm.
  destruct Hl as (-> & Hc & n & Hn & Hl). repeat split; [done|]. exists n.
  rewrite Hm by set_solver. split; [done|]. apply IH; [|done]. set_solver.
Qed.

Lemma lseg_lookup m p l q a s : lseg m p l q → (a, s) ∈ l →
  ∃ n, m !! a = Some {| fb_size := s; fb_next := n |}.
Proof.
  revert p. induction l as [|[c t] l IH]; intros p Hl Hin; [by apply elem_of_nil in Hin|].
  destruct Hl as (-> & _ & n & Hn & Hl). apply elem_of_cons in Hin as [[= -> ->]|Hin]; eauto.
Qed.

(** Every node is a mapped header: the list is no longer than the map. *)
Lemma lseg_length m p l q : NoDup (l.*1) → lseg m p l q → (length l ≤ size m)%nat.
Proof.
  intros Hnd Hl.
  assert (Hsub : list_to_set (l.*1) ⊆@{gset Z} dom m).
  { intros a Ha. rewrite elem_of_list_to_set in Ha. apply list_elem_of_fmap in Ha as ([b s] & -> & Hin).
    destruct (lseg_lookup _ _ _ _ _ _ Hl Hin) as [n Hn]. simpl. by apply elem_of_dom_2 in Hn. }
  apply subseteq_size in Hsub. rewrite size_list_to_set, size_dom, length_fmap in Hsub; done.
Qed.

(** ** The invariant *)

Definition bump_base (bi : Boot) (h : Heap) : Z :=
  if bump h =? 0 then bump_start bi else bump h.

Definition live_ok (h : Heap) (live : list block) : Prop :=
  Forall (λ b, ∃ n, hmem h !! b.1 = Some {| fb_size := b.2; fb_next := n |}) live.

Record heap_inv (bi : Boot) (h : Heap) (free live : list block) : Prop := {
  inv_chain : lseg (hmem h) (free_list h) free 0;
  inv_live : live_ok h live;
  inv_good : good (bump_base bi h) (free ++ live);
  inv_page : 0 < bump_base bi h < 2 ^ 64 ∧ bump_base bi h `mod` 4096 = 0;
  inv_size : u64 (total_size (free ++ live)) = u64 (heap_size h);
}.

Lemma inv_NoDup bi h free live : heap_inv bi h free live → NoDup ((free ++ live).*1).
Proof. intros [_ _ (H1 & H2 & _) _ _]. by apply all_disj_NoDup. Qed.

(** The address of the last node of a segment, the [prev] of the C++ loops. *)
Definition prev_of (l : list block) : Z := default 0 (fst <$> last l).

Lemma prev_of_snoc l b : prev_of (l ++ [b]) = b.1.
Proof. unfold prev_of. by rewrite last_snoc. Qed.

(** Two heaps that differ only in the [next] fields and the head pointer. *)
Definition same_sizes (h h' : Heap) : Prop :=
  heap_start h' = heap_start h ∧ heap_size h' = heap_size h ∧ bump h' = bump h ∧
  ∀ x, fb_size <$> hmem h' !! x = fb_size <$> hmem h !! x.

Lemma link_spec h l1 c n :
  lseg (hmem h) (free_list h) l1 c → NoDup (l1.*1) →
  ∃ h', link (prev_of l1) n h = Ret h' ∧ lseg (hmem h') (free_list h') l1 n ∧
        same_sizes h h' ∧ ∀ x, x ∉ l1.*1 → hmem h' !! x = hmem h !! x.
Proof.
  destruct l1 as [|[a s] l1 _] using rev_ind; intros Hl Hnd.
  - exists (set_free_list n h). repeat split.
  - rewrite prev_of_snoc. apply lseg_app in Hl as (r & Hl1 & -> & Ha & n' & Hn' & _).
    rewrite fmap_app in Hnd. simpl in Hnd. apply NoDup_app in Hnd as (Hnd1 & Hna & _).
    assert (Hal : a ∉ l1.*1) by (intros Hin; by apply (Hna a Hin), list_elem_of_singleton).
    unfold link, store_next. simpl. rewrite (proj2 (Z.eqb_neq a 0)) by done. simpl. rewrite Hn'.
    eexists. split; [done|]. simpl. split; [|split].
    + apply lseg_app. exists a. split; [by apply lseg_frame|]. repeat split; [done|].
      exists n. by rewrite lookup_insert_eq.
    + repeat split. intros x. simpl. destruct (decide (a = x)) as [->|].
      * by rewrite lookup_insert_eq, Hn'.
      * by rewrite lookup_insert_ne.
    + intros x Hx. rewrite fmap_app in Hx. simpl in Hx.
      apply not_elem_of_app in Hx as [_ Hx]. rewrite lookup_insert_ne; [done|].
      intros <-. apply Hx. by apply list_elem_of_singleton.
Qed.

Lemma same_sizes_live h h' live : same_sizes h h' → live_ok h live → live_ok h' live.
Proof.
  intros (_ & _ & _ & Hs) Hl. eapply Forall_impl; [exact Hl|]. intros [a s] [n Hn]. simpl in *.
  specialize (Hs a). rewrite Hn in Hs. destruct (hmem h' !! a) as [[s' n']|]; simplify_eq/=. eauto.
Qed.

Lemma live_ok_agree h h' live :
  (∀ x, x ∈ live.*1 → hmem h' !! x = hmem h !! x) → live_ok h live → live_ok h' live.
Proof.
  intros Hx Hl. unfold live_ok in *. rewrite Forall_forall in Hl |- *. intros y Hy.
  destruct (Hl y Hy) as [n Hn]. exists n. rewrite Hx; [done|]. apply list_elem_of_fmap. eauto.
Qed.

(** ** [kmalloc] *)

Lemma header_16 : header = 16.
Proof. reflexivity. Qed.

Lemma first_fit_app total k a s l :
  Forall (λ b, b.2 < total) k → total ≤ s →
  first_fit total (k ++ (a, s) :: l) =
  if total + 32 <=? s then Some ((a, total), k ++ (a + total, s - total) :: l)
  else Some ((a, s), k ++ l).
Proof.
  intros Hk Hs. induction Hk as [|[c t] k Ht Hk IH]; simpl in *.
  - rewrite (proj2 (Z.leb_le total s)) by done. by destruct (_ <=? _).
  - rewrite (proj2 (Z.leb_gt total t)) by done. rewrite IH. by destruct (_ <=? _).
Qed.

Lemma kmalloc_search_spec total h l1 l2 c fuel :
  lseg (hmem h) (free_list h) l1 c → lseg (hmem h) c l2 0 → (length l2 < fuel)%nat →
  (first_fit total l2 = None ∧ kmalloc_search fuel total (prev_of l1) c h = Ret (None, h)) ∨
  ∃ k a s n l3, l2 = k ++ (a, s) :: l3 ∧ Forall (λ b, b.2 < total) k ∧ total ≤ s ∧
    hmem h !! a = Some {| fb_size := s; fb_next := n |} ∧
    lseg (hmem h) (free_list h) (l1 ++ k) a ∧ lseg (hmem h) n l3 0 ∧
    kmalloc_search fuel total (prev_of l1) c h =
      (let! r := take_block total (prev_of (l1 ++ k)) a {| fb_size := s; fb_next := n |} h in
       Ret (Some r.1, r.2)).
Proof.
  revert l1 c fuel. induction l2 as [|[a s] l2 IH]; intros l1 c fuel Hl1 Hl2 Hf.
  - simpl in Hl2. subst c. destruct fuel as [|fuel]; [simpl in Hf; lia|]. left. done.
  - destruct Hl2 as (-> & Ha & n & Hn & Hl2). destruct fuel as [|fuel]; [simpl in Hf; lia|].
    cbn [kmalloc_search]. rewrite (proj2 (Z.eqb_neq a 0)), Hn by done.
    cbn [of_opt rbind fb_size fb_next]. destruct (Z.leb_spec total s) as [Hs|Hs].
    + right. exists [], a, s, n, l2. rewrite app_nil_r. repeat split; done.
    + assert (Hl1' : lseg (hmem h) (free_list h) (l1 ++ [(a, s)]) n).
      { apply lseg_app. exists a. split; [done|]. simpl. eauto. }
      destruct (IH (l1 ++ [(a, s)]) n fuel) as [[Hff Hr]|Hr]; [done|done|simpl in Hf; lia| |];
        rewrite prev_of_snoc in Hr; simpl in Hr.
      * left. cbn [first_fit]. rewrite (proj2 (Z.leb_gt total s)), Hff by done. done.
      * right. destruct Hr as (k & b & t & n' & l3 & -> & Hk & Ht & Hb & Hlk & Hl3 & Hr).
        exists ((a, s) :: k), b, t, n', l3. rewrite <- app_assoc in Hlk, Hr. simpl in *.
        repeat split; try done. by constructor.
Qed.

Lemma bump_base_same bi h h' : bump h' = bump h → bump_base bi h' = bump_base bi h.
Proof. unfold bump_base. by intros ->. Qed.

(** Rebuilding the invariant after the free list was relinked. *)
Lemma heap_inv_intro bi h h' free live free' live' :
  heap_inv bi h free live → bump h' = bump h → heap_size h' = heap_size h →
  lseg (hmem h') (free_list h') free' 0 → live_ok h' live' →
  good (bump_base bi h) (free' ++ live') → total_size (free' ++ live') = total_size (free ++ live) →
  heap_inv bi h' free' live'.
Proof.
  intros [_ _ _ Hp Hs] Hb Hz Hc Hl Hg Ht. split; try done.
  - by rewrite (bump_base_same _ _ _ Hb).
  - by rewrite (bump_base_same _ _ _ Hb).
  - by rewrite Ht, Hz.
Qed.

Lemma take_block_whole bi h k a s n l live total :
  heap_inv bi h (k ++ (a, s) :: l) live → total ≤ s → s < total + 32 →
  32 ≤ total → total + 32 < 2 ^ 64 →
  hmem h !! a = Some {| fb_size := s; fb_next := n |} →
  lseg (hmem h) (free_list h) k a → lseg (hmem h) n l 0 →
  ∃ h', take_block total (prev_of k) a {| fb_size := s; fb_next := n |} h = Ret (a + 16, h') ∧
        heap_inv bi h' (k ++ l) ((a, s) :: live) ∧ bump h' = bump h.
Proof.
  intros Hinv Hs Hs' Ht Hov Ha Hk Hl. pose proof (inv_NoDup _ _ _ _ Hinv) as Hnd.
  pose proof (inv_good _ _ _ _ Hinv) as Hg.
  rewrite <- app_assoc, fmap_app in Hnd. simpl in Hnd. rewrite fmap_app in Hnd.
  apply NoDup_app in Hnd as (Hnd1 & Hdis & Hnd2).
  assert (Hob : ok_block (a, s)).
  { destruct Hg as (Hok & _). rewrite !Forall_app, Forall_cons in Hok. naive_solver. }
  destruct (link_spec h k a n) as (h' & Hlink & Hk' & Hsame & Hrest); [done..|].
  exists h'. unfold take_block. rewrite header_16. cbn [fb_size fb_next].
  rewrite (u64_small (16 + 16)), (u64_small (total + _)) by lia.
  rewrite (proj2 (Z.leb_gt _ _)) by lia. rewrite Hlink. cbn [rbind].
  unfold ok_block in Hob. simpl in Hob. rewrite u64_small by lia. split; [done|]. split; [|apply Hsame].
  assert (Hfr : ∀ x, x ∈ (l ++ (a,s) :: live).*1 → x ∉ k.*1).
  { intros x Hx Hk2. apply (Hdis x Hk2). rewrite fmap_app in Hx. simpl in *. set_solver. }
  eapply heap_inv_intro; [exact Hinv|apply Hsame|apply Hsame|..].
  - apply lseg_app. exists n. split; [done|]. eapply lseg_agree, Hl.
    intros x Hx. apply Hrest, Hfr. rewrite fmap_app. set_solver.
  - constructor; [simpl|by eapply same_sizes_live, (inv_live _ _ _ _ Hinv)].
    exists n. rewrite Hrest; [done|]. apply Hfr. rewrite fmap_app. set_solver.
  - eapply good_perm, Hg. rewrite <- !app_assoc. simpl. by rewrite <- !Permutation_middle.
  - apply total_size_perm. rewrite <- !app_assoc. simpl. by rewrite <- !Permutation_middle.
Qed.

Lemma take_block_split bi h k a s n l live total :
  heap_inv bi h (k ++ (a, s) :: l) live → total + 32 ≤ s → 32 ≤ total → total `mod` 16 = 0 →
  hmem h !! a = Some {| fb_size := s; fb_next := n |} →
  lseg (hmem h) (free_list h) k a → lseg (hmem h) n l 0 →
  ∃ h', take_block total (prev_of k) a {| fb_size := s; fb_next := n |} h = Ret (a + 16, h') ∧
        heap_inv bi h' (k ++ (a + total, s - total) :: l) ((a, total) :: live) ∧ bump h' = bump h.
Proof.
  intros Hinv Hs Ht Hm Ha Hk Hl.
  pose proof (inv_good _ _ _ _ Hinv) as Hg.
  assert (Hg' : good (bump_base bi h) ((k ++ (a + total, s - total) :: l) ++ (a, total) :: live)).
  { rewrite <- Permutation_middle, <- app_assoc. simpl. rewrite <- Permutation_middle.
    apply good_split; [lia|lia|done|]. rewrite <- app_assoc in Hg. simpl in Hg.
    by rewrite <- Permutation_middle in Hg. }
  assert (Hnd := Hg'). destruct Hnd as (Hok & Hdj & _).
  pose proof (all_disj_NoDup _ Hok Hdj) as Hnd. clear Hdj Hok.
  rewrite <- app_assoc, fmap_app in Hnd. simpl in Hnd. rewrite fmap_app in Hnd. simpl in Hnd.
  apply NoDup_app in Hnd as (Hnd1 & Hdis & Hnd2). apply NoDup_cons in Hnd2 as [Hx Hnd2].
  apply NoDup_app in Hnd2 as (Hnd2 & Hdis2 & Hnd3). apply NoDup_cons in Hnd3 as [Hal _].
  assert (Hob : ok_block (a, s)).
  { destruct Hg as (Hok & _). rewrite !Forall_app, Forall_cons in Hok. naive_solver. }
  unfold ok_block in Hob. simpl in Hob.
  set (h1 := set_hmem (<[a := {| fb_size := total; fb_next := n |}]>
     (<[a + total := {| fb_size := s - total; fb_next := n |}]> (hmem h))) h).
  assert (Hk1 : lseg (hmem h1) (free_list h1) k a).
  { simpl. apply lseg_frame, lseg_frame; [| |done]; intros Hin; apply (Hdis _ Hin); set_solver. }
  destruct (link_spec h1 k a (a + total)) as (h' & Hlink & Hk' & Hsame & Hrest); [done..|].
  exists h'. unfold take_block. rewrite header_16. cbn [fb_size fb_next].
  rewrite (u64_small (16 + 16)), (u64_small (total + _)) by lia.
  rewrite (proj2 (Z.leb_le _ _)) by lia.
  rewrite !(u64_small (a + _)), (u64_small (s - _)) by lia.
  unfold store_size. cbn [hmem set_hmem]. rewrite lookup_insert_ne, Ha by lia.
  cbn [rbind fb_next].
  change (set_hmem _ _) with h1. rewrite Hlink. split; [done|]. split; [|apply Hsame].
  assert (Hm' : ∀ x, x ∉ k.*1 → hmem h' !! x = hmem h1 !! x) by exact Hrest.
  eapply heap_inv_intro; [exact Hinv|apply Hsame|apply Hsame|..].
  - apply lseg_app. exists (a + total). split; [done|]. repeat split; [lia|]. exists n. split.
    + rewrite Hm'; [simpl; rewrite lookup_insert_ne, lookup_insert_eq by lia; done|].
      intros Hin. apply (Hdis _ Hin). set_solver.
    + eapply lseg_agree, Hl. intros x Hxl.
      rewrite Hm' by (intros Hin; apply (Hdis _ Hin); set_solver).
      simpl. rewrite !lookup_insert_ne; [done| |]; intros <-;
        [apply Hx; set_solver|apply (Hdis2 _ Hxl); set_solver].
  - constructor.
    + exists n. rewrite Hm'; [simpl; by rewrite lookup_insert_eq|].
      intros Hin. apply (Hdis _ Hin). set_solver.
    + eapply same_sizes_live; [exact Hsame|].
      eapply live_ok_agree, (inv_live _ _ _ _ Hinv). intros x Hxl. simpl.
      rewrite !lookup_insert_ne; [done| |]; intros <-; [apply Hx; set_solver|by apply Hal].
  - done.
  - rewrite !total_size_app. unfold total_size. simpl. lia.
Qed.

(** One pass over the free list computes [first_fit]. *)
Lemma kmalloc_pass bi h free live total :
  heap_inv bi h free live → 32 ≤ total → total `mod` 16 = 0 → total + 32 < 2 ^ 64 →
  match first_fit total free with
  | Some (b, free') =>
      ∃ h', kmalloc_search (list_fuel h) total 0 (free_list h) h = Ret (Some (b.1 + 16), h') ∧
            heap_inv bi h' free' (b :: live) ∧ bump h' = bump h
  | None => kmalloc_search (list_fuel h) total 0 (free_list h) h = Ret (None, h)
  end.
Proof.
  intros Hinv Ht Hm Hov. pose proof (inv_NoDup _ _ _ _ Hinv) as Hnd.
  rewrite fmap_app in Hnd. apply NoDup_app in Hnd as (Hnd & _ & _).
  pose proof (lseg_length _ _ _ _ Hnd (inv_chain _ _ _ _ Hinv)) as Hlen.
  destruct (kmalloc_search_spec total h [] free (free_list h) (list_fuel h))
    as [[-> Hr]|(k & a & s & n & l & -> & Hk & Hs & Ha & Hlk & Hl & Hr)];
    [done|apply (inv_chain _ _ _ _ Hinv)|unfold list_fuel; lia|done|].
  rewrite first_fit_app by done. rewrite app_nil_l in Hlk, Hr. change (prev_of []) with 0 in Hr. rewrite Hr.
  destruct (Z.leb_spec (total + 32) s).
  - destruct (take_block_split bi h k a s n l live total) as (h' & Hb & Hi & Hbb); [done..|].
    exists h'. by rewrite Hb.
  - destruct (take_block_whole bi h k a s n l live total) as (h' & Hb & Hi & Hbb); [done..|].
    exists h'. by rewrite Hb.
Qed.

Lemma pma_alloc_pages_spec bi h free live pages :
  heap_inv bi h free live → 1 ≤ pages → bump_base bi h + pages * 4096 + 4096 < 2 ^ 64 →
  pma_alloc_pages bi pages (bump h) = (bump_base bi h, bump_base bi h + pages * 4096).
Proof.
  intros [_ _ _ [Hb Hm] _] Hp Hov. unfold pma_alloc_pages, bump_alloc_alloc.
  rewrite (proj2 (Z.eqb_neq pages 0)) by lia. fold (bump_base bi h).
  rewrite (u64_small (pages * 4096)) by lia. simpl.
  rewrite (align_up_page_id (bump_base bi h)) by (done || lia).
  rewrite (u64_small (_ + _)) by lia.
  rewrite align_up_page_id; [done|lia|lia|].
  rewrite Z.mod_add; done.
Qed.

Lemma heap_grow_spec bi h free live pages :
  heap_inv bi h free live → 1 ≤ pages → bump_base bi h + pages * 4096 + 4096 < 2 ^ 64 →
  ∃ h', heap_grow_pages bi pages h = (true, h') ∧
        heap_inv bi h' ((bump_base bi h, pages * 4096) :: free) live ∧
        bump_base bi h' = bump_base bi h + pages * 4096.
Proof.
  intros Hinv Hp Hov. unfold heap_grow_pages. rewrite (proj2 (Z.eqb_neq pages 0)) by lia.
  erewrite pma_alloc_pages_spec by done. destruct (Hinv) as [Hc Hl (Hok & Hd & Htop) [Hb Hm] Hs].
  rewrite (proj2 (Z.eqb_neq (bump_base bi h) 0)) by lia. cbn [negb vmm_map_range].
  rewrite (u64_small (pages * 4096)) by lia. eexists. split; [done|].
  assert (Hbb : bump_base bi {| hmem := <[bump_base bi h := {| fb_size := pages * 4096; fb_next := free_list h |}]> (hmem h);
    free_list := bump_base bi h; heap_start := heap_start h;
    heap_size := u64 (heap_size h + pages * 4096); bump := bump_base bi h + pages * 4096 |} =
    bump_base bi h + pages * 4096).
  { unfold bump_base at 1. simpl. by rewrite (proj2 (Z.eqb_neq _ 0)) by lia. }
  split; [|done].
  assert (Hfresh : ∀ x, x ∈ (free ++ live).*1 → x ≠ bump_base bi h).
  { intros x Hx ->. apply list_elem_of_fmap in Hx as (b & Hb' & Hin).
    rewrite Forall_forall in Htop, Hok. specialize (Htop b Hin). specialize (Hok b Hin).
    unfold ok_block in Hok. lia. }
  split; simpl.
  - repeat split; [lia|]. eexists. rewrite lookup_insert_eq. split; [done|].
    apply lseg_frame; [|done]. intros Hin. apply (Hfresh (bump_base bi h)); [|done].
    rewrite fmap_app. set_solver.
  - eapply live_ok_agree, Hl. intros x Hx. simpl. rewrite lookup_insert_ne; [done|].
    apply not_eq_sym, Hfresh. rewrite fmap_app. set_solver.
  - rewrite Hbb. split; [|split].
    + constructor; [|done]. unfold ok_block. simpl. repeat split; try lia.
      * apply Z.mod_divide; [done|]. apply Z.mod_divide in Hm as [z Hz]; [|done]. exists (z * 256). lia.
      * replace (pages * 4096) with (pages * 256 * 16) by lia. by apply Z.mod_mul.
    + split; [|done]. eapply Forall_impl; [exact Htop|]. unfold region_disj. simpl. lia.
    + constructor; [simpl; lia|]. eapply Forall_impl; [exact Htop|]. simpl. lia.
  - rewrite Hbb. split; [lia|]. by rewrite Z.mod_add.
  - unfold u64, wrap in *. unfold total_size. simpl. fold (total_size (free ++ live)).
    rewrite Zmod_mod, Zplus_mod, Hs, <- Zplus_mod. f_equal. lia.
Qed.

(** What a request of [sz] bytes takes from the free list, and by how much the heap
    grows when the free list cannot serve it. *)
Definition request (sz : Z) : Z := align_up sz 16 + 16.
Definition grow_bytes (sz : Z) : Z := Z.max 4 (align_up (request sz) 0x1000 `div` 0x1000) * 4096.

Lemma request_spec sz : 0 < sz < 2 ^ 62 →
  sz + 16 ≤ request sz < sz + 32 ∧ 32 ≤ request sz ∧ request sz `mod` 16 = 0.
Proof.
  intros Hsz. unfold request. destruct (align_up_16 sz) as [Hb Hm]; [lia..|].
  assert (16 ≤ align_up sz 16).
  { apply Z.mod_divide in Hm as [z Hz]; lia. }
  repeat split; try lia. by apply mod16_add.
Qed.

Lemma grow_bytes_spec sz : 0 < sz < 2 ^ 62 →
  request sz ≤ grow_bytes sz ∧ grow_bytes sz ≤ request sz + 4 * 4096.
Proof.
  intros Hsz. destruct (request_spec sz Hsz) as (?&?&?).
  destruct (align_up_page (request sz)) as [Hb Hm]; [lia..|]. unfold grow_bytes.
  pose proof (Z.div_mod (align_up (request sz) 4096) 4096). lia.
Qed.

(** [kmalloc] on a heap whose free list is not empty: the request is served, from the
    free list or from fresh pages. *)
Lemma kmalloc_spec bi h free live sz :
  heap_inv bi h free live → free ≠ [] → 0 < sz < 2 ^ 62 →
  bump_base bi h + grow_bytes sz + 4096 < 2 ^ 64 →
  ∃ b free' h', kmalloc bi sz h = Ret (b.1 + 16, h') ∧ heap_inv bi h' free' (b :: live) ∧
    request sz ≤ b.2 ∧ bump_base bi h' ≤ bump_base bi h + grow_bytes sz ∧
    (first_fit (request sz) free = Some (b, free') ∧ bump_base bi h' = bump_base bi h ∨
     first_fit (request sz) free = None ∧
     first_fit (request sz) ((bump_base bi h, grow_bytes sz) :: free) = Some (b, free')).
Proof.
  intros Hinv Hne Hsz Hroom. destruct (request_spec sz Hsz) as (Hr1 & Hr2 & Hr3).
  destruct (grow_bytes_spec sz Hsz) as [Hg1 Hg2].
  assert (Hfl : free_list h ≠ 0).
  { destruct free as [|[a s] l]; [done|]. by destruct (inv_chain _ _ _ _ Hinv) as (-> & ? & _). }
  unfold kmalloc. rewrite (proj2 (Z.eqb_neq (free_list h) 0)), (proj2 (Z.eqb_neq sz 0)) by lia.
  rewrite header_16. fold (request sz). rewrite (u64_small (request sz)) by lia.
  pose proof (kmalloc_pass bi h free live (request sz) Hinv) as Hpass.
  destruct (first_fit (request sz) free) as [[b free']|] eqn:E.
  - destruct Hpass as (h' & -> & Hi & Hbb); [lia..|]. exists b, free', h'. cbn [rbind].
    rewrite (bump_base_same bi _ _ Hbb).
    destruct (first_fit_good (bump_base bi h) _ _ _ _ live Hr2 Hr3 E) as (_ & Hb & _);
      [apply (inv_good _ _ _ _ Hinv)|].
    split_and!; [done|done|lia|lia|by left].
  - rewrite Hpass by lia. cbn [rbind].
    destruct (align_up_page (request sz)) as [Hp1 Hp2]; [lia..|].
    set (pn := align_up (request sz) 4096 `div` 4096) in *.
    assert (Hpn : 1 ≤ pn) by (pose proof (Z.div_mod (align_up (request sz) 4096) 4096); unfold pn; lia).
    rewrite (proj2 (Z.eqb_neq pn 0)) by lia.
    replace (if pn <? 4 then 4 else pn) with (Z.max 4 pn) by (destruct (Z.ltb_spec pn 4); lia).
    destruct (heap_grow_spec bi h free live (Z.max 4 pn)) as (h1 & -> & Hi1 & Hb1);
      [done|lia|done|]. change (Z.max 4 pn * 4096) with (grow_bytes sz) in *. cbn [negb].
    pose proof (kmalloc_pass bi h1 _ live (request sz) Hi1) as Hpass1.
    destruct (first_fit (request sz) (_ :: free)) as [[b free']|] eqn:E1.
    + destruct Hpass1 as (h' & -> & Hi & Hbb); [lia..|]. exists b, free', h'. cbn [rbind].
      pose proof (bump_base_same bi _ _ Hbb) as Hbb'. rewrite Hb1 in Hbb'.
      destruct (first_fit_good (bump_base bi h1) _ _ _ _ live Hr2 Hr3 E1) as (_ & Hb & _);
        [apply (inv_good _ _ _ _ Hi1)|].
      split_and!; [done|done|lia|lia|by right].
    + apply first_fit_none in E1. inversion E1; simpl in *; lia.
Qed.

(** ** [kfree] *)

Lemma kfree_walk_spec blk h l1 l2 c fuel :
  lseg (hmem h) (free_list h) l1 c → lseg (hmem h) c l2 0 → (length l2 < fuel)%nat →
  ∃ k l3 c', l2 = k ++ l3 ∧ Forall (λ b, b.1 < blk) k ∧
    match l3 with [] => True | b :: _ => blk ≤ b.1 end ∧
    lseg (hmem h) (free_list h) (l1 ++ k) c' ∧ lseg (hmem h) c' l3 0 ∧
    kfree_walk fuel blk (prev_of l1) c h = Ret (prev_of (l1 ++ k), c').
Proof.
  revert l1 c fuel. induction l2 as [|[a s] l2 IH]; intros l1 c fuel Hl1 Hl2 Hf;
    (destruct fuel as [|fuel]; [simpl in Hf; lia|]).
  - simpl in Hl2. subst c. exists [], [], 0. rewrite !app_nil_r. split_and!; first [done|by constructor].
  - destruct Hl2 as (-> & Ha & n & Hn & Hl2). cbn [kfree_walk].
    rewrite (proj2 (Z.eqb_neq a 0)) by done. cbn [negb andb].
    destruct (Z.ltb_spec a blk) as [Hlt|Hge].
    + rewrite Hn. cbn [of_opt rbind fb_next].
      destruct (IH (l1 ++ [(a, s)]) n fuel) as (k & l3 & c' & -> & Hk & Hh & Hl & Hl3 & Hr);
        [apply lseg_app; exists a; simpl; eauto 6|done|simpl in Hf; lia|].
      rewrite prev_of_snoc in Hr. rewrite <- app_assoc in Hl, Hr.
      exists ((a, s) :: k), l3, c'. split_and!; first [done|by constructor].
    + exists [], ((a, s) :: l2), a. rewrite app_nil_r. split_and!; try done. simpl. eauto.
Qed.

Lemma free_insert_cons2 b a s c t l : a < b.1 → c < b.1 →
  free_insert b ((a, s) :: (c, t) :: l) = (a, s) :: free_insert b ((c, t) :: l).
Proof.
  intros Ha Hc. cbn [free_insert].
  by rewrite (proj2 (Z.ltb_lt a b.1)), (proj2 (Z.ltb_lt c b.1)).
Qed.

Lemma free_insert_app b k l :
  Forall (λ c, c.1 < b.1) k → match l with [] => True | c :: _ => b.1 ≤ c.1 end →
  free_insert b (k ++ l) =
  match last k with
  | None => join_next b l
  | Some p => removelast k ++ join_prev p b l
  end.
Proof.
  intros Hk Hl. induction Hk as [|[a s] k Ha Hk IH].
  - destruct l as [|[c t] l]; [done|]. cbn [app free_insert last]. by rewrite (proj2 (Z.ltb_ge c b.1)).
  - destruct k as [|[c t] k].
    + cbn [app free_insert last removelast]. simpl in Ha. rewrite (proj2 (Z.ltb_lt a b.1)) by done.
      destruct l as [|[c t] l]; [done|]. simpl in Hl. by rewrite (proj2 (Z.ltb_ge c b.1)).
    + inversion Hk as [|? ? Hc _]; subst. simpl in Ha, Hc.
      rewrite <- app_comm_cons, <- app_comm_cons, free_insert_cons2, app_comm_cons, IH by done.
      destruct (last ((c, t) :: k)) eqn:El; [|by apply last_None in El].
      change (last ((a, s) :: (c, t) :: k)) with (last ((c, t) :: k)). by rewrite El.
Qed.

(** The second half of [kfree] splices [join_next] into the chain. *)
Lemma kfree_next_spec h k x s n l c :
  lseg (hmem h) (free_list h) k x → hmem h !! x = Some {| fb_size := s; fb_next := n |} →
  lseg (hmem h) c l 0 → x ≠ 0 → x ∉ k.*1 → x ∉ l.*1 →
  x + s < 2 ^ 64 → Forall (λ b, s + b.2 < 2 ^ 64) l → Forall ok_block l → 0 ≤ x → 0 ≤ s →
  ∃ h', kfree_next x c h = Ret h' ∧
        lseg (hmem h') (free_list h') (k ++ join_next (x, s) l) 0 ∧
        bump h' = bump h ∧ heap_size h' = heap_size h ∧
        ∀ y, y ≠ x → hmem h' !! y = hmem h !! y.
Proof.
  intros Hk Hx Hl Hx0 Hxk Hxl Hov Hovs Hok Hnn Hs. unfold kfree_next.
  assert (Hput : ∀ s' n' l', lseg (hmem h) n' l' 0 → x ∉ l'.*1 → ∀ h',
    h' = set_hmem (<[x := {| fb_size := s'; fb_next := n' |}]> (hmem h)) h →
    lseg (hmem h') (free_list h') (k ++ (x, s') :: l') 0 ∧ bump h' = bump h ∧
    heap_size h' = heap_size h ∧ ∀ y, y ≠ x → hmem h' !! y = hmem h !! y).
  { intros s' n' l' Hl' Hxl' h' ->. split_and!; try done.
    - apply lseg_app. exists x. split; [by apply lseg_frame|]. repeat split; [done|]. exists n'.
      simpl. rewrite lookup_insert_eq. split; [done|]. by apply lseg_frame.
    - intros y Hy. simpl. by rewrite lookup_insert_ne. }
  destruct l as [|[a t] l].
  - simpl in Hl. subst c. simpl. unfold store_next. rewrite Hx. cbn [fb_size].
    eexists. split; [done|]. by eapply Hput.
  - destruct Hl as (-> & Ha & n' & Hn' & Hl). rewrite (proj2 (Z.eqb_neq a 0)) by done.
    cbn [negb]. rewrite Hx. cbn [of_opt rbind fb_size]. rewrite (u64_small (x + s)) by lia.
    inversion Hok as [|? ? Hoka _]; subst. inversion Hovs as [|? ? Hova _]; subst.
    unfold ok_block in Hoka. simpl in Hoka, Hova, Hxl.
    unfold join_next. cbn [fst snd]. destruct (x + s =? a) eqn:E.
    + rewrite Hn'. cbn [of_opt rbind fb_size fb_next]. rewrite u64_small by lia.
      unfold store_size, store_next. rewrite Hx. cbn [rbind fb_next]. cbn [hmem set_hmem].
      rewrite lookup_insert_eq. cbn [fb_size]. eexists. split; [done|].
      eapply Hput; [exact Hl|set_solver|]. unfold set_hmem. simpl. by rewrite insert_insert_eq.
    + unfold store_next. rewrite Hx. cbn [fb_size]. eexists. split; [done|].
      eapply Hput; [simpl; eauto|done|done].
Qed.

Lemma disj_sum_bound b l : ok_block b → Forall ok_block l → Forall (region_disj b) l →
  Forall (λ c, b.2 + c.2 < 2 ^ 64) l.
Proof.
  intros Hb Hl Hd. rewrite Forall_forall in *. intros c Hc. specialize (Hl c Hc).
  specialize (Hd c Hc). unfold ok_block, region_disj in *. lia.
Qed.

(** The first half of [kfree] leaves a chain that ends in the block to be joined with
    what follows. *)
Lemma kfree_prev_spec h k a s n c :
  lseg (hmem h) (free_list h) k c → hmem h !! a = Some {| fb_size := s; fb_next := n |} →
  NoDup (a :: k.*1) → Forall ok_block k → 0 ≤ s →
  (∀ p, last k = Some p → p.1 + p.2 = a → p.2 + s < 2 ^ 64) →
  ∃ k1 x s1 n1 h1,
    kfree_prev a (prev_of k) h = Ret (x, h1) ∧ lseg (hmem h1) (free_list h1) k1 x ∧
    hmem h1 !! x = Some {| fb_size := s1; fb_next := n1 |} ∧
    bump h1 = bump h ∧ heap_size h1 = heap_size h ∧
    (∀ y, y ∉ k.*1 → hmem h1 !! y = hmem h !! y) ∧
    (k1 = k ∧ (x, s1) = (a, s) ∧ (∀ p, last k = Some p → p.1 + p.2 ≠ a) ∨
     ∃ ps, k = k1 ++ [(x, ps)] ∧ x + ps = a ∧ s1 = ps + s).
Proof.
  intros Hk Ha Hnd Hok Hs Hsum. unfold kfree_prev.
  destruct k as [|[p ps] k _] using rev_ind.
  - exists [], a, s, n, (set_free_list a h). split_and!; try done. left. by split_and!.
  - rewrite last_snoc in Hsum. specialize (Hsum _ eq_refl). rewrite prev_of_snoc.
    rewrite Forall_app, Forall_singleton in Hok. destruct Hok as [_ Hokp].
    unfold ok_block in Hokp. simpl in Hokp, Hsum.
    rewrite fmap_app in Hnd. apply NoDup_cons in Hnd as [Hap Hnd].
    apply NoDup_app in Hnd as (_ & Hpk & _). simpl in Hpk, Hap.
    assert (Hp : p ∉ k.*1) by (intros Hin; apply (Hpk p Hin); set_solver).
    assert (Hpa : p ≠ a) by (intros ->; set_solver).
    apply lseg_app in Hk as (r & Hk & -> & Hp0 & n' & Hn' & _).
    cbn [fst]. rewrite (proj2 (Z.eqb_neq p 0)), Hn' by done. cbn [negb of_opt rbind fb_size].
    rewrite (u64_small (p + ps)) by lia. unfold store_size, store_next.
    destruct (Z.eqb_spec (p + ps) a) as [E|E].
    + rewrite Ha, Hn'. cbn [of_opt rbind fb_size fb_next]. rewrite u64_small by lia.
      exists k, p, (ps + s), n', (set_hmem (<[p := {| fb_size := ps + s; fb_next := n' |}]> (hmem h)) h).
      split_and!; try done.
      * simpl. by apply lseg_frame.
      * simpl. by rewrite lookup_insert_eq.
      * intros y Hy. simpl. rewrite lookup_insert_ne; [done|]. intros ->. apply Hy.
        rewrite fmap_app. set_solver.
      * right. by exists ps.
    + rewrite Hn'. cbn [rbind fb_size].
      exists (k ++ [(p, ps)]), a, s, n, (set_hmem (<[p := {| fb_size := ps; fb_next := a |}]> (hmem h)) h).
      split_and!; try done.
      * simpl. apply lseg_app. exists p. split; [by apply lseg_frame|]. repeat split; [done|].
        exists a. by rewrite lookup_insert_eq.
      * simpl. by rewrite lookup_insert_ne.
      * intros y Hy. simpl. rewrite lookup_insert_ne; [done|]. intros ->. apply Hy.
        rewrite fmap_app. set_solver.
      * left. split_and!; try done. intros q. rewrite last_snoc. by intros [= <-].
Qed.

(** [kfree] returns a live block to the free list. *)
Lemma kfree_spec bi h free live a s live' :
  heap_inv bi h free live → live ≡ₚ (a, s) :: live' →
  ∃ h', kfree (a + 16) h = Ret h' ∧ heap_inv bi h' (free_insert (a, s) free) live' ∧
        bump h' = bump h.
Proof.
  intros Hinv Hperm. pose proof (inv_good _ _ _ _ Hinv) as Hg.
  pose proof (inv_NoDup _ _ _ _ Hinv) as Hnd. rewrite Hperm in Hg, Hnd.
  rewrite <- Permutation_middle in Hg. rewrite <- Permutation_middle in Hnd.
  assert (Hlive : live_ok h ((a, s) :: live')).
  { unfold live_ok. rewrite <- Hperm. apply (inv_live _ _ _ _ Hinv). }
  inversion Hlive as [|? ? [n Hn] Hlive']; subst. simpl in Hn.
  assert (Hgood' := free_insert_good _ _ _ _ Hg).
  destruct Hg as (Hok & Hdj & _). inversion Hok as [|? ? Hoka Hokl]; subst.
  rewrite Forall_app in Hokl. destruct Hokl as [Hokf _].
  assert (Hsz : total_size (free_insert (a, s) free ++ live') = total_size (free ++ live)).
  { rewrite !total_size_app, free_insert_size, (total_size_perm _ _ Hperm).
    unfold total_size at 4. simpl. fold (total_size live'). simpl. lia. }
  assert (Hb := Hoka). unfold ok_block in Hb. simpl in Hb.
  destruct (kfree_walk_spec a h [] free (free_list h) (list_fuel h))
    as (k & l & c & -> & Hka & Hla & Hlk & Hl & Hw);
    [done|apply (inv_chain _ _ _ _ Hinv)| |].
  { unfold list_fuel. simpl in Hnd. apply NoDup_cons in Hnd as [_ Hnd]. rewrite fmap_app in Hnd.
    apply NoDup_app in Hnd as (Hnd & _ & _).
    pose proof (lseg_length _ _ _ _ Hnd (inv_chain _ _ _ _ Hinv)). lia. }
  rewrite app_nil_l in Hlk, Hw. change (prev_of []) with 0 in Hw.
  unfold kfree. rewrite (proj2 (Z.eqb_neq (a + 16) 0)), header_16 by lia.
  replace (a + 16 - 16) with a by lia. rewrite (u64_small a), Hw by lia. cbn [rbind fst snd].
  simpl in Hnd. rewrite !fmap_app, <- app_assoc in Hnd. apply NoDup_cons in Hnd as [Hafr Hnd].
  apply NoDup_app in Hnd as (Hndk & Hkl & Hnd). apply NoDup_app in Hnd as (Hndl & Hll & _).
  destruct Hdj as [Hdja Hdj]. apply Forall_app in Hokf as [Hokk Hokl].
  apply Forall_app in Hdja as [Hdja _]. apply Forall_app in Hdja as [Hdak Hdal].
  destruct (kfree_prev_spec h k a s n c) as (k1 & x & s1 & n1 & h1 & -> & Hk1 & Hx & Hb1 & Hz1 & Hm1 & Hcase);
    [done|done| |done|lia| |].
  { constructor; [|done]. by apply not_elem_of_app in Hafr as [? _]. }
  { intros p Hp E. apply last_Some in Hp as [k' ->]. rewrite Forall_app, Forall_singleton in Hokk.
    destruct Hokk as [_ Hp]. unfold ok_block in Hp. lia. }
  cbn [rbind fst snd].
  assert (Hx1 : ok_block (x, s1) ∧ x ∉ k1.*1 ∧ x ∉ l.*1 ∧ x ∉ live'.*1 ∧ Forall (region_disj (x, s1)) l ∧
    free_insert (a, s) (k ++ l) = k1 ++ join_next (x, s1) l).
  { rewrite free_insert_app by done.
    destruct Hcase as [(-> & [= -> ->] & Hne)|(ps & -> & E & ->)].
    - rewrite !not_elem_of_app in Hafr. destruct Hafr as (? & ? & ?).
      split_and!; try done. destruct (last k) as [p|] eqn:Ek.
      + unfold join_prev. rewrite (proj2 (Z.eqb_neq _ _)) by (by apply Hne).
        apply last_Some in Ek as [k' ->]. rewrite removelast_last. by rewrite <- app_assoc.
      + apply last_None in Ek as ->. done.
    - rewrite last_snoc, removelast_last. unfold join_prev. cbn [fst snd].
      rewrite (proj2 (Z.eqb_eq _ _)) by done.
      rewrite Forall_app, Forall_singleton in Hokk. destruct Hokk as [_ Hokx].
      rewrite fmap_app in Hndk, Hkl. apply NoDup_app in Hndk as (_ & Hxk & _). simpl in Hxk, Hkl.
      unfold ok_block in Hokx. simpl in Hokx.
      rewrite Forall_app, Forall_singleton in Hdak.
      split_and!; try done.
      + unfold ok_block. simpl. repeat split; try lia. apply mod16_add; lia.
      + intros Hin. apply (Hxk x Hin). by left.
      + intros Hin. apply (Hkl x); rewrite elem_of_app; [right; left|by left].
      + intros Hin. apply (Hkl x); rewrite elem_of_app; [right; left|by right].
      + rewrite <- !app_assoc in Hdj. apply all_disj_app_r in Hdj. simpl in Hdj.
        destruct Hdj as [Hdx _]. rewrite Forall_app in Hdx. destruct Hdx as [Hdx _].
        rewrite Forall_forall in Hdx, Hdal, Hokl |- *. intros y Hy.
        specialize (Hdx y Hy). specialize (Hdal y Hy). specialize (Hokl y Hy).
        unfold region_disj, ok_block in *. simpl in *. lia. }
  destruct Hx1 as (Hokx & Hxk & Hxl & Hxv & Hdx & Hfi). assert (Hokx' := Hokx).
  unfold ok_block in Hokx'. simpl in Hokx'.
  destruct (kfree_next_spec h1 k1 x s1 n1 l c) as (h' & Hr & Hch & Hb2 & Hz2 & Hm2);
    [done|done| |lia|done|done|lia|by apply (disj_sum_bound (x, s1))|done|lia|lia|].
  { eapply lseg_agree, Hl. intros y Hy. apply Hm1. intros Hin. apply (Hkl y Hin), elem_of_app. by left. }
  exists h'. rewrite Hr. split; [done|]. split; [|congruence].
  eapply heap_inv_intro; [exact Hinv|congruence|congruence| | |done|done].
  - by rewrite Hfi.
  - eapply live_ok_agree, Hlive'. intros y Hy. rewrite Hm2 by (intros ->; done).
    apply Hm1. intros Hin. apply (Hkl y Hin), elem_of_app. by right.
Qed.
