(* ===== verification/HeapSpec.v ===== *)
(** * What the heap promises

    The interface [Allocator]/[AllocatorSpec] the rest of the kernel is verified
    against, the instance that the heap of [Heap.v] discharges, and the theorems on
    [heap_init], [kmalloc] and [kfree]. *)
From S2P Require Import Prelude Bump Heap HeapInv HeapRefine.

(** ** The allocator interface

    Clients see [kmalloc] as a total function that answers 0 on failure. *)
Class Allocator (H : Type) := {
  amalloc : Z → H → Z * H;
  afree : Z → H → H;
}.

(** What an allocation of [n] bytes may cost: the header, the rounding and the smallest
    remainder a split leaves. *)
Definition cost (n : Z) : Z := n + 64.

(** [alloc_inv room h L]: [h] is a valid heap whose live allocations are [L] (address
    to capacity) and that can serve requests that cost [room] bytes in total. *)
Class AllocatorSpec (H : Type) `{Allocator H} := {
  alloc_inv : Z → H → gmap Z Z → Prop;
  alloc_inv_le r r' h L : r' ≤ r → alloc_inv r h L → alloc_inv r' h L;
  amalloc_spec r h L n :
    alloc_inv r h L → 0 < n < 2 ^ 62 → cost n ≤ r →
    ∃ p c h', amalloc n h = (p, h') ∧ p ≠ 0 ∧ L !! p = None ∧ n ≤ c ∧
              alloc_inv (r - cost n) h' (<[p := c]> L);
  afree_spec r h L p c : alloc_inv r h L → L !! p = Some c → alloc_inv r (afree p h) (delete p L);
  afree_null h : afree 0 h = h;
  alloc_nonnull r h L : alloc_inv r h L → L !! 0 = None;
}.

(** ** The heap discharges it *)

Section instance.
Context (bi : Boot).

#[export] Instance heap_allocator : Allocator Heap := {
  amalloc n h := match kmalloc bi n h with Ret r => r | _ => (0, h) end;
  afree p h := match kfree p h with Ret h' => h' | _ => h end;
}.

(** The block behind an allocation: its header sits 16 bytes below the payload. *)
Definition payload_block (pc : Z * Z) : block := (pc.1 - 16, pc.2 + 16).
Definition live_blocks (L : gmap Z Z) : list block := payload_block <$> map_to_list L.

(** One free block is larger than [room], and the page allocator is far from wrapping. *)
Definition heap_alloc_inv (room : Z) (h : Heap) (L : gmap Z Z) : Prop :=
  ∃ free, heap_inv bi h free (live_blocks L) ∧ bump_base bi h < 2 ^ 63 ∧
          Exists (λ b, room < b.2) free.

Lemma live_blocks_insert L p c : L !! p = None →
  live_blocks (<[p := c]> L) ≡ₚ (p - 16, c + 16) :: live_blocks L.
Proof. intros Hp. unfold live_blocks. by rewrite map_to_list_insert. Qed.

Lemma live_blocks_delete L p c : L !! p = Some c →
  live_blocks L ≡ₚ (p - 16, c + 16) :: live_blocks (delete p L).
Proof.
  intros Hp. rewrite <- live_blocks_insert by apply lookup_delete_eq.
  by rewrite insert_delete_id.
Qed.

Lemma live_blocks_elem L p c : L !! p = Some c → (p - 16, c + 16) ∈ live_blocks L.
Proof. intros Hp. rewrite (live_blocks_delete _ _ _ Hp). by left. Qed.

Lemma heap_inv_perm h free live live' : live ≡ₚ live' → heap_inv bi h free live → heap_inv bi h free live'.
Proof.
  intros Hp [H1 H2 H3 H4 H5]. split; try done.
  - unfold live_ok. by rewrite <- Hp.
  - by rewrite <- Hp.
  - by rewrite <- (total_size_perm (free ++ live)) by (by rewrite Hp).
Qed.

(** First fit finds a block within the room, and a block above what is left remains. *)
Lemma first_fit_room total room free :
  Exists (λ b, room < b.2) free → 0 ≤ total → total + 32 ≤ room →
  ∃ b free', first_fit total free = Some (b, free') ∧
             Exists (λ b, room - (total + 32) < b.2) free'.
Proof.
  intros HE H0 Ht. induction free as [|[a s] l IH]; [by apply Exists_nil in HE|].
  cbn [first_fit]. apply Exists_cons in HE. simpl in HE.
  destruct (Z.leb_spec total s), (Z.leb_spec (total + 32) s).
  - eexists _, _. split; [done|]. apply Exists_cons.
    destruct HE as [Hs|HE]; [left; simpl; lia|right].
    eapply Exists_impl; [exact HE|]. simpl. lia.
  - destruct HE as [?|HE]; [lia|]. eexists _, _. split; [done|].
    eapply Exists_impl; [exact HE|]. simpl. lia.
  - lia.
  - destruct HE as [?|HE]; [lia|]. destruct (IH HE) as (b & free' & -> & HE').
    eexists _, _. split; [done|]. by right.
Qed.

Lemma join_next_room room a s l :
  0 ≤ s → Forall (λ b, 0 ≤ b.2) l → room < s ∨ Exists (λ b, room < b.2) l →
  Exists (λ b, room < b.2) (join_next (a, s) l).
Proof.
  intros Hs Hl HE. destruct l as [|[c t] l]; simpl.
  - destruct HE as [?|HE]; [by left|by apply Exists_nil in HE].
  - inversion_clear Hl as [|? ? Ht Hl']. simpl in Ht.
    rewrite Exists_cons in HE. simpl in HE.
    case_match; rewrite !Exists_cons; simpl; [|tauto].
    destruct HE as [?|[?|?]]; [left; lia|left; lia|by right].
Qed.

(** Freeing keeps every block or merges it into a larger one. *)
Lemma free_insert_room room b free :
  0 ≤ b.2 → Forall (λ b, 0 ≤ b.2) free → Exists (λ b, room < b.2) free →
  Exists (λ b, room < b.2) (free_insert b free).
Proof.
  destruct b as [x n]. intros Hb Hf HE. simpl in Hb.
  induction Hf as [|[a s] l Hs Hl IH]; [by apply Exists_nil in HE|].
  simpl in Hs. apply Exists_cons in HE. simpl in HE.
  assert (Hp : Exists (λ b, room < b.2) (join_prev (a, s) (x, n) l)).
  { unfold join_prev. simpl. case_match.
    - apply join_next_room; [lia|done|]. destruct HE; [left; lia|by right].
    - apply Exists_cons. simpl. destruct HE as [?|HE]; [by left|right].
      apply join_next_room; [lia|done|by right]. }
  cbn [free_insert fst]. case_match.
  - destruct l as [|[c t] l]; [done|]. case_match; [|done].
    apply Exists_cons. simpl. destruct HE as [?|HE]; [by left|right; by apply IH].
  - apply join_next_room; [lia|by constructor|right]. apply Exists_cons. simpl. tauto.
Qed.

Lemma heap_amalloc_spec r h L n :
  heap_alloc_inv r h L → 0 < n < 2 ^ 62 → cost n ≤ r →
  ∃ p c h', amalloc n h = (p, h') ∧ p ≠ 0 ∧ L !! p = None ∧ n ≤ c ∧
            heap_alloc_inv (r - cost n) h' (<[p := c]> L).
Proof.
  intros (free & Hinv & Hroom & HE) Hn Hneed. unfold cost in *.
  destruct (request_spec n Hn) as (Hr & _ & _). destruct (grow_bytes_spec n Hn) as [Hg Hg'].
  destruct (first_fit_room (request n) r free HE ltac:(lia) ltac:(lia)) as (b0 & free0 & Hff & HE').
  destruct (kmalloc_spec bi h free (live_blocks L) n) as ([a s] & free' & h1 & Hk & Hi & Hb & _ & Hc);
    [done|intros ->; by apply Exists_nil in HE|done|lia|]. simpl in *.
  destruct Hc as [[Hf Hbb]|[Hf _]]; [|congruence].
  rewrite Hff in Hf. injection Hf as -> ->.
  pose proof (inv_NoDup _ _ _ _ Hi) as Hnd. rewrite fmap_app in Hnd.
  apply NoDup_app in Hnd as (_ & _ & Hnd). simpl in Hnd. apply NoDup_cons in Hnd as [Hnd _].
  destruct (inv_good _ _ _ _ Hi) as (Hok & _).
  rewrite Forall_app, Forall_cons in Hok. destruct Hok as (_ & Hok & _).
  unfold ok_block in Hok. simpl in Hok.
  assert (HL : L !! (a + 16) = None).
  { destruct (L !! (a + 16)) as [c|] eqn:E; [|done]. destruct Hnd.
    apply live_blocks_elem in E. apply list_elem_of_fmap. eexists. split; [|exact E]. simpl. lia. }
  exists (a + 16), (s - 16), h1. rewrite Hk. split_and!; [done|lia|done|lia|].
  exists free'. split_and!; [|lia|].
  - eapply heap_inv_perm, Hi. rewrite live_blocks_insert by done.
    replace (a + 16 - 16) with a by lia. by replace (s - 16 + 16) with s by lia.
  - eapply Exists_impl; [exact HE'|]. simpl. lia.
Qed.

Lemma heap_afree_spec r h L p c :
  heap_alloc_inv r h L → L !! p = Some c → heap_alloc_inv r (afree p h) (delete p L).
Proof.
  intros (free & Hinv & Hroom & HE) Hp. pose proof (live_blocks_delete _ _ _ Hp) as Hperm.
  destruct (kfree_spec bi h free (live_blocks L) (p - 16) (c + 16) (live_blocks (delete p L)))
    as (h' & Hf & Hi & Hb); [done|done|].
  replace (p - 16 + 16) with p in Hf by lia. simpl. rewrite Hf.
  destruct (inv_good _ _ _ _ Hinv) as (Hok & _). rewrite Hperm, Forall_app, Forall_cons in Hok.
  destruct Hok as (Hokf & Hokb & _). unfold ok_block in *. simpl in Hokb.
  eexists. split_and!; [exact Hi|by rewrite (bump_base_same bi _ _ Hb)|].
  apply free_insert_room; [simpl; lia| |done].
  eapply Forall_impl; [exact Hokf|]. simpl. lia.
Qed.

Lemma heap_nonnull r h L : heap_alloc_inv r h L → L !! 0 = None.
Proof.
  intros (free & Hinv & _). destruct (L !! 0) as [c|] eqn:E; [|done].
  apply live_blocks_elem in E. destruct (inv_good _ _ _ _ Hinv) as (Hok & _).
  rewrite Forall_app in Hok. destruct Hok as [_ Hok]. rewrite Forall_forall in Hok.
  specialize (Hok _ E). unfold ok_block in Hok. simpl in Hok. lia.
Qed.

#[export] Instance heap_allocator_spec : AllocatorSpec Heap.
Proof.
  refine {| alloc_inv := heap_alloc_inv |}.
  - intros r r' h L Hr (free & Hi & Hroom & HE). exists free. split_and!; [done|done|].
    eapply Exists_impl; [exact HE|]. simpl. lia.
  - exact heap_amalloc_spec.
  - exact heap_afree_spec.
  - intros h. reflexivity.
  - exact heap_nonnull.
Defined.

End instance.

(** The heap before [heap_init]. *)
Definition heap_zero : Heap :=
  {| hmem := ∅; free_list := 0; heap_start := 0; heap_size := 0; bump := 0 |}.

Lemma heap_init_spec bi static_heap sz :
  0 < static_heap → static_heap `mod` 16 = 0 → 0 < sz < 2 ^ 63 →
  static_heap + sizeof_static_heap ≤ bump_start bi < 2 ^ 64 → bump_start bi `mod` 4096 = 0 →
  let h := heap_init static_heap sz heap_zero in
  heap_inv bi h [(static_heap, heap_size h)] [] ∧
  0 < heap_size h ≤ sizeof_static_heap ∧ heap_init static_heap sz h = h.
Proof.
  intros Hs Hm Hsz Htop Hpage h. destruct (align_up_page sz) as [Hb Hp]; [lia..|].
  assert (Hz : heap_size h = Z.min sizeof_static_heap (align_up sz 4096)).
  { unfold h, heap_init. simpl. destruct (Z.ltb_spec sizeof_static_heap (align_up sz 4096)); lia. }
  assert (Hz16 : heap_size h `mod` 16 = 0 ∧ 4096 ≤ heap_size h).
  { rewrite Hz. change sizeof_static_heap with 1048576. apply Z.mod_divide in Hp as [z Hz']; [|done].
    destruct (Z.min_spec 1048576 (align_up sz 4096)) as [[_ ->]|[? ->]]; [split; [done|lia]|].
    rewrite Hz'. replace (z * 4096) with (z * 256 * 16) by lia. split; [by apply Z.mod_mul|lia]. }
  change sizeof_static_heap with 1048576 in *. split; [|split].
  - assert (Hbb : bump_base bi h = bump_start bi) by done. split; cbn [app].
    + repeat split; [lia|]. exists 0. split; [|done]. unfold h, heap_init. simpl.
      by rewrite lookup_insert_eq.
    + constructor.
    + rewrite Hbb. split; [|split].
      * apply Forall_singleton. unfold ok_block. cbn [fst snd]. lia.
      * split; [by apply Forall_nil|done].
      * apply Forall_singleton. cbn [fst snd]. lia.
    + rewrite Hbb. split; [lia|done].
    + unfold total_size. simpl. f_equal. lia.
  - lia.
  - unfold h, heap_init at 1. simpl. by rewrite (proj2 (Z.eqb_neq static_heap 0)) by lia.
Qed.

(** A concrete boot: the static heap at 1 MiB, the kernel image ends at 3 MiB. *)
Definition bi0 : Boot := {| kernel_end := 0x300000; hhdm := None |}.
Definition h0 : Heap := heap_init 0x100000 (256 * 1024) heap_zero.

Lemma h0_inv : heap_inv bi0 h0 [(0x100000, 262144)] [].
Proof.
  destruct (heap_init_spec bi0 0x100000 (256 * 1024)) as (H & _); [done..|].
  exact H.
Qed.

Lemma h0_alloc_inv : heap_alloc_inv bi0 262000 h0 ∅.
Proof.
  exists [(0x100000, 262144)]. split_and!; [apply h0_inv|done|]. apply Exists_cons. by left.
Qed.

(** ** Theorems *)

(** C1. [kmalloc] serves every request of less than 2^62 bytes on a valid heap whose
    free list is not empty and whose page allocator has room to grow: it terminates
    without undefined behaviour and returns a 16-byte aligned payload of at least the
    requested size that overlaps no live allocation, and the heap stays valid. *)
Theorem kmalloc_correct bi h free live sz :
  heap_inv bi h free live → free ≠ [] → 0 < sz < 2 ^ 62 →
  bump_base bi h + grow_bytes sz + 4096 < 2 ^ 64 →
  ∃ p cap free' h',
    kmalloc bi sz h = Ret (p, h') ∧ p ≠ 0 ∧ p `mod` 16 = 0 ∧ sz ≤ cap ∧
    heap_inv bi h' free' ((p - 16, cap + 16) :: live) ∧
    Forall (λ b, p + cap ≤ b.1 ∨ b.1 + b.2 ≤ p - 16) live.
Proof.
  intros Hinv Hne Hsz Hroom.
  destruct (kmalloc_spec bi h free live sz) as ([a s] & free' & h' & Hk & Hi & Hb & _); [done..|].
  simpl in *. destruct (request_spec sz Hsz) as (? & _).
  destruct (inv_good _ _ _ _ Hi) as (Hok & Hd & _).
  apply all_disj_app_r in Hd as [Hd _]. apply Forall_app in Hok as [_ Hok].
  apply Forall_cons in Hok as [Hok _]. unfold ok_block in Hok. simpl in Hok.
  exists (a + 16), (s - 16), free', h'. replace (a + 16 - 16) with a by lia.
  replace (s - 16 + 16) with s by lia. split_and!; try done; try lia.
  - apply mod16_add; [lia|done].
  - eapply Forall_impl; [exact Hd|]. intros b. unfold region_disj. simpl. lia.
Qed.

(** C2. [kfree] of a live allocation terminates without undefined behaviour, moves
    exactly that block from the live to the free blocks, and keeps a sorted, fully
    coalesced free list sorted and fully coalesced. *)
Theorem kfree_correct bi h free live a s live' :
  heap_inv bi h free live → live ≡ₚ (a, s) :: live' →
  ∃ h', kfree (a + 16) h = Ret h' ∧ heap_inv bi h' (free_insert (a, s) free) live' ∧
        (coalesced free → coalesced (free_insert (a, s) free)).
Proof.
  intros Hinv Hp. destruct (kfree_spec bi h free live a s live') as (h' & Hk & Hi & _); [done..|].
  exists h'. split; [done|]. split; [done|]. intros Hc.
  assert (Hg := inv_good _ _ _ _ Hinv). rewrite Hp, <- Permutation_middle in Hg.
  destruct Hg as (Hok & [Hd _] & _). apply Forall_cons in Hok as [Hb Hok].
  apply Forall_app in Hok as [Hok _]. apply Forall_app in Hd as [Hd _]. unfold ok_block in Hb.
  apply free_insert_coalesced; simpl in *; try done; try lia;
    (eapply Forall_impl; [exact Hok|]); unfold ok_block; lia.
Qed.

(** C3. On a sorted, coalesced free list that can serve the request, [kmalloc] followed
    by [kfree] of the result restores the very same free list and live blocks. *)
Theorem kmalloc_kfree_roundtrip bi h free live sz b free' :
  heap_inv bi h free live → 0 < sz < 2 ^ 62 → coalesced free →
  bump_base bi h + grow_bytes sz + 4096 < 2 ^ 64 →
  first_fit (request sz) free = Some (b, free') →
  ∃ p h1 h2, kmalloc bi sz h = Ret (p, h1) ∧ kfree p h1 = Ret h2 ∧ heap_inv bi h2 free live.
Proof.
  intros Hinv Hsz Hc Hroom E. destruct (request_spec sz Hsz) as (_ & Hr & _).
  destruct (kmalloc_spec bi h free live sz) as ([a s] & free1 & h1 & Hk & Hi & _ & _ & Hcase);
    [done|by intros ->|done..|]. rewrite E in Hcase.
  destruct Hcase as [[[= -> ->] _]|[? _]]; [|done].
  destruct (kfree_spec bi h1 free1 ((a, s) :: live) a s live) as (h2 & Hf & Hi2 & _); [done..|].
  exists (a + 16), h1, h2. split; [done|]. split; [done|].
  rewrite (first_fit_insert (request sz) free) in Hi2; [done|lia|done| |done].
  destruct (inv_good _ _ _ _ Hinv) as (Hok & _). apply Forall_app in Hok as [Hok _].
  eapply Forall_impl; [exact Hok|]. unfold ok_block. simpl. lia.
Qed.

(** [heap_init] establishes the heap invariant with one free block that spans the
    heap, and a second call changes nothing, as long as the static array is 16-byte
    aligned and lies below the first page handed out by the bump allocator. *)
Theorem heap_init_valid bi static_heap sz :
  0 < static_heap → static_heap `mod` 16 = 0 → 0 < sz < 2 ^ 63 →
  static_heap + sizeof_static_heap ≤ bump_start bi < 2 ^ 64 → bump_start bi `mod` 4096 = 0 →
  let h := heap_init static_heap sz heap_zero in
  heap_inv bi h [(static_heap, heap_size h)] [] ∧
  0 < heap_size h ≤ sizeof_static_heap ∧ heap_init static_heap sz h = h.
Proof. apply heap_init_spec. Qed.

Lemma heap_init_valid_witness :
  let h := heap_init 0x100000 (256 * 1024) heap_zero in
  heap_inv bi0 h [(0x100000, heap_size h)] [] ∧
  0 < heap_size h ≤ sizeof_static_heap ∧ heap_init 0x100000 (256 * 1024) h = h.
Proof. apply (heap_init_valid bi0 0x100000 (256 * 1024)); done. Defined.

Lemma kmalloc_correct_witness :
  ∃ p cap free' h',
    kmalloc bi0 100 h0 = Ret (p, h') ∧ p ≠ 0 ∧ p `mod` 16 = 0 ∧ 100 ≤ cap ∧
    heap_inv bi0 h' free' ((p - 16, cap + 16) :: []) ∧
    Forall (λ b, p + cap ≤ b.1 ∨ b.1 + b.2 ≤ p - 16) [].
Proof. apply (kmalloc_correct bi0 h0 _ [] 100 h0_inv); done. Defined.

Lemma kmalloc_kfree_roundtrip_witness :
  ∃ p h1 h2, kmalloc bi0 100 h0 = Ret (p, h1) ∧ kfree p h1 = Ret h2 ∧
             heap_inv bi0 h2 [(0x100000, 262144)] [].
Proof.
  apply (kmalloc_kfree_roundtrip bi0 h0 _ [] 100 (0x100000, 128) [(0x100080, 262016)] h0_inv); done.
Defined.

(** The heap after one allocation of 100 bytes. *)
Definition h1 : Heap := match kmalloc bi0 100 h0 with Ret (_, h) => h | _ => h0 end.

Lemma h1_inv : heap_inv bi0 h1 [(0x100080, 262016)] [(0x100000, 128)].
Proof.
  destruct (kmalloc_spec bi0 h0 _ [] 100 h0_inv) as (b & f & h & Hk & Hi & _ & _ & Hc); [done..|].
  destruct Hc as [[Hf _]|[Hf _]]; [|done]. injection Hf as <- <-.
  assert (Heq : h1 = h) by (unfold h1; by rewrite Hk). by rewrite Heq.
Qed.

Lemma kfree_correct_witness :
  ∃ h', kfree (0x100000 + 16) h1 = Ret h' ∧
        heap_inv bi0 h' (free_insert (0x100000, 128) [(0x100080, 262016)]) [] ∧
        (coalesced [(0x100080, 262016)] → coalesced (free_insert (0x100000, 128) [(0x100080, 262016)])).
Proof. apply (kfree_correct bi0 h1 _ [(0x100000, 128)] 0x100000 128 [] h1_inv). done. Defined.

(** ** Limits of the allocator *)

(** A request within 15 bytes of [SIZE_MAX] wraps to an empty payload: [kmalloc] answers
    a non-null pointer to a block of 16 bytes, all of it header. *)
Lemma kmalloc_size_wraps :
  ∃ h', kmalloc bi0 (2 ^ 64 - 1) h0 = Ret (0x100010, h') ∧
        fb_size <$> hmem h' !! 0x100000 = Some 16.
Proof. eexists. split; vm_compute; reflexivity. Qed.

(** With an empty free list [kmalloc] fails at once: it never grows the heap. *)
Lemma kmalloc_never_grows_empty bi sz h : free_list h = 0 → kmalloc bi sz h = Ret (0, h).
Proof. intros E. unfold kmalloc. by rewrite E. Qed.

(** Growth prepends pages that lie above the static heap: the free list is no longer
    sorted by address. *)
Lemma heap_growth_unsorted :
  (let! r := kmalloc bi0 (512 * 1024) h0 in
   let! first := of_opt (hmem r.2 !! free_list r.2) in
   Ret (negb (fb_next first =? 0) && (fb_next first <? free_list r.2))) = Ret true.
Proof. vm_compute. reflexivity. Qed.

(** * Ownership of heap allocations

    A client of the allocator keeps a list of the addresses it owns.  [mem_ok r h O] says
    that the heap is valid, has [r] bytes of room, and that the addresses of [O] are
    live and distinct; the lemmas are the client's view of [kmalloc] and [kfree]. *)


Section ownership.
Context {H : Type} `{AllocatorSpec H}.

Definition mem_ok (r : Z) (h : H) (O : list Z) : Prop :=
  ∃ L, alloc_inv r h L ∧ NoDup O ∧ Forall (λ a, is_Some (L !! a)) O.

Lemma mem_perm r h O O' : O ≡ₚ O' → mem_ok r h O → mem_ok r h O'.
Proof. intros Hp (L & Hi & Hn & Hl). exists L. by rewrite <- Hp. Qed.

Lemma mem_le r r' h O : r' ≤ r → mem_ok r h O → mem_ok r' h O.
Proof. intros Hr (L & Hi & HO). exists L. split; [by eapply alloc_inv_le|done]. Qed.

(** Forgetting an address is a leak, not an error. *)
Lemma mem_leak r h p O : mem_ok r h (p :: O) → mem_ok r h O.
Proof.
  intros (L & Hi & Hn & Hl). exists L. apply NoDup_cons in Hn as [_ Hn].
  by apply Forall_cons in Hl as [_ Hl].
Qed.

Lemma mem_alloc r h O n :
  mem_ok r h O → 0 < n < 2 ^ 62 → cost n ≤ r →
  ∃ p h', amalloc n h = (p, h') ∧ p ≠ 0 ∧ mem_ok (r - cost n) h' (p :: O).
Proof.
  intros (L & Hi & Hn & Hl) Hs Hc.
  destruct (amalloc_spec r h L n Hi Hs Hc) as (p & c & h' & He & Hp & HL & _ & Hi').
  exists p, h'. split_and!; [done..|]. exists (<[p := c]> L). split_and!; [done| |].
  - constructor; [|done]. intros Hin. rewrite Forall_forall in Hl.
    destruct (Hl p Hin) as [x Hx]. congruence.
  - constructor; [rewrite lookup_insert_eq; eauto|]. eapply Forall_impl; [exact Hl|].
    intros a Ha. simpl. destruct (decide (a = p)) as [->|Hne].
    + rewrite lookup_insert_eq. eauto.
    + by rewrite lookup_insert_ne.
Qed.

Lemma mem_nonnull r h O : mem_ok r h O → Forall (λ a, a ≠ 0) O.
Proof.
  intros (L & Hi & _ & Hl). eapply Forall_impl; [exact Hl|]. intros a [c Hc] ->.
  rewrite (alloc_nonnull _ _ _ Hi) in Hc. done.
Qed.

Lemma mem_NoDup r h O : mem_ok r h O → NoDup O.
Proof. by intros (L & _ & Hn & _). Qed.

Lemma mem_free r h p O : mem_ok r h (p :: O) → mem_ok r (afree p h) O.
Proof.
  intros (L & Hi & Hn & Hl). apply NoDup_cons in Hn as [Hp Hn].
  apply Forall_cons in Hl as [[c Hc] Hl]. exists (delete p L). split_and!; [|done|].
  - by eapply afree_spec.
  - rewrite Forall_forall in Hl |- *. intros a Ha. rewrite lookup_delete_ne; [by apply Hl|].
    intros ->. done.
Qed.
End ownership.
