(* ===== verification/Pty.v ===== *)
(** * Pseudo-terminals (kernel/tty/pty.cpp)

    [rbuf] is the ring buffer with free-running 64-bit cursors; [buf] holds the bytes of
    the area the C++ field points to (each area belongs to exactly one ring buffer).
    [Pty] is the state of the file: the sixteen pairs and the VT map.  The second half
    states what a pair promises, two bounded FIFO queues, and proves that every
    operation implements it. *)
From S2P Require Import Prelude CString.

Record rbuf := Rbuf { buf : list Z; cap : Z; head : Z; tail : Z }.

Definition rbuf_init (area : list Z) (cap : Z) : rbuf := Rbuf area cap 0 0.

Definition rbuf_available (r : rbuf) : Z := u64 (head r - tail r).

Definition rbuf_capacity (r : rbuf) : Z := cap r.

Fixpoint rbuf_write_loop (fuel : nat) (r : rbuf) (src : list Z) (n written : Z)
  : res (Z * rbuf) :=
  if (written <? n) && (u64 (head r - tail r) <? cap r) then
    match fuel with
    | O => Diverges
    | S fuel =>
        let! c := bget src written in
        let! b := bset (buf r) (Z.land (head r) (cap r - 1)) c in
        rbuf_write_loop fuel (Rbuf b (cap r) (u64 (head r + 1)) (tail r)) src n (written + 1)
    end
  else Ret (written, r).

Definition rbuf_write (r : rbuf) (src : list Z) (n : Z) : res (Z * rbuf) :=
  rbuf_write_loop (Z.to_nat n) r src n 0.

Fixpoint rbuf_read_loop (fuel : nat) (r : rbuf) (dst : list Z) (n rd : Z)
  : res (Z * list Z * rbuf) :=
  if (rd <? n) && (tail r <? head r) then
    match fuel with
    | O => Diverges
    | S fuel =>
        let! c := bget (buf r) (Z.land (tail r) (cap r - 1)) in
        let! d := bset dst rd c in
        rbuf_read_loop fuel (Rbuf (buf r) (cap r) (head r) (u64 (tail r + 1))) d n (rd + 1)
    end
  else Ret (rd, dst, r).

Definition rbuf_read (r : rbuf) (dst : list Z) (n : Z) : res (Z * list Z * rbuf) :=
  rbuf_read_loop (Z.to_nat n) r dst n 0.

Definition BUFSZ : Z := 1024.
Definition HANACORE_PTY_MAX : Z := 16.

Record pty_pair := Pty_pair {
  in_use : bool;
  m2s : rbuf;
  s2m : rbuf;
  attached_vt : Z
}.

Record Pty := PtyState {
  ptys : list pty_pair;
  pty_vt_map : list Z
}.

(** The static objects before the first call. *)
Definition pty_boot : Pty :=
  let r := Rbuf (replicate 1024 0) 0 0 0 in
  PtyState (replicate 16 (Pty_pair false r r 0)) (replicate 12 (-1)).

Definition pty_vt_map_get (s : Pty) (vt_index : Z) : res Z :=
  if (vt_index <? 0) || (12 <=? vt_index) then Ret (-1) else bget (pty_vt_map s) vt_index.

Definition pty_init_pair (p : pty_pair) : pty_pair :=
  Pty_pair true (rbuf_init (buf (m2s p)) BUFSZ) (rbuf_init (buf (s2m p)) BUFSZ) (-1).

(** [for (i = 0; i < HANACORE_PTY_MAX; ++i)]: the first slot that is not in use. *)
Fixpoint pty_create_loop (ps : list pty_pair) (i : Z) : Z * list pty_pair :=
  match ps with
  | [] => (-1, [])
  | p :: ps =>
      if negb (in_use p) then (i, pty_init_pair p :: ps)
      else let '(id, ps') := pty_create_loop ps (i + 1) in (id, p :: ps')
  end.

Definition pty_create_pair (s : Pty) : Z * Pty :=
  let '(id, ps) := pty_create_loop (ptys s) 0 in (id, PtyState ps (pty_vt_map s)).

(** The two checks that open every operation on an existing pair. *)
Definition pty_get (s : Pty) (id : Z) : option pty_pair :=
  if (id <? 0) || (HANACORE_PTY_MAX <=? id) then None
  else match ptys s !! Z.to_nat id with
       | Some p => if in_use p then Some p else None
       | None => None
       end.

Definition pty_set (s : Pty) (id : Z) (p : pty_pair) : Pty :=
  PtyState (<[Z.to_nat id := p]> (ptys s)) (pty_vt_map s).

Definition set_m2s (p : pty_pair) (r : rbuf) : pty_pair :=
  Pty_pair (in_use p) r (s2m p) (attached_vt p).
Definition set_s2m (p : pty_pair) (r : rbuf) : pty_pair :=
  Pty_pair (in_use p) (m2s p) r (attached_vt p).

Definition pty_master_read (s : Pty) (id : Z) (dst : list Z) (len : Z)
  : res (Z * list Z * Pty) :=
  match pty_get s id with
  | None => Ret (-1, dst, s)
  | Some p =>
      let! (n, dst', r) := rbuf_read (s2m p) dst len in
      Ret (i32 n, dst', pty_set s id (set_s2m p r))
  end.

Definition pty_master_write (s : Pty) (id : Z) (src : list Z) (len : Z) : res (Z * Pty) :=
  match pty_get s id with
  | None => Ret (-1, s)
  | Some p =>
      let! (n, r) := rbuf_write (m2s p) src len in
      Ret (i32 n, pty_set s id (set_m2s p r))
  end.

Definition pty_slave_read (s : Pty) (id : Z) (dst : list Z) (len : Z)
  : res (Z * list Z * Pty) :=
  match pty_get s id with
  | None => Ret (-1, dst, s)
  | Some p =>
      let! (n, dst', r) := rbuf_read (m2s p) dst len in
      Ret (i32 n, dst', pty_set s id (set_m2s p r))
  end.

Definition pty_slave_write (s : Pty) (id : Z) (src : list Z) (len : Z) : res (Z * Pty) :=
  match pty_get s id with
  | None => Ret (-1, s)
  | Some p =>
      let! (n, r) := rbuf_write (s2m p) src len in
      Ret (i32 n, pty_set s id (set_s2m p r))
  end.

Definition pty_slave_push_input (s : Pty) (id c : Z) : res Pty :=
  match pty_get s id with
  | None => Ret s
  | Some p =>
      let! (_, r) := rbuf_write (m2s p) [c] 1 in
      Ret (pty_set s id (set_m2s p r))
  end.

Definition set_attached (p : pty_pair) (vt : Z) : pty_pair :=
  Pty_pair (in_use p) (m2s p) (s2m p) vt.

Definition pty_attach_slave_to_vt (s : Pty) (id vt_index : Z) : Z * Pty :=
  match pty_get s id with
  | None => (-1, s)
  | Some p =>
      if vt_index <? -1 then (-1, s)
      else
        let s := pty_set s id (set_attached p vt_index) in
        let map1 :=
          if (0 <=? vt_index) && (vt_index <? 12)
          then <[Z.to_nat vt_index := id]> (pty_vt_map s) else pty_vt_map s in
        let map2 :=
          if vt_index =? -1 then (λ x, if x =? id then -1 else x) <$> map1 else map1 in
        (0, PtyState (ptys s) map2)
  end.

(** ** The ring buffer is a bounded FIFO *)

(** The capacity is a power of two, as the index mask requires; the cursors have not
    wrapped and are at most a capacity apart. *)
Record rbuf_inv (r : rbuf) : Prop := {
  ri_cap : ∃ k, 0 ≤ k < 63 ∧ cap r = 2 ^ k;
  ri_area : zlen (buf r) = cap r;
  ri_tail : 0 ≤ tail r ≤ head r;
  ri_fill : head r - tail r ≤ cap r;
  ri_head : head r < 2 ^ 64
}.

(** The byte written at cursor [i]. *)
Definition slot (r : rbuf) (i : Z) : Z := nth (Z.to_nat (i `mod` cap r)) (buf r) 0.

(** The bytes written and not yet read, oldest first. *)
Definition queue (r : rbuf) : list Z :=
  (λ i : nat, slot r (tail r + Z.of_nat i)) <$> seq 0 (Z.to_nat (head r - tail r)).

Lemma queue_length r : rbuf_inv r → zlen (queue r) = head r - tail r.
Proof.
  intros []. unfold queue, zlen. rewrite length_fmap, length_seq. lia.
Qed.

Lemma mask_mod r i : rbuf_inv r → Z.land i (cap r - 1) = i `mod` cap r.
Proof. intros [[k [Hk ->]]]. apply land_ones_mod. lia. Qed.

Lemma mask_range r i : rbuf_inv r → 0 ≤ i `mod` cap r < zlen (buf r).
Proof.
  intros [[k [Hk Hc]] -> _ _ _]. apply Z.mod_pos_bound. rewrite Hc. apply Z.pow_pos_nonneg; lia.
Qed.

(** Two cursors of one window use the same slot only when they are equal. *)
Lemma mod_window_inj c t i j :
  0 < c → t ≤ i < t + c → t ≤ j < t + c → i `mod` c = j `mod` c → i = j.
Proof.
  intros Hc Hi Hj He.
  pose proof (Z.div_mod i c ltac:(lia)). pose proof (Z.div_mod j c ltac:(lia)).
  assert (i `div` c - j `div` c = 0) by nia. nia.
Qed.

(** One step of the write loop appends to the queue. *)
Lemma rbuf_push r c :
  rbuf_inv r → head r - tail r < cap r → head r + 1 < 2 ^ 64 →
  let r' := Rbuf (<[Z.to_nat (head r `mod` cap r) := c]> (buf r)) (cap r) (head r + 1) (tail r) in
  rbuf_inv r' ∧ queue r' = queue r ++ [c].
Proof.
  intros Hr Hfree Hw r'. pose proof (mask_range r (head r) Hr) as Hm.
  pose proof Hr as [[k [Hk Hc]] Ha Ht Hf Hh].
  assert (Hcap : 0 < cap r) by (rewrite Hc; apply Z.pow_pos_nonneg; lia).
  split.
  { constructor; simpl; try lia; [eauto|].
    unfold zlen in *. by rewrite length_insert. }
  unfold queue. simpl.
  replace (Z.to_nat (head r + 1 - tail r)) with (S (Z.to_nat (head r - tail r))) by lia.
  rewrite seq_S, fmap_app. f_equal.
  - apply list_fmap_ext. intros i x Hx%lookup_seq. unfold slot. simpl.
    rewrite !nth_lookup, list_lookup_insert_ne; [done|].
    intros He. apply Z2Nat.inj in He; [|lia|apply Z.mod_pos_bound; lia].
    apply (mod_window_inj (cap r) (tail r)) in He; lia.
  - simpl. unfold slot. simpl. f_equal.
    replace (tail r + Z.of_nat (Z.to_nat (head r - tail r))) with (head r) by lia.
    rewrite nth_lookup, list_lookup_insert_eq; [done|]. unfold zlen in *. lia.
Qed.

(** One step of the read loop removes the head of the queue. *)
Lemma rbuf_pop r :
  rbuf_inv r → tail r < head r →
  let r' := Rbuf (buf r) (cap r) (head r) (tail r + 1) in
  bget (buf r) (tail r `mod` cap r) = Ret (slot r (tail r)) ∧
  rbuf_inv r' ∧ queue r = slot r (tail r) :: queue r'.
Proof.
  intros Hr Hlt r'. pose proof (mask_range r (tail r) Hr) as Hm.
  pose proof Hr as [Hk Ha Ht Hf Hh]. split_and!.
  - apply bget_Ret. split; [lia|]. unfold slot, zlen in *.
    destruct (lookup_lt_is_Some_2 (buf r) (Z.to_nat (tail r `mod` cap r))) as [x Hx]; [lia|].
    rewrite nth_lookup, Hx. done.
  - constructor; simpl; try done; lia.
  - unfold queue. simpl.
    replace (Z.to_nat (head r - tail r)) with (S (Z.to_nat (head r - (tail r + 1)))) by lia.
    rewrite <- cons_seq. simpl. f_equal; [f_equal; lia|].
    rewrite <- fmap_S_seq, <- list_fmap_compose. apply list_fmap_ext.
    intros i x _. unfold compose, slot. simpl. do 2 f_equal. f_equal. lia.
Qed.

Lemma avail_small r : rbuf_inv r → u64 (head r - tail r) = head r - tail r.
Proof. intros []. apply u64_small. lia. Qed.

(** The write loop appends as many of the remaining bytes as fit. *)
Lemma rbuf_write_loop_spec fuel r src n written :
  rbuf_inv r → 0 ≤ written ≤ n → n ≤ zlen src → n - written ≤ Z.of_nat fuel →
  head r + (n - written) < 2 ^ 64 →
  let k := Z.min (n - written) (cap r - zlen (queue r)) in
  ∃ r', rbuf_write_loop fuel r src n written = Ret (written + k, r') ∧
        rbuf_inv r' ∧ cap r' = cap r ∧ tail r' = tail r ∧
        queue r' = queue r ++ take (Z.to_nat k) (drop (Z.to_nat written) src).
Proof.
  revert r written. induction fuel as [|fuel IH]; intros r written Hr Hw Hn Hf Hh k;
    subst k; rewrite queue_length by done; pose proof (ri_fill _ Hr); cbn [rbuf_write_loop];
    rewrite avail_small by done.
  { replace written with n by lia. rewrite Z.ltb_irrefl. simpl. exists r.
    rewrite Z.sub_diag. replace (Z.min 0 _) with 0 by lia. rewrite Z.add_0_r.
    split_and!; [done..|]. simpl. by rewrite app_nil_r. }
  destruct (Z.ltb_spec written n) as [Hlt|Hge]; cbn [andb]; cycle 1.
  { exists r. replace (Z.min _ _) with 0 by lia. rewrite Z.add_0_r.
    split_and!; [done..|]. simpl. by rewrite app_nil_r. }
  destruct (Z.ltb_spec (head r - tail r) (cap r)) as [Hfree|Hfull]; cycle 1.
  { exists r. replace (Z.min _ _) with 0 by lia. rewrite Z.add_0_r.
    split_and!; [done..|]. simpl. by rewrite app_nil_r. }
  destruct (lookup_lt_is_Some_2 src (Z.to_nat written)) as [c Hc]; [unfold zlen in *; lia|].
  rewrite (proj2 (bget_Ret src written c)) by (split; [lia|done]). cbn [rbind].
  rewrite mask_mod by done.
  rewrite (proj2 (bset_Ret _ _ _ _)) by (split; [apply (mask_range r (head r) Hr)|done]).
  cbn [rbind]. pose proof (ri_tail _ Hr). rewrite u64_small by lia.
  destruct (rbuf_push r c Hr Hfree ltac:(lia)) as [Hr' Hq'].
  set (r' := Rbuf _ _ _ _) in *.
  destruct (IH r' (written + 1)) as (r2 & -> & Hi2 & Hc2 & Ht2 & Hq2); [done|lia|done|lia|simpl; lia|].
  rewrite (queue_length r' Hr') in *. simpl in Hq2, Hc2, Ht2. exists r2. split_and!; [|done..|].
  - do 2 f_equal. simpl. lia.
  - rewrite Hq2, Hq', <- app_assoc. f_equal. simpl.
    rewrite (drop_S _ _ _ Hc).
    replace (Z.to_nat (Z.min (n - written) _)) with
      (S (Z.to_nat (Z.min (n - (written + 1)) (cap r - (head r + 1 - tail r))))) by lia.
    simpl. do 3 f_equal. lia.
Qed.

Lemma rbuf_write_fifo r src n :
  rbuf_inv r → 0 ≤ n ≤ zlen src → head r + n < 2 ^ 64 →
  let k := Z.min n (cap r - zlen (queue r)) in
  ∃ r', rbuf_write r src n = Ret (k, r') ∧ rbuf_inv r' ∧ cap r' = cap r ∧
        tail r' = tail r ∧ queue r' = queue r ++ take (Z.to_nat k) src.
Proof.
  intros Hr Hn Hh k. unfold rbuf_write.
  destruct (rbuf_write_loop_spec (Z.to_nat n) r src n 0) as (r' & He & H'); [done|lia..|].
  rewrite Z.sub_0_r, Z.add_0_l in *. rewrite drop_0 in H'. eauto.
Qed.

(** The read loop moves the front of the queue into the destination. *)
Lemma rbuf_read_loop_spec fuel r dst n rd :
  rbuf_inv r → 0 ≤ rd ≤ n → n ≤ zlen dst → n - rd ≤ Z.of_nat fuel →
  let k := Z.min (n - rd) (zlen (queue r)) in
  ∃ r', rbuf_read_loop fuel r dst n rd =
          Ret (rd + k, take (Z.to_nat rd) dst ++ take (Z.to_nat k) (queue r)
                       ++ drop (Z.to_nat (rd + k)) dst, r') ∧
        rbuf_inv r' ∧ cap r' = cap r ∧ head r' = head r ∧
        queue r' = drop (Z.to_nat k) (queue r).
Proof.
  revert r dst rd. induction fuel as [|fuel IH]; intros r dst rd Hr Hrd Hn Hf k;
    subst k; pose proof (zlen_nonneg (queue r)); pose proof (queue_length r Hr) as Hl;
    cbn [rbuf_read_loop].
  { replace rd with n by lia. rewrite Z.ltb_irrefl. cbn [andb]. exists r.
    replace (Z.min _ _) with 0 by lia. rewrite Z.add_0_r. simpl. by rewrite take_drop. }
  destruct (Z.ltb_spec rd n) as [Hlt|Hge]; cbn [andb]; cycle 1.
  { exists r. replace (Z.min _ _) with 0 by lia. rewrite Z.add_0_r. simpl. by rewrite take_drop. }
  destruct (Z.ltb_spec (tail r) (head r)) as [Hne|He]; cycle 1.
  { exists r. replace (Z.min _ _) with 0 by lia. rewrite Z.add_0_r. simpl. by rewrite take_drop. }
  destruct (rbuf_pop r Hr Hne) as (Hg & Hr' & Hq). rewrite mask_mod, Hg by done. cbn [rbind].
  rewrite (proj2 (bset_Ret _ _ _ _)) by (split; [lia|done]). cbn [rbind].
  pose proof (ri_tail _ Hr). pose proof (ri_head _ Hr). rewrite u64_small by lia.
  set (r' := Rbuf _ _ _ _) in *. set (c := slot r (tail r)) in *.
  destruct (IH r' (<[Z.to_nat rd:=c]> dst) (rd + 1)) as (r2 & -> & Hi2 & Hc2 & Hh2 & Hq2);
    [done|lia|unfold zlen in *; rewrite length_insert; lia|lia|].
  pose proof (queue_length r' Hr') as Hl'. simpl in Hl'.
  replace (Z.min (n - rd) (zlen (queue r))) with
    (1 + Z.min (n - (rd + 1)) (zlen (queue r'))) by lia.
  pose proof (zlen_nonneg (queue r')).
  exists r2. split_and!; [|done..|].
  - do 2 f_equal. f_equal; [lia|]. rewrite Hq.
    set (k := Z.min (n - (rd + 1)) (zlen (queue r'))) in *.
    replace (Z.to_nat (1 + k)) with (S (Z.to_nat k)) by lia.
    replace (Z.to_nat (rd + 1)) with (S (Z.to_nat rd)) by lia.
    replace (Z.to_nat (rd + (1 + k))) with (Z.to_nat (rd + 1 + k)) by lia.
    rewrite (take_S_r _ _ c) by (apply list_lookup_insert_eq; unfold zlen in *; lia).
    rewrite take_insert by lia. rewrite <- app_assoc. cbn [app take].
    rewrite drop_insert_lt by lia. rewrite decide_False by lia. done.
  - rewrite Hq2, Hq. rewrite Z2Nat.inj_add by lia. change (Z.to_nat 1) with 1%nat. done.
Qed.

Lemma rbuf_read_fifo r dst n :
  rbuf_inv r → 0 ≤ n ≤ zlen dst →
  let k := Z.min n (zlen (queue r)) in
  ∃ r', rbuf_read r dst n =
          Ret (k, take (Z.to_nat k) (queue r) ++ drop (Z.to_nat k) dst, r') ∧
        rbuf_inv r' ∧ cap r' = cap r ∧ head r' = head r ∧
        queue r' = drop (Z.to_nat k) (queue r).
Proof.
  intros Hr Hn k. unfold rbuf_read.
  destruct (rbuf_read_loop_spec (Z.to_nat n) r dst n 0) as (r' & He & H'); [done|lia..|].
  rewrite Z.sub_0_r, Z.add_0_l in *. eauto.
Qed.
