(* ===== verification/PtySpec.v ===== *)
(** * What a pseudo-terminal promises, and that pty.cpp keeps it

    The abstract state gives every pair in use two FIFO queues of at most [BUFSZ] bytes
    and keeps the VT map.  [pty_run_refines] is the refinement: any sequence of calls
    returns the same results on the ring buffers as on the queues. *)
From S2P Require Import Prelude CString Pty.

(** ** Abstract state and operations *)

Definition chan : Type := list Z * list Z.   (* master to slave, slave to master *)
Record APty := APtyState { chans : list (option chan); vmap : list Z }.

Definition apty_boot : APty := APtyState (replicate 16 None) (replicate 12 (-1)).

(** The bytes of [data] that fit behind [q], and the front of [q] a read takes. *)
Definition enq (q data : list Z) : Z * list Z :=
  let k := Z.min (zlen data) (BUFSZ - zlen q) in (k, q ++ take (Z.to_nat k) data).
Definition deq (q : list Z) (n : Z) : list Z * list Z :=
  let k := Z.to_nat (Z.min n (zlen q)) in (take k q, drop k q).

(** An identifier names a pair in use. *)
Definition chan_at (a : APty) (id : Z) : option chan :=
  if decide (0 ≤ id < 16) then mjoin (chans a !! Z.to_nat id) else None.
Definition chan_put (a : APty) (id : Z) (c : chan) : APty :=
  APtyState (<[Z.to_nat id := Some c]> (chans a)) (vmap a).

(** The calls of pty.hpp; a read passes a destination of the length it asks for. *)
Inductive call :=
| Create
| MasterWrite (id : Z) (data : list Z)
| SlaveWrite (id : Z) (data : list Z)
| MasterRead (id : Z) (n : nat)
| SlaveRead (id : Z) (n : nat)
| PushInput (id : Z) (c : Z)
| Attach (id vt : Z).

(** What a call returns: its result, and the bytes a read delivered. *)
Definition answer : Type := Z * list Z.

Definition free_chan (a : APty) : option nat :=
  fst <$> list_find (λ o : option chan, o = None) (chans a).

Definition acall (a : APty) (c : call) : answer * APty :=
  match c with
  | Create =>
      match free_chan a with
      | Some i => ((Z.of_nat i, []), chan_put a (Z.of_nat i) ([], []))
      | None => ((-1, []), a)
      end
  | MasterWrite id data =>
      match chan_at a id with
      | Some (q1, q2) => let '(k, q) := enq q1 data in ((k, []), chan_put a id (q, q2))
      | None => ((-1, []), a)
      end
  | SlaveWrite id data =>
      match chan_at a id with
      | Some (q1, q2) => let '(k, q) := enq q2 data in ((k, []), chan_put a id (q1, q))
      | None => ((-1, []), a)
      end
  | MasterRead id n =>
      match chan_at a id with
      | Some (q1, q2) =>
          let '(d, q) := deq q2 (Z.of_nat n) in ((zlen d, d), chan_put a id (q1, q))
      | None => ((-1, []), a)
      end
  | SlaveRead id n =>
      match chan_at a id with
      | Some (q1, q2) =>
          let '(d, q) := deq q1 (Z.of_nat n) in ((zlen d, d), chan_put a id (q, q2))
      | None => ((-1, []), a)
      end
  | PushInput id c =>
      match chan_at a id with
      | Some (q1, q2) => ((0, []), chan_put a id ((enq q1 [c]).2, q2))
      | None => ((0, []), a)
      end
  | Attach id vt =>
      match chan_at a id with
      | Some _ =>
          if decide (vt < -1) then ((-1, []), a)
          else ((0, []),
                APtyState (chans a)
                  (if decide (vt = -1) then (λ x, if decide (x = id) then -1 else x) <$> vmap a
                   else if decide (vt < 12) then <[Z.to_nat vt := id]> (vmap a) else vmap a))
      | None => ((-1, []), a)
      end
  end.

Fixpoint arun (a : APty) (cs : list call) : list answer :=
  match cs with
  | [] => []
  | c :: cs => let '(r, a') := acall a c in r :: arun a' cs
  end.

(** ** The same calls on pty.cpp *)

Definition ccall (s : Pty) (c : call) : res (answer * Pty) :=
  match c with
  | Create => let '(id, s') := pty_create_pair s in Ret ((id, []), s')
  | MasterWrite id data =>
      let! (k, s') := pty_master_write s id data (zlen data) in Ret ((k, []), s')
  | SlaveWrite id data =>
      let! (k, s') := pty_slave_write s id data (zlen data) in Ret ((k, []), s')
  | MasterRead id n =>
      let! (k, d, s') := pty_master_read s id (replicate n 0) (Z.of_nat n) in
      Ret ((k, take (Z.to_nat k) d), s')
  | SlaveRead id n =>
      let! (k, d, s') := pty_slave_read s id (replicate n 0) (Z.of_nat n) in
      Ret ((k, take (Z.to_nat k) d), s')
  | PushInput id c => let! s' := pty_slave_push_input s id c in Ret ((0, []), s')
  | Attach id vt => let '(k, s') := pty_attach_slave_to_vt s id vt in Ret ((k, []), s')
  end.

Fixpoint crun (s : Pty) (cs : list call) : res (list answer) :=
  match cs with
  | [] => Ret []
  | c :: cs => let! (r, s') := ccall s c in let! rs := crun s' cs in Ret (r :: rs)
  end.

(** The bytes a call can add to one ring buffer. *)
Definition weight (c : call) : Z :=
  match c with
  | MasterWrite _ d | SlaveWrite _ d => zlen d
  | PushInput _ _ => 1
  | _ => 0
  end.
Definition weights (cs : list call) : Z := foldr (λ c w, weight c + w) 0 cs.

(** ** Representation: at most [w] bytes went through each ring buffer *)

Definition ring (w : Z) (r : rbuf) (q : list Z) : Prop :=
  rbuf_inv r ∧ cap r = BUFSZ ∧ head r ≤ w ∧ queue r = q.

Definition pair_repr (w : Z) (p : pty_pair) (o : option chan) : Prop :=
  match o with
  | None => in_use p = false ∧ zlen (buf (m2s p)) = BUFSZ ∧ zlen (buf (s2m p)) = BUFSZ
  | Some (q1, q2) => in_use p = true ∧ ring w (m2s p) q1 ∧ ring w (s2m p) q2
  end.

Definition map_ok (a : APty) : Prop :=
  length (vmap a) = 12%nat ∧ Forall (λ id, id = -1 ∨ is_Some (chan_at a id)) (vmap a).

Record pty_repr (w : Z) (s : Pty) (a : APty) : Prop := {
  pr_pairs : Forall2 (pair_repr w) (ptys s) (chans a);
  pr_count : length (chans a) = 16%nat;
  pr_map : pty_vt_map s = vmap a;
  pr_map_ok : map_ok a
}.

Lemma ring_mono w w' r q : w ≤ w' → ring w r q → ring w' r q.
Proof. intros Hw (? & ? & ? & ?). split_and!; [done..|lia|done]. Qed.

Lemma pipe_ring_length w r q : ring w r q → 0 ≤ zlen q ≤ BUFSZ.
Proof.
  intros (Hr & Hc & _ & <-). rewrite queue_length by done. pose proof (ri_fill _ Hr).
  pose proof (ri_tail _ Hr). lia.
Qed.

Lemma pair_mono w w' p o : w ≤ w' → pair_repr w p o → pair_repr w' p o.
Proof.
  intros Hw. destruct o as [[q1 q2]|]; [|done]. intros (? & ? & ?).
  split_and!; eauto using ring_mono.
Qed.

Lemma rbuf_init_ring area w :
  zlen area = BUFSZ → 0 ≤ w → ring w (rbuf_init area BUFSZ) [].
Proof.
  intros Ha Hw. split_and!; [|done|simpl; lia|done].
  constructor; simpl; try (unfold BUFSZ in *; lia). exists 10. split; [lia|done].
Qed.

Lemma ring_write w r q data :
  ring w r q → w + zlen data < 2 ^ 64 →
  ∃ r', rbuf_write r data (zlen data) = Ret ((enq q data).1, r') ∧
        ring (w + zlen data) r' (enq q data).2.
Proof.
  intros (Hr & Hc & Hh & <-) Hw.
  destruct (rbuf_write_fifo r data (zlen data)) as (r' & He & Hi & Hc' & Ht & Hq);
    [done|pose proof (zlen_nonneg data); lia|lia|].
  exists r'. rewrite He, Hc. split; [done|]. split_and!; [done|by rewrite Hc'| |by rewrite Hq, Hc].
  pose proof (queue_length r' Hi) as Hl. rewrite Ht, Hq in Hl.
  rewrite zlen_app, queue_length in Hl by done. unfold zlen in *.
  rewrite length_take in Hl. lia.
Qed.

Lemma ring_read w r q n :
  ring w r q →
  ∃ r' d, rbuf_read r (replicate n 0) (Z.of_nat n) = Ret (zlen (deq q (Z.of_nat n)).1, d, r') ∧
          take (length (deq q (Z.of_nat n)).1) d = (deq q (Z.of_nat n)).1 ∧
          ring w r' (deq q (Z.of_nat n)).2.
Proof.
  intros (Hr & Hc & Hh & <-).
  destruct (rbuf_read_fifo r (replicate n 0) (Z.of_nat n)) as (r' & He & Hi & Hc' & Ht & Hq);
    [done|unfold zlen; rewrite length_replicate; lia|].
  set (k := Z.min (Z.of_nat n) (zlen (queue r))) in *.
  pose proof (zlen_nonneg (queue r)) as Hnn.
  assert (Hl : length (take (Z.to_nat k) (queue r)) = Z.to_nat k)
    by (rewrite length_take; unfold zlen in *; lia).
  eexists r', _. unfold deq. cbn [fst snd]. fold k. split_and!.
  - rewrite He. unfold zlen. rewrite Hl, Z2Nat.id by lia. done.
  - by rewrite take_app_length.
  - split_and!; [done|by rewrite Hc'|by rewrite Ht|done].
Qed.

(** ** The operations, one by one *)

Section ops.
  Context (w : Z) (s : Pty) (a : APty) (Hrep : pty_repr w s a).

Lemma repr_mono w' : w ≤ w' → pty_repr w' s a.
Proof.
  intros Hw. destruct Hrep as [Hp Hc Hm Ho]. split; [|done..].
  eapply Forall2_impl; [exact Hp|]. intros. by eapply pair_mono.
Qed.

Lemma pty_get_None id : chan_at a id = None → pty_get s id = None.
Proof.
  unfold chan_at, pty_get, HANACORE_PTY_MAX. destruct Hrep as [Hp Hc _ _]. intros Hn.
  destruct (Z.ltb_spec id 0); [done|]. destruct (Z.leb_spec 16 id); [done|]. cbn [orb].
  rewrite decide_True in Hn by lia.
  destruct (ptys s !! Z.to_nat id) as [p|] eqn:Hs; [|done].
  destruct (Forall2_lookup_l _ _ _ _ _ Hp Hs) as (o & Ho & Hr). rewrite Ho in Hn.
  destruct o as [[]|]; [done|]. by destruct Hr as [-> _].
Qed.

Lemma pty_get_Some id q1 q2 :
  chan_at a id = Some (q1, q2) →
  0 ≤ id < 16 ∧ ∃ p, pty_get s id = Some p ∧ pair_repr w p (Some (q1, q2)).
Proof.
  unfold chan_at, pty_get, HANACORE_PTY_MAX. destruct Hrep as [Hp Hc _ _].
  case_decide as Hid; [|done]. intros Hn. split; [done|].
  destruct (chans a !! Z.to_nat id) as [o|] eqn:Ha; [|done]. simpl in Hn. subst o.
  destruct (Forall2_lookup_r _ _ _ _ _ Hp Ha) as (p & Hs & Hr).
  exists p. destruct (Z.ltb_spec id 0); [lia|]. destruct (Z.leb_spec 16 id); [lia|].
  cbn [orb]. rewrite Hs. destruct Hr as (Hu & H1 & H2). rewrite Hu. done.
Qed.

Lemma chan_put_at id id' c :
  0 ≤ id < 16 → is_Some (chan_at a id') → is_Some (chan_at (chan_put a id c) id').
Proof.
  intros Hid. unfold chan_at, chan_put. simpl. case_decide; [|by intros []].
  destruct (decide (id = id')) as [->|Hne].
  - intros _. rewrite list_lookup_insert_eq; [eauto|]. rewrite (pr_count _ _ _ Hrep). lia.
  - rewrite list_lookup_insert_ne by lia. done.
Qed.

Lemma map_ok_put id c : 0 ≤ id < 16 → map_ok a → map_ok (chan_put a id c).
Proof.
  intros Hid [Hl Hm]. split; [done|]. eapply Forall_impl; [exact Hm|].
  intros v [->|Hv]; [by left|]. right. by apply chan_put_at.
Qed.

(** Replacing a pair and its queues keeps the representation. *)
Lemma repr_set w' id p c :
  w ≤ w' → 0 ≤ id < 16 → pair_repr w' p (Some c) →
  pty_repr w' (pty_set s id p) (chan_put a id c).
Proof.
  intros Hw Hid Hp. pose proof (repr_mono w' Hw) as [Hps Hc Hm Ho].
  split; simpl; [|by rewrite length_insert|done|by apply map_ok_put].
  by apply Forall2_insert.
Qed.

Lemma create_refines :
  0 ≤ w → ∃ s', ccall s Create = Ret ((acall a Create).1, s') ∧
                pty_repr w s' (acall a Create).2.
Proof.
  intros Hw. unfold ccall, acall, pty_create_pair, free_chan.
  assert (Hloop : ∀ ps os i, Forall2 (pair_repr w) ps os →
    match list_find (λ o : option chan, o = None) os with
    | Some (k, _) => ∃ p, ps !! k = Some p ∧ in_use p = false ∧
        pty_create_loop ps i = (i + Z.of_nat k, <[k := pty_init_pair p]> ps)
    | None => pty_create_loop ps i = (-1, ps)
    end).
  { intros ps os i HF. revert i. induction HF as [|p o ps os Hpo _ IH]; intros i; [done|].
    cbn [list_find pty_create_loop]. destruct o as [[q1 q2]|]; simpl in Hpo.
    - destruct Hpo as (-> & _). cbn [negb]. rewrite decide_False by done.
      specialize (IH (i + 1)). destruct (list_find _ os) as [[k y]|]; simpl.
      + destruct IH as (p' & ? & ? & ->). exists p'. split_and!; [done..|].
        simpl. f_equal. lia.
      + by rewrite IH.
    - destruct Hpo as (Hu & _). rewrite Hu. cbn [negb]. rewrite decide_True by done.
      exists p. split_and!; [done..|]. simpl. f_equal. lia. }
  specialize (Hloop _ _ 0 (pr_pairs _ _ _ Hrep)).
  destruct (list_find _ (chans a)) as [[k o]|] eqn:Hf; simpl.
  - destruct Hloop as (p & Hp & Hu & ->).
    apply list_find_Some in Hf as (Hk & -> & _).
    destruct (Forall2_lookup_l _ _ _ _ _ (pr_pairs _ _ _ Hrep) Hp) as (o & Ho & Hr).
    rewrite Hk in Ho. injection Ho as <-. destruct Hr as (_ & Hb1 & Hb2).
    pose proof (lookup_lt_Some _ _ _ Hk) as Hlt. rewrite (pr_count _ _ _ Hrep) in Hlt.
    eexists. split; [done|].
    replace (PtyState _ _) with (pty_set s (Z.of_nat k) (pty_init_pair p))
      by (unfold pty_set; by rewrite Nat2Z.id).
    apply repr_set; [done|lia|]. simpl. split_and!; [done|by apply rbuf_init_ring..].
  - rewrite Hloop. eexists. split; [done|]. by destruct s.
Qed.

(** The four transfers share two shapes: a write through a ring buffer of the pair and
    a read from one. *)
Lemma write_refines c id data :
  (c = MasterWrite id data ∨ c = SlaveWrite id data) → w + weight c < 2 ^ 64 → 0 ≤ w →
  ∃ s', ccall s c = Ret ((acall a c).1, s') ∧ pty_repr (w + weight c) s' (acall a c).2.
Proof.
  intros Hc Hw Hw0. pose proof (zlen_nonneg data).
  destruct (chan_at a id) as [[q1 q2]|] eqn:Hch.
  - destruct (pty_get_Some id q1 q2 Hch) as (Hid & p & Hg & (Hu & H1 & H2)).
    destruct Hc as [-> | ->]; cbn [weight] in *; unfold ccall, acall, pty_master_write,
      pty_slave_write; rewrite Hg, Hch.
    + destruct (ring_write w (m2s p) q1 data H1 Hw) as (r' & -> & Hr').
      pose proof (pipe_ring_length _ _ _ H1). cbn [rbind].
      eexists. split; [rewrite i32_small by (unfold enq, BUFSZ in *; cbn [fst]; lia); done|].
      apply repr_set; [lia|done|]. split_and!; simpl; [done..|]. eapply ring_mono; [|done]. lia.
    + destruct (ring_write w (s2m p) q2 data H2 Hw) as (r' & -> & Hr').
      pose proof (pipe_ring_length _ _ _ H2). cbn [rbind].
      eexists. split; [rewrite i32_small by (unfold enq, BUFSZ in *; cbn [fst]; lia); done|].
      apply repr_set; [lia|done|]. split_and!; simpl; [done| |done]. eapply ring_mono; [|done]. lia.
  - pose proof (pty_get_None id Hch) as Hg.
    destruct Hc as [-> | ->]; unfold ccall, acall, pty_master_write, pty_slave_write;
      rewrite Hg, Hch; eexists; (split; [done|]); apply repr_mono; simpl; lia.
Qed.

Lemma deq_length q n : 0 ≤ n → length (deq q n).1 = Z.to_nat (Z.min n (zlen q)).
Proof. intros. unfold deq. simpl. rewrite length_take. unfold zlen. lia. Qed.

Lemma read_refines c id n :
  (c = MasterRead id n ∨ c = SlaveRead id n) →
  ∃ s', ccall s c = Ret ((acall a c).1, s') ∧ pty_repr w s' (acall a c).2.
Proof.
  intros Hc. destruct (chan_at a id) as [[q1 q2]|] eqn:Hch.
  - destruct (pty_get_Some id q1 q2 Hch) as (Hid & p & Hg & (Hu & H1 & H2)).
    destruct Hc as [-> | ->]; unfold ccall, acall, pty_master_read, pty_slave_read;
      rewrite Hg, Hch.
    + destruct (ring_read w (s2m p) q2 n H2) as (r' & d & -> & Hd & Hr').
      pose proof (pipe_ring_length _ _ _ H2). pose proof (deq_length q2 (Z.of_nat n) ltac:(lia)).
      destruct (deq q2 _) as [dq qr]. cbn [rbind fst snd] in *.
      rewrite i32_small by (unfold zlen, BUFSZ in *; lia).
      unfold zlen at 2. rewrite Nat2Z.id, Hd. eexists. split; [done|].
      apply repr_set; [lia|done|]. by split_and!.
    + destruct (ring_read w (m2s p) q1 n H1) as (r' & d & -> & Hd & Hr').
      pose proof (pipe_ring_length _ _ _ H1). pose proof (deq_length q1 (Z.of_nat n) ltac:(lia)).
      destruct (deq q1 _) as [dq qr]. cbn [rbind fst snd] in *.
      rewrite i32_small by (unfold zlen, BUFSZ in *; lia).
      unfold zlen at 2. rewrite Nat2Z.id, Hd. eexists. split; [done|].
      apply repr_set; [lia|done|]. by split_and!.
  - pose proof (pty_get_None id Hch) as Hg.
    destruct Hc as [-> | ->]; unfold ccall, acall, pty_master_read, pty_slave_read;
      rewrite Hg, Hch; eexists; (split; [done|done]).
Qed.

Lemma push_refines id c :
  w + 1 < 2 ^ 64 → 0 ≤ w →
  ∃ s', ccall s (PushInput id c) = Ret ((acall a (PushInput id c)).1, s') ∧
        pty_repr (w + 1) s' (acall a (PushInput id c)).2.
Proof.
  intros Hw Hw0. unfold ccall, acall, pty_slave_push_input.
  destruct (chan_at a id) as [[q1 q2]|] eqn:Hch.
  - destruct (pty_get_Some id q1 q2 Hch) as (Hid & p & -> & (Hu & H1 & H2)).
    destruct (ring_write w (m2s p) q1 [c] H1 Hw) as (r' & He & Hr').
    change (zlen [c]) with 1 in *. rewrite He. cbn [rbind].
    eexists. split; [done|]. apply repr_set; [lia|done|]. split_and!; simpl; [done..|].
    eapply ring_mono; [|done]. lia.
  - rewrite (pty_get_None id Hch). eexists. split; [done|]. apply repr_mono. simpl. lia.
Qed.

(** Attaching updates the VT map only. *)
Lemma repr_attach id p vt m q :
  pty_get s id = Some p → chan_at a id = Some q →
  length m = 12%nat → Forall (λ i, i = -1 ∨ is_Some (chan_at a i)) m →
  pty_repr w (PtyState (ptys (pty_set s id (set_attached p vt))) m) (APtyState (chans a) m).
Proof.
  intros Hg Hq Hl Hm. destruct q as [q1 q2].
  destruct (pty_get_Some id q1 q2 Hq) as (Hid & p' & Hg' & Hp). rewrite Hg in Hg'.
  injection Hg' as <-. pose proof (pr_pairs _ _ _ Hrep) as HF. pose proof (pr_count _ _ _ Hrep).
  split; cbn [ptys chans vmap pty_vt_map]; [|done|done|done].
  assert (He : <[Z.to_nat id := Some (q1, q2)]> (chans a) = chans a).
  { apply list_insert_id. unfold chan_at in Hq. rewrite decide_True in Hq by done.
    destruct (chans a !! Z.to_nat id) as [o|]; [|done]. simpl in Hq. by subst o. }
  rewrite <- He. by apply Forall2_insert.
Qed.

Lemma attach_refines id vt :
  ∃ s', ccall s (Attach id vt) = Ret ((acall a (Attach id vt)).1, s') ∧
        pty_repr w s' (acall a (Attach id vt)).2.
Proof.
  unfold ccall, acall, pty_attach_slave_to_vt.
  destruct (chan_at a id) as [q|] eqn:Hch; cycle 1.
  { rewrite (pty_get_None id Hch). by eexists. }
  destruct q as [q1 q2].
  destruct (pty_get_Some id q1 q2 Hch) as (Hid & p & Hg & _). rewrite Hg.
  destruct (Z.ltb_spec vt (-1)); [rewrite decide_True by done; by eexists|].
  rewrite decide_False by lia. cbn zeta. eexists. split; [done|]. cbn [snd pty_vt_map pty_set].
  destruct (pr_map_ok _ _ _ Hrep) as [Hl Hm]. rewrite (pr_map _ _ _ Hrep).
  destruct (Z.eqb_spec vt (-1)) as [-> |Hne].
  - rewrite decide_True by done. cbn [andb Z.leb Z.compare].
    replace ((λ x, if x =? id then -1 else x) <$> vmap a)
      with ((λ x, if decide (x = id) then -1 else x) <$> vmap a).
    2:{ apply list_fmap_ext. intros _ x _. case_decide; destruct (Z.eqb_spec x id); done. }
    eapply repr_attach; [done|done|by rewrite length_fmap|].
    apply Forall_fmap. eapply Forall_impl; [exact Hm|]. intros x Hx. unfold compose.
    case_decide; [by left|done].
  - rewrite decide_False by done. rewrite (proj2 (Z.leb_le 0 vt)) by lia. cbn [andb].
    destruct (Z.ltb_spec vt 12); [rewrite decide_True by done|rewrite decide_False by lia].
    + eapply repr_attach; [done|done|by rewrite length_insert|].
      apply Forall_insert; [done|]. right. by rewrite Hch.
    + by eapply repr_attach.
Qed.

Lemma pty_call_refines c :
  0 ≤ w → w + weight c < 2 ^ 64 →
  ∃ s', ccall s c = Ret ((acall a c).1, s') ∧ pty_repr (w + weight c) s' (acall a c).2.
Proof.
  intros Hw Hc. destruct c; try (eapply write_refines; eauto; done); cbn [weight] in *;
    rewrite ?Z.add_0_r.
  - by apply create_refines.
  - eapply read_refines. by left.
  - eapply read_refines. by right.
  - by apply push_refines.
  - apply attach_refines.
Qed.
End ops.

Lemma weight_nonneg c : 0 ≤ weight c.
Proof. destruct c; simpl; try apply zlen_nonneg; lia. Qed.

Lemma weights_nonneg cs : 0 ≤ weights cs.
Proof. induction cs as [|c cs IH]; simpl; [lia|]. pose proof (weight_nonneg c). lia. Qed.

Lemma pty_calls_refine w s a cs :
  0 ≤ w → pty_repr w s a → w + weights cs < 2 ^ 64 → crun s cs = Ret (arun a cs).
Proof.
  revert w s a. induction cs as [|c cs IH]; intros w s a Hw Hr Hcs; [done|].
  cbn [weights foldr] in Hcs. fold (weights cs) in Hcs.
  pose proof (weight_nonneg c). pose proof (weights_nonneg cs).
  destruct (pty_call_refines w s a Hr c Hw ltac:(lia)) as (s' & He & Hr').
  cbn [crun arun]. rewrite He. destruct (acall a c) as [r a']. cbn [rbind fst snd] in *.
  rewrite (IH (w + weight c) s' a'); [done|lia|done|lia].
Qed.

Lemma boot_repr : pty_repr 0 pty_boot apty_boot.
Proof.
  split; [|done|done|].
  - apply Forall2_replicate. done.
  - split; [done|]. apply Forall_replicate. by left.
Qed.

(** C4. Refinement: from boot, any sequence of calls of pty.hpp (create, both directions of
    read and write, keyboard push, attach) that moves fewer than 2^64 bytes terminates
    without undefined behaviour and returns exactly the results and the bytes of the
    abstract pairs of bounded FIFO queues. *)
Theorem pty_run_refines cs :
  weights cs < 2 ^ 64 → crun pty_boot cs = Ret (arun apty_boot cs).
Proof. intros H. apply (pty_calls_refine 0); [lia|apply boot_repr|done]. Qed.

Lemma pty_run_refines_witness :
  crun pty_boot [Create; MasterWrite 0 [104; 105]; PushInput 0 10; SlaveRead 0 2; SlaveRead 0 5]
  = Ret [(0, []); (2, []); (0, []); (2, [104; 105]); (1, [10])].
Proof.
  etransitivity; [apply (pty_run_refines _); vm_compute; reflexivity|vm_compute; reflexivity].
Defined.

(** Once the cursors wrap the reader stops although the writer keeps accepting bytes:
    [rbuf_read] compares the cursors, [rbuf_write] their difference. *)
Example rbuf_cursor_wrap :
  let r := Rbuf (replicate 1024 0) BUFSZ (2 ^ 64 - 1) (2 ^ 64 - 1) in
  (let! (k, r') := rbuf_write r [7; 8] 2 in
   let! (k', _, _) := rbuf_read r' [0; 0] 2 in Ret (k, rbuf_available r', k'))
  = Ret (2, 2, 0).
Proof. vm_compute. reflexivity. Qed.
