(* ===== verification/Tty.v ===== *)
(** * Virtual terminals (kernel/tty/tty.cpp)

    [Tty] holds the statics of the file; [screen] is the sequence of console calls
    ([clear_screen], [print]) it makes.  [tty_poll_char] is in Keyboard.v, beside the
    driver it polls. *)
From S2P Require Import Prelude CString.

(** The console calls of drivers/screen.hpp. *)
Inductive console := ClearScreen | Put (s : list Z).

Record Tty := TtyState {
  input_buf : list Z;
  input_read : Z;
  input_write : Z;
  vt_buf : list (list Z);
  vt_head : list Z;
  active_vt : Z;
  screen : list console
}.

Definition TTY_NUM_VT : Z := 12.
Definition TTY_BUF_SZ : Z := 16 * 1024.

Definition tty_boot : Tty :=
  TtyState (replicate 256 0) 0 0 (replicate 12 (replicate (Z.to_nat TTY_BUF_SZ) 0))
    (replicate 12 0) 0 [].

Definition set_input (t : Tty) (b : list Z) (r w : Z) : Tty :=
  TtyState b r w (vt_buf t) (vt_head t) (active_vt t) (screen t).
Definition set_active (t : Tty) (v : Z) : Tty :=
  TtyState (input_buf t) (input_read t) (input_write t) (vt_buf t) (vt_head t) v (screen t).
Definition emit (t : Tty) (c : console) : Tty :=
  TtyState (input_buf t) (input_read t) (input_write t) (vt_buf t) (vt_head t) (active_vt t)
    (screen t ++ [c]).
Definition print (t : Tty) (s : list Z) : Tty := emit t (Put s).

Definition tty_init (t : Tty) : Tty := set_input t (input_buf t) 0 0.

(** [tty_enqueue_input]: there is no test for a full buffer. *)
Fixpoint tty_enqueue_input (t : Tty) (s : list Z) : res Tty :=
  match s with
  | [] => Ret t
  | c :: s =>
      let idx := Z.land (input_write t) (256 - 1) in
      let! b := bset (input_buf t) idx c in
      tty_enqueue_input (set_input t b (input_read t) (u32 (input_write t + 1))) s
  end.

(** The body of the append loops: one byte into the buffer of terminal [idx]. *)
Definition vt_putc (t : Tty) (idx c : Z) : res Tty :=
  let! hd := bget (vt_head t) idx in
  let! row := of_opt (vt_buf t !! Z.to_nat idx) in
  let! row' := bset row (Z.land hd (TTY_BUF_SZ - 1)) c in
  Ret (TtyState (input_buf t) (input_read t) (input_write t)
         (<[Z.to_nat idx := row']> (vt_buf t))
         (<[Z.to_nat idx := u32 (hd + 1)]> (vt_head t)) (active_vt t) (screen t)).

Fixpoint vt_puts (t : Tty) (idx : Z) (s : list Z) : res Tty :=
  match s with
  | [] => Ret t
  | c :: s => let! t' := vt_putc t idx c in vt_puts t' idx s
  end.

(** The header an empty terminal shows. *)
Definition vt_header (n : Z) : list Z :=
  if 10 <=? n then [86; 84; 32; 49; 48 + (n - 10); 10] else [86; 84; 32; 48 + n; 10].

(** [for (i = start; i < len; ++i)] printing one byte at a time. *)
Fixpoint vt_replay (fuel : nat) (t : Tty) (row : list Z) (i len : Z) : res Tty :=
  if i <? len then
    match fuel with
    | O => Diverges
    | S fuel =>
        let! c := bget row (Z.land i (TTY_BUF_SZ - 1)) in
        vt_replay fuel (print t (cstr [c; 0])) row (u32 (i + 1)) len
    end
  else Ret t.

Definition tty_switch_vt (t : Tty) (n : Z) : res Tty :=
  if (n <? 1) || (TTY_NUM_VT <? n) then Ret t
  else
    let idx := n - 1 in
    if idx =? active_vt t then Ret t
    else
      let t := emit (set_active t idx) ClearScreen in
      let! len := bget (vt_head t) idx in
      if len =? 0 then
        let hdr := vt_header (idx + 1) in
        let! t := vt_puts t idx hdr in
        Ret (print t hdr)
      else
        let start := if TTY_BUF_SZ <? len then len - TTY_BUF_SZ else 0 in
        let! row := of_opt (vt_buf t !! Z.to_nat idx) in
        vt_replay (Z.to_nat TTY_BUF_SZ) t row start len.

Definition vt_append (t : Tty) (s : list Z) : res Tty := vt_puts t (active_vt t) s.

Definition tty_write (t : Tty) (s : list Z) : res Tty :=
  let! t' := vt_append t s in Ret (print t' s).

Definition tty_putc (t : Tty) (c : Z) : res Tty :=
  let! t' := vt_append t (cstr [c; 0]) in Ret (print t' (cstr [c; 0])).

(** ** A terminal remembers the last TTY_BUF_SZ bytes of its output *)

(** [row] with write index [hd] represents the output history [log]. *)
Record vt_repr (row : list Z) (hd : Z) (log : list Z) : Prop := {
  vr_size : zlen row = TTY_BUF_SZ;
  vr_head : hd = zlen log;
  vr_log : zlen log < 2 ^ 32;
  vr_data : ∀ i c, 0 ≤ i → zlen log - TTY_BUF_SZ ≤ i → log !! Z.to_nat i = Some c →
            row !! Z.to_nat (i `mod` TTY_BUF_SZ) = Some c
}.

Lemma vt_index i : Z.land i (TTY_BUF_SZ - 1) = i `mod` TTY_BUF_SZ.
Proof. apply (land_ones_mod i 14). lia. Qed.

Lemma vt_index_range i : 0 ≤ i `mod` TTY_BUF_SZ < TTY_BUF_SZ.
Proof. by apply Z.mod_pos_bound. Qed.

Lemma vt_repr_push row hd log c :
  vt_repr row hd log → zlen log + 1 < 2 ^ 32 →
  vt_repr (<[Z.to_nat (hd `mod` TTY_BUF_SZ) := c]> row) (u32 (hd + 1)) (log ++ [c]).
Proof.
  intros [Hs -> Hl Hd] Hb. pose proof (zlen_nonneg log). split.
  - unfold zlen in *. by rewrite length_insert.
  - rewrite u32_small by lia. by rewrite zlen_app.
  - rewrite zlen_app. done.
  - intros i x Hi Hw Hx. rewrite zlen_app in Hw. change (zlen [c]) with 1 in Hw.
    pose proof (vt_index_range i). pose proof (vt_index_range (zlen log)).
    destruct (decide (i = zlen log)) as [->|Hne].
    + rewrite list_lookup_insert_eq by (unfold zlen in *; lia).
      unfold zlen in Hx. rewrite Nat2Z.id, lookup_app_r, Nat.sub_diag in Hx by done. done.
    + assert (Hlt : i < zlen log).
      { apply lookup_lt_Some in Hx. rewrite length_app in Hx. simpl in Hx. unfold zlen in *. lia. }
      rewrite lookup_app_l in Hx by (unfold zlen in *; lia).
      rewrite list_lookup_insert_ne; [apply Hd; [done|lia|done]|].
      intros He. apply Z2Nat.inj in He; [|lia..].
      pose proof (Z.div_mod i TTY_BUF_SZ ltac:(done)).
      pose proof (Z.div_mod (zlen log) TTY_BUF_SZ ltac:(done)). unfold TTY_BUF_SZ in *. lia.
Qed.

(** The twelve terminals with their histories. *)
Record vts_ok (t : Tty) (logs : list (list Z)) : Prop := {
  vo_rows : length (vt_buf t) = 12%nat;
  vo_heads : length (vt_head t) = 12%nat;
  vo_logs : length logs = 12%nat;
  vo_active : 0 ≤ active_vt t < TTY_NUM_VT;
  vo_repr : ∀ i row hd log, vt_buf t !! i = Some row → vt_head t !! i = Some hd →
            logs !! i = Some log → vt_repr row hd log
}.

Lemma vts_lookup t logs i :
  vts_ok t logs → 0 ≤ i < TTY_NUM_VT →
  ∃ row hd log, vt_buf t !! Z.to_nat i = Some row ∧ vt_head t !! Z.to_nat i = Some hd ∧
    logs !! Z.to_nat i = Some log ∧ vt_repr row hd log.
Proof.
  intros [Hr Hh Hl Ha Hv] Hi. unfold TTY_NUM_VT in *.
  destruct (lookup_lt_is_Some_2 (vt_buf t) (Z.to_nat i)) as [row Hrow]; [lia|].
  destruct (lookup_lt_is_Some_2 (vt_head t) (Z.to_nat i)) as [hd Hhd]; [lia|].
  destruct (lookup_lt_is_Some_2 logs (Z.to_nat i)) as [log Hlog]; [lia|].
  exists row, hd, log. eauto 10.
Qed.

(** What [vt_puts] leaves alone. *)
Definition same_input (t t' : Tty) : Prop :=
  input_buf t' = input_buf t ∧ input_read t' = input_read t ∧ input_write t' = input_write t.

Lemma same_input_trans t1 t2 t3 : same_input t1 t2 → same_input t2 t3 → same_input t1 t3.
Proof. unfold same_input. intros (-> & -> & ->) (-> & -> & ->). done. Qed.

Lemma vt_putc_spec t logs idx log c :
  vts_ok t logs → 0 ≤ idx < TTY_NUM_VT → logs !! Z.to_nat idx = Some log →
  zlen log + 1 < 2 ^ 32 →
  ∃ t', vt_putc t idx c = Ret t' ∧ vts_ok t' (<[Z.to_nat idx := log ++ [c]]> logs) ∧
        screen t' = screen t ∧ active_vt t' = active_vt t ∧ same_input t t'.
Proof.
  intros Hok Hi Hlog Hb.
  destruct (vts_lookup t logs idx Hok Hi) as (row & hd & log' & Hrow & Hhd & Hlog' & Hv).
  rewrite Hlog in Hlog'. injection Hlog' as <-. unfold vt_putc.
  rewrite (proj2 (bget_Ret _ _ hd)) by (split; [lia|done]). cbn [rbind]. rewrite Hrow. cbn [of_opt rbind].
  rewrite vt_index.
  rewrite (proj2 (bset_Ret _ _ _ _)) by
    (split; [rewrite (vr_size _ _ _ Hv); apply vt_index_range|done]).
  cbn [rbind]. eexists. split_and!; [done| |done..].
  destruct Hok as [Hr Hh Hl Ha Hx].
  split; simpl; rewrite ?length_insert; [done..|]. intros i r h l.
  destruct (decide (i = Z.to_nat idx)) as [->|Hne].
  - rewrite !list_lookup_insert_eq by (unfold TTY_NUM_VT in *; lia).
    intros [= <-] [= <-] [= <-]. by apply vt_repr_push.
  - rewrite !list_lookup_insert_ne by done. apply Hx.
Qed.

Lemma vt_puts_spec s : ∀ t logs idx log,
  vts_ok t logs → 0 ≤ idx < TTY_NUM_VT → logs !! Z.to_nat idx = Some log →
  zlen log + zlen s < 2 ^ 32 →
  ∃ t', vt_puts t idx s = Ret t' ∧ vts_ok t' (<[Z.to_nat idx := log ++ s]> logs) ∧
        screen t' = screen t ∧ active_vt t' = active_vt t ∧ same_input t t'.
Proof.
  induction s as [|c s IH]; intros t logs idx log Hok Hi Hlog Hb.
  - exists t. rewrite app_nil_r, list_insert_id by done. done.
  - rewrite zlen_cons in Hb. pose proof (zlen_nonneg s).
    destruct (vt_putc_spec t logs idx log c Hok Hi Hlog) as (t1 & E1 & Ok1 & S1 & A1 & I1); [lia|].
    destruct (IH t1 (<[Z.to_nat idx := log ++ [c]]> logs) idx (log ++ [c]))
      as (t2 & E2 & Ok2 & S2 & A2 & I2); [done|done| |rewrite zlen_app; change (zlen [c]) with 1; lia|].
    { apply list_lookup_insert_eq. by apply lookup_lt_Some in Hlog. }
    exists t2. cbn [vt_puts]. rewrite E1. cbn [rbind].
    rewrite list_insert_insert_eq, <- app_assoc in Ok2.
    split_and!; [done|done|congruence|congruence|]. by apply (same_input_trans t t1).
Qed.

Lemma vts_ok_screen t logs c : vts_ok t logs → vts_ok (emit t c) logs.
Proof. by intros []. Qed.

Lemma vts_ok_active t logs v : vts_ok t logs → 0 ≤ v < TTY_NUM_VT → vts_ok (set_active t v) logs.
Proof. by intros [] Hv. Qed.

(** Replaying prints the stored window byte by byte. *)
Lemma vt_replay_spec fuel : ∀ t row hd log i,
  vt_repr row hd log → Forall cchar log → 0 ≤ i ≤ hd → hd - TTY_BUF_SZ ≤ i →
  hd - i ≤ Z.of_nat fuel →
  ∃ t', vt_replay fuel t row i hd = Ret t' ∧
        screen t' = screen t ++ ((λ c, Put [c]) <$> drop (Z.to_nat i) log) ∧
        (∀ logs, vts_ok t logs → vts_ok t' logs) ∧ active_vt t' = active_vt t ∧ same_input t t'.
Proof.
  induction fuel as [|fuel IH]; intros t row hd log i Hv Hc Hi Hw Hf;
    pose proof (vr_head _ _ _ Hv) as Hh; cbn [vt_replay];
    (destruct (Z.ltb_spec i hd) as [Hlt|Hge]; cycle 1;
      [exists t; rewrite drop_ge by (unfold zlen in *; lia); simpl; rewrite app_nil_r; done|]).
  { lia. }
  destruct (lookup_lt_is_Some_2 log (Z.to_nat i)) as [c Hx]; [unfold zlen in *; lia|].
  rewrite vt_index.
  rewrite (proj2 (bget_Ret _ _ c)) by
    (split; [apply vt_index_range|apply (vr_data _ _ _ Hv); [lia|lia|done]]).
  cbn [rbind]. pose proof (vr_log _ _ _ Hv). rewrite u32_small by lia.
  pose proof (Forall_lookup_1 _ _ _ _ Hc Hx) as Hcc. unfold cchar in Hcc.
  destruct (IH (print t (cstr [c; 0])) row hd log (i + 1)) as (t' & -> & Hs & Hv' & Ha & Hin);
    [done|done|lia|lia|lia|].
  exists t'. split_and!; [done| |intros; apply Hv'; by apply vts_ok_screen|done|done].
  rewrite Hs. simpl. destruct (Z.eqb_spec c 0); [lia|].
  rewrite <- app_assoc. rewrite (drop_S _ _ _ Hx), fmap_cons. cbn [app]. do 4 f_equal. lia.
Qed.

Lemma tty_boot_ok : vts_ok tty_boot (replicate 12 []).
Proof.
  split; [done..|]. intros i row hd log Hr Hh Hl.
  apply lookup_replicate in Hr as [-> _], Hh as [-> _], Hl as [-> _].
  split; [unfold zlen; by rewrite length_replicate|done|done|]. intros j c _ _ Hj. done.
Qed.

(** The part of a history a terminal still holds. *)
Definition recent (log : list Z) : list Z := drop (length log - Z.to_nat TTY_BUF_SZ) log.

Lemma switch_empty t logs n :
  vts_ok t logs → 1 ≤ n ≤ TTY_NUM_VT → n - 1 ≠ active_vt t →
  logs !! Z.to_nat (n - 1) = Some [] →
  ∃ t', tty_switch_vt t n = Ret t' ∧ active_vt t' = n - 1 ∧
        screen t' = screen t ++ [ClearScreen; Put (vt_header n)] ∧
        vts_ok t' (<[Z.to_nat (n - 1) := vt_header n]> logs) ∧ same_input t t'.
Proof.
  intros Hok Hn Hne Hl. unfold tty_switch_vt, TTY_NUM_VT in *.
  destruct (Z.ltb_spec n 1); [lia|]. destruct (Z.ltb_spec 12 n); [lia|]. cbn [orb].
  destruct (Z.eqb_spec (n - 1) (active_vt t)); [done|]. cbn zeta.
  set (t1 := emit _ _).
  assert (Hok1 : vts_ok t1 logs).
  { apply vts_ok_screen, vts_ok_active; [done|unfold TTY_NUM_VT; lia]. }
  destruct (vts_lookup t1 logs (n - 1) Hok1) as (row & hd & log' & Hr & Hh & Hl' & Hv);
    [unfold TTY_NUM_VT; lia|].
  rewrite Hl in Hl'. injection Hl' as <-. pose proof (vr_head _ _ _ Hv) as ->.
  rewrite (proj2 (bget_Ret _ _ _)) by (split; [lia|exact Hh]). cbn [rbind].
  change (zlen (@nil Z) =? 0) with true. cbn match. replace (n - 1 + 1) with n by lia.
  destruct (vt_puts_spec (vt_header n) t1 logs (n - 1) []) as (t2 & -> & Hok2 & Hs2 & Ha2 & Hi2);
    [done|unfold TTY_NUM_VT; lia|done|unfold vt_header; by case_match|].
  cbn [rbind]. eexists. split_and!; [done|done| |by apply vts_ok_screen|done].
  cbn [screen print emit]. rewrite Hs2. cbn [screen t1 emit set_active].
  by rewrite <- app_assoc.
Qed.

Lemma switch_replay t logs n log :
  vts_ok t logs → 1 ≤ n ≤ TTY_NUM_VT → n - 1 ≠ active_vt t →
  logs !! Z.to_nat (n - 1) = Some log → log ≠ [] → cstr_ok log →
  ∃ t', tty_switch_vt t n = Ret t' ∧ active_vt t' = n - 1 ∧
        screen t' = screen t ++ ClearScreen :: ((λ c, Put [c]) <$> recent log) ∧
        vts_ok t' logs ∧ same_input t t'.
Proof.
  intros Hok Hn Hne Hl Hnil Hc. unfold tty_switch_vt, TTY_NUM_VT in *.
  destruct (Z.ltb_spec n 1); [lia|]. destruct (Z.ltb_spec 12 n); [lia|]. cbn [orb].
  destruct (Z.eqb_spec (n - 1) (active_vt t)); [done|]. cbn zeta.
  set (t1 := emit _ _).
  assert (Hok1 : vts_ok t1 logs).
  { apply vts_ok_screen, vts_ok_active; [done|unfold TTY_NUM_VT; lia]. }
  destruct (vts_lookup t1 logs (n - 1) Hok1) as (row & hd & log' & Hr & Hh & Hl' & Hv);
    [unfold TTY_NUM_VT; lia|].
  rewrite Hl in Hl'. injection Hl' as <-. pose proof (vr_head _ _ _ Hv) as Hhd.
  rewrite (proj2 (bget_Ret _ _ _)) by (split; [lia|exact Hh]). cbn [rbind].
  assert (0 < hd) by (destruct log; [done|rewrite Hhd, zlen_cons; pose proof (zlen_nonneg log); lia]).
  destruct (Z.eqb_spec hd 0); [lia|]. rewrite Hr. cbn [of_opt rbind].
  set (start := if TTY_BUF_SZ <? hd then _ else _).
  assert (Hst : start = Z.max 0 (hd - TTY_BUF_SZ))
    by (unfold start; destruct (Z.ltb_spec TTY_BUF_SZ hd); lia).
  destruct (vt_replay_spec (Z.to_nat TTY_BUF_SZ) t1 row hd log start) as (t' & -> & Hs & Hv' & Ha & Hi);
    [done|done|unfold TTY_BUF_SZ in *; lia..|].
  exists t'. split_and!; [done|done| |by apply Hv'|done]. rewrite Hs. cbn [screen t1 emit set_active].
  rewrite <- app_assoc. cbn [app]. unfold recent. do 4 f_equal. rewrite Hst, Hhd. unfold zlen, TTY_BUF_SZ. lia.
Qed.

(** C32. Switching to another terminal clears the screen and shows what that terminal holds:
    the last 16 KiB of its output in order, or its header when nothing was written to it
    yet (the header then becomes its content).  Histories and pending input are kept. *)
Theorem tty_switch_vt_shows_history t logs n log :
  vts_ok t logs → 1 ≤ n ≤ TTY_NUM_VT → n - 1 ≠ active_vt t →
  logs !! Z.to_nat (n - 1) = Some log → cstr_ok log →
  ∃ t', tty_switch_vt t n = Ret t' ∧ active_vt t' = n - 1 ∧ same_input t t' ∧
    if decide (log = [])
    then screen t' = screen t ++ [ClearScreen; Put (vt_header n)] ∧
         vts_ok t' (<[Z.to_nat (n - 1) := vt_header n]> logs)
    else screen t' = screen t ++ ClearScreen :: ((λ c, Put [c]) <$> recent log) ∧
         vts_ok t' logs.
Proof.
  intros Hok Hn Hne Hl Hc. case_decide as Hlog.
  - subst log. destruct (switch_empty t logs n) as (t' & ? & ? & ? & ? & ?); eauto 10.
  - destruct (switch_replay t logs n log) as (t' & ? & ? & ? & ? & ?); eauto 10.
Qed.

Lemma tty_switch_vt_shows_history_witness :
  ∃ t', tty_switch_vt tty_boot 3 = Ret t' ∧ screen t' = [ClearScreen; Put (str "VT 3
")].
Proof.
  destruct (tty_switch_vt_shows_history tty_boot (replicate 12 []) 3 []) as (t' & H1 & _ & _ & H2).
  - apply tty_boot_ok.
  - unfold TTY_NUM_VT; lia.
  - done.
  - done.
  - constructor.
  - rewrite decide_True in H2 by done. exists t'. split; [exact H1|exact (proj1 H2)].
Defined.

(** Writing to the terminal prints the string and appends it to the history of the active
    terminal, and of no other. *)
Theorem tty_write_appends t logs log s :
  vts_ok t logs → logs !! Z.to_nat (active_vt t) = Some log → zlen log + zlen s < 2 ^ 32 →
  ∃ t', tty_write t s = Ret t' ∧ vts_ok t' (<[Z.to_nat (active_vt t) := log ++ s]> logs) ∧
        screen t' = screen t ++ [Put s] ∧ active_vt t' = active_vt t ∧ same_input t t'.
Proof.
  intros Hok Hl Hb. unfold tty_write, vt_append.
  destruct (vt_puts_spec s t logs (active_vt t) log) as (t' & -> & Hok' & Hs & Ha & Hi);
    [done|apply (vo_active _ _ Hok)|done|done|].
  cbn [rbind]. eexists. split_and!; [done|by apply vts_ok_screen| |done|done].
  simpl. by rewrite Hs.
Qed.

Lemma tty_write_appends_witness :
  ∃ t', tty_write tty_boot (str "hi") = Ret t' ∧ screen t' = [Put (str "hi")].
Proof.
  destruct (tty_write_appends tty_boot (replicate 12 []) [] (str "hi")) as (t' & H1 & _ & H2 & _).
  - apply tty_boot_ok.
  - done.
  - done.
  - exists t'. split; [exact H1|exact H2].
Defined.

(** ** The input buffer is a FIFO of 256 bytes *)

Record input_repr (t : Tty) (q : list Z) : Prop := {
  ir_size : zlen (input_buf t) = 256;
  ir_room : zlen q ≤ 256;
  ir_read : 0 ≤ input_read t < 2 ^ 32;
  ir_write : input_write t = u32 (input_read t + zlen q);
  ir_data : ∀ i c, q !! i = Some c →
            input_buf t !! Z.to_nat ((input_read t + Z.of_nat i) `mod` 256) = Some c
}.

Lemma u32_mod_256 z : u32 z `mod` 256 = z `mod` 256.
Proof.
  unfold u32, wrap. change (2 ^ 32) with (256 * 2 ^ 24).
  rewrite Z.rem_mul_r by lia. rewrite (Z.mul_comm 256), Z_mod_plus_full.
  apply Z.mod_mod. lia.
Qed.

Lemma input_index z : Z.land z (256 - 1) = z `mod` 256.
Proof. apply land_255. Qed.

Lemma input_repr_same t t' q : same_input t t' → input_repr t q → input_repr t' q.
Proof.
  intros (Hb & Hr & Hw) [Hs Hq Hrd Hwr Hd].
  split; rewrite ?Hb, ?Hr, ?Hw; done.
Qed.

Lemma enqueue_spec s : ∀ t q,
  input_repr t q → zlen q + zlen s ≤ 256 →
  ∃ t', tty_enqueue_input t s = Ret t' ∧ input_repr t' (q ++ s) ∧
        screen t' = screen t ∧ active_vt t' = active_vt t ∧
        ∀ logs, vts_ok t logs → vts_ok t' logs.
Proof.
  induction s as [|c s IH]; intros t q Hq Hs.
  - exists t. rewrite app_nil_r. done.
  - cbn [tty_enqueue_input]. rewrite zlen_cons in Hs. pose proof (zlen_nonneg s).
    pose proof (zlen_nonneg q). destruct Hq as [Hsz Hroom Hrd Hwr Hd].
    assert (Hm : ∀ z, 0 ≤ z `mod` 256 < 256) by (intros; by apply Z.mod_pos_bound).
    rewrite input_index, Hwr, u32_mod_256.
    rewrite (proj2 (bset_Ret _ _ _ _)) by (split; [rewrite Hsz; apply Hm|done]).
    cbn [rbind]. set (t1 := set_input _ _ _ _).
    destruct (IH t1 (q ++ [c])) as (t' & -> & Hq' & Hsc & Ha & Hv).
    + split; cbn [t1 set_input input_buf input_read input_write].
      * unfold zlen in *. by rewrite length_insert.
      * rewrite zlen_app. change (zlen [c]) with 1. lia.
      * done.
      * unfold u32, wrap. rewrite Zplus_mod_idemp_l. f_equal. rewrite zlen_app.
        change (zlen [c]) with 1. lia.
      * intros i x Hx. pose proof (Hm (input_read t + zlen q)).
        pose proof (Hm (input_read t + Z.of_nat i)).
        apply lookup_app_Some in Hx as [Hx|[Hi Hx]].
        -- apply lookup_lt_Some in Hx as Hlt.
           rewrite list_lookup_insert_ne; [by apply Hd|]. unfold zlen in *.
           intros He%Z2Nat.inj; [|lia..].
           pose proof (Z.div_mod (input_read t + Z.of_nat i) 256 ltac:(done)).
           pose proof (Z.div_mod (input_read t + Z.of_nat (length q)) 256 ltac:(done)). lia.
        -- destruct (i - length q)%nat eqn:E; [|done]. injection Hx as ->.
           replace (Z.of_nat i) with (zlen q) by (unfold zlen; lia).
           apply list_lookup_insert_eq. unfold zlen in *. lia.
    + rewrite zlen_app. change (zlen [c]) with 1. lia.
    + exists t'. rewrite <- app_assoc in Hq'. split_and!; [done|done|done|done|].
      intros logs Hl. apply Hv. by destruct Hl.
Qed.

(** Overflow is not detected: the 257th pending byte replaces the first. *)
Example enqueue_overwrites :
  (let! t := tty_enqueue_input tty_boot (replicate 256 97 ++ [98]) in
   let! c := bget (input_buf t) (Z.land (input_read t) 255) in Ret c) = Ret 98.
Proof. vm_compute. reflexivity. Qed.
