(* ===== verification/Keyboard.v ===== *)
(** * PS/2 keyboard and terminal input (kernel/drivers/keyboard.cpp, tty_poll_char)

    [ports] lists the values the successive [inb] reads of the controller return; when it
    is exhausted the controller reads as idle.  The modifier flags are the statics of the
    driver. *)
From S2P Require Import Prelude CString Pty Tty.

Record Kbd := KbdState {
  ports : list Z;
  shift_down : bool;
  alt_down : bool;
  ctrl_down : bool
}.

Definition set_ports (k : Kbd) (p : list Z) : Kbd :=
  KbdState p (shift_down k) (alt_down k) (ctrl_down k).
Definition set_shift (k : Kbd) (b : bool) : Kbd := KbdState (ports k) b (alt_down k) (ctrl_down k).
Definition set_alt (k : Kbd) (b : bool) : Kbd := KbdState (ports k) (shift_down k) b (ctrl_down k).
Definition set_ctrl (k : Kbd) (b : bool) : Kbd := KbdState (ports k) (shift_down k) (alt_down k) b.

Definition inb (k : Kbd) : Z * Kbd :=
  match ports k with
  | [] => (0, k)
  | v :: p => (v, set_ports k p)
  end.

Definition scancode_map : list Z :=
  [0; 27] ++ str "1234567890-=" ++ [8; 9] ++
  str "qwertyuiop[]" ++ [10; 0] ++ str "as" ++
  str "dfghjkl;'`" ++ [0; 92] ++ str "zxcv" ++
  str "bnm,./" ++ [0; 42; 0; 32].

Definition scancode_map_shift : list Z :=
  [0; 27] ++ str "!@#$%^&*()_+" ++ [8; 9] ++
  str "QWERTYUIOP{}" ++ [10; 0] ++ str "AS" ++
  str "DFGHJKL:" ++ [34; 126; 0; 124] ++ str "ZXCV" ++
  str "BNM<>?" ++ [0; 42; 0; 32].

(** [print_scancode]: the last store puts the NUL over the closing bracket. *)
Definition print_scancode (t : Tty) (sc : Z) : res Tty :=
  let hex := str "0123456789ABCDEF" in
  let buf := [91; 48; 48; 93] in
  let! h := bget hex (Z.land (Z.shiftr sc 4) 15) in
  let! buf := bset buf 1 h in
  let! l := bget hex (Z.land sc 15) in
  let! buf := bset buf 2 l in
  let! buf := bset buf 3 0 in
  Ret (print t (cstr buf)).

(** [keyboard_init]: read data bytes while the status port says one is there. *)
Fixpoint drain (p : list Z) : list Z :=
  match p with
  | [] => []
  | s :: p => if Z.testbit s 0 then match p with [] => [] | _ :: p => drain p end else p
  end.
Definition keyboard_init (k : Kbd) : Kbd := set_ports k (drain (ports k)).

(** The escape sequences behind the ESC of the cursor and editing keys: the table of
    both [switch] statements. *)
Definition ansi_tail (sc : Z) : option (list Z) :=
  if sc =? 0x48 then Some (str "[A")
  else if sc =? 0x50 then Some (str "[B")
  else if sc =? 0x4B then Some (str "[D")
  else if sc =? 0x4D then Some (str "[C")
  else if sc =? 0x47 then Some (str "[H")
  else if sc =? 0x4F then Some (str "[F")
  else if sc =? 0x52 then Some (str "[2~")
  else if sc =? 0x53 then Some (str "[3~")
  else None.

(** Alt and a function key select a terminal. *)
Definition fn_key_vt (sc : Z) : Z :=
  if (0x3B <=? sc) && (sc <=? 0x44) then (sc - 0x3B) + 1
  else if sc =? 0x57 then 11
  else if sc =? 0x58 then 12
  else -1.

Definition ctrl_code (c : Z) : Z :=
  if (97 <=? c) && (c <=? 122) then Z.land c 0x1F
  else if (65 <=? c) && (c <=? 90) then Z.land c 0x1F
  else c.

(** The release half of the handler. *)
Definition key_release (k : Kbd) (sc : Z) : Kbd :=
  let base := Z.land sc 0x7F in
  let k := if (base =? 0x2A) || (base =? 0x36) then set_shift k false else k in
  let k := if base =? 0x38 then set_alt k false else k in
  if base =? 0x1D then set_ctrl k false else k.

(** What is left once modifiers and terminal switches are handled. *)
Definition key_char (k : Kbd) (t : Tty) (sc : Z) : res (Z * Kbd * Tty) :=
  match ansi_tail sc with
  | Some tl => let! t := tty_enqueue_input t tl in Ret (0x1B, k, t)
  | None =>
      if sc <? zlen scancode_map then
        let! c := bget (if shift_down k then scancode_map_shift else scancode_map) sc in
        Ret (if ctrl_down k then ctrl_code c else c, k, t)
      else
        let! t := print_scancode t sc in Ret (0, k, t)
  end.

Definition key_press (k : Kbd) (t : Tty) (sc : Z) : res (Z * Kbd * Tty) :=
  if (sc =? 0x2A) || (sc =? 0x36) then Ret (0, set_shift k true, t)
  else if sc =? 0x38 then Ret (0, set_alt k true, t)
  else if sc =? 0x1D then Ret (0, set_ctrl k true, t)
  else if alt_down k && negb (fn_key_vt sc =? -1) then
    let! t := tty_switch_vt t (fn_key_vt sc) in Ret (0, k, t)
  else key_char k t sc.

Definition keyboard_poll_char (k : Kbd) (t : Tty) : res (Z * Kbd * Tty) :=
  let '(st, k) := inb k in
  if negb (Z.testbit st 0) then Ret (0, k, t)
  else
    let '(sc, k) := inb k in
    if sc =? 0xE0 then
      let '(st, k) := inb k in
      if negb (Z.testbit st 0) then Ret (0, k, t)
      else
        let '(next, k) := inb k in
        match ansi_tail next with
        | Some tl => let! t := tty_enqueue_input t tl in Ret (0x1B, k, t)
        | None =>
            let! t := print_scancode t 0xE0 in
            let! t := print_scancode t next in
            Ret (0, k, t)
        end
    else if Z.testbit sc 7 then Ret (0, key_release k sc, t)
    else key_press k t sc.

Definition keyboard_poll_and_log (k : Kbd) (t : Tty) : res (Kbd * Tty) :=
  let! (c, k, t) := keyboard_poll_char k t in
  if c =? 0 then Ret (k, t) else Ret (k, print t (cstr [c; 0])).

(** tty.cpp: buffered input first, then the keyboard. *)
Definition tty_poll_char (k : Kbd) (t : Tty) (p : Pty) : res (Z * Kbd * Tty * Pty) :=
  if negb (input_read t =? input_write t) then
    let! c := bget (input_buf t) (Z.land (input_read t) (256 - 1)) in
    Ret (c, k, set_input t (input_buf t) (u32 (input_read t + 1)) (input_write t), p)
  else
    let! (c, k, t) := keyboard_poll_char k t in
    if c =? 0 then Ret (0, k, t, p)
    else
      let! t := vt_append t (cstr [c; 0]) in
      let! pid := pty_vt_map_get p (active_vt t) in
      let! p := (if 0 <=? pid then pty_slave_push_input p pid c else Ret p) in
      Ret (c, k, t, p).

(** Polling [n] times, and the bytes the caller saw. *)
Fixpoint poll_n (n : nat) (k : Kbd) (t : Tty) (p : Pty) : res (list Z * Kbd * Tty * Pty) :=
  match n with
  | O => Ret ([], k, t, p)
  | S n =>
      let! (c, k, t, p) := tty_poll_char k t p in
      let! (cs, k, t, p) := poll_n n k t p in
      Ret (c :: cs, k, t, p)
  end.

(** ** The driver never leaves its tables *)

Lemma print_scancode_spec t sc :
  0 ≤ sc → ∃ s, print_scancode t sc = Ret (print t s).
Proof.
  intros Hsc. unfold print_scancode.
  assert (Hh : ∀ z, is_Some (str "0123456789ABCDEF" !! Z.to_nat (Z.land z 15))).
  { intros z. apply lookup_lt_is_Some_2. change 15 with (2 ^ 4 - 1).
    rewrite land_ones_mod by lia. pose proof (Z.mod_pos_bound z (2 ^ 4) ltac:(lia)).
    change (length (str "0123456789ABCDEF")) with 16%nat. lia. }
  assert (Hn : ∀ z, 0 ≤ Z.land z 15) by (intros; apply Z.land_nonneg; lia).
  destruct (Hh (Z.shiftr sc 4)) as [a Ha], (Hh sc) as [b Hb].
  rewrite (proj2 (bget_Ret _ _ a)) by done. cbn [rbind].
  rewrite (proj2 (bset_Ret _ _ _ _)) by done. cbn [rbind].
  rewrite (proj2 (bget_Ret _ _ b)) by done. cbn [rbind].
  rewrite (proj2 (bset_Ret _ _ _ _)) by done. cbn [rbind].
  rewrite (proj2 (bset_Ret _ _ _ _)) by done. cbn [rbind]. eauto.
Qed.

(** The debug output lacks the closing bracket its comment announces. *)
Example print_scancode_unclosed :
  (let! t := print_scancode tty_boot 0xE0 in Ret (screen t)) = Ret [Put (str "[E0")].
Proof. vm_compute. reflexivity. Qed.

Lemma ansi_tail_short sc tl : ansi_tail sc = Some tl → 2 ≤ zlen tl ≤ 3 ∧ cstr_ok tl.
Proof.
  unfold ansi_tail. intros H.
  repeat (case_match; [injection H as <-; split; [vm_compute; split; discriminate|
    apply (bool_decide_unpack _); vm_compute; exact I]|]).
  done.
Qed.
