(* ===== verification/HanaPath.v ===== *)
(** * HanaFS paths (kernel/filesystem/hanafs.cpp, lines 57-138)

    Every HanaFS operation copies its path into a buffer, strips an optional drive prefix
    and normalizes the rest in place, then builds the internal path in a 512-byte buffer.
    The routines work on the buffers; [resolve_spec] says what they compute on strings. *)
From S2P Require Import Prelude CString.

(** ** The routines *)

(** [strlen] of a buffer: the terminating NUL must lie inside it. *)
Fixpoint buf_strlen_from (b : list Z) (n : Z) : res Z :=
  match b with
  | [] => UB
  | c :: b => if c =? 0 then Ret n else buf_strlen_from b (n + 1)
  end.
Definition buf_strlen (b : list Z) : res Z := buf_strlen_from b 0.

(** [for (i = l + 1; i > 0; --i) buf[i] = buf[i-1];] *)
Fixpoint shift_right (i : nat) (buf : list Z) : res (list Z) :=
  match i with
  | O => Ret buf
  | S i' =>
      let! c := bget buf (Z.of_nat i') in
      let! buf := bset buf (Z.of_nat i) c in
      shift_right i' buf
  end.

(** [while (l > 1 && buf[l-1] == '/') { buf[l-1] = '\0'; --l; }] *)
Fixpoint strip_slashes (l : nat) (buf : list Z) : res (list Z) :=
  match l with
  | S (S _ as l') =>
      let! c := bget buf (Z.of_nat l') in
      if c =? 47 then let! buf := bset buf (Z.of_nat l') 0 in strip_slashes l' buf
      else Ret buf
  | _ => Ret buf
  end.

Definition normalize_path_inplace (buf : list Z) (sz : Z) : res (list Z) :=
  if sz =? 0 then Ret buf
  else
    let! c0 := bget buf 0 in
    let! (stop, buf) :=
      (if negb (c0 =? 47) then
         let! l := buf_strlen buf in
         if sz <=? l + 1 then Ret (true, buf)
         else
           let! buf := shift_right (Z.to_nat (l + 1)) buf in
           let! buf := bset buf 0 47 in
           Ret (false, buf)
       else Ret (false, buf)) in
    if (stop : bool) then Ret buf
    else
      let! l := buf_strlen buf in
      strip_slashes (Z.to_nat l) buf.

(** [for (; i + 2 <= l; ++i) buf[i] = buf[i+2];] with the final value of [i]. *)
Fixpoint shift_left2 (n : nat) (i : Z) (buf : list Z) : res (Z * list Z) :=
  match n with
  | O => Ret (i, buf)
  | S n =>
      let! c := bget buf (i + 2) in
      let! buf := bset buf i c in
      shift_left2 n (i + 1) buf
  end.

Definition parse_drive_prefix_inplace (buf : list Z) (sz : Z) : res (Z * list Z) :=
  if sz <? 3 then Ret (-1, buf)
  else
    let! c0 := bget buf 0 in
    let! c1 := bget buf 1 in
    if (48 <=? c0) && (c0 <=? 57) && (c1 =? 58) then
      let drv := c0 - 48 in
      let! l := buf_strlen buf in
      let! (i, buf) := shift_left2 (Z.to_nat (l - 1)) 0 buf in
      let! buf := (if i <? sz then bset buf i 0 else bset buf (sz - 1) 0) in
      Ret (drv, buf)
    else Ret (-1, buf).

(** [while (pos + i + 1 < out_sz && path[i]) { out[pos + i] = path[i]; ++i; }], then the NUL. *)
Fixpoint copy_str (path : list Z) (out : list Z) (pos out_sz : Z) : res (list Z) :=
  match path with
  | c :: path' =>
      if pos + 1 <? out_sz then
        let! out := bset out pos c in copy_str path' out (pos + 1) out_sz
      else bset out pos 0
  | [] => bset out pos 0
  end.

(** [snprintf(out, out_sz, "/drv%d", drive)] for the one-digit drives the parser returns. *)
Definition drv_prefix (drive : Z) : list Z := str "/drv" ++ [48 + drive].

Definition build_internal_path (path : list Z) (drive : Z) (out : list Z) (out_sz : Z)
  : res (list Z) :=
  if out_sz =? 0 then Ret out
  else if drive <? 0 then copy_str path out 0 out_sz
  else
    let pre := take (Z.to_nat (out_sz - 1)) (drv_prefix drive) in
    let! out := memcpy out 0 (pre ++ [0]) 0 (zlen pre + 1) in
    let pos := zlen pre in
    if (pos + 1 <? out_sz) && bool_decide (head path = Some 47) then copy_str path out pos out_sz
    else
      let! (pos, out) :=
        (if pos + 1 <? out_sz then let! out := bset out pos 47 in Ret (pos + 1, out)
         else Ret (pos, out)) in
      copy_str path out pos out_sz.

(** The opening lines of every operation: the drive, the normalized path and the internal
    path (the 512 bytes of [ipath] are on the stack). *)
Definition resolve (path : list Z) : res (Z * list Z * list Z) :=
  let psz := strlen path + 2 in
  let pbuf := path ++ [0; 0] in
  let! (drv, pbuf) := parse_drive_prefix_inplace pbuf psz in
  let! pbuf := normalize_path_inplace pbuf psz in
  let! ipath := build_internal_path (cstr pbuf) drv (replicate 512 0) 512 in
  Ret (drv, cstr pbuf, cstr ipath).

(** ** What they compute *)

Definition split_drive (path : list Z) : Z * list Z :=
  match path with
  | d :: c :: rest => if (48 <=? d) && (d <=? 57) && (c =? 58) then (d - 48, rest) else (-1, path)
  | _ => (-1, path)
  end.

(** All but the trailing slashes. *)
Fixpoint rstrip (s : list Z) : list Z :=
  match s with
  | [] => []
  | c :: s => match rstrip s with
              | [] => if c =? 47 then [] else [c]
              | r => c :: r
              end
  end.

Definition normalize (s : list Z) : list Z :=
  match s with
  | 47 :: s' => 47 :: rstrip s'
  | _ => 47 :: rstrip s
  end.

Definition internal_path (drv : Z) (p : list Z) : list Z :=
  take 511 (if drv <? 0 then p else drv_prefix drv ++ p).

Definition resolve_spec (path : list Z) : Z * list Z * list Z :=
  let '(drv, rest) := split_drive path in
  (drv, normalize rest, internal_path drv (normalize rest)).

(** ** Buffers that hold a string *)

(** [b] holds the C string [s]: its bytes, a NUL, and anything behind. *)
Definition holds (b s : list Z) : Prop := cstr_ok s ∧ ∃ t, b = s ++ 0 :: t.

Lemma holds_cstr b s : holds b s → cstr b = s.
Proof. intros [Hs [t ->]]. by apply cstr_app_nul. Qed.

Lemma buf_strlen_holds b s : holds b s → buf_strlen b = Ret (zlen s).
Proof.
  intros [Hs [t ->]]. unfold buf_strlen. change (zlen s) with (0 + zlen s).
  generalize 0 at 2 3 as n. induction Hs as [|c s Hc _ IH]; intros n; simpl.
  - by rewrite Z.add_0_r.
  - unfold cchar in Hc. destruct (Z.eqb_spec c 0); [lia|].
    rewrite IH, zlen_cons. f_equal. lia.
Qed.

Lemma bget_app_l (s t : list Z) (i : Z) x :
  s !! Z.to_nat i = Some x → 0 ≤ i → bget (s ++ t) i = Ret x.
Proof. intros Hx Hi. apply bget_Ret. split; [done|]. by apply lookup_app_l_Some. Qed.

Lemma bset_app_mid (s : list Z) c t v : bset (s ++ c :: t) (zlen s) v = Ret (s ++ v :: t).
Proof.
  apply bset_Ret. split.
  - rewrite zlen_app, zlen_cons. pose proof (zlen_nonneg s). pose proof (zlen_nonneg t). lia.
  - unfold zlen. rewrite Nat2Z.id. by rewrite insert_app_r_alt, Nat.sub_diag by done.
Qed.

Lemma bget_app_mid (s : list Z) c t : bget (s ++ c :: t) (zlen s) = Ret c.
Proof.
  apply bget_Ret. split; [apply zlen_nonneg|]. unfold zlen. rewrite Nat2Z.id.
  by rewrite lookup_app_r, Nat.sub_diag by done.
Qed.

Lemma shift_right_spec n : ∀ (pre : list Z) y t,
  length pre = n →
  shift_right n (pre ++ y :: t) = Ret (hd y (pre ++ [y]) :: pre ++ t).
Proof.
  induction n as [|n IH]; intros pre y t Hl; [by destruct pre|].
  destruct pre as [|z pre _] using rev_ind; [done|].
  rewrite length_app in Hl. simpl in Hl.
  replace (Z.of_nat n) with (zlen pre) by (unfold zlen; lia).
  cbn [shift_right]. replace (Z.of_nat n) with (zlen pre) by (unfold zlen; lia).
  rewrite <- app_assoc. cbn [app]. rewrite bget_app_mid. cbn [rbind].
  replace (Z.of_nat (S n)) with (zlen (pre ++ [z])) by (unfold zlen; rewrite length_app; simpl; lia).
  change (pre ++ z :: y :: t) with (pre ++ [z] ++ y :: t). rewrite app_assoc, bset_app_mid.
  cbn [rbind]. rewrite <- app_assoc. cbn [app]. rewrite IH by lia.
  rewrite <- !app_assoc. by destruct pre.
Qed.

Lemma rstrip_snoc s : rstrip (s ++ [47]) = rstrip s.
Proof. induction s as [|c s IH]; simpl; [done|]. by rewrite IH. Qed.

Lemma rstrip_snoc_ne s z : z ≠ 47 → rstrip (s ++ [z]) = s ++ [z].
Proof.
  intros Hz. induction s as [|c s IH]; simpl.
  - by rewrite (proj2 (Z.eqb_neq _ _)).
  - rewrite IH. by destruct s.
Qed.

Lemma rstrip_prefix s : ∃ k, s = rstrip s ++ replicate k 47.
Proof.
  induction s as [|z s IH] using rev_ind; [by exists 0%nat|].
  destruct (decide (z = 47)) as [->|Hz].
  - rewrite rstrip_snoc. destruct IH as [k IH]. exists (S k).
    rewrite replicate_S_end, app_assoc. by rewrite <- IH.
  - rewrite rstrip_snoc_ne by done. exists 0%nat. simpl. by rewrite app_nil_r.
Qed.

Lemma rstrip_ok s : cstr_ok s → cstr_ok (rstrip s).
Proof. destruct (rstrip_prefix s) as [k Hk]. rewrite Hk at 1. by intros [? _]%Forall_app. Qed.

Lemma strip_slashes_spec s : ∀ c t,
  ∃ t', strip_slashes (S (length s)) (c :: s ++ 0 :: t) = Ret (c :: rstrip s ++ 0 :: t').
Proof.
  induction s as [|z s IH] using rev_ind; intros c t; [by exists t|].
  rewrite length_app, Nat.add_1_r. cbn [strip_slashes].
  replace (Z.of_nat (S (length s))) with (zlen (c :: s)) by (unfold zlen; simpl; lia).
  rewrite <- app_assoc. change (c :: s ++ [z] ++ 0 :: t) with ((c :: s) ++ z :: 0 :: t).
  rewrite bget_app_mid. cbn [rbind]. destruct (Z.eqb_spec z 47) as [->|Hz].
  - rewrite bset_app_mid. cbn [rbind app]. rewrite rstrip_snoc. apply (IH c (0 :: t)).
  - rewrite rstrip_snoc_ne by done. exists t. by rewrite <- app_assoc.
Qed.

Lemma cstr_ok_slash s : cstr_ok s → cstr_ok (47 :: s).
Proof. intros. constructor; [unfold cchar; lia|done]. Qed.

Lemma normalize_ok s : cstr_ok s → cstr_ok (normalize s).
Proof.
  intros Hs. unfold normalize. destruct Hs as [|c s Hc Hs]; [apply cstr_ok_slash; constructor|].
  repeat case_match; apply cstr_ok_slash, rstrip_ok; subst; try done; by constructor.
Qed.

(** Stripping the slashes behind the leading one. *)
Lemma strip_holds s t :
  cstr_ok s →
  ∃ b', (let! l := buf_strlen (47 :: s ++ 0 :: t) in strip_slashes (Z.to_nat l) (47 :: s ++ 0 :: t))
        = Ret b' ∧ holds b' (47 :: rstrip s).
Proof.
  intros Hs. rewrite (buf_strlen_holds _ (47 :: s)) by (split; [by apply cstr_ok_slash|by exists t]).
  cbn [rbind]. unfold zlen. rewrite Nat2Z.id. simpl length.
  destruct (strip_slashes_spec s 47 t) as [t' ->]. eexists. split; [done|].
  split; [by apply cstr_ok_slash, rstrip_ok|by exists t'].
Qed.

(** [normalize_path_inplace] normalizes whenever the buffer has a spare byte. *)
Lemma normalize_inplace_spec s t sz :
  cstr_ok s → 0 < zlen t → zlen s + 1 < sz →
  ∃ b', normalize_path_inplace (s ++ 0 :: t) sz = Ret b' ∧ holds b' (normalize s).
Proof.
  intros Hs Ht Hsz. pose proof (zlen_nonneg s). unfold normalize_path_inplace.
  destruct (Z.eqb_spec sz 0); [lia|].
  assert (H0 : bget (s ++ 0 :: t) 0 = Ret (hd 0 s)) by (destruct s; done).
  rewrite H0. cbn [rbind]. destruct (Z.eqb_spec (hd 0 s) 47) as [Hhd|Hhd]; cbn [negb].
  - destruct s as [|c s]; [done|]. simpl in Hhd. subst c. cbn [rbind].
    inversion_clear Hs as [|? ? _ Hs']. by apply strip_holds.
  - rewrite (buf_strlen_holds _ s) by (split; [done|by exists t]). cbn [rbind].
    destruct (Z.leb_spec sz (zlen s + 1)); [lia|].
    destruct t as [|x t]; [done|].
    replace (s ++ 0 :: x :: t) with ((s ++ [0]) ++ x :: t) by (by rewrite <- app_assoc).
    rewrite shift_right_spec by (rewrite length_app; unfold zlen; simpl; lia).
    cbn [rbind].
    pose proof (bset_app_mid [] (hd x ((s ++ [0]) ++ [x])) ((s ++ [0]) ++ t) 47) as Hset.
    change (zlen (@nil Z)) with 0 in Hset. cbn [app] in Hset. rewrite Hset.
    cbn [rbind]. rewrite <- app_assoc. cbn [app].
    replace (normalize s) with (47 :: rstrip s).
    2:{ unfold normalize. destruct s as [|c s]; [done|]. simpl in Hhd. by repeat case_match. }
    by apply strip_holds.
Qed.

Lemma shift_left2_spec r : ∀ a x y t,
  ∃ u v, shift_left2 (length r) (zlen a) (a ++ x :: y :: r ++ t)
         = Ret (zlen a + zlen r, a ++ r ++ u :: v :: t).
Proof.
  induction r as [|c r IH]; intros a x y t; [exists x, y; simpl; by rewrite Z.add_0_r|].
  cbn [length shift_left2].
  replace (bget (a ++ x :: y :: (c :: r) ++ t) (zlen a + 2)) with (Ret c).
  2:{ replace (zlen a + 2) with (zlen (a ++ [x; y])) by (rewrite zlen_app; done).
      change (x :: y :: (c :: r) ++ t) with ([x; y] ++ c :: r ++ t).
      by rewrite app_assoc, bget_app_mid. }
  cbn [rbind]. rewrite bset_app_mid. cbn [rbind].
  replace (zlen a + 1) with (zlen (a ++ [c])) by (rewrite zlen_app; done).
  replace (a ++ c :: y :: (c :: r) ++ t) with ((a ++ [c]) ++ y :: c :: r ++ t)
    by (by rewrite <- app_assoc).
  destruct (IH (a ++ [c]) y c t) as (u & v & ->). exists u, v.
  rewrite <- app_assoc. do 2 f_equal. autorewrite with hana. lia.
Qed.

Lemma parse_drive_spec path :
  cstr_ok path →
  ∃ t, parse_drive_prefix_inplace (path ++ [0; 0]) (zlen path + 2)
       = Ret ((split_drive path).1, (split_drive path).2 ++ 0 :: t) ∧ 0 < zlen t ∧
       cstr_ok (split_drive path).2 ∧ zlen (split_drive path).2 ≤ zlen path.
Proof.
  intros Hp. pose proof (zlen_nonneg path). unfold parse_drive_prefix_inplace.
  destruct path as [|d [|c rest]].
  - simpl. by exists [0].
  - exists [0]. simpl. split_and!; try done. destruct (_ && _) eqn:E; [|done]. bool_to_prop. lia.
  - cbn [split_drive]. rewrite !zlen_cons in *. pose proof (zlen_nonneg rest).
    destruct (Z.ltb_spec (1 + (1 + zlen rest) + 2) 3); [lia|].
    change (bget ((d :: c :: rest) ++ [0; 0]) 0) with (Ret d). cbn [rbind].
    assert (Hb1 : bget ((d :: c :: rest) ++ [0; 0]) 1 = Ret c) by (apply bget_Ret; split; [lia|done]).
    rewrite Hb1. cbn [rbind]. destruct (_ && _) eqn:E; cycle 1.
    { exists [0]. cbn [fst snd]. rewrite !zlen_cons. split_and!; [done|done|done|lia]. }
    rewrite (buf_strlen_holds _ (d :: c :: rest)) by (split; [done|by exists [0]]). cbn [rbind].
    rewrite !zlen_cons.
    replace (Z.to_nat (1 + (1 + zlen rest) - 1)) with (length (rest ++ [0]))
      by (rewrite length_app; unfold zlen; simpl; lia).
    destruct (shift_left2_spec (rest ++ [0]) [] d c [0]) as (u & v & Hs).
    replace ((d :: c :: rest) ++ [0; 0]) with ([] ++ d :: c :: (rest ++ [0]) ++ [0])
      by (simpl; by rewrite <- app_assoc).
    change (zlen (@nil Z)) with 0 in Hs. rewrite Hs. cbn [rbind]. cbn [app].
    rewrite Z.add_0_l. destruct (Z.ltb_spec (zlen (rest ++ [0])) (1 + (1 + zlen rest) + 2)).
    2:{ rewrite zlen_app in *. change (zlen [0]) with 1 in *. lia. }
    rewrite bset_app_mid. cbn [rbind]. exists [0; v; 0].
    inversion_clear Hp as [|? ? _ Hp']. inversion_clear Hp' as [|? ? _ Hp''].
    cbn [fst snd]. rewrite <- app_assoc. split_and!; [done|done|done|lia].
Qed.

Lemma copy_str_spec path : ∀ (a out : list Z) out_sz,
  zlen a + zlen out = out_sz → out ≠ [] →
  ∃ t, copy_str path (a ++ out) (zlen a) out_sz
       = Ret (a ++ take (length out - 1) path ++ 0 :: t).
Proof.
  induction path as [|c path IH]; intros a out out_sz Hsz Ho;
    (destruct out as [|x out]; [done|]); cbn [copy_str].
  - exists out. rewrite bset_app_mid. by rewrite take_nil.
  - rewrite zlen_cons in Hsz. pose proof (zlen_nonneg out).
    destruct (Z.ltb_spec (zlen a + 1) out_sz) as [Hlt|Hge].
    + rewrite bset_app_mid. cbn [rbind].
      replace (zlen a + 1) with (zlen (a ++ [c])) by (rewrite zlen_app; done).
      replace (a ++ c :: out) with ((a ++ [c]) ++ out) by (by rewrite <- app_assoc).
      destruct (IH (a ++ [c]) out out_sz) as [t Ht].
      { rewrite zlen_app. change (zlen [c]) with 1. lia. }
      { intros ->. change (zlen (@nil Z)) with 0 in *. lia. }
      exists t. rewrite Ht, <- app_assoc. simpl. rewrite Nat.sub_0_r.
      destruct out as [|y out]; [change (zlen (@nil Z)) with 0 in *; lia|]. simpl.
      by rewrite Nat.sub_0_r.
    + rewrite bset_app_mid. exists out.
      destruct out as [|y out]; [done|]. rewrite zlen_cons in *. pose proof (zlen_nonneg out). lia.
Qed.

Lemma drv_prefix_ok d : 0 ≤ d ≤ 9 → cstr_ok (drv_prefix d).
Proof.
  intros Hd. apply cstr_ok_app; [by apply (bool_decide_unpack _)|].
  constructor; [unfold cchar; lia|constructor].
Qed.

Lemma internal_path_ok d p : d ≤ 9 → cstr_ok p → cstr_ok (internal_path d p).
Proof.
  intros Hd Hp. unfold internal_path. apply cstr_ok_take.
  destruct (Z.ltb_spec d 0); [done|]. apply cstr_ok_app; [apply drv_prefix_ok; lia|done].
Qed.

Lemma build_internal_spec p drv :
  -1 ≤ drv ≤ 9 → head p = Some 47 → cstr_ok p →
  ∃ out, build_internal_path p drv (replicate 512 0) 512 = Ret out ∧
         holds out (internal_path drv p).
Proof.
  intros Hd Hh Hp. pose proof (internal_path_ok drv p ltac:(lia) Hp) as Hok.
  unfold build_internal_path. cbn match. unfold internal_path in *.
  destruct (Z.ltb_spec drv 0) as [Hneg|Hpos].
  - destruct (copy_str_spec p [] (replicate 512 0) 512) as [t Ht]; [done|done|].
    eexists. split; [exact Ht|]. split; [done|by exists t].
  - change (take (Z.to_nat (512 - 1)) (drv_prefix drv)) with (drv_prefix drv).
    change (zlen (drv_prefix drv)) with 5.
    rewrite memcpy_Ret by (try done; rewrite zlen_app; done). cbn [rbind].
    rewrite bool_decide_true by done. change ((5 + 1 <? 512) && true) with true. cbn match.
    change (take (Z.to_nat 0) (replicate 512 0) ++ _) with
      (drv_prefix drv ++ replicate 507 0).
    destruct (copy_str_spec p (drv_prefix drv) (replicate 507 0) 512) as [t Ht]; [done|done|].
    change (zlen (drv_prefix drv)) with 5 in Ht. rewrite Ht.
    eexists. split; [done|]. split; [done|]. exists t. rewrite app_assoc. f_equal.
Qed.

Lemma normalize_head s : head (normalize s) = Some 47.
Proof. unfold normalize. by repeat case_match. Qed.

Lemma split_drive_range path : -1 ≤ (split_drive path).1 ≤ 9.
Proof.
  unfold split_drive. destruct path as [|d [|c rest]]; simpl; try lia.
  destruct (_ && _) eqn:E; simpl; bool_to_prop; lia.
Qed.

Lemma resolve_correct path : cstr_ok path → resolve path = Ret (resolve_spec path).
Proof.
  intros Hp. unfold resolve, resolve_spec, strlen.
  destruct (parse_drive_spec path Hp) as (t & -> & Ht & Hok & Hl). cbn [rbind].
  pose proof (split_drive_range path) as Hr. destruct (split_drive path) as [drv rest].
  cbn [fst snd] in *.
  destruct (normalize_inplace_spec rest t (zlen path + 2)) as (b & -> & Hb); [done|done|lia|].
  cbn [rbind]. rewrite (holds_cstr _ _ Hb).
  destruct (build_internal_spec (normalize rest) drv) as (out & -> & Ho);
    [done|apply normalize_head|by apply normalize_ok|].
  cbn [rbind]. by rewrite (holds_cstr _ _ Ho).
Qed.

Lemma resolve_spec_ok path drv pb ip :
  cstr_ok path → resolve_spec path = (drv, pb, ip) → cstr_ok pb ∧ cstr_ok ip ∧ drv ≤ 9 ∧
  ip = internal_path drv pb.
Proof.
  intros Hp. unfold resolve_spec. destruct (parse_drive_spec path Hp) as (_ & _ & _ & Hok & _).
  pose proof (split_drive_range path). destruct (split_drive path) as [d rest]. cbn [fst snd] in *.
  intros [= <- <- <-]. pose proof (normalize_ok rest Hok).
  split_and!; [done| |lia|done]. apply internal_path_ok; [lia|done].
Qed.

(** C14. Path resolution: for every C string the in-place routines stay inside their buffers,
    terminate, and compute the drive number, the path with one leading and no trailing
    slash, and the internal path under /drvN, cut at 511 bytes. *)
Theorem resolve_matches_spec path :
  cstr_ok path → resolve path = Ret (resolve_spec path).
Proof. apply resolve_correct. Qed.

Lemma resolve_matches_spec_witness :
  resolve (str "1:docs//") = Ret (1, str "/docs", str "/drv1/docs").
Proof.
  rewrite (resolve_matches_spec (str "1:docs//")); [reflexivity|].
  apply (bool_decide_unpack _). vm_compute. exact I.
Defined.

Lemma rstrip_idem s : rstrip (rstrip s) = rstrip s.
Proof.
  induction s as [|z s IH] using rev_ind; [done|].
  destruct (decide (z = 47)) as [->|Hz]; [by rewrite rstrip_snoc|].
  by rewrite rstrip_snoc_ne, rstrip_snoc_ne.
Qed.

(** Normalizing twice changes nothing. *)
Lemma normalize_idem s : normalize (normalize s) = normalize s.
Proof.
  assert (H : ∀ r, normalize (47 :: rstrip r) = 47 :: rstrip r)
    by (intros r; cbn [normalize]; by rewrite rstrip_idem).
  unfold normalize at 2 3. repeat case_match; apply H.
Qed.

(** Two long paths that differ behind byte 511 name the same entry. *)
Example long_paths_alias :
  let p := 47 :: replicate 600 97 in
  (resolve_spec (p ++ [98])).2 = (resolve_spec (p ++ [99])).2.
Proof. vm_compute. reflexivity. Qed.
