(* ===== verification/BlockDev.v ===== *)
(** * The block-device interface (kernel/drivers/ide.hpp)

    File systems call [ata_read_sector] and [ata_write_sector]; a result of 0 is success.
    The laws say what a successful call guarantees.  [Disk] is a device whose calls all
    succeed. *)
From S2P Require Import Prelude.

Class BlockDev (D : Type) := {
  ata_read_sector : Z → D → Z * list Z * D;
  ata_write_sector : Z → list Z → D → Z * D
}.

Class BlockDevSpec (D : Type) `{BlockDev D} := {
  sector : D → Z → list Z;
  sector_size d lba : length (sector d lba) = 512%nat;
  sector_bytes d lba : Forall is_byte (sector d lba);
  read_ok lba d b d' :
    ata_read_sector lba d = (0, b, d') → b = sector d lba ∧ ∀ l, sector d' l = sector d l;
  write_ok lba b d d' :
    length b = 512%nat → Forall is_byte b → ata_write_sector lba b d = (0, d') →
    ∀ l, sector d' l = if l =? lba then b else sector d l
}.

Definition sector_data : Type := { b : list Z | bool_decide (length b = 512%nat ∧ Forall is_byte b) }.
Notation Disk := (gmap Z sector_data).

Definition disk_sector (d : Disk) (lba : Z) : list Z :=
  match d !! lba with Some b => `b | None => replicate 512 0 end.

#[export] Instance disk_dev : BlockDev Disk := {
  ata_read_sector lba d := (0, disk_sector d lba, d);
  ata_write_sector lba b d :=
    match decide (bool_decide (length b = 512%nat ∧ Forall is_byte b)) with
    | left H => (0, <[lba := exist _ b H]> d)
    | right _ => (-1, d)
    end
}.

Lemma disk_sector_ok d lba : length (disk_sector d lba) = 512%nat ∧ Forall is_byte (disk_sector d lba).
Proof.
  unfold disk_sector. destruct (d !! lba) as [[b Hb]|].
  - exact (bool_decide_unpack _ Hb).
  - split; [done|]. apply Forall_replicate. unfold is_byte. lia.
Qed.

#[export] Instance disk_dev_spec : BlockDevSpec Disk.
Proof.
  refine {| sector := disk_sector |}.
  - apply disk_sector_ok.
  - apply disk_sector_ok.
  - intros lba d b d' [= <- <-]. done.
  - intros lba b d d' Hl Hb. simpl. case_decide as Hd.
    + intros [= <-] l. unfold disk_sector. destruct (Z.eqb_spec l lba) as [->|Hne].
      * by rewrite lookup_insert_eq.
      * by rewrite lookup_insert_ne.
    + destruct Hd. by apply bool_decide_pack.
Defined.
