(* ===== verification/Ide.v ===== *)
(** * The IDE driver (kernel/drivers/ide.cpp)

    Sector transfers by programmed I/O.  The ports are the interface [Bus]; the driver's
    polling loops count down, so every call returns whatever the device answers. *)
From S2P Require Import Prelude Loop CString BlockDev.

Class Bus (B : Type) := {
  inb : Z → B → Z * B;
  inw : Z → B → Z * B;
  outb : Z → Z → B → B;
  outw : Z → Z → B → B
}.

Definition ATA_DATA : Z := 0x1F0.
Definition ATA_SECTOR_COUNT : Z := 0x1F2.
Definition ATA_LBA_LOW : Z := 0x1F3.
Definition ATA_LBA_MID : Z := 0x1F4.
Definition ATA_LBA_HIGH : Z := 0x1F5.
Definition ATA_DRIVE : Z := 0x1F6.
Definition ATA_COMMAND : Z := 0x1F7.

Section driver.
Context {B : Type} `{Bus B}.

Definition ata_status (b : B) : Z * B := inb ATA_COMMAND b.
Definition io_wait (b : B) : B := outb 0x80 0 b.

(** [while (loops--)] *)
Definition wait_step '(loops, b) : res ((Z * B) + (bool * B)) :=
  if loops =? 0 then Ret (inr (false, b))
  else
    let '(s, b) := ata_status b in
    if Z.land s 0x80 =? 0 then Ret (inr (true, b)) else Ret (inl (loops - 1, b)).
Definition ata_wait_not_busy (timeout_ms : Z) (b : B) : res (bool * B) :=
  while wait_step (u32 (timeout_ms * 1000), b).

Definition ide_init (b : B) : res (bool * B) :=
  let b := io_wait (outb ATA_DRIVE 0xA0 b) in
  let b := io_wait (outb ATA_COMMAND 0xEC b) in
  let '(s, b) := inb ATA_COMMAND b in
  if s =? 0 then Ret (false, b)
  else if negb (Z.land s 0x01 =? 0) then Ret (false, b)
  else if negb (Z.land s 0x08 =? 0) then Ret (true, b)
  else
    let! (ok, b) := ata_wait_not_busy 50 b in
    if negb ok then Ret (false, b)
    else let '(s, b) := inb ATA_COMMAND b in Ret (negb (Z.land s 0x08 =? 0), b).

(** The registers of a transfer command. *)
Definition ide_command (lba count : Z) (master : bool) (cmd : Z) (b : B) : B :=
  let drive := Z.lor (Z.lor 0xE0 (if master then 0 else 0x10)) (Z.land (Z.shiftr lba 24) 0x0F) in
  let b := io_wait (outb ATA_DRIVE drive b) in
  let b := outb ATA_SECTOR_COUNT count b in
  let b := outb ATA_LBA_LOW (Z.land lba 255) b in
  let b := outb ATA_LBA_MID (Z.land (Z.shiftr lba 8) 255) b in
  let b := outb ATA_LBA_HIGH (Z.land (Z.shiftr lba 16) 255) b in
  outb ATA_COMMAND cmd b.

(** [while (tries--)]: [false] on ERR; running out of tries is not an error. *)
Definition drq_step '(tries, b) : res ((Z * B) + (bool * B)) :=
  if tries =? 0 then Ret (inr (true, b))
  else
    let '(st, b) := inb ATA_COMMAND b in
    if negb (Z.land st 0x01 =? 0) then Ret (inr (false, b))
    else if (Z.land st 0x80 =? 0) && negb (Z.land st 0x08 =? 0) then Ret (inr (true, b))
    else Ret (inl (tries - 1, b)).
Definition wait_drq (b : B) : res (bool * B) := while drq_step (1000000, b).

(** [n] words from the data port. *)
Fixpoint read_words (n : nat) (b : B) : list Z * B :=
  match n with
  | O => ([], b)
  | S n =>
      let '(word, b) := inw ATA_DATA b in
      let '(bytes, b) := read_words n b in
      (Z.land word 255 :: Z.land (Z.shiftr word 8) 255 :: bytes, b)
  end.

Fixpoint pio_read (count : nat) (acc : list Z) (b : B) : res (option (list Z) * B) :=
  match count with
  | O => Ret (Some acc, b)
  | S n =>
      let! (ok, b) := wait_drq b in
      if negb ok then Ret (None, b)
      else let '(bytes, b) := read_words 256 b in pio_read n (acc ++ bytes) b
  end.

(** [count] is a [uint8_t]: the assignment of 256 leaves 0. *)
Definition sector_count (count : Z) : Z := if count =? 0 then u8 256 else count.

(** The bytes stored at [buf], or [None] for [false]. *)
Definition ide_read_lba28 (lba64 count : Z) (master : bool) (b : B) : res (option (list Z) * B) :=
  let count := sector_count count in
  let lba := u32 lba64 in
  if negb (Z.shiftr lba64 28 =? 0) then Ret (None, b)
  else
    let! (ok, b) := ata_wait_not_busy 500 b in
    if negb ok then Ret (None, b)
    else pio_read (Z.to_nat count) [] (ide_command lba count master 0x20 b).

(** The words of [2 n] bytes at [src]. *)
Fixpoint write_words (n : nat) (src : list Z) (b : B) : res (list Z * B) :=
  match n with
  | O => Ret (src, b)
  | S n =>
      match src with
      | x :: y :: src => write_words n src (outw ATA_DATA (Z.lor x (Z.shiftl y 8)) b)
      | _ => UB
      end
  end.

Fixpoint pio_write (count : nat) (src : list Z) (b : B) : res (bool * B) :=
  match count with
  | O => Ret (true, b)
  | S n =>
      let! (ok, b) := wait_drq b in
      if negb ok then Ret (false, b)
      else let! (src, b) := write_words 256 src b in pio_write n src b
  end.

Definition ide_write_lba28 (lba64 count : Z) (buf : list Z) (master : bool) (b : B) : res (bool * B) :=
  let count := sector_count count in
  let lba := u32 lba64 in
  if negb (Z.shiftr lba64 28 =? 0) then Ret (false, b)
  else
    let! (ok, b) := ata_wait_not_busy 500 b in
    if negb ok then Ret (false, b)
    else pio_write (Z.to_nat count) buf (ide_command lba count master 0x30 b).

(** IDENTIFY, words 60 and 61. *)
Definition count_step '(tries, b) : res ((Z * B) + (bool * B)) :=
  if tries =? 0 then Ret (inr (true, b))
  else
    let '(st, b) := inb ATA_COMMAND b in
    if negb (Z.land st 0x08 =? 0) then Ret (inr (true, b))
    else if negb (Z.land st 0x01 =? 0) then Ret (inr (false, b))
    else Ret (inl (tries - 1, b)).

(** The drive is chosen by the port the selection is written to. *)
Definition ata_get_sector_count_drive (drive : Z) (b : B) : res (Z * B) :=
  let port := if drive =? 0 then ATA_DRIVE else Z.lor ATA_DRIVE 0x10 in
  let b := io_wait (outb port 0xA0 b) in
  let b := io_wait (outb ATA_COMMAND 0xEC b) in
  let '(s, b) := inb ATA_COMMAND b in
  if s =? 0 then Ret (-1, b)
  else if negb (Z.land s 0x01 =? 0) then Ret (-1, b)
  else
    let! (ok, b) := ata_wait_not_busy 500 b in
    if negb ok then Ret (-1, b)
    else
      let! (ok, b) := while count_step (1000000, b) in
      if negb ok then Ret (-1, b)
      else
        let '(bytes, b) := read_words 256 b in
        let! low := bget bytes 120 in let! low' := bget bytes 121 in
        let! high := bget bytes 122 in let! high' := bget bytes 123 in
        let low := Z.lor low (Z.shiftl low' 8) in
        let high := Z.lor high (Z.shiftl high' 8) in
        Ret (i32 (Z.lor (u32 (Z.shiftl high 16)) low), b).
Definition ata_get_sector_count (b : B) : res (Z * B) := ata_get_sector_count_drive 0 b.

(** ** The entry points

    Each has its own static [ide_initialized]. *)
Record IdeState := Ide { bus : B; read_init : bool; write_init : bool; read_drive_init : bool; write_drive_init : bool }.

Definition ensure_init (done : bool) (b : B) : res (bool * B) := if done then Ret (true, b) else ide_init b.

Definition read_drive (done master : bool) (lba : Z) (b : B) : res (bool * (Z * list Z) * B) :=
  let! (done, b) := ensure_init done b in
  if negb done then Ret (false, (-1, []), b)
  else
    let! (r, b) := ide_read_lba28 lba 1 master b in
    match r with Some bytes => Ret (true, (0, bytes), b) | None => Ret (true, (-1, []), b) end.
Definition write_drive (done master : bool) (lba : Z) (buf : list Z) (b : B) : res (bool * Z * B) :=
  let! (done, b) := ensure_init done b in
  if negb done then Ret (false, -1, b)
  else
    let! (ok, b) := ide_write_lba28 lba 1 buf master b in
    Ret (true, if ok : bool then 0 else -1, b).

Definition ide_read_sector (lba : Z) (d : IdeState) : res (Z * list Z * IdeState) :=
  let! (i, r, b) := read_drive (read_init d) true lba (bus d) in
  Ret (r.1, r.2, Ide b i (write_init d) (read_drive_init d) (write_drive_init d)).
Definition ide_write_sector (lba : Z) (buf : list Z) (d : IdeState) : res (Z * IdeState) :=
  let! (i, rc, b) := write_drive (write_init d) true lba buf (bus d) in
  Ret (rc, Ide b (read_init d) i (read_drive_init d) (write_drive_init d)).
Definition ata_read_sector_drive (drive lba : Z) (d : IdeState) : res (Z * list Z * IdeState) :=
  let! (i, r, b) := read_drive (read_drive_init d) (drive =? 0) lba (bus d) in
  Ret (r.1, r.2, Ide b (read_init d) (write_init d) i (write_drive_init d)).
Definition ata_write_sector_drive (drive lba : Z) (buf : list Z) (d : IdeState) : res (Z * IdeState) :=
  let! (i, rc, b) := write_drive (write_drive_init d) (drive =? 0) lba buf (bus d) in
  Ret (rc, Ide b (read_init d) (write_init d) (read_drive_init d) i).
End driver.
Arguments IdeState B : clear implicits.
