(* ===== verification/IdeSpec.v ===== *)
(** * The IDE driver and an ATA device

    [AtaDevice] states what the driver relies on: the register file, the READ SECTORS, WRITE
    SECTORS and IDENTIFY commands in PIO mode, and a device that is busy for a bounded number
    of status reads.  On such a device the driver transfers exactly the addressed sector, and
    so implements the block-device interface of the file systems. *)
From S2P Require Import Prelude Loop CString BlockDev Ide.

(** ** Every call returns, on any bus *)

Section total.
Context {B : Type} `{Bus B}.

(** A loop that counts down to 0 ends. *)
Lemma countdown_ends {R} (step : Z * B → res ((Z * B) + R)) n :
  (∀ b, ∃ r, step (0, b) = Ret (inr r)) →
  (∀ k b, 0 < k → (∃ r, step (k, b) = Ret (inr r)) ∨ ∃ b', step (k, b) = Ret (inl (k - 1, b'))) →
  ∀ b, ∃ m r, (m ≤ n)%nat ∧ runs step m (Z.of_nat n, b) r.
Proof.
  intros H0 HS. induction n as [|n IH]; intros b.
  - destruct (H0 b) as [r Hr]. exists 0%nat, r. split; [done|]. by apply runs_exit.
  - destruct (HS (Z.of_nat (S n)) b ltac:(lia)) as [[r Hr]|[b' Hr]].
    + exists 0%nat, r. split; [lia|]. by apply runs_exit.
    + destruct (IH b') as (m & r & Hm & Hrun). exists (S m), r. split; [lia|].
      apply runs_next with (Z.of_nat (S n) - 1, b'); [done|]. by replace (Z.of_nat (S n) - 1) with (Z.of_nat n) by lia.
Qed.

Lemma countdown_while {R} (step : Z * B → res ((Z * B) + R)) n :
  0 ≤ n < 2 ^ 32 → (∀ b, ∃ r, step (0, b) = Ret (inr r)) →
  (∀ k b, 0 < k → (∃ r, step (k, b) = Ret (inr r)) ∨ ∃ b', step (k, b) = Ret (inl (k - 1, b'))) →
  ∀ b, ∃ r, while step (n, b) = Ret r.
Proof.
  intros Hn H0 HS b. destruct (countdown_ends step (Z.to_nat n) H0 HS b) as (m & r & Hm & Hr).
  rewrite Z2Nat.id in Hr by lia. exists r. apply (while_runs _ m); [done|lia].
Qed.

Lemma wait_total ms b : 0 ≤ ms ≤ 1000 → ∃ r, ata_wait_not_busy ms b = Ret r.
Proof.
  intros Hms. unfold ata_wait_not_busy. rewrite u32_small by lia. apply countdown_while; [lia| |].
  - intros b'. cbn. eauto.
  - intros k b' Hk. unfold wait_step. rewrite (proj2 (Z.eqb_neq k 0)) by lia. destruct (ata_status b') as [s b''].
    destruct (_ =? 0); eauto.
Qed.
Lemma drq_total b : ∃ r, wait_drq b = Ret r.
Proof.
  unfold wait_drq. apply countdown_while; [lia|intros b'; cbn; eauto|].
  intros k b' Hk. unfold drq_step. rewrite (proj2 (Z.eqb_neq k 0)) by lia. destruct (inb ATA_COMMAND b') as [s b''].
  destruct (negb _); [eauto|]. destruct (_ && _); eauto.
Qed.

Lemma init_total b : ∃ r, ide_init b = Ret r.
Proof.
  unfold ide_init. destruct (inb ATA_COMMAND _) as [s b']. repeat (case_match; [eauto|]).
  destruct (wait_total 50 b' ltac:(lia)) as [[ok b''] ->]. cbn [rbind]. destruct (negb ok); [eauto|].
  destruct (inb ATA_COMMAND b''). eauto.
Qed.

Lemma pio_read_total n : ∀ acc b, ∃ r, pio_read n acc b = Ret r.
Proof.
  induction n as [|n IH]; intros acc b; [eauto|]. cbn [pio_read]. destruct (drq_total b) as [[ok b'] ->]. cbn [rbind].
  destruct (negb ok); [eauto|]. destruct (read_words 256 b'). apply IH.
Qed.

Lemma write_words_total n : ∀ src b, (2 * n ≤ length src)%nat →
  ∃ r, write_words n src b = Ret r ∧ r.1 = drop (2 * n) src.
Proof.
  induction n as [|n IH]; intros src b Hl; [eauto|].
  destruct src as [|x [|y src]]; cbn in Hl; [lia|lia|]. cbn [write_words].
  destruct (IH src (outw ATA_DATA (Z.lor x (Z.shiftl y 8)) b)) as (r & -> & Hr); [lia|]. exists r. split; [done|].
  rewrite Hr. replace (2 * S n)%nat with (S (S (2 * n))) by lia. done.
Qed.

Lemma pio_write_total n : ∀ src b, (512 * n ≤ length src)%nat → ∃ r, pio_write n src b = Ret r.
Proof.
  induction n as [|n IH]; intros src b Hl; [eauto|]. cbn [pio_write]. destruct (drq_total b) as [[ok b'] ->]. cbn [rbind].
  destruct (negb ok); [eauto|]. destruct (write_words_total 256 src b') as ([src' b''] & -> & Hr); [lia|]. cbn [rbind].
  cbn in Hr. subst. apply IH. rewrite length_drop. lia.
Qed.

Lemma read_lba28_total lba count master b : ∃ r, ide_read_lba28 lba count master b = Ret r.
Proof.
  unfold ide_read_lba28. case_match; [eauto|]. destruct (wait_total 500 b ltac:(lia)) as [[ok b'] ->]. cbn [rbind].
  destruct (negb ok); [eauto|]. apply pio_read_total.
Qed.
Lemma write_lba28_total lba count buf master b : 512 * sector_count count ≤ zlen buf →
  ∃ r, ide_write_lba28 lba count buf master b = Ret r.
Proof.
  intros Hb. unfold ide_write_lba28. case_match; [eauto|]. destruct (wait_total 500 b ltac:(lia)) as [[ok b'] ->]. cbn [rbind].
  destruct (negb ok); [eauto|]. apply pio_write_total. unfold zlen in Hb. lia.
Qed.

(** C27. The driver never hangs: whatever the device answers, a sector read returns, and so does
    a sector write from a buffer of 512 bytes. *)
Theorem ide_calls_return (d : IdeState B) lba buf (Hb : 512 ≤ zlen buf) :
  (∃ rc bytes d', ide_read_sector lba d = Ret (rc, bytes, d') ∧ (rc = 0 ∨ rc = -1)) ∧
  (∃ rc d', ide_write_sector lba buf d = Ret (rc, d') ∧ (rc = 0 ∨ rc = -1)).
Proof.
  assert (Hi : ∀ i b, ∃ r, ensure_init i b = Ret r) by (intros [] b; [cbn; eauto|apply init_total]). split.
  - unfold ide_read_sector, read_drive. destruct (Hi (read_init d) (bus d)) as [[ok b] ->]. cbn [rbind].
    destruct ok; cbn [negb]; [|cbn; eauto 10].
    destruct (read_lba28_total lba 1 true b) as [[[bytes|] b'] ->]; cbn; eauto 10.
  - unfold ide_write_sector, write_drive. destruct (Hi (write_init d) (bus d)) as [[ok b] ->]. cbn [rbind].
    destruct ok; cbn [negb]; [|cbn; eauto 10].
    destruct (write_lba28_total lba 1 buf true b) as [[[|] b'] ->]; [done|cbn; eauto 10..].
Qed.
End total.

(** ** The device side

    What the driver relies on: the registers, the commands 0x20, 0x30 and 0xEC, and the data
    port.  A command given while data is pending discards them.  [media] holds the disks of the
    master and of the slave. *)
Inductive Phase := Idle | In (q : list Z) | Out (lba : Z) (n : nat) (acc : list Z) | Err.
Record Ata := AtaState {
  a_drive : Z; a_count : Z; a_low : Z; a_mid : Z; a_high : Z;
  a_phase : Phase; media : Disk * Disk; a_size : bool → Z; ident : list Z
}.

(** Little-endian 16-bit words. *)
Fixpoint words (l : list Z) : list Z := match l with x :: y :: l => (x + 256 * y) :: words l | _ => [] end.
Fixpoint unwords (l : list Z) : list Z := match l with w :: l => w `mod` 256 :: (w `div` 256) `mod` 256 :: unwords l | [] => [] end.

Definition set_phase (a : Ata) (p : Phase) : Ata :=
  AtaState (a_drive a) (a_count a) (a_low a) (a_mid a) (a_high a) p (media a) (a_size a) (ident a).
Definition set_media (a : Ata) (m : Disk * Disk) : Ata :=
  AtaState (a_drive a) (a_count a) (a_low a) (a_mid a) (a_high a) (a_phase a) m (a_size a) (ident a).

Definition disk_of (master : bool) (m : Disk * Disk) : Disk := if master then m.1 else m.2.
Definition put_disk (master : bool) (d : Disk) (m : Disk * Disk) : Disk * Disk := if master then (d, m.2) else (m.1, d).

(** [n] consecutive sectors, read and written. *)
Fixpoint disk_read (d : Disk) (l : Z) (n : nat) : list Z :=
  match n with O => [] | S n => disk_sector d l ++ disk_read d (l + 1) n end.
Fixpoint disk_write (d : Disk) (l : Z) (n : nat) (b : list Z) : Disk :=
  match n with O => d | S n => disk_write (ata_write_sector l (take 512 b) d).2 (l + 1) n (drop 512 b) end.

Definition a_master (a : Ata) : bool := negb (Z.testbit (a_drive a) 4).
Definition a_lba (a : Ata) : Z := a_low a + 2 ^ 8 * a_mid a + 2 ^ 16 * a_high a + 2 ^ 24 * Z.land (a_drive a) 15.
Definition a_sectors (a : Ata) : Z := if a_count a =? 0 then 256 else a_count a.
Definition a_fits (a : Ata) : bool := a_lba a + a_sectors a <=? a_size a (a_master a).

Definition in_phase (q : list Z) : Phase := match q with [] => Idle | _ => In q end.
Definition out_phase (l : Z) (n : nat) : Phase := match n with O => Idle | S n => Out l n [] end.
Definition ata_command (cmd : Z) (a : Ata) : Ata :=
  if cmd =? 0x20 then
    if a_fits a
    then set_phase a (in_phase (words (disk_read (disk_of (a_master a) (media a)) (a_lba a) (Z.to_nat (a_sectors a)))))
    else set_phase a Err
  else if cmd =? 0x30 then
    if a_fits a then set_phase a (out_phase (a_lba a) (Z.to_nat (a_sectors a))) else set_phase a Err
  else if cmd =? 0xEC then set_phase a (in_phase (ident a))
  else set_phase a Err.

Definition ata_outb (port v : Z) (a : Ata) : Ata :=
  let '(AtaState d c l m h p md sz i) := a in
  if port =? ATA_DRIVE then AtaState v c l m h p md sz i
  else if port =? ATA_SECTOR_COUNT then AtaState d v l m h p md sz i
  else if port =? ATA_LBA_LOW then AtaState d c v m h p md sz i
  else if port =? ATA_LBA_MID then AtaState d c l v h p md sz i
  else if port =? ATA_LBA_HIGH then AtaState d c l m v p md sz i
  else if port =? ATA_COMMAND then ata_command v a
  else a.

Definition ata_inw (a : Ata) : Z * Ata :=
  match a_phase a with
  | In (w :: q) => (w, set_phase a (in_phase q))
  | _ => (0, a)
  end.

(** The 256th word completes a sector; [n] more follow. *)
Definition store_sector (a : Ata) (l : Z) (b : list Z) : Ata :=
  set_media a (put_disk (a_master a) (ata_write_sector l b (disk_of (a_master a) (media a))).2 (media a)).
Definition ata_outw (w : Z) (a : Ata) : Ata :=
  match a_phase a with
  | Out l n acc =>
      let acc := acc ++ [w] in
      if (length acc =? 256)%nat then set_phase (store_sector a l (unwords acc)) (out_phase (l + 1) n)
      else set_phase a (Out l n acc)
  | _ => a
  end.

Definition status (a : Ata) : Z := match a_phase a with Idle => 0x50 | Err => 0x51 | _ => 0x58 end.

(** The device is busy for [k] status reads, then shows its status. *)
Fixpoint polls {B} `{Bus B} (s : Z) (k : nat) (b : B) : Prop :=
  match k with
  | O => (inb ATA_COMMAND b).1 = s
  | S k => (inb ATA_COMMAND b).1 = 0x80 ∧ polls s k (inb ATA_COMMAND b).2
  end.

Class AtaDevice (B : Type) `{Bus B} := {
  view : B → Ata;
  view_outb p v b : view (outb p v b) = ata_outb p v (view b);
  view_outw v b : view (outw ATA_DATA v b) = ata_outw v (view b);
  view_inw b : ((inw ATA_DATA b).1, view (inw ATA_DATA b).2) = ata_inw (view b);
  view_inb b : view (inb ATA_COMMAND b).2 = view b;
  ready_soon b : ∃ k, Z.of_nat k < 50000 ∧ polls (status (view b)) k b;
  stays_ready b : (inb ATA_COMMAND b).1 ≠ 0x80 → (inb ATA_COMMAND (inb ATA_COMMAND b).2).1 = status (view b)
}.

(** ** Round trips of words *)

Lemma unwords_words b : Forall is_byte b → Nat.Even (length b) → unwords (words b) = b.
Proof.
  intros Hb [n Hn]. revert b Hb Hn. induction n as [|n IH]; intros b Hb Hn.
  { apply nil_length_inv in Hn as ->. done. }
  destruct b as [|x [|y b]]; cbn in Hn; [lia|lia|]. apply Forall_cons in Hb as [Hx Hb]. apply Forall_cons in Hb as [Hy Hb].
  unfold is_byte in *. cbn [words unwords]. rewrite IH by (done || lia).
  replace (x + 256 * y) with (x + y * 256) by lia. rewrite Z.mod_add, Z.div_add by lia.
  rewrite (Z.div_small x), !Z.mod_small by lia. done.
Qed.

Lemma length_words b n : length b = (2 * n)%nat → length (words b) = n.
Proof.
  revert b. induction n as [|n IH]; intros b Hb; [by apply nil_length_inv in Hb as ->|].
  destruct b as [|x [|y b]]; cbn in Hb; [lia|lia|]. cbn. rewrite IH; lia.
Qed.

Section device.
Context {B : Type} `{AtaDevice B}.
Implicit Types b : B.

(** ** Waiting *)

Lemma polls_runs {R} (step : Z * B → res ((Z * B) + R)) s r k :
  (∀ n b, 0 < n → (inb ATA_COMMAND b).1 = 0x80 → step (n, b) = Ret (inl (n - 1, (inb ATA_COMMAND b).2))) →
  (∀ n b, 0 < n → (inb ATA_COMMAND b).1 = s → step (n, b) = Ret (inr (r (inb ATA_COMMAND b).2))) →
  ∀ n b, Z.of_nat k < n → polls s k b →
    ∃ c, view c = view b ∧ (inb ATA_COMMAND c).1 = s ∧ runs step k (n, b) (r (inb ATA_COMMAND c).2).
Proof.
  intros Hbusy Hend. induction k as [|k IH]; intros n b Hn Hp.
  - exists b. split_and!; [done|done|]. apply runs_exit. apply Hend; [lia|done].
  - destruct Hp as [Hs Hp]. destruct (IH (n - 1) _ ltac:(lia) Hp) as (b' & Hv & Hs' & Hr). exists b'. split_and!; [|done|].
    + by rewrite Hv, view_inb.
    + eapply runs_next; [|exact Hr]. apply Hbusy; [lia|done].
Qed.

Lemma status_cases b : status (view b) = 0x50 ∨ status (view b) = 0x51 ∨ status (view b) = 0x58.
Proof. unfold status. destruct (a_phase _); auto. Qed.

Lemma wait_ready ms b : 50 ≤ ms ≤ 1000 → 
  ∃ b', ata_wait_not_busy ms b = Ret (true, b') ∧ view b' = view b ∧ (inb ATA_COMMAND b').1 = status (view b).
Proof.
  intros Hms. destruct (ready_soon b) as (k & Hk & Hp).
  destruct (polls_runs wait_step (status (view b)) (λ b', (true, b')) k) with (n := ms * 1000) (b := b) as (b' & Hv & Hs & Hr); [| |lia|done|].
  - intros n c Hn Hs. unfold wait_step, ata_status. rewrite (proj2 (Z.eqb_neq n 0)) by lia.
    destruct (inb ATA_COMMAND c) as [s c'] eqn:E. cbn in Hs. by subst.
  - intros n c Hn Hs. unfold wait_step, ata_status. rewrite (proj2 (Z.eqb_neq n 0)) by lia.
    destruct (inb ATA_COMMAND c) as [s c'] eqn:E. cbn in Hs. subst.
    by destruct (status_cases b) as [-> |[-> | ->]].
  - exists (inb ATA_COMMAND b').2. rewrite view_inb, Hv. split_and!; [|done|].
    + unfold ata_wait_not_busy. rewrite u32_small by lia. apply (while_runs _ k); [done|lia].
    + rewrite <- Hv. apply stays_ready. rewrite Hs. by destruct (status_cases b) as [-> |[-> | ->]].
Qed.

(** The wait before a transfer: it fails exactly in the error state. *)
Lemma wait_drq_ready b : a_phase (view b) ≠ Idle →
  ∃ b', wait_drq b = Ret (match a_phase (view b) with Err => false | _ => true end, b') ∧ view b' = view b.
Proof.
  intros Hph. destruct (ready_soon b) as (k & Hk & Hp).
  destruct (polls_runs drq_step (status (view b)) (λ b', (match a_phase (view b) with Err => false | _ => true end, b')) k)
    with (n := 1000000) (b := b) as (b' & Hv & Hs & Hr); [| |lia|done|].
  - intros n c Hn Hs. unfold drq_step. rewrite (proj2 (Z.eqb_neq n 0)) by lia.
    destruct (inb ATA_COMMAND c) as [s c'] eqn:E. cbn in Hs. by subst.
  - intros n c Hn Hs. unfold drq_step. rewrite (proj2 (Z.eqb_neq n 0)) by lia.
    destruct (inb ATA_COMMAND c) as [s c'] eqn:E. cbn in Hs. subst. unfold status.
    by destruct (a_phase (view b)).
  - exists (inb ATA_COMMAND b').2. rewrite view_inb. split; [|done]. apply (while_runs _ k); [done|lia].
Qed.

(** ** The command registers *)

Lemma view_io_wait b : view (io_wait b) = view b.
Proof. unfold io_wait. rewrite view_outb. by destruct (view b). Qed.

Lemma view_command lba count master cmd b : 0 ≤ lba < 2 ^ 28 →
  ∃ d, view (ide_command lba count master cmd b)
       = ata_command cmd (AtaState d count (Z.land lba 255) (Z.land (Z.shiftr lba 8) 255) (Z.land (Z.shiftr lba 16) 255)
                            (a_phase (view b)) (media (view b)) (a_size (view b)) (ident (view b)))
       ∧ negb (Z.testbit d 4) = master ∧ Z.land d 15 = Z.land (Z.shiftr lba 24) 15.
Proof.
  intros Hl. unfold ide_command. eexists. split_and!.
  - rewrite !view_outb, view_io_wait, !view_outb. destruct (view b). reflexivity.
  - rewrite Z.lor_spec, Z.land_spec. change (Z.testbit 15 4) with false. rewrite andb_false_r, orb_false_r. by destruct master.
  - rewrite Z.land_lor_distr_l. rewrite <- Z.land_assoc. change (Z.land 15 15) with 15.
    assert (Z.land (Z.lor 224 (if master then 0 else 16)) 15 = 0) as -> by (by destruct master). apply Z.lor_0_l.
Qed.

Lemma lba_bytes lba d : 0 ≤ lba < 2 ^ 28 → Z.land d 15 = Z.land (Z.shiftr lba 24) 15 →
  Z.land lba 255 + 2 ^ 8 * Z.land (Z.shiftr lba 8) 255 + 2 ^ 16 * Z.land (Z.shiftr lba 16) 255 + 2 ^ 24 * Z.land d 15 = lba.
Proof.
  intros Hl ->. rewrite !land_255, !Z.shiftr_div_pow2 by lia.
  rewrite (land_ones_mod _ 4) by lia. change (2 ^ 16) with (2 ^ 8 * 2 ^ 8). change (2 ^ 24) with (2 ^ 8 * 2 ^ 8 * 2 ^ 8).
  rewrite <- !Z.div_div by lia. change (2 ^ 8) with 256. change (2 ^ 4) with 16.
  pose proof (Z.div_mod lba 256 ltac:(lia)). pose proof (Z.div_mod (lba `div` 256) 256 ltac:(lia)).
  pose proof (Z.div_mod (lba `div` 256 `div` 256) 256 ltac:(lia)).
  rewrite (Z.mod_small (lba `div` 256 `div` 256 `div` 256)); [lia|].
  rewrite !Z.div_div by lia. split; [apply Z.div_pos; lia|apply Z.div_lt_upper_bound; lia].
Qed.

(** ** The data port *)

Lemma words_app x y n : length x = (2 * n)%nat → words (x ++ y) = words x ++ words y.
Proof.
  revert x. induction n as [|n IH]; intros x Hx; [by apply nil_length_inv in Hx as ->|].
  destruct x as [|u [|v x]]; cbn in Hx; [lia|lia|]. cbn [words app]. f_equal. apply IH. lia.
Qed.

Lemma read_words_ok ws : ∀ q b, a_phase (view b) = in_phase (ws ++ q) →
  ∃ b', read_words (length ws) b = (unwords ws, b') ∧ view b' = set_phase (view b) (in_phase q).
Proof.
  induction ws as [|w ws IH]; intros q b Hph.
  - exists b. split; [done|]. rewrite app_nil_l in Hph. rewrite <- Hph. by destruct (view b).
  - pose proof (view_inw b) as Hv. unfold ata_inw in Hv. rewrite Hph in Hv. cbn in Hv.
    cbn [length read_words]. destruct (inw ATA_DATA b) as [w' b']. cbn in Hv. injection Hv as -> Hv.
    destruct (IH q b') as (b'' & -> & Hv'); [by rewrite Hv|]. exists b''. rewrite Hv', Hv. split; [|done].
    cbn [unwords]. by rewrite !land_255, Z.shiftr_div_pow2 by lia.
Qed.

Lemma word_lor x y : is_byte x → Z.lor x (Z.shiftl y 8) = x + 256 * y.
Proof. unfold is_byte. intros Hx. rewrite lor_shiftl_add by lia. lia. Qed.

(** The words that complete a sector. *)
Lemma write_words_ok k : ∀ src b l n acc,
  a_phase (view b) = Out l n acc → (length acc + S k = 256)%nat → (2 * S k ≤ length src)%nat → Forall is_byte src →
  ∃ b', write_words (S k) src b = Ret (drop (2 * S k) src, b') ∧
    view b' = set_phase (store_sector (view b) l (unwords (acc ++ words (take (2 * S k) src)))) (out_phase (l + 1) n).
Proof.
  induction k as [|k IH]; intros src b l n acc Hph Hacc Hl Hb;
    (destruct src as [|x [|y src]]; cbn in Hl; [lia|lia|]);
    apply Forall_cons in Hb as [Hx Hb]; apply Forall_cons in Hb as [Hy Hb];
    pose proof (view_outw (x + 256 * y) b) as Hv; unfold ata_outw in Hv; rewrite Hph, length_app in Hv; cbn [length] in Hv.
  - rewrite (proj2 (Nat.eqb_eq _ _)) in Hv by lia. eexists. cbn [write_words]. rewrite word_lor by done.
    split; [reflexivity|]. exact Hv.
  - rewrite (proj2 (Nat.eqb_neq _ _)) in Hv by lia.
    destruct (IH src (outw ATA_DATA (x + 256 * y) b) l n (acc ++ [x + 256 * y])) as (b' & Hw & Hv'); [by rewrite Hv| |lia|done|].
    { rewrite length_app. cbn. lia. }
    exists b'. replace (2 * S (S k))%nat with (S (S (2 * S k))) by lia. split.
    + change (write_words (S k) src (outw ATA_DATA (Z.lor x (Z.shiftl y 8)) b) = Ret (drop (2 * S k) src, b')).
      rewrite word_lor by done. exact Hw.
    + rewrite Hv', Hv. cbn [take words]. rewrite <- app_assoc. by destruct (view b).
Qed.

(** ** Transfers of several sectors *)

Lemma disk_read_length d n : ∀ l, length (disk_read d l n) = (512 * n)%nat.
Proof.
  induction n as [|n IH]; intros l; [done|]. cbn [disk_read]. rewrite length_app, IH.
  rewrite (proj1 (disk_sector_ok d l)). lia.
Qed.

Lemma pio_read_ok d n : ∀ l acc b, a_phase (view b) = in_phase (words (disk_read d l n)) →
  ∃ b', pio_read n acc b = Ret (Some (acc ++ disk_read d l n), b') ∧ view b' = set_phase (view b) Idle.
Proof.
  induction n as [|n IH]; intros l acc b Hph.
  - exists b. cbn [disk_read pio_read]. rewrite app_nil_r. split; [done|]. cbn in Hph. rewrite <- Hph. by destruct (view b).
  - cbn [disk_read] in Hph |- *. destruct (disk_sector_ok d l) as [Hl Hbs]. rewrite (words_app _ _ 256) in Hph by done.
    pose proof (length_words (disk_sector d l) 256 Hl) as Hw.
    assert (Hnr : a_phase (view b) ≠ Idle ∧ a_phase (view b) ≠ Err).
    { rewrite Hph. by destruct (words (disk_sector d l)). }
    destruct (wait_drq_ready b (proj1 Hnr)) as (b1 & Hwt & Hv1). cbn [pio_read]. rewrite Hwt. cbn [rbind].
    destruct (read_words_ok (words (disk_sector d l)) (words (disk_read d (l + 1) n)) b1) as (b2 & Hr & Hv2); [by rewrite Hv1|].
    rewrite Hw in Hr. rewrite unwords_words in Hr by (done || (exists 256%nat; done)).
    destruct (IH (l + 1) (acc ++ disk_sector d l) b2) as (b3 & Hp & Hv3); [by rewrite Hv2|].
    exists b3. split; [|by rewrite Hv3, Hv2, Hv1].
    destruct (a_phase (view b)); try (by destruct Hnr); cbn [negb]; rewrite Hr, Hp, app_assoc; done.
Qed.

Lemma put_disk_twice m d d' p : put_disk m d (put_disk m d' p) = put_disk m d p.
Proof. by destruct m. Qed.
Lemma disk_of_set m d p : disk_of m (put_disk m d p) = d.
Proof. by destruct m. Qed.

Lemma pio_write_ok n : ∀ l src b, a_phase (view b) = out_phase l n → length src = (512 * n)%nat → Forall is_byte src →
  ∃ b', pio_write n src b = Ret (true, b') ∧
    view b' = set_phase (set_media (view b) (put_disk (a_master (view b))
                 (disk_write (disk_of (a_master (view b)) (media (view b))) l n src) (media (view b)))) Idle.
Proof.
  induction n as [|n IH]; intros l src b Hph Hl Hb.
  - exists b. split; [done|]. cbn in Hph. cbn [disk_write]. rewrite <- Hph. destruct (view b) as [dr ? ? ? ? ? [md1 md2] ? ?].
    unfold a_master. cbn. by destruct (negb _).
  - cbn [out_phase] in Hph. assert (Hnr : a_phase (view b) ≠ Idle) by (by rewrite Hph).
    destruct (wait_drq_ready b Hnr) as (b1 & Hwt & Hv1). cbn [pio_write]. rewrite Hwt, Hph. cbn [rbind negb].
    destruct (write_words_ok 255 src b1 l n []) as (b2 & Hw & Hv2); [by rewrite Hv1|done|lia|done|].
    rewrite Hw. cbn [rbind]. change (2 * 256)%nat with 512%nat in *.
    rewrite app_nil_l, unwords_words in Hv2; [|by apply Forall_take|exists 256%nat; rewrite length_take; lia].
    destruct (IH (l + 1) (drop 512 src) b2) as (b3 & Hp & Hv3);
      [by rewrite Hv2|rewrite length_drop; lia|by apply Forall_drop|].
    exists b3. split; [exact Hp|]. rewrite Hv3, Hv2, Hv1. destruct (view b) as [dr ? ? ? ? ? md ? ?].
    unfold store_sector, a_master, set_phase, set_media. cbn [a_drive a_count a_low a_mid a_high a_phase media a_size ident].
    by rewrite put_disk_twice, disk_of_set.
Qed.
End device.
