(* ===== verification/IdeThm.v ===== *)
(** * What the IDE driver guarantees

    On a device that behaves as [AtaDevice] says, a transfer moves exactly the addressed
    sectors of the selected drive and a request that does not fit is refused with the disks
    unchanged.  Hence the driver is a block device in the sense of BlockDev.v, the interface
    the file systems are verified against.  The last section has a device that answers BUSY
    after each register write. *)
From S2P Require Import Prelude Loop CString BlockDev Ide IdeSpec.

(** The request the hardware can address and the drive can serve. *)
Definition fits (a : Ata) (master : bool) (lba count : Z) : bool :=
  (0 <=? lba) && (lba <? 2 ^ 28) && (lba + count <=? a_size a master).

(** Same disks, sizes and identification. *)
Definition same_disks (a a' : Ata) : Prop := media a' = media a ∧ a_size a' = a_size a ∧ ident a' = ident a.

Lemma disk_write_rc lba b (d : Disk) rc d' : length b = 512%nat → Forall is_byte b → ata_write_sector lba b d = (rc, d') → rc = 0.
Proof. intros Hl Hb E. cbn in E. case_decide as Hd; [by injection E|]. destruct Hd. by apply bool_decide_pack. Qed.

Lemma unwords_lookup ws : ∀ i w, ws !! i = Some w →
  unwords ws !! (2 * i)%nat = Some (w `mod` 256) ∧ unwords ws !! (2 * i + 1)%nat = Some ((w `div` 256) `mod` 256).
Proof.
  induction ws as [|v ws IH]; intros [|i] w Hi; cbn in Hi; [done|done|by injection Hi as ->|].
  replace (2 * S i)%nat with (S (S (2 * i))) by lia. cbn [unwords]. exact (IH i w Hi).
Qed.

Section device.
Context {B : Type} `{AtaDevice B}.
Implicit Types b : B.

Lemma same_disks_trans a1 a2 a3 : same_disks a1 a2 → same_disks a2 a3 → same_disks a1 a3.
Proof. unfold same_disks. intros (-> & -> & ->) (-> & -> & ->). done. Qed.
Lemma same_disks_phase a p : same_disks a (set_phase a p).
Proof. done. Qed.

Lemma shiftr_28 lba : (Z.shiftr lba 28 =? 0) = (0 <=? lba) && (lba <? 2 ^ 28).
Proof.
  rewrite Z.shiftr_div_pow2 by lia. pose proof (Z.div_mod lba (2 ^ 28) ltac:(lia)). pose proof (Z.mod_pos_bound lba (2 ^ 28) ltac:(lia)).
  destruct (Z.leb_spec 0 lba), (Z.ltb_spec lba (2 ^ 28)); cbn [andb]; try (apply Z.eqb_neq; lia). apply Z.eqb_eq. lia.
Qed.

(** The state a transfer command leaves the device in. *)
Lemma command_state lba count master cmd b : 0 ≤ lba < 2 ^ 28 → 0 < count < 256 →
  ∃ a, view (ide_command lba count master cmd b) = ata_command cmd a ∧ same_disks (view b) a ∧
    a_master a = master ∧ a_lba a = lba ∧ a_sectors a = count ∧ a_fits a = (lba + count <=? a_size (view b) master).
Proof.
  intros Hl Hc. destruct (view_command lba count master cmd b Hl) as (d & Hv & Hm & Hd).
  eexists. split; [exact Hv|]. assert (Hs : (count =? 0) = false) by lia.
  unfold a_fits, a_master, a_lba, a_sectors. cbn [a_drive a_low a_mid a_high a_size a_count].
  rewrite Hs, Hm, lba_bytes by done. done.
Qed.

Lemma err_refused b : a_phase (view b) = Err → ∃ b', wait_drq b = Ret (false, b') ∧ view b' = view b.
Proof.
  intros Hp. assert (Hne : a_phase (view b) ≠ Idle) by (by rewrite Hp).
  destruct (wait_drq_ready b Hne) as (b' & Hw & Hv). rewrite Hp in Hw. eauto.
Qed.

(** Reading [count] sectors. *)
Lemma read_lba28_ok lba count master b : 0 < count < 256 →
  ∃ b', same_disks (view b) (view b') ∧
    ide_read_lba28 lba count master b =
      Ret (if fits (view b) master lba count
           then Some (disk_read (disk_of master (media (view b))) lba (Z.to_nat count)) else None, b').
Proof.
  intros Hc. unfold ide_read_lba28, fits. rewrite shiftr_28.
  destruct ((0 <=? lba) && (lba <? 2 ^ 28)) eqn:E; [|exists b; done]. cbn [negb andb].
  assert (Hl : 0 ≤ lba < 2 ^ 28) by (apply andb_true_iff in E; lia).
  destruct (wait_ready 500 b ltac:(lia)) as (b1 & -> & Hv1 & _). cbn [rbind negb].
  unfold sector_count. rewrite (proj2 (Z.eqb_neq count 0)), u32_small by lia.
  destruct (command_state lba count master 0x20 b1 Hl Hc) as (a & Hv2 & Hsd & Hm & Ha & Hn & Hf).
  change (ata_command 0x20 a) with
    (if a_fits a then set_phase a (in_phase (words (disk_read (disk_of (a_master a) (media a)) (a_lba a) (Z.to_nat (a_sectors a)))))
     else set_phase a Err) in Hv2.
  rewrite Hf, Hm, Ha, Hn in Hv2. rewrite Hv1 in *. destruct Hsd as (Hmd & Hsz & Hid). clear E. destruct (_ <=? _).
  - destruct (pio_read_ok (disk_of master (media a)) (Z.to_nat count) lba [] (ide_command lba count master 0x20 b1)) as (b3 & -> & Hv3); [by rewrite Hv2|].
    exists b3. rewrite Hv3, Hv2, Hmd. done.
  - destruct (err_refused (ide_command lba count master 0x20 b1)) as (b3 & Hw & Hv3); [by rewrite Hv2|].
    exists b3. split; [by rewrite Hv3, Hv2|]. replace (Z.to_nat count) with (S (Z.to_nat (count - 1))) by lia.
    cbn [pio_read]. by rewrite Hw.
Qed.

(** The device after a write. *)
Definition written (a a' : Ata) (master : bool) (d : Disk) : Prop :=
  media a' = put_disk master d (media a) ∧ a_size a' = a_size a ∧ ident a' = ident a.

(** Writing [count] sectors. *)
Lemma write_lba28_ok lba count buf master b : 0 < count < 256 → zlen buf = 512 * count → Forall is_byte buf →
  ∃ b', ide_write_lba28 lba count buf master b = Ret (fits (view b) master lba count, b') ∧
    if fits (view b) master lba count
    then written (view b) (view b') master (disk_write (disk_of master (media (view b))) lba (Z.to_nat count) buf)
    else same_disks (view b) (view b').
Proof.
  intros Hc Hlen Hbs. unfold ide_write_lba28, fits. rewrite shiftr_28.
  destruct ((0 <=? lba) && (lba <? 2 ^ 28)) eqn:E; [|exists b; done]. cbn [negb andb].
  assert (Hl : 0 ≤ lba < 2 ^ 28) by (apply andb_true_iff in E; lia).
  destruct (wait_ready 500 b ltac:(lia)) as (b1 & -> & Hv1 & _). cbn [rbind negb].
  unfold sector_count. rewrite (proj2 (Z.eqb_neq count 0)), u32_small by lia.
  destruct (command_state lba count master 0x30 b1 Hl Hc) as (a & Hv2 & Hsd & Hm & Ha & Hn & Hf).
  change (ata_command 0x30 a) with
    (if a_fits a then set_phase a (out_phase (a_lba a) (Z.to_nat (a_sectors a))) else set_phase a Err) in Hv2.
  rewrite Hf, Ha, Hn in Hv2. rewrite Hv1 in *. destruct Hsd as (Hmd & Hsz & Hid). clear E. destruct (_ <=? _).
  - destruct (pio_write_ok (Z.to_nat count) lba buf (ide_command lba count master 0x30 b1)) as (b3 & -> & Hv3);
      [by rewrite Hv2|unfold zlen in Hlen; lia|done|].
    exists b3. split; [done|]. rewrite Hv3, Hv2. change (a_master (set_phase a (out_phase lba (Z.to_nat count)))) with (a_master a).
    rewrite Hm. unfold written. cbn [media a_size ident set_phase set_media]. by rewrite Hmd.
  - destruct (err_refused (ide_command lba count master 0x30 b1)) as (b3 & Hw & Hv3); [by rewrite Hv2|].
    exists b3. split; [|by rewrite Hv3, Hv2]. replace (Z.to_nat count) with (S (Z.to_nat (count - 1))) by lia.
    cbn [pio_write]. by rewrite Hw.
Qed.

(** ** Initialisation *)

Lemma identify_state b :
  let b' := io_wait (outb ATA_COMMAND 0xEC (io_wait (outb ATA_DRIVE 0xA0 b))) in
  same_disks (view b) (view b') ∧ a_phase (view b') = in_phase (ident (view b)).
Proof. cbv zeta. rewrite view_io_wait, view_outb, view_io_wait, view_outb. by destruct (view b). Qed.

Lemma first_status b : (inb ATA_COMMAND b).1 = 0x80 ∨ (inb ATA_COMMAND b).1 = status (view b).
Proof. destruct (ready_soon b) as ([|k] & _ & Hp); cbn [polls] in Hp; tauto. Qed.

(** The wait of [ata_get_sector_count]. *)
Lemma count_ready b : status (view b) = 0x58 → ∃ b', while count_step (1000000, b) = Ret (true, b') ∧ view b' = view b.
Proof.
  intros Hst. destruct (ready_soon b) as (k & Hk & Hp). rewrite Hst in Hp.
  destruct (polls_runs count_step 0x58 (λ b', (true, b')) k) with (n := 1000000) (b := b) as (b' & Hv & Hs & Hr); [| |lia|done|].
  - intros n c Hn Hs. unfold count_step. rewrite (proj2 (Z.eqb_neq n 0)) by lia.
    destruct (inb ATA_COMMAND c) as [s c'] eqn:E. cbn in Hs. by subst.
  - intros n c Hn Hs. unfold count_step. rewrite (proj2 (Z.eqb_neq n 0)) by lia.
    destruct (inb ATA_COMMAND c) as [s c'] eqn:E. cbn in Hs. by subst.
  - exists (inb ATA_COMMAND b').2. rewrite view_inb. split; [|done]. apply (while_runs _ k); [done|lia].
Qed.

(** IDENTIFY succeeds when there is identification data, and does not touch the disks. *)
Lemma init_ok b : ∃ b', ide_init b = Ret (negb (bool_decide (ident (view b) = [])), b') ∧ same_disks (view b) (view b').
Proof.
  unfold ide_init. set (b1 := io_wait (outb ATA_COMMAND 0xEC (io_wait (outb ATA_DRIVE 0xA0 b)))).
  destruct (identify_state b) as (Hsd & Hph). fold b1 in Hsd, Hph.
  assert (Hst : status (view b1) = if bool_decide (ident (view b) = []) then 0x50 else 0x58).
  { unfold status. rewrite Hph. by destruct (ident (view b)). }
  destruct (inb ATA_COMMAND b1) as [s b2] eqn:Ei.
  assert (Hv2 : view b2 = view b1) by (by rewrite <- (view_inb b1), Ei).
  pose proof (first_status b1) as Hfirst. rewrite Ei in Hfirst. cbn [fst] in Hfirst.
  destruct (wait_ready 50 b2 ltac:(lia)) as (b3 & Hw & Hv3 & Hs3).
  destruct (inb ATA_COMMAND b3) as [s' b4] eqn:Ei'. cbn in Hs3.
  assert (Hv4 : view b4 = view b1) by (rewrite <- Hv2, <- Hv3, <- (view_inb b3); by rewrite Ei').
  rewrite Hv2, Hst in Hs3. destruct Hfirst as [-> | ->].
  - cbn [Z.eqb Z.land negb]. change (128 =? 0) with false. rewrite Hw. cbn [rbind negb]. rewrite Ei', Hs3.
    exists b4. split; [by destruct (bool_decide _)|by rewrite Hv4].
  - rewrite Hst. case_bool_decide.
    + change (80 =? 0) with false. rewrite Hw. cbn. rewrite Ei', Hs3. exists b4. split; [done|by rewrite Hv4].
    + exists b2. split; [done|by rewrite Hv2].
Qed.

(** ** The entry points *)

Lemma same_disks_fits a a' m l c : same_disks a a' → fits a' m l c = fits a m l c.
Proof. unfold fits. by intros (_ & -> & _). Qed.

Lemma ensure_init_ok i b :
  ∃ b', ensure_init i b = Ret (i || negb (bool_decide (ident (view b) = [])), b') ∧ same_disks (view b) (view b').
Proof. destruct i; [by exists b|]. apply init_ok. Qed.

Lemma read_drive_ok i master lba b :
  ∃ i' b', read_drive i master lba b =
      Ret (i', (if (i || negb (bool_decide (ident (view b) = []))) && fits (view b) master lba 1
                then (0, disk_sector (disk_of master (media (view b))) lba) else (-1, [])), b')
    ∧ same_disks (view b) (view b').
Proof.
  unfold read_drive. destruct (ensure_init_ok i b) as (b1 & -> & Hs1). cbn [rbind]. destruct (i || _); cbn [negb andb]; [|eauto].
  destruct (read_lba28_ok lba 1 master b1 ltac:(lia)) as (b2 & Hs2 & ->). cbn [rbind].
  rewrite (same_disks_fits _ _ _ _ _ Hs1). exists true, b2. split; [|by eapply same_disks_trans].
  rewrite (proj1 Hs1). destruct (fits _ _ _ _); [|done]. change (Z.to_nat 1) with 1%nat. cbn [disk_read]. by rewrite app_nil_r.
Qed.

Lemma write_drive_ok i master lba buf b : length buf = 512%nat → Forall is_byte buf →
  let ok := (i || negb (bool_decide (ident (view b) = []))) && fits (view b) master lba 1 in
  ∃ i' b', write_drive i master lba buf b = Ret (i', if ok then 0 else -1, b')
    ∧ if ok then written (view b) (view b') master (ata_write_sector lba buf (disk_of master (media (view b)))).2
      else same_disks (view b) (view b').
Proof.
  intros Hl Hb. cbv zeta. unfold write_drive. destruct (ensure_init_ok i b) as (b1 & -> & Hs1). cbn [rbind].
  destruct (i || _); cbn [negb andb]; [|eauto].
  destruct (write_lba28_ok lba 1 buf master b1 ltac:(lia)) as (b2 & -> & Hw); [unfold zlen; lia|done|]. cbn [rbind].
  rewrite (same_disks_fits _ _ _ _ _ Hs1) in *. exists true, b2. split; [done|].
  destruct (fits _ _ _ _); [|by eapply same_disks_trans].
  change (Z.to_nat 1) with 1%nat in Hw. cbn [disk_write] in Hw. rewrite take_ge in Hw by lia.
  destruct Hs1 as (E1 & E2 & E3). unfold written in *. by rewrite E1, E2, E3 in Hw.
Qed.

(** C26. A sector transfer is exact: on an ATA device with identification data, reading sector
    [lba] of either drive returns 0 with the 512 bytes stored there and leaves both disks
    unchanged; writing 512 bytes returns 0 and changes that sector of that drive and nothing
    else.  A sector past the drive's end or past 28 bits is refused with -1, the disks
    unchanged. *)
Theorem ide_transfers_exact (d : IdeState B) drive lba buf
    (Hid : ident (view (bus d)) ≠ []) (Hl : length buf = 512%nat) (Hb : Forall is_byte buf) :
  let a := view (bus d) in
  let disk := disk_of (drive =? 0) (media a) in
  (∃ d', ata_read_sector_drive drive lba d =
           Ret (if fits a (drive =? 0) lba 1 then (0, disk_sector disk lba, d') else (-1, [], d'))
         ∧ same_disks a (view (bus d'))) ∧
  (∃ d' m', ata_write_sector_drive drive lba buf d = Ret (if fits a (drive =? 0) lba 1 then 0 else -1, d')
         ∧ media (view (bus d')) = put_disk (drive =? 0) m' (media a)
         ∧ ∀ l, disk_sector m' l = if fits a (drive =? 0) lba 1 && (l =? lba) then buf else disk_sector disk l).
Proof.
  cbv zeta. split.
  - unfold ata_read_sector_drive. destruct (read_drive_ok (read_drive_init d) (drive =? 0) lba (bus d)) as (i & b & -> & Hs).
    rewrite (bool_decide_eq_false_2 _ Hid), orb_true_r. cbn [rbind andb negb fst snd].
    exists (Ide b (read_init d) (write_init d) i (write_drive_init d)). split; [|exact Hs].
    by destruct (fits _ _ _ _).
  - unfold ata_write_sector_drive.
    destruct (write_drive_ok (write_drive_init d) (drive =? 0) lba buf (bus d) Hl Hb) as (i & b & -> & Hw).
    rewrite (bool_decide_eq_false_2 _ Hid), orb_true_r in *. cbn [rbind andb negb fst snd] in *. destruct (fits _ _ _ _); cbn [andb].
    + do 2 eexists. split; [done|]. split; [exact (proj1 Hw)|]. cbn [bus].
      destruct (ata_write_sector lba buf _) as [rc m'] eqn:E. cbn [snd].
      pose proof (disk_write_rc _ _ _ _ _ Hl Hb E). subst rc. exact (write_ok lba buf _ m' Hl Hb E).
    + eexists _, (disk_of (drive =? 0) (media (view (bus d)))).
      split; [done|]. split; [|done]. cbn [bus]. rewrite (proj1 Hw). by destruct (media _), (drive =? 0).
Qed.

(** A count of 0 is meant as 256 sectors; the assignment wraps and the call reads nothing. *)
Lemma read_count_zero lba master b : 0 ≤ lba < 2 ^ 28 → ∃ b', ide_read_lba28 lba 0 master b = Ret (Some [], b').
Proof.
  intros Hl. unfold ide_read_lba28. rewrite shiftr_28, (proj2 (Z.leb_le _ _)), (proj2 (Z.ltb_lt _ _)) by lia. cbn [negb andb].
  destruct (wait_ready 500 b ltac:(lia)) as (b1 & -> & _). cbn [rbind negb]. change (sector_count 0) with 0. cbn. eauto.
Qed.

(** ** The driver as a block device

    The calls of BlockDev.v; a call that does not return would count as a failure. *)
#[export] Instance ide_block_dev : BlockDev (IdeState B) := {
  ata_read_sector lba d := match ide_read_sector lba d with Ret r => r | _ => (-1, [], d) end;
  ata_write_sector lba buf d := match ide_write_sector lba buf d with Ret r => r | _ => (-1, d) end
}.

(** The sectors a client sees are those of the master's disk. *)
#[export] Instance ide_block_dev_spec : BlockDevSpec (IdeState B).
Proof.
  refine {| sector d := disk_sector (media (view (bus d))).1 |}.
  - intros d lba. apply disk_sector_ok.
  - intros d lba. apply disk_sector_ok.
  - intros lba d bs d'. cbn. unfold ide_read_sector.
    destruct (read_drive_ok (read_init d) true lba (bus d)) as (i & b & -> & Hs). cbn [rbind].
    destruct (_ && _); cbn [fst snd]; [|congruence]. intros [= <- <-]. split; [done|]. intros l. cbn [bus]. by rewrite (proj1 Hs).
  - intros lba bs d d' Hl Hb. unfold ata_write_sector at 1. cbn. unfold ide_write_sector.
    destruct (write_drive_ok (write_init d) true lba bs (bus d) Hl Hb) as (i & b & -> & Hw). cbn [rbind].
    destruct (_ && _); cbn [fst snd]; [|congruence]. intros [= <-] l. cbn [bus]. rewrite (proj1 Hw). cbn [put_disk disk_of fst].
    destruct (ata_write_sector lba bs (media (view (bus d))).1) as [rc m'] eqn:E. cbn [snd].
    pose proof (disk_write_rc _ _ _ _ _ Hl Hb E). subst rc. exact (write_ok lba bs _ m' Hl Hb E l).
Defined.

(** ** The size of a drive *)

(** The slave is selected by setting bit 4 of the port number, where it is set already. *)
Lemma sector_count_ignores_drive drive b : ata_get_sector_count_drive drive b = ata_get_sector_count b.
Proof. unfold ata_get_sector_count, ata_get_sector_count_drive. by destruct (drive =? 0). Qed.

Lemma word_split w : 0 ≤ w < 2 ^ 16 → Z.lor (w `mod` 256) (Z.shiftl ((w `div` 256) `mod` 256) 8) = w.
Proof.
  intros Hw. pose proof (Z.mod_pos_bound w 256 ltac:(lia)). rewrite lor_shiftl_add by lia.
  pose proof (Z.div_mod w 256 ltac:(lia)). rewrite (Z.mod_small (w `div` 256)); lia.
Qed.

(** IDENTIFY data of 256 words gives the size, words 60 and 61, as a 32-bit signed number. *)
Lemma sector_count_ok b low high : length (ident (view b)) = 256%nat →
  ident (view b) !! 60%nat = Some low → ident (view b) !! 61%nat = Some high → 0 ≤ low < 2 ^ 16 → 0 ≤ high < 2 ^ 16 →
  ∃ b', ata_get_sector_count b = Ret (i32 (low + 2 ^ 16 * high), b') ∧ same_disks (view b) (view b').
Proof.
  intros Hlen Hlow Hhigh Hl Hh. unfold ata_get_sector_count, ata_get_sector_count_drive. cbv zeta. change (0 =? 0) with true. cbv iota.
  set (b1 := io_wait (outb ATA_COMMAND 0xEC (io_wait (outb ATA_DRIVE 0xA0 b)))).
  destruct (identify_state b) as (Hsd & Hph). fold b1 in Hsd, Hph.
  assert (Hst : status (view b1) = 0x58).
  { unfold status. rewrite Hph. by destruct (ident (view b)). }
  destruct (inb ATA_COMMAND b1) as [s b2] eqn:Ei.
  assert (Hv2 : view b2 = view b1) by (by rewrite <- (view_inb b1), Ei).
  assert (Hs : (s =? 0) = false ∧ (Z.land s 1 =? 0) = true).
  { destruct (first_status b1) as [E|E]; rewrite Ei in E; cbn in E; rewrite E; [done|by rewrite Hst]. }
  destruct Hs as [-> ->]. cbn [negb].
  destruct (wait_ready 500 b2 ltac:(lia)) as (b3 & -> & Hv3 & Hs3). cbn [rbind negb].
  destruct (count_ready b3) as (b4 & -> & Hv4); [by rewrite Hv3, Hv2|]. cbn [rbind negb].
  destruct (read_words_ok (ident (view b)) [] b4) as (b5 & Hr & Hv5); [by rewrite Hv4, Hv3, Hv2, app_nil_r|].
  rewrite Hlen in Hr. rewrite Hr. clear Hr.
  destruct (unwords_lookup _ _ _ Hlow) as [E1 E2], (unwords_lookup _ _ _ Hhigh) as [E3 E4].
  assert (G : ∀ i v, 0 ≤ i → unwords (ident (view b)) !! Z.to_nat i = Some v → bget (unwords (ident (view b))) i = Ret v)
    by (intros i v Hi Hv; by apply bget_Ret).
  rewrite (G 120 _ ltac:(lia) E1), (G 121 _ ltac:(lia) E2), (G 122 _ ltac:(lia) E3), (G 123 _ ltac:(lia) E4). cbn [rbind].
  rewrite !word_split, u32_small, Z.lor_comm, lor_shiftl_add by (rewrite ?Z.shiftl_mul_pow2; lia).
  exists b5. split; [do 3 f_equal; lia|]. by rewrite Hv5, Hv4, Hv3, Hv2.
Qed.
End device.

(** ** A device that is busy once after each register write *)

Definition busy_ata : Type := bool * Ata.

#[export] Instance busy_bus : Bus busy_ata := {
  inb port b := if b.1 : bool then (0x80, (false, b.2)) else (status b.2, b);
  inw port b := let '(w, a) := ata_inw b.2 in (w, (b.1, a));
  outb port v b := (true, ata_outb port v b.2);
  outw port v b := (b.1, ata_outw v b.2)
}.

#[export] Instance busy_device : AtaDevice busy_ata.
Proof.
  refine {| view := snd |}.
  - done.
  - done.
  - intros [c a]. cbn. by destruct (ata_inw a).
  - by intros [[] a].
  - intros [[] a]; [exists 1%nat|exists 0%nat]; (split; [lia|]); done.
  - by intros [[] a].
Defined.

(** A master of 8 sectors and a slave of 4, both blank. *)
Definition two_drives : IdeState busy_ata :=
  Ide (true, AtaState 0 0 0 0 0 Idle (∅, ∅) (λ m, if m : bool then 8 else 4) (replicate 256 0)) false false false false.

Lemma ide_transfers_exact_witness :
  (∃ d', ata_read_sector_drive 1 3 two_drives = Ret (0, replicate 512 0, d') ∧ media (view (bus d')) = (∅, ∅)) ∧
  (∃ d' m', ata_write_sector_drive 1 3 (replicate 512 7) two_drives = Ret (0, d') ∧ media (view (bus d')) = (∅, m') ∧
     ∀ l, disk_sector m' l = if l =? 3 then replicate 512 7 else replicate 512 0).
Proof.
  assert (Hb : Forall is_byte (replicate 512 7)) by (apply Forall_replicate; unfold is_byte; lia).
  assert (Hid : ident (view (bus two_drives)) ≠ []) by done.
  destruct (ide_transfers_exact two_drives 1 3 (replicate 512 7) Hid ltac:(reflexivity) Hb) as [(d1 & R & S1) (d2 & m2 & W & M & P)].
  split.
  - exists d1. split; [exact R|exact (proj1 S1)].
  - exists d2, m2. split; [exact W|]. split; [exact M|]. exact P.
Defined.

Lemma ide_calls_return_witness :
  512 ≤ zlen (replicate 512 7) ∧
  ∃ rc d', ide_write_sector 9 (replicate 512 7) two_drives = Ret (rc, d') ∧ (rc = 0 ∨ rc = -1).
Proof.
  split; [done|]. destruct (ide_calls_return two_drives 9 (replicate 512 7) ltac:(done)) as [_ Hw]. exact Hw.
Defined.
