(* ===== verification/HanaFs.v ===== *)
(** * HanaFS (kernel/filesystem/hanafs.cpp)

    The file system is a linked list of entries keyed by internal path.  An entry keeps
    the addresses of its three allocations; a NULL path is [None].  The heap is any
    [Allocator], the disk any [BlockDev]; both are threaded through the operations.  A
    NULL argument is [None] where the code tests for it. *)
From S2P Require Import Prelude CString HeapSpec HanaPath BlockDev.

Record HanaEntry := Entry {
  self : Z;
  path_p : Z;
  path : option (list Z);
  is_dir : bool;
  data_p : Z;
  data : list Z;
  len : Z
}.

Record HanaFS (H D : Type) := FsState {
  heap : H;
  disk : D;
  g_head : list HanaEntry;
  g_loaded_from_ata : bool;
  g_hanafs_persist_enabled : bool
}.
Arguments FsState {H D} _ _ _ _ _.
Arguments heap {H D} _.
Arguments disk {H D} _.
Arguments g_head {H D} _.
Arguments g_loaded_from_ata {H D} _.
Arguments g_hanafs_persist_enabled {H D} _.

Definition sizeof_HanaEntry : Z := 40.
Definition sizeof_HanaDirObj : Z := 24.
Definition HANAFS_PERSIST_LBA : Z := 2048.

(** struct hana_stat as hanafs_stat fills it. *)
Record hana_stat := Stat { st_size : Z; st_nlink : Z; st_mode : Z }.

(** struct hana_dirent, and the iterator behind struct hana_dir. *)
Record hana_dirent := Dirent { de_p : Z; d_type : Z; d_name : list Z }.
Record HanaDirObj := DirObj { dir_p : Z; ipath_p : Z; ipath : option (list Z); ipath_len : Z; dnext : Z }.

Section ops.
Context {H D : Type} `{Allocator H} `{BlockDev D}.
Notation St := (HanaFS H D).

Definition set_heap (s : St) (h : H) : St :=
  FsState h (disk s) (g_head s) (g_loaded_from_ata s) (g_hanafs_persist_enabled s).
Definition set_disk (s : St) (d : D) : St :=
  FsState (heap s) d (g_head s) (g_loaded_from_ata s) (g_hanafs_persist_enabled s).
Definition set_head (s : St) (l : list HanaEntry) : St :=
  FsState (heap s) (disk s) l (g_loaded_from_ata s) (g_hanafs_persist_enabled s).
Definition set_loaded (s : St) (b : bool) : St :=
  FsState (heap s) (disk s) (g_head s) b (g_hanafs_persist_enabled s).
Definition set_persist (s : St) (b : bool) : St :=
  FsState (heap s) (disk s) (g_head s) (g_loaded_from_ata s) b.

Definition kmalloc (n : Z) (s : St) : Z * St :=
  let '(p, h) := amalloc n (heap s) in (p, set_heap s h).
Definition kfree (p : Z) (s : St) : St := set_heap s (afree p (heap s)).

Definition strdup_k (t : list Z) (s : St) : (Z * option (list Z)) * St :=
  let '(p, s) := kmalloc (strlen t + 1) s in
  if p =? 0 then ((0, None), s) else ((p, Some t), s).

(** The walk both [find_entry] and the removal loops make: the entries before the first
    match, the match, and those behind it. *)
Fixpoint walk (test : list Z → bool) (l : list HanaEntry)
  : res (option (list HanaEntry * HanaEntry * list HanaEntry)) :=
  match l with
  | [] => Ret None
  | e :: l =>
      let! p := of_opt (path e) in
      if test p then Ret (Some ([], e, l))
      else
        let! r := walk test l in
        Ret (match r with
             | Some (pre, x, post) => Some (e :: pre, x, post)
             | None => None
             end)
  end.

Definition find_entry (p : list Z) (s : St) : res (option HanaEntry) :=
  let! r := walk (λ q, strcmp q p =? 0) (g_head s) in
  Ret (match r with Some (_, e, _) => Some e | None => None end).

(** [remove_entry_node (prev, cur)] on the list [pre ++ cur :: post]. *)
Definition remove_entry_node (pre : list HanaEntry) (cur : HanaEntry) (post : list HanaEntry)
    (s : St) : St :=
  let s := set_head s (pre ++ post) in
  let s := if path_p cur =? 0 then s else kfree (path_p cur) s in
  let s := if data_p cur =? 0 then s else kfree (data_p cur) s in
  kfree (self cur) s.

(** ** Persistence *)

Definition payload_len (l : list HanaEntry) : res Z :=
  foldr (λ e acc,
    let! n := acc in
    let! p := of_opt (path e) in
    Ret (2 + 1 + 4 + strlen p + (if is_dir e then 0 else len e) + n)) (Ret 0) l.

(** Append bytes to a buffer of capacity [total]. *)
Definition put (total : Z) (buf bytes : list Z) : res (list Z) :=
  if zlen buf + zlen bytes <=? total then Ret (buf ++ bytes) else UB.

(** [for (i = 0; i < n; ++i) buf[off++] = src[i];] *)
Definition put_n (total : Z) (buf src : list Z) (n : Z) : res (list Z) :=
  if n <=? zlen src then put total buf (take (Z.to_nat n) src) else UB.

Definition persist_entry (total : Z) (buf : list Z) (e : HanaEntry) : res (list Z) :=
  let! p := of_opt (path e) in
  let plen := u16 (strlen p) in
  let! buf := put total buf [Z.land plen 0xFF; Z.land (Z.shiftr plen 8) 0xFF] in
  let! buf := put total buf [if is_dir e then 1 else 0] in
  let dlen := u32 (if is_dir e then 0 else u32 (len e)) in
  let! buf := put total buf (le_bytes 4 dlen) in
  let! buf := put_n total buf p plen in
  if negb (is_dir e) && negb (dlen =? 0) then put_n total buf (data e) dlen else Ret buf.

Fixpoint persist_entries (total : Z) (buf : list Z) (l : list HanaEntry) : res (list Z) :=
  match l with
  | [] => Ret buf
  | e :: l => let! buf := persist_entry total buf e in persist_entries total buf l
  end.

(** The sector loop: [buf] is what is left to write. *)
Fixpoint write_sectors (fuel : nat) (sec : Z) (buf : list Z) (s : St) : res (bool * St) :=
  match buf with
  | [] => Ret (true, s)
  | _ =>
      match fuel with
      | O => Diverges
      | S fuel =>
          let chunk := take 512 buf in
          let '(rc, d) := ata_write_sector sec (chunk ++ replicate (512 - length chunk) 0) (disk s) in
          let s := set_disk s d in
          if negb (rc =? 0) then Ret (false, s)
          else write_sectors fuel (u32 (sec + 1)) (drop 512 buf) s
      end
  end.

Definition hanafs_persist_to_ata (s : St) : res (Z * St) :=
  let entry_count := u32 (zlen (g_head s)) in
  let! payload := payload_len (g_head s) in
  let total := 16 + payload in
  let '(b, s) := kmalloc total s in
  if b =? 0 then Ret (-1, s)
  else
    let! buf := put total [] (str "HANA") in
    let! buf := put total buf (le_bytes 4 1) in
    let! buf := put total buf (le_bytes 4 entry_count) in
    let! buf := put total buf (le_bytes 4 (u32 payload)) in
    let! buf := persist_entries total buf (g_head s) in
    (* bytes of the allocation behind the last record are not initialized *)
    let buf := buf ++ replicate (Z.to_nat (total - zlen buf)) 0 in
    let! (ok, s) := write_sectors (length buf) HANAFS_PERSIST_LBA buf s in
    let s := kfree b s in
    if (ok : bool) then Ret (0, set_loaded s true) else Ret (-1, s).

Definition hanafs_set_persist_enabled (enabled : Z) (s : St) : St :=
  set_persist s (negb (enabled =? 0)).

(** ** Entries *)

(** A fresh entry in front of the list: node, duplicated path, and the fields. *)
Definition push_entry (e : HanaEntry) (s : St) : St := set_head s (e :: g_head s).

Definition hanafs_make_dir (p : option (list Z)) (s : St) : res (Z * St) :=
  match p with
  | None => Ret (-1, s)
  | Some p =>
      let '(pbuf, s) := kmalloc (strlen p + 2) s in
      if pbuf =? 0 then Ret (-1, s)
      else
        let! (drv, pb, ip) := resolve p in
        let! f1 := find_entry ip s in
        let! f2 := (if bool_decide (f1 = None) && (drv <? 0) then find_entry pb s else Ret None) in
        if negb (bool_decide (f1 = None)) || negb (bool_decide (f2 = None))
        then Ret (-1, kfree pbuf s)
        else
          let '(e, s) := kmalloc sizeof_HanaEntry s in
          if e =? 0 then Ret (-1, kfree pbuf s)
          else
            let '((pp, ps), s) := strdup_k ip s in
            let s := push_entry (Entry e pp ps true 0 [] 0) s in
            let! (_, s) := hanafs_persist_to_ata s in
            Ret (0, s)
  end.

Definition hanafs_init (s : St) : res (Z * St) :=
  match g_head s with
  | _ :: _ => Ret (0, s)
  | [] =>
      let '(r, s) := kmalloc sizeof_HanaEntry s in
      if r =? 0 then Ret (-1, s)
      else
        let '((pp, ps), s) := strdup_k (str "/") s in
        if pp =? 0 then Ret (-1, kfree r s)
        else
          let s := set_head s [Entry r pp ps true 0 [] 0] in
          let! (_, s) := hanafs_make_dir (Some (str "/bin")) s in
          let! (_, s) := hanafs_make_dir (Some (str "/dev")) s in
          let! (_, s) := hanafs_make_dir (Some (str "/proc")) s in
          let! (_, s) := hanafs_make_dir (Some (str "/home")) s in
          Ret (0, s)
  end.

(** [remove existing]: the first entry with this path, if any. *)
Definition remove_existing (ip : list Z) (s : St) : res St :=
  let! r := walk (λ q, strcmp q ip =? 0) (g_head s) in
  Ret (match r with
       | Some (pre, cur, post) => remove_entry_node pre cur post s
       | None => s
       end).

Definition hanafs_write_file (p : option (list Z)) (buf : option (list Z)) (n : Z) (s : St)
  : res (Z * St) :=
  match p with
  | None => Ret (-1, s)
  | Some p =>
      let '(pbuf, s) := kmalloc (strlen p + 2) s in
      if pbuf =? 0 then Ret (-1, s)
      else
        let! (drv, pb, ip) := resolve p in
        let! s := remove_existing ip s in
        let '(e, s) := kmalloc sizeof_HanaEntry s in
        if e =? 0 then Ret (-1, kfree pbuf s)
        else
          let '((pp, ps), s) := strdup_k ip s in
          let! (ok, s) :=
            match buf with
            | Some src =>
                if 0 <? n then
                  let '(dp, s') := kmalloc n s in
                  if dp =? 0 then
                    Ret (false, remove_entry_node [] (Entry e pp ps false 0 [] n) (g_head s') s')
                  else if n <=? zlen src then
                    Ret (true, push_entry (Entry e pp ps false dp (take (Z.to_nat n) src) n) s')
                  else UB
                else Ret (true, push_entry (Entry e pp ps false 0 [] 0) s)
            | None => Ret (true, push_entry (Entry e pp ps false 0 [] 0) s)
            end in
          if negb ok then Ret (-1, s)
          else if negb (strcmp ip (str "/hcsh_history") =? 0) && g_hanafs_persist_enabled s then
            let! (_, s) := hanafs_persist_to_ata s in Ret (0, s)
          else Ret (0, s)
  end.

Definition hanafs_create_file (p : option (list Z)) (s : St) : res (Z * St) :=
  hanafs_write_file p None 0 s.

(** The pointer returned, the bytes it points to and the length stored. *)
Definition hanafs_get_file_alloc (p : option (list Z)) (s : St)
  : res (option (Z * list Z * Z) * St) :=
  match p with
  | None => Ret (None, s)
  | Some p =>
      let '(pbuf, s) := kmalloc (strlen p + 2) s in
      if pbuf =? 0 then Ret (None, s)
      else
        let! (drv, pb, ip) := resolve p in
        let! f := find_entry ip s in
        match f with
        | None => Ret (None, s)
        | Some e =>
            if is_dir e then Ret (None, s)
            else
              let n := len e in
              let '(b, s) := kmalloc (if n =? 0 then 1 else n) s in
              if b =? 0 then Ret (None, s)
              else if n =? 0 then Ret (Some (b, [0], 0), kfree pbuf s)
              else if n <=? zlen (data e) then
                Ret (Some (b, take (Z.to_nat n) (data e), n), kfree pbuf s)
              else UB
        end
  end.

Definition hanafs_unlink (p : option (list Z)) (s : St) : res (Z * St) :=
  match p with
  | None => Ret (-1, s)
  | Some p =>
      let '(pbuf, s) := kmalloc (strlen p + 2) s in
      if pbuf =? 0 then Ret (-1, s)
      else
        let! (drv, pb, ip) := resolve p in
        let! r := walk (λ q, (strcmp q ip =? 0) || ((drv <? 0) && (strcmp q pb =? 0))) (g_head s) in
        match r with
        | Some (pre, cur, post) =>
            let s := remove_entry_node pre cur post s in
            let! (_, s) := hanafs_persist_to_ata s in
            Ret (0, kfree pbuf s)
        | None => Ret (-1, kfree pbuf s)
        end
  end.

(** [e->path[n] == '/'] for a string of at least [n] bytes. *)
Definition slash_at (q : list Z) (n : Z) : bool := bool_decide (q !! Z.to_nat n = Some 47).

(** The emptiness check of [hanafs_remove_dir]: true when a child was found. *)
Fixpoint has_child (drv : Z) (pb ip : list Z) (l : list HanaEntry) : res bool :=
  match l with
  | [] => Ret false
  | e :: l =>
      let! q := of_opt (path e) in
      if strcmp q ip =? 0 then has_child drv pb ip l
      else if (strncmp q ip (strlen ip) =? 0) && slash_at q (strlen ip) then Ret true
      else if (drv <=? 0) && (strcmp q pb =? 0) then has_child drv pb ip l
      else if (drv <=? 0) && ((strncmp q pb (strlen pb) =? 0) && slash_at q (strlen pb)) then Ret true
      else has_child drv pb ip l
  end.

Definition hanafs_remove_dir (p : option (list Z)) (s : St) : res (Z * St) :=
  match p with
  | None => Ret (-1, s)
  | Some p =>
      let '(pbuf, s) := kmalloc (strlen p + 2) s in
      if pbuf =? 0 then Ret (-1, s)
      else
        let! (drv, pb, ip) := resolve p in
        let! c := has_child drv pb ip (g_head s) in
        if (c : bool) then Ret (-1, kfree pbuf s)
        else
          let! (rc, s) := hanafs_unlink (Some pb) s in
          Ret (rc, kfree pbuf s)
  end.

Definition hanafs_stat (p : option (list Z)) (s : St) : res (option hana_stat * St) :=
  match p with
  | None => Ret (None, s)
  | Some p =>
      let '(pbuf, s) := kmalloc (strlen p + 2) s in
      if pbuf =? 0 then Ret (None, s)
      else
        let! (drv, pb, ip) := resolve p in
        let! f := find_entry ip s in
        let! f := (if bool_decide (f = None) && (drv <? 0) then find_entry pb s else Ret f) in
        match f with
        | None => Ret (None, kfree pbuf s)
        | Some e => Ret (Some (Stat (len e) 1 (if is_dir e then 0x4000 else 0x8000)), kfree pbuf s)
        end
  end.
End ops.

(** * HanaFS on disk: format and load (kernel/filesystem/hanafs.cpp, lines 296-379) *)


Section ops.
Context {H D : Type} `{Allocator H} `{BlockDev D}.
Notation St := (HanaFS H D).

(** [while (g_head) { n = g_head->next; remove_entry_node(NULL, g_head); g_head = n; }] *)
Fixpoint clear_entries (l : list HanaEntry) (s : St) : St :=
  match l with
  | [] => set_head s []
  | e :: l => clear_entries l (remove_entry_node [] e l s)
  end.

(** A new root entry as the whole list; the caller says what a failed [strdup_k] does. *)
Definition hanafs_format_ata_master (s : St) : res (Z * St) :=
  let s := clear_entries (g_head s) s in
  let '(r, s) := kmalloc sizeof_HanaEntry s in
  if r =? 0 then Ret (-1, s)
  else
    let '((pp, ps), s) := strdup_k (str "/") s in
    if pp =? 0 then Ret (-1, kfree r s)
    else
      let s := set_head s [Entry r pp ps true 0 [] 0] in
      let! (rc, s) := hanafs_persist_to_ata s in
      if rc =? 0 then Ret (0, set_loaded s true) else Ret (-1, s).

(** [while (read < total)]: [todo] bytes are still to come. *)
Fixpoint read_sectors (fuel : nat) (sec todo : Z) (acc : list Z) (s : St)
  : res (option (list Z) * St) :=
  if 0 <? todo then
    match fuel with
    | O => Diverges
    | S fuel =>
        let '(rc, b, d) := ata_read_sector sec (disk s) in
        let s := set_disk s d in
        if negb (rc =? 0) then Ret (None, s)
        else
          let to_copy := Z.min todo 512 in
          read_sectors fuel (u32 (sec + 1)) (todo - to_copy) (acc ++ take (Z.to_nat to_copy) b) s
    end
  else Ret (Some acc, s).

(** [memcpy(&x, buf + pos, 4)] *)
Definition get_u32 (buf : list Z) (pos : Z) : res Z :=
  if (0 <=? pos) && (pos + 4 <=? zlen buf)
  then Ret (le_val (take 4 (drop (Z.to_nat pos) buf))) else UB.

(** [for (i = 0; i < n; ++i) dst[i] = buf[pos++];] *)
Definition get_bytes (buf : list Z) (pos n : Z) : res (list Z) :=
  if (n =? 0) || ((0 <=? pos) && (pos + n <=? zlen buf))
  then Ret (take (Z.to_nat n) (drop (Z.to_nat pos) buf)) else UB.

(** The record loop of [hanafs_load_from_ata]. *)
Fixpoint load_entries (fuel : nat) (buf : list Z) (total ei entry_count pos : Z) (s : St)
  : res St :=
  if ei <? entry_count then
    match fuel with
    | O => Diverges
    | S fuel =>
        if total <? pos + 2 + 1 + 4 then Ret s
        else
          let! b0 := bget buf pos in
          let! b1 := bget buf (pos + 1) in
          let plen := u16 (Z.lor b0 (Z.shiftl b1 8)) in
          let! dirb := bget buf (pos + 2) in
          let! dlen := get_u32 buf (pos + 3) in
          let pos := pos + 7 in
          if total <? pos + plen then Ret s
          else
            let '(pp, s) := kmalloc (plen + 1) s in
            if pp =? 0 then Ret s
            else
              let! pbytes := get_bytes buf pos plen in
              let pos := pos + plen in
              let '(e, s) := kmalloc sizeof_HanaEntry s in
              if e =? 0 then Ret (kfree pp s)
              else
                let dir := negb (dirb =? 0) in
                if negb dir && (0 <? dlen) then
                  let '(dp, s) := kmalloc dlen s in
                  if dp =? 0 then
                    Ret (remove_entry_node [] (Entry e pp (Some (cstr pbytes)) dir 0 [] dlen) (g_head s) s)
                  else
                    let! dat := get_bytes buf pos dlen in
                    load_entries fuel buf total (ei + 1) entry_count (pos + dlen)
                      (push_entry (Entry e pp (Some (cstr pbytes)) dir dp dat dlen) s)
                else
                  load_entries fuel buf total (ei + 1) entry_count pos
                    (push_entry (Entry e pp (Some (cstr pbytes)) dir 0 [] dlen) s)
    end
  else Ret s.

Definition hanafs_load_from_ata (s : St) : res (Z * St) :=
  let '(rc, sb, d) := ata_read_sector HANAFS_PERSIST_LBA (disk s) in
  let s := set_disk s d in
  if negb (rc =? 0) then Ret (-1, s)
  else if negb (bool_decide (take 4 sb = str "HANA")) then Ret (-1, s)
  else
    let! entry_count := get_u32 sb 8 in
    let! payload32 := get_u32 sb 12 in
    let total := 16 + payload32 in
    let '(b, s) := kmalloc total s in
    if b =? 0 then Ret (-1, s)
    else
      let first := take (Z.to_nat (Z.min 512 total)) sb in
      let! (r, s) := read_sectors (Z.to_nat total) (u32 (HANAFS_PERSIST_LBA + 1)) (total - 512) first s in
      match r with
      | None => Ret (-1, kfree b s)
      | Some buf =>
          let s := clear_entries (g_head s) s in
          let '(root, s) := kmalloc sizeof_HanaEntry s in
          if root =? 0 then Ret (-1, kfree b s)
          else
            let '((pp, ps), s) := strdup_k (str "/") s in
            let s := set_head s [Entry root pp ps true 0 [] 0] in
            let! s := load_entries (S (Z.to_nat total)) buf total 0 entry_count 16 s in
            Ret (0, kfree b s)
      end.
End ops.

(** * HanaFS directories (kernel/filesystem/hanafs.cpp, lines 383-540) *)


Definition sizeof_hana_dirent : Z := 272.

Section ops.
Context {H D : Type} `{Allocator H} `{BlockDev D}.
Notation St := (HanaFS H D).

(** The calls of the callback, in order. *)
Fixpoint drv_lines (l : list HanaEntry) (seen : list Z) : list (list Z) :=
  match l with
  | [] => []
  | e :: l =>
      match path e with
      | None => drv_lines l seen
      | Some p =>
          if strncmp p (str "/drv") 4 =? 0 then
            match p !! 4%nat with
            | Some c =>
                if (48 <=? c) && (c <=? 57) && negb (bool_decide (c - 48 ∈ seen)) then
                  if c - 48 =? 0 then drv_lines l (c - 48 :: seen)
                  else (str "HanaFS mount: [/drv" ++ [c] ++ str "]") :: drv_lines l (c - 48 :: seen)
                else drv_lines l seen
            | None => drv_lines l seen
            end
          else drv_lines l seen
      end
  end.

Definition hanafs_list_mounts (s : St) : Z * list (list Z) :=
  (0, (if g_loaded_from_ata s then str "HanaFS mount: [0: ATA image -> LBA=2048]"
       else str "HanaFS mount: [in-memory]") :: drv_lines (g_head s) []).

(** The name an entry contributes to a listing of [ip] (or [pb] without a drive). *)
Definition listed_name (drv : Z) (pb ip q : list Z) : option (list Z) :=
  let cand :=
    if strncmp q ip (strlen ip) =? 0 then Some (drop (length ip) q)
    else if (drv <? 0) && (strncmp q pb (strlen pb) =? 0) then Some (drop (length pb) q)
    else None in
  match cand with
  | None | Some [] => None
  | Some ((c :: rest) as r) =>
      let name := if c =? 47 then rest else r in
      match strchr name 47 with
      | Some _ => None
      | None => Some name
      end
  end.

Fixpoint list_names (drv : Z) (pb ip : list Z) (l : list HanaEntry) : res (list (list Z)) :=
  match l with
  | [] => Ret []
  | e :: l =>
      let! q := of_opt (path e) in
      let! r := list_names drv pb ip l in
      Ret (match listed_name drv pb ip q with Some n => n :: r | None => r end)
  end.

Definition hanafs_list_dir (p : option (list Z)) (s : St) : res (Z * list (list Z) * St) :=
  match p with
  | None => Ret (-1, [], s)
  | Some p =>
      let '(pbuf, s) := kmalloc (strlen p + 2) s in
      if pbuf =? 0 then Ret (-1, [], s)
      else
        let! (drv, pb, ip) := resolve p in
        let! names := list_names drv pb ip (g_head s) in
        Ret (0, names, kfree pbuf s)
  end.

(** The address of the first node, 0 for NULL. *)
Definition node_addr (l : list HanaEntry) : Z :=
  match l with [] => 0 | e :: _ => self e end.

(** The list from the node at address [a] on: [None] when no such node exists. *)
Fixpoint from_addr (a : Z) (l : list HanaEntry) : option (list HanaEntry) :=
  match l with
  | [] => if a =? 0 then Some [] else None
  | e :: l' => if self e =? a then Some l else from_addr a l'
  end.

Definition hanafs_opendir (p : option (list Z)) (s : St) : res (option HanaDirObj * St) :=
  match p with
  | None => Ret (None, s)
  | Some p =>
      let '(pbuf, s) := kmalloc (strlen p + 2) s in
      if pbuf =? 0 then Ret (None, s)
      else
        let! (drv, pb, ip) := resolve p in
        let '(d, s) := kmalloc sizeof_HanaDirObj s in
        if d =? 0 then Ret (None, kfree pbuf s)
        else
          let '((ipp, ips), s) := strdup_k ip s in
          let! ipd := of_opt ips in   (* strlen(d->ipath) *)
          Ret (Some (DirObj d ipp ips (strlen ipd) (node_addr (g_head s))), kfree pbuf s)
  end.

(** The copy into [d_name[256]]. *)
Definition make_dirent (name : list Z) (dir : bool) (s : St) : option hana_dirent * St :=
  let '(p, s) := kmalloc sizeof_hana_dirent s in
  if p =? 0 then (None, s)
  else (Some (Dirent p (if dir then 1 else 0) (take 255 name)), s).

(** The loop of [hanafs_readdir]: the entry found and the address of the next node. *)
Fixpoint readdir_loop (ip : list Z) (iplen : Z) (l : list HanaEntry) (next : Z)
  : res (option (list Z * bool) * Z) :=
  match l with
  | [] => Ret (None, next)
  | e :: l =>
      let next := node_addr l in
      let! q := of_opt (path e) in
      if strcmp q ip =? 0 then readdir_loop ip iplen l next
      else if negb (strncmp q ip iplen =? 0) then readdir_loop ip iplen l next
      else
        let rest := drop (Z.to_nat iplen) q in
        let name := match rest with c :: r => if c =? 47 then r else rest | [] => rest end in
        match strchr name 47 with
        | Some _ => readdir_loop ip iplen l next
        | None => Ret (Some (name, is_dir e), next)
        end
  end.

Definition hanafs_readdir (d : HanaDirObj) (s : St) : res (option hana_dirent * HanaDirObj * St) :=
  let! ip := of_opt (ipath d) in
  let! l := (if dnext d =? 0 then Ret [] else of_opt (from_addr (dnext d) (g_head s))) in
  let! (r, next) := readdir_loop ip (ipath_len d) l (dnext d) in
  let d := DirObj (dir_p d) (ipath_p d) (ipath d) (ipath_len d) next in
  match r with
  | None => Ret (None, d, s)
  | Some (name, dir) => let '(de, s) := make_dirent name dir s in Ret (de, d, s)
  end.

Definition hanafs_closedir (d : option HanaDirObj) (s : St) : Z * St :=
  match d with
  | None => (-1, s)
  | Some d =>
      let s := if ipath_p d =? 0 then s else kfree (ipath_p d) s in
      (0, kfree (dir_p d) s)
  end.
End ops.
