(* ===== verification/HanaInv.v ===== *)
(** * HanaFS: abstraction and invariant

    The abstract file system maps internal paths to directories and files.  [fs_inv r X s]
    says that the entries of [s] are well formed, their paths are distinct, and that they
    own their allocations together with the temporary ones in [X]; the heap still has
    [r] bytes of room. *)
From S2P Require Import Prelude CString HeapSpec HanaPath BlockDev HanaFs.

Inductive node := Dir | File (b : list Z).
Global Instance node_eq_dec : EqDecision node.
Proof. solve_decision. Defined.

Definition node_path (e : HanaEntry) : list Z := default [] (path e).
Definition node_of (e : HanaEntry) : node := if is_dir e then Dir else File (data e).

(** The first entry with a path wins, as in [find_entry]. *)
Definition fs_map (l : list HanaEntry) : gmap (list Z) node :=
  list_to_map ((λ e, (node_path e, node_of e)) <$> l).

Record entry_ok (e : HanaEntry) : Prop := {
  eo_path : path e = Some (node_path e);
  eo_str : cstr_ok (node_path e);
  eo_short : zlen (node_path e) ≤ 511;
  eo_len : zlen (data e) = len e;
  eo_max : len e < 2 ^ 32;
  eo_bytes : Forall is_byte (data e);
  eo_dir : is_dir e = true → data e = []
}.

Definition owned (e : HanaEntry) : list Z :=
  (if data_p e =? 0 then [] else [data_p e]) ++
  (if path_p e =? 0 then [] else [path_p e]) ++ [self e].

Definition owned_all (l : list HanaEntry) : list Z := concat (owned <$> l).

Lemma owned_all_app l k : owned_all (l ++ k) = owned_all l ++ owned_all k.
Proof. unfold owned_all. by rewrite fmap_app, concat_app. Qed.

(** ** Lookup in the list and in the map *)

Lemma fs_map_cons e l : fs_map (e :: l) = <[node_path e := node_of e]> (fs_map l).
Proof. done. Qed.

Lemma fs_map_None l p : p ∉ node_path <$> l → fs_map l !! p = None.
Proof.
  intros Hp. apply not_elem_of_list_to_map_1. rewrite <- list_fmap_compose. done.
Qed.

Lemma fs_map_notin l p : fs_map l !! p = None → p ∉ node_path <$> l.
Proof.
  intros Hp. apply not_elem_of_list_to_map_2 in Hp. by rewrite <- list_fmap_compose in Hp.
Qed.

Lemma fs_map_mid pre e post p :
  p ∉ node_path <$> pre → fs_map (pre ++ e :: post) !! p =
    if decide (node_path e = p) then Some (node_of e) else fs_map post !! p.
Proof.
  induction pre as [|x pre IH]; intros Hp.
  - simpl. rewrite fs_map_cons. case_decide as Hd.
    + subst p. by rewrite lookup_insert_eq.
    + by rewrite lookup_insert_ne.
  - rewrite fmap_cons, not_elem_of_cons in Hp. destruct Hp as [Hx Hp].
    cbn [app]. rewrite fs_map_cons, lookup_insert_ne by congruence. by apply IH.
Qed.

Lemma fs_map_delete pre e post :
  NoDup (node_path <$> (pre ++ e :: post)) →
  fs_map (pre ++ post) = delete (node_path e) (fs_map (pre ++ e :: post)).
Proof.
  intros Hn. induction pre as [|x pre IH]; simpl in *.
  - rewrite fs_map_cons. apply NoDup_cons in Hn as [Hn _].
    rewrite delete_insert_id; [done|]. by apply fs_map_None.
  - apply NoDup_cons in Hn as [Hx Hn]. rewrite !fs_map_cons.
    rewrite delete_insert_ne, IH; [done|done|]. intros He. apply Hx.
    rewrite <- He, fmap_app, fmap_cons. apply elem_of_app. right. by left.
Qed.

(** The walk over a list of well-formed entries. *)
Lemma walk_spec test l :
  Forall entry_ok l →
  (∃ pre e post, walk test l = Ret (Some (pre, e, post)) ∧ l = pre ++ e :: post ∧
     test (node_path e) = true ∧ Forall (λ x, test (node_path x) = false) pre) ∨
  (walk test l = Ret None ∧ Forall (λ x, test (node_path x) = false) l).
Proof.
  induction 1 as [|e l He _ IH]; [right; done|]. cbn [walk].
  rewrite (eo_path _ He). cbn [of_opt rbind]. destruct (test (node_path e)) eqn:Ht.
  - left. by exists [], e, l.
  - destruct IH as [(pre & x & post & -> & -> & Hx & Hpre)|[-> Hl]]; cbn [rbind].
    + left. exists (e :: pre), x, post. split_and!; [done..|by constructor].
    + right. split; [done|by constructor].
Qed.

Lemma walk_path l p :
  Forall entry_ok l → cstr_ok p →
  (∃ pre e post, walk (λ q, strcmp q p =? 0) l = Ret (Some (pre, e, post)) ∧
     l = pre ++ e :: post ∧ node_path e = p ∧ p ∉ node_path <$> pre) ∨
  (walk (λ q, strcmp q p =? 0) l = Ret None ∧ p ∉ node_path <$> l).
Proof.
  intros Hl Hp.
  assert (Hnot : ∀ k, Forall entry_ok k → Forall (λ x, (strcmp (node_path x) p =? 0) = false) k →
                      p ∉ node_path <$> k).
  { intros k Hk Hf (x & Hx & Hin)%list_elem_of_fmap. rewrite Forall_forall in Hf.
    specialize (Hf x Hin). simpl in Hf. rewrite Hx, strcmp_refl in Hf. done. }
  destruct (walk_spec (λ q, strcmp q p =? 0) l Hl) as [(pre & e & post & Hw & -> & Ht & Hpre)|[Hw Hf]].
  - apply Forall_app in Hl as [Hlp Hl]. apply Forall_cons in Hl as [He _].
    left. exists pre, e, post. split_and!; [done|done| |by apply Hnot].
    apply Z.eqb_eq, strcmp_0 in Ht; [done|apply (eo_str _ He)|done].
  - right. split; [done|by apply Hnot].
Qed.

(** ** The invariant and the heap operations *)

Section inv.
Context {H D : Type} `{AllocatorSpec H} `{BlockDev D}.
Notation St := (HanaFS H D).

Record fs_inv (r : Z) (X : list Z) (s : St) : Prop := {
  fi_mem : mem_ok r (heap s) (X ++ owned_all (g_head s));
  fi_entries : Forall entry_ok (g_head s);
  fi_paths : NoDup (node_path <$> g_head s)
}.

Definition fs_abs (s : St) : gmap (list Z) node := fs_map (g_head s).

Lemma fs_inv_le r r' X s : r' ≤ r → fs_inv r X s → fs_inv r' X s.
Proof. intros Hr [Hm He Hp]. split; [by eapply mem_le|done|done]. Qed.

(** Operations that leave the list alone. *)
Lemma fs_inv_heap r r' X X' s h :
  fs_inv r X s → mem_ok r' h (X' ++ owned_all (g_head s)) → fs_inv r' X' (set_heap s h).
Proof. intros [Hm He Hp] Hm'. by split. Qed.

Lemma kmalloc_step r X s n :
  fs_inv r X s → 0 < n < 2 ^ 62 → cost n ≤ r →
  ∃ p h, kmalloc n s = (p, set_heap s h) ∧ p ≠ 0 ∧ fs_inv (r - cost n) (p :: X) (set_heap s h).
Proof.
  intros Hi Hn Hc. destruct (mem_alloc r (heap s) _ n (fi_mem _ _ _ Hi) Hn Hc) as (p & h & He & Hp & Hm).
  exists p, h. unfold kmalloc. rewrite He. split_and!; [done|done|].
  by apply (fs_inv_heap r _ X).
Qed.

Lemma kfree_step r p X s : fs_inv r (p :: X) s → fs_inv r X (kfree p s).
Proof. intros Hi. apply (fs_inv_heap r _ (p :: X)); [done|]. by apply mem_free, Hi. Qed.

Lemma leak_step r p X s : fs_inv r (p :: X) s → fs_inv r X s.
Proof. intros [Hm He Hp]. split; [by eapply mem_leak|done|done]. Qed.

Lemma fs_inv_perm r X X' s : X ≡ₚ X' → fs_inv r X s → fs_inv r X' s.
Proof.
  intros HX [Hm He Hp]. split; [|done|done]. eapply mem_perm; [|exact Hm]. by rewrite HX.
Qed.

(** Freeing a list of owned addresses one after the other. *)
Lemma mem_free_opt r h p O :
  mem_ok r h ((if p =? 0 then [] else [p]) ++ O) → mem_ok r (if p =? 0 then h else afree p h) O.
Proof. case_match; [done|]. by apply mem_free. Qed.

(** [remove_entry_node] unlinks the entry and frees exactly what it owns. *)
Lemma remove_entry_mem r X (s : St) pre e post :
  mem_ok r (heap s) (X ++ owned_all (pre ++ e :: post)) →
  let s' := remove_entry_node pre e post s in
  mem_ok r (heap s') (X ++ owned_all (pre ++ post)) ∧ g_head s' = pre ++ post ∧
  disk s' = disk s ∧ g_hanafs_persist_enabled s' = g_hanafs_persist_enabled s.
Proof.
  intros Hm s'.
  assert (Hh : heap s' = afree (self e)
                 (if data_p e =? 0 then (if path_p e =? 0 then heap s else afree (path_p e) (heap s))
                  else afree (data_p e) (if path_p e =? 0 then heap s else afree (path_p e) (heap s)))).
  { unfold s', remove_entry_node. by repeat case_match. }
  split_and!; [|unfold s', remove_entry_node; by repeat case_match..].
  rewrite Hh. apply mem_free. set (h := if path_p e =? 0 then _ else _).
  apply (mem_free_opt r h (data_p e)). unfold h. apply mem_free_opt.
  eapply mem_perm; [|exact Hm]. rewrite !owned_all_app.
  change (owned_all (e :: post)) with (owned e ++ owned_all post). unfold owned.
  rewrite <- !app_assoc. cbn [app]. solve_Permutation.
Qed.

Lemma remove_entry_step r X s pre e post :
  fs_inv r X s → g_head s = pre ++ e :: post →
  let s' := remove_entry_node pre e post s in
  fs_inv r X s' ∧ g_head s' = pre ++ post ∧ disk s' = disk s ∧
  g_hanafs_persist_enabled s' = g_hanafs_persist_enabled s.
Proof.
  intros [Hm He Hp] Hg s'. rewrite Hg in *.
  destruct (remove_entry_mem r X s pre e post Hm) as (Hm' & Hg' & Hd & Hpe).
  split_and!; [|done..].
  rewrite !fmap_app, fmap_cons in Hp. apply Forall_app in He as [He1 He2].
  apply Forall_cons in He2 as [_ He2].
  split; fold s' in Hg', Hm'; rewrite ?Hg'; [done|by apply Forall_app|].
  rewrite fmap_app. eapply sublist_NoDup; [exact Hp|]. apply sublist_app; [done|by apply sublist_cons].
Qed.

Lemma remove_existing_step r X s ip :
  fs_inv r X s → cstr_ok ip →
  ∃ s', remove_existing ip s = Ret s' ∧ fs_inv r X s' ∧ fs_abs s' = delete ip (fs_abs s) ∧
        disk s' = disk s ∧ g_hanafs_persist_enabled s' = g_hanafs_persist_enabled s ∧
        ip ∉ node_path <$> g_head s' ∧ g_head s' `sublist_of` g_head s.
Proof.
  intros Hi Hip. unfold remove_existing.
  destruct (walk_path (g_head s) ip (fi_entries _ _ _ Hi) Hip)
    as [(pre & e & post & -> & Hg & <- & Hpre)|[-> Hno]]; cbn [rbind].
  - destruct (remove_entry_step r X s pre e post Hi Hg) as (Hi' & Hg' & Hd & Hpe).
    eexists. split_and!; [done|done| |done|done| |].
    + unfold fs_abs. rewrite Hg', Hg. apply fs_map_delete. rewrite <- Hg. apply (fi_paths _ _ _ Hi).
    + rewrite Hg', fmap_app, not_elem_of_app. split; [done|].
      pose proof (fi_paths _ _ _ Hi) as Hn. rewrite Hg, fmap_app, fmap_cons in Hn.
      apply NoDup_app in Hn as (_ & _ & Hn). by apply NoDup_cons in Hn as [Hn _].
    + rewrite Hg', Hg. apply sublist_app; [done|by apply sublist_cons].
  - exists s. split_and!; [done|done| |done|done|done|done].
    unfold fs_abs. rewrite delete_id; [done|]. by apply fs_map_None.
Qed.

Lemma find_entry_spec r X s p :
  fs_inv r X s → cstr_ok p →
  ∃ f, find_entry p s = Ret f ∧ fs_abs s !! p = node_of <$> f ∧
       match f with Some e => entry_ok e ∧ node_path e = p | None => True end.
Proof.
  intros Hi Hp. unfold find_entry.
  destruct (walk_path (g_head s) p (fi_entries _ _ _ Hi) Hp)
    as [(pre & e & post & -> & Hg & He & Hpre)|[-> Hno]]; cbn [rbind].
  - exists (Some e). split_and!; [done| | |done].
    + unfold fs_abs. rewrite Hg, fs_map_mid by done. by rewrite decide_True.
    + pose proof (fi_entries _ _ _ Hi) as Hf. rewrite Hg in Hf.
      apply Forall_app in Hf as [_ Hf]. by apply Forall_cons in Hf as [Hf _].
  - exists None. split_and!; [done| |done]. by apply fs_map_None.
Qed.
End inv.
