(* ===== verification/HanaImage.v ===== *)
(** * The HanaFS disk image

    [image] is the persisted form of a list of entries: the 16-byte header and one record
    per entry.  [persist_spec] shows that [hanafs_persist_to_ata] writes exactly it. *)
From S2P Require Import Prelude CString HeapSpec HanaPath BlockDev HanaFs HanaInv.

Definition record_of (e : HanaEntry) : list Z :=
  le_bytes 2 (zlen (node_path e)) ++ [if is_dir e then 1 else 0] ++ le_bytes 4 (len e) ++
  node_path e ++ data e.
Definition records (l : list HanaEntry) : list Z := concat (record_of <$> l).

Definition image (l : list HanaEntry) : list Z :=
  str "HANA" ++ le_bytes 4 1 ++ le_bytes 4 (zlen l) ++ le_bytes 4 (zlen (records l)) ++ records l.

Lemma records_cons e l : records (e :: l) = record_of e ++ records l.
Proof. done. Qed.

Lemma record_length e : zlen (record_of e) = 7 + zlen (node_path e) + zlen (data e).
Proof. unfold record_of. rewrite !zlen_app, !zlen_le_bytes. unfold zlen. simpl. lia. Qed.

Lemma image_length l : zlen (image l) = 16 + zlen (records l).
Proof. unfold image. rewrite !zlen_app, !zlen_le_bytes. unfold zlen. simpl. lia. Qed.

Lemma records_sublist l k : l `sublist_of` k → zlen (records l) ≤ zlen (records k) ∧ zlen l ≤ zlen k.
Proof.
  induction 1 as [|e l k _ [IH1 IH2]|e l k _ [IH1 IH2]]; [done|..];
    rewrite ?records_cons, ?zlen_app, ?zlen_cons; pose proof (zlen_nonneg (record_of e)); lia.
Qed.

Lemma record_bytes e : entry_ok e → Forall is_byte (record_of e).
Proof.
  intros [_ Hs _ _ _ Hb _]. unfold record_of. rewrite !Forall_app. split_and!.
  - apply le_bytes_is_byte.
  - constructor; [|constructor]. unfold is_byte. case_match; lia.
  - apply le_bytes_is_byte.
  - eapply Forall_impl; [exact Hs|]. unfold cchar, is_byte. lia.
  - done.
Qed.

Lemma image_bytes l : Forall entry_ok l → Forall is_byte (image l).
Proof.
  intros Hl. unfold image. rewrite !Forall_app. split_and!.
  - apply (bool_decide_unpack _). vm_compute. exact I.
  - apply le_bytes_is_byte.
  - apply le_bytes_is_byte.
  - apply le_bytes_is_byte.
  - induction Hl as [|e l He _ IH]; [constructor|]. rewrite records_cons.
    apply Forall_app. split; [by apply record_bytes|done].
Qed.

(** [lba] and the sectors behind it hold [b], the last one padded with zeros. *)
Definition pad (b : list Z) : list Z := b ++ replicate (512 - length b) 0.
Definition disk_holds {D} `{BlockDevSpec D} (d : D) (lba : Z) (b : list Z) : Prop :=
  ∀ k : nat, (512 * k < length b)%nat →
    sector d (lba + Z.of_nat k) = pad (take 512 (drop (512 * k) b)).

Lemma pad_length b : (length b ≤ 512)%nat → length (pad b) = 512%nat.
Proof. intros Hb. unfold pad. rewrite length_app, length_replicate. lia. Qed.

Lemma pad_bytes b : Forall is_byte b → Forall is_byte (pad b).
Proof. intros Hb. apply Forall_app. split; [done|]. apply Forall_replicate. unfold is_byte. lia. Qed.

Section persist.
Context {H D : Type} `{AllocatorSpec H} `{BlockDevSpec D}.
Notation St := (HanaFS H D).

Lemma payload_len_spec l : Forall entry_ok l → payload_len l = Ret (zlen (records l)).
Proof.
  induction 1 as [|e l He _ IH]; [done|]. unfold payload_len in *. cbn [foldr]. rewrite IH.
  cbn [rbind]. rewrite (eo_path _ He). cbn [of_opt rbind].
  rewrite records_cons, zlen_app, record_length, (eo_len _ He). unfold strlen.
  destruct (is_dir e) eqn:Hd; [|f_equal; lia].
  pose proof (eo_len _ He) as Hl. rewrite (eo_dir _ He Hd), zlen_nil in Hl. f_equal. lia.
Qed.

Lemma put_Ret total buf bytes :
  zlen buf + zlen bytes ≤ total → put total buf bytes = Ret (buf ++ bytes).
Proof. intros. unfold put. by rewrite (proj2 (Z.leb_le _ _)). Qed.

Lemma put_n_all total buf src :
  zlen buf + zlen src ≤ total → put_n total buf src (zlen src) = Ret (buf ++ src).
Proof.
  intros Ht. unfold put_n. rewrite Z.leb_refl. unfold zlen at 1. rewrite Nat2Z.id, firstn_all.
  by apply put_Ret.
Qed.

Lemma plen_bytes n :
  [Z.land n 0xFF; Z.land (Z.shiftr n 8) 0xFF] = le_bytes 2 n.
Proof. cbn [le_bytes]. rewrite !land_255, Z.shiftr_div_pow2 by lia. done. Qed.

Lemma persist_entry_spec total buf e :
  entry_ok e → zlen buf + zlen (record_of e) ≤ total →
  persist_entry total buf e = Ret (buf ++ record_of e).
Proof.
  intros He Ht. rewrite record_length in Ht. pose proof (zlen_nonneg (node_path e)).
  pose proof (zlen_nonneg (data e)). pose proof (eo_short _ He). pose proof (eo_len _ He) as Hl.
  pose proof (eo_max _ He). unfold persist_entry. rewrite (eo_path _ He). cbn [of_opt rbind].
  unfold strlen. rewrite u16_small by lia.
  rewrite plen_bytes, put_Ret by zlen_lia. cbn [rbind].
  rewrite put_Ret by zlen_lia. cbn [rbind].
  assert (Hdl : u32 (if is_dir e then 0 else u32 (len e)) = len e).
  { destruct (is_dir e) eqn:Hd.
    - rewrite (eo_dir _ He Hd), zlen_nil in Hl. by rewrite <- Hl.
    - by rewrite !(u32_small (len e)) by lia. }
  rewrite Hdl. rewrite put_Ret by zlen_lia.
  cbn [rbind]. rewrite put_n_all by zlen_lia.
  cbn [rbind]. unfold record_of. rewrite <- !app_assoc.
  destruct (is_dir e) eqn:Hd; cbn [negb andb]; [by rewrite (eo_dir _ He Hd), app_nil_r|].
  destruct (Z.eqb_spec (len e) 0) as [H0'|Hne]; cbn [negb].
  - destruct (data e); [by rewrite app_nil_r|]. rewrite zlen_cons in Hl.
    pose proof (zlen_nonneg l). lia.
  - rewrite <- Hl, put_n_all by zlen_lia.
    by rewrite <- !app_assoc.
Qed.

Lemma persist_entries_spec total l : ∀ buf,
  Forall entry_ok l → zlen buf + zlen (records l) ≤ total →
  persist_entries total buf l = Ret (buf ++ records l).
Proof.
  induction l as [|e l IH]; intros buf Hl Ht; cbn [persist_entries].
  - by rewrite app_nil_r.
  - apply Forall_cons in Hl as [He Hl]. rewrite records_cons, zlen_app in *.
    pose proof (zlen_nonneg (records l)).
    rewrite persist_entry_spec by (done || lia). cbn [rbind].
    rewrite IH by (done || (rewrite zlen_app; lia)). by rewrite <- app_assoc.
Qed.

(** What the sector loop leaves alone. *)
Definition same_fs (s s' : St) : Prop :=
  heap s' = heap s ∧ g_head s' = g_head s ∧
  g_hanafs_persist_enabled s' = g_hanafs_persist_enabled s.

Lemma write_sectors_spec fuel : ∀ sec buf (s : St),
  (length buf ≤ fuel)%nat → Forall is_byte buf → 0 ≤ sec →
  sec + zlen buf < 2 ^ 32 →
  ∃ ok s', write_sectors fuel sec buf s = Ret (ok, s') ∧ same_fs s s' ∧
    (ok = true → disk_holds (disk s') sec buf ∧ ∀ l, l < sec → sector (disk s') l = sector (disk s) l).
Proof.
  induction fuel as [|fuel IH]; intros sec buf s Hf Hb H0s Hsec;
    destruct buf as [|x buf]; cbn [write_sectors].
  1,3: exists true, s; split_and!; [done|done|]; intros _; split; [intros k Hk; simpl in Hk; lia|done].
  { simpl in Hf. lia. }
  set (b := x :: buf) in *. fold (pad (take 512 b)).
  destruct (ata_write_sector sec (pad (take 512 b)) (disk s)) as [rc d] eqn:Hw.
  destruct (Z.eqb_spec rc 0) as [->|Hrc]; cbn [negb].
  2:{ exists false, (set_disk s d). by split_and!. }
  assert (Hpad : length (pad (take 512 b)) = 512%nat) by (apply pad_length; rewrite length_take; lia).
  pose proof (write_ok sec _ _ _ Hpad (pad_bytes _ (Forall_take _ _ _ Hb)) Hw) as Hws.
  assert (Hz : zlen b = Z.of_nat (S (length buf))) by done.
  rewrite u32_small by lia.
  destruct (IH (sec + 1) (drop 512 b) (set_disk s d)) as (ok & s' & -> & Hsame & Hok).
  { rewrite length_drop. simpl in *. lia. }
  { by apply Forall_drop. }
  { lia. }
  { unfold zlen in *. rewrite length_drop. lia. }
  exists ok, s'. split_and!; [done|done|]. intros ->. destruct (Hok eq_refl) as [Hh Hlo]. split.
  - intros [|k] Hk.
    + rewrite Z.add_0_r, Hlo by lia. rewrite Hws, Z.eqb_refl. done.
    + specialize (Hh k). rewrite drop_drop, length_drop in Hh.
      replace (sec + Z.of_nat (S k)) with (sec + 1 + Z.of_nat k) by lia.
      rewrite Hh by lia. do 3 f_equal. lia.
  - intros l Hl. rewrite Hlo by lia. simpl. rewrite Hws.
    by rewrite (proj2 (Z.eqb_neq _ _)) by lia.
Qed.

Lemma fs_inv_same r X s s' : same_fs s s' → fs_inv r X s → fs_inv r X s'.
Proof. intros (Hh & Hg & _) [Hm He Hp]. split; by rewrite ?Hh, ?Hg. Qed.

(** The size bound of a list that can be persisted: all lengths fit their fields and the
    image fits the sectors behind the persistence area. *)
Definition persistable (l : list HanaEntry) : Prop :=
  zlen (records l) < 2 ^ 31 ∧ zlen l < 2 ^ 31.

Definition persist_cost (l : list HanaEntry) : Z := cost (zlen (image l)).

Lemma persist_spec r X s :
  fs_inv r X s → persistable (g_head s) → persist_cost (g_head s) ≤ r →
  ∃ rc s', hanafs_persist_to_ata s = Ret (rc, s') ∧ (rc = 0 ∨ rc = -1) ∧
    g_head s' = g_head s ∧ g_hanafs_persist_enabled s' = g_hanafs_persist_enabled s ∧
    fs_inv (r - persist_cost (g_head s)) X s' ∧
    (rc = 0 → disk_holds (disk s') HANAFS_PERSIST_LBA (image (g_head s))).
Proof.
  intros Hi [Hp1 Hp2] Hc. unfold hanafs_persist_to_ata, persist_cost in *.
  pose proof (fi_entries _ _ _ Hi) as He. pose proof (zlen_nonneg (records (g_head s))).
  pose proof (zlen_nonneg (g_head s)). rewrite image_length in *.
  rewrite payload_len_spec by done. cbn [rbind].
  destruct (kmalloc_step r X s (16 + zlen (records (g_head s))) Hi) as (b & h & -> & Hb & Hi1);
    [lia|done|].
  rewrite (proj2 (Z.eqb_neq _ _)) by done. cbn [g_head set_heap].
  rewrite !u32_small by lia.
  rewrite (put_Ret _ [] (str "HANA")) by (change (zlen (str "HANA")) with 4; zlen_lia). cbn [rbind].
  do 3 (rewrite put_Ret by (rewrite ?zlen_app; change (zlen (str "HANA")) with 4; zlen_lia); cbn [rbind]).
  rewrite persist_entries_spec; [|done|rewrite ?zlen_app; change (zlen (str "HANA")) with 4; zlen_lia].
  cbn [rbind].
  assert (Himg : (((([] ++ str "HANA") ++ le_bytes 4 1) ++ le_bytes 4 (zlen (g_head s))) ++
                  le_bytes 4 (zlen (records (g_head s)))) ++ records (g_head s) = image (g_head s))
    by (by rewrite <- !app_assoc).
  rewrite Himg.
  rewrite image_length, Z.sub_diag. cbn [Z.to_nat replicate]. rewrite app_nil_r.
  destruct (write_sectors_spec (length (image (g_head s))) HANAFS_PERSIST_LBA (image (g_head s))
              (set_heap s h)) as (ok & s2 & -> & Hs & Hok);
    [done|by apply image_bytes|done|rewrite image_length; unfold HANAFS_PERSIST_LBA; lia|].
  cbn [rbind]. pose proof (fs_inv_same _ _ _ _ Hs Hi1) as Hi2.
  destruct Hs as (Hs1 & Hs2 & Hs3). destruct ok.
  - eexists 0, _. split_and!; [done|by left|done|done| |intros _; by apply Hok].
    apply (fs_inv_same _ _ (kfree b s2)); [|by apply kfree_step]. done.
  - eexists (-1), _. split_and!; [done|by right|done|done| |done].
    by apply kfree_step.
Qed.
End persist.
