(* ===== verification/HanaOps.v ===== *)
(** * HanaFS operations against the abstract file system

    Every operation on a valid state with enough heap room terminates without undefined
    behaviour, keeps the state valid, and acts on the abstract map as its name says. *)
From S2P Require Import Prelude CString HeapSpec HanaPath BlockDev HanaFs HanaInv HanaImage.

Section ops.
Context {H D : Type} `{AllocatorSpec H} `{BlockDevSpec D}.
Notation St := (HanaFS H D).

(** Sizes: the records of the list grow by at most [k] bytes and stay persistable. *)
Definition fits (k : Z) (s : St) : Prop :=
  zlen (records (g_head s)) + k < 2 ^ 31 ∧ zlen (g_head s) + 1 < 2 ^ 31.

(** Heap room an operation with path [p] and [n] bytes of data needs: the path buffer, the
    node, the copy of the internal path, the data, and the persistence buffer. *)
Definition op_room (p : list Z) (n : Z) (s : St) : Z :=
  zlen p + 2 * n + zlen (records (g_head s)) + 2000.

Definition file_content (buf : option (list Z)) (n : Z) : list Z :=
  match buf with Some src => take (Z.to_nat n) src | None => [] end.

(** A path argument: a C string of a sane length with its resolution. *)
Record path_arg (p : list Z) (drv : Z) (pb ip : list Z) : Prop := {
  pa_str : cstr_ok p;
  pa_len : zlen p < 2 ^ 61;
  pa_spec : resolve_spec p = (drv, pb, ip)
}.

Lemma path_arg_resolve p drv pb ip : path_arg p drv pb ip → resolve p = Ret (drv, pb, ip).
Proof. intros [Hs _ <-]. by apply resolve_correct. Qed.

Lemma path_arg_ok p drv pb ip :
  path_arg p drv pb ip → cstr_ok pb ∧ cstr_ok ip ∧ ip = internal_path drv pb ∧ zlen ip ≤ 511.
Proof.
  intros [Hs _ Hr]. destruct (resolve_spec_ok p drv pb ip Hs Hr) as (H1' & H2' & _ & H4').
  split_and!; [done..|]. rewrite H4'. unfold internal_path, zlen. rewrite length_take. lia.
Qed.

(** The opening [kmalloc] of the path buffer. *)
Lemma open_path r X (s : St) p drv pb ip :
  fs_inv r X s → path_arg p drv pb ip → zlen p + 66 ≤ r →
  ∃ b h, kmalloc (strlen p + 2) s = (b, set_heap s h) ∧ b ≠ 0 ∧
         fs_inv (r - (zlen p + 66)) (b :: X) (set_heap s h).
Proof.
  intros Hi Hp Hr. pose proof (pa_len _ _ _ _ Hp). pose proof (zlen_nonneg p).
  destruct (kmalloc_step r X s (strlen p + 2) Hi) as (b & h & He & Hb & Hi');
    [unfold strlen; lia|unfold cost, strlen; lia|].
  exists b, h. split_and!; [done..|]. eapply fs_inv_le; [|exact Hi']. unfold cost, strlen. lia.
Qed.

Lemma strdup_step r X (s : St) t :
  fs_inv r X s → zlen t ≤ 511 → 576 ≤ r →
  ∃ p h, strdup_k t s = ((p, Some t), set_heap s h) ∧ p ≠ 0 ∧
         fs_inv (r - 576) (p :: X) (set_heap s h).
Proof.
  intros Hi Ht Hr. pose proof (zlen_nonneg t). unfold strdup_k.
  destruct (kmalloc_step r X s (strlen t + 1) Hi) as (p & h & -> & Hp & Hi');
    [unfold strlen; lia|unfold cost, strlen; lia|].
  exists p, h. rewrite (proj2 (Z.eqb_neq _ _)) by done. split_and!; [done..|].
  eapply fs_inv_le; [|exact Hi']. unfold cost, strlen. lia.
Qed.

(** Linking a new entry transfers its allocations from the temporaries to the list. *)
Lemma push_step r X (s : St) e :
  fs_inv r (owned e ++ X) s → entry_ok e → node_path e ∉ node_path <$> g_head s →
  fs_inv r X (push_entry e s).
Proof.
  intros [Hm He Hp] Hok Hn. split; simpl; [|by constructor|by constructor].
  eapply mem_perm; [|exact Hm]. unfold owned_all. simpl. solve_Permutation.
Qed.

Lemma new_entry_ok e ip pp dir dp dat :
  cstr_ok ip → zlen ip ≤ 511 → zlen dat < 2 ^ 31 → Forall is_byte dat →
  (dir = true → dat = []) →
  entry_ok (Entry e pp (Some ip) dir dp dat (zlen dat)).
Proof. intros. split; simpl; try done. lia. Qed.

Lemma new_record_length e pp ip dir dp dat n :
  zlen (record_of (Entry e pp (Some ip) dir dp dat n)) = 7 + zlen ip + zlen dat.
Proof. by rewrite record_length. Qed.

(** [hanafs_persist_to_ata] at the end of an operation, whatever it answers. *)
Lemma persist_after r X (s : St) k :
  fs_inv r X s → zlen (records (g_head s)) ≤ k → k < 2 ^ 31 → zlen (g_head s) < 2 ^ 31 →
  k + 80 ≤ r →
  ∃ rc s', hanafs_persist_to_ata s = Ret (rc, s') ∧ g_head s' = g_head s ∧
           fs_inv (r - (k + 80)) X s'.
Proof.
  intros Hi Hk Hk2 Hl Hr.
  assert (Hpc : persist_cost (g_head s) ≤ k + 80)
    by (unfold persist_cost, cost; rewrite image_length; lia).
  destruct (persist_spec r X s Hi) as (rc & s' & He & _ & Hg & _ & Hi' & _); [split; lia|lia|].
  exists rc, s'. split_and!; [done..|]. eapply fs_inv_le; [|exact Hi']. lia.
Qed.

(** The data branch of [hanafs_write_file]: the entry is linked with its content. *)
Lemma write_data_step r X (s : St) e pp ip buf n :
  fs_inv r (pp :: e :: X) s → pp ≠ 0 → cstr_ok ip → zlen ip ≤ 511 → 0 ≤ n < 2 ^ 31 →
  (∀ src, buf = Some src → n ≤ zlen src ∧ Forall is_byte src) →
  ip ∉ node_path <$> g_head s → n + 64 ≤ r →
  let c := file_content buf n in
  ∃ s' dp h,
    match buf with
    | Some src =>
        if 0 <? n then
          let '(dp, s') := kmalloc n s in
          if dp =? 0 then
            Ret (false, remove_entry_node [] (Entry e pp (Some ip) false 0 [] n) (g_head s') s')
          else if n <=? zlen src then
            Ret (true, push_entry (Entry e pp (Some ip) false dp (take (Z.to_nat n) src) n) s')
          else UB
        else Ret (true, push_entry (Entry e pp (Some ip) false 0 [] 0) s)
    | None => Ret (true, push_entry (Entry e pp (Some ip) false 0 [] 0) s)
    end = Ret (true, s') ∧
    s' = push_entry (Entry e pp (Some ip) false dp c (zlen c)) (set_heap s h) ∧
    fs_inv (r - (n + 64)) X s' ∧ zlen c ≤ n.
Proof.
  intros Hi Hpp Hip Hl Hn Hb Hno Hr c.
  assert (Hempty : fs_inv r X (push_entry (Entry e pp (Some ip) false 0 [] 0) s)).
  { apply push_step; [|by apply (new_entry_ok _ _ _ _ _ [])|done].
    unfold owned. simpl. by rewrite (proj2 (Z.eqb_neq _ _)). }
  assert (Hs : s = set_heap s (heap s)) by (by destruct s).
  destruct buf as [src|]; cycle 1.
  { eexists _, 0, (heap s). split_and!; [done| |eapply fs_inv_le; [|exact Hempty]; lia|subst c; unfold zlen; simpl; lia].
    by rewrite <- Hs. }
  destruct (Hb src eq_refl) as [Hsl Hsb]. destruct (Z.ltb_spec 0 n) as [Hpos|Hz]; cycle 1.
  { assert (Hc0 : c = []) by (subst c; simpl; by replace (Z.to_nat n) with 0%nat by lia).
    rewrite Hc0. eexists _, 0, (heap s).
    split_and!; [done| |eapply fs_inv_le; [|exact Hempty]; lia|unfold zlen; simpl; lia].
    by rewrite <- Hs. }
  destruct (kmalloc_step r (pp :: e :: X) s n Hi) as (dp & h & -> & Hdp & Hi');
    [lia|unfold cost; lia|].
  rewrite (proj2 (Z.eqb_neq _ _)), (proj2 (Z.leb_le _ _)) by done.
  assert (Hc : zlen c = n) by (subst c; simpl; unfold zlen in *; rewrite length_take; lia).
  eexists _, dp, h. rewrite Hc. split_and!; [done|done| |lia].
  eapply (fs_inv_le (r - cost n)); [unfold cost; lia|].
  apply push_step; [|rewrite <- Hc at 2; apply new_entry_ok; try done; [lia|by apply Forall_take]|done].
  unfold owned. simpl. by rewrite !(proj2 (Z.eqb_neq _ _)).
Qed.

(** The list grows by at most one record of [k] bytes. *)
Definition grows (k : Z) (s s' : St) : Prop :=
  zlen (records (g_head s')) ≤ zlen (records (g_head s)) + k ∧ zlen (g_head s') ≤ zlen (g_head s) + 1.

Lemma write_file_grows r X (s : St) p buf n drv pb ip :
  fs_inv r X s → path_arg p drv pb ip → 0 ≤ n < 2 ^ 31 →
  (∀ src, buf = Some src → n ≤ zlen src ∧ Forall is_byte src) →
  fits (518 + n) s → op_room p n s ≤ r →
  ∃ s', hanafs_write_file (Some p) buf n s = Ret (0, s') ∧
        fs_abs s' = <[ip := File (file_content buf n)]> (fs_abs s) ∧
        fs_inv (r - op_room p n s) X s' ∧ grows (518 + n) s s'.
Proof.
  intros Hi Hp Hn Hb [Hf1 Hf2] Hr. unfold op_room in *.
  pose proof (zlen_nonneg p). pose proof (zlen_nonneg (records (g_head s))).
  destruct (path_arg_ok _ _ _ _ Hp) as (_ & Hip & _ & Hil).
  unfold hanafs_write_file.
  destruct (open_path r X s p drv pb ip Hi Hp) as (b & h & -> & Hb0 & Hi1); [lia|].
  rewrite (proj2 (Z.eqb_neq _ _)), (path_arg_resolve _ _ _ _ Hp) by done. cbn [rbind].
  destruct (remove_existing_step _ _ _ ip Hi1 Hip) as (s2 & -> & Hi2 & Ha2 & Hd2 & Hpe2 & Hno2 & Hsub).
  cbn [rbind]. destruct (records_sublist _ _ Hsub) as [Hrec Hlen]. cbn [g_head set_heap] in Hrec, Hlen.
  destruct (kmalloc_step _ _ s2 sizeof_HanaEntry Hi2) as (e & h3 & -> & He & Hi3);
    [unfold sizeof_HanaEntry; lia|unfold cost, sizeof_HanaEntry; lia|].
  rewrite (proj2 (Z.eqb_neq _ _)) by done.
  destruct (strdup_step _ _ _ ip Hi3 Hil) as (pp & h4 & -> & Hpp & Hi4);
    [unfold cost, sizeof_HanaEntry; lia|].
  destruct (write_data_step _ (b :: X) _ e pp ip buf n Hi4 Hpp Hip Hil Hn Hb) as (s5 & dp & h5 & -> & Hs5 & Hi5 & Hcl);
    [done|unfold cost, sizeof_HanaEntry; lia|].
  cbn [rbind negb]. unfold cost, sizeof_HanaEntry in *.
  assert (Ha5 : fs_abs s5 = <[ip := File (file_content buf n)]> (fs_abs s)).
  { rewrite Hs5. unfold fs_abs. simpl. rewrite fs_map_cons. simpl.
    change (fs_map (g_head s2)) with (fs_abs s2). rewrite Ha2. apply insert_delete_eq. }
  assert (Hr5 : zlen (records (g_head s5)) ≤ zlen (records (g_head s)) + 518 + n).
  { rewrite Hs5. simpl. rewrite records_cons, zlen_app, new_record_length. lia. }
  assert (Hl5 : zlen (g_head s5) ≤ zlen (g_head s) + 1) by (rewrite Hs5; simpl; rewrite zlen_cons; lia).
  destruct (_ && _).
  - destruct (persist_after _ _ s5 (zlen (records (g_head s)) + 518 + n) Hi5)
      as (rc & s6 & -> & Hg6 & Hi6); [lia..|].
    cbn [rbind]. exists s6. split_and!; [done| | |unfold grows; rewrite Hg6; lia].
    + rewrite <- Ha5. unfold fs_abs. by rewrite Hg6.
    + apply (leak_step _ b). eapply fs_inv_le; [|exact Hi6]. lia.
  - exists s5. split_and!; [done|done| |unfold grows; lia].
    apply (leak_step _ b). eapply fs_inv_le; [|exact Hi5]. lia.
Qed.

Lemma write_file_spec r X (s : St) p buf n drv pb ip :
  fs_inv r X s → path_arg p drv pb ip → 0 ≤ n < 2 ^ 31 →
  (∀ src, buf = Some src → n ≤ zlen src ∧ Forall is_byte src) →
  fits (518 + n) s → op_room p n s ≤ r →
  ∃ s', hanafs_write_file (Some p) buf n s = Ret (0, s') ∧
        fs_abs s' = <[ip := File (file_content buf n)]> (fs_abs s) ∧
        fs_inv (r - op_room p n s) X s'.
Proof.
  intros Hi Hp Hn Hb Hf Hr.
  destruct (write_file_grows r X s p buf n drv pb ip Hi Hp Hn Hb Hf Hr) as (s' & ? & ? & ? & _). by exists s'.
Qed.

(** Reading: a file's content in a fresh buffer the caller owns. *)
Lemma get_file_spec r X (s : St) p drv pb ip :
  fs_inv r X s → path_arg p drv pb ip → zlen p + 66 ≤ r →
  match fs_abs s !! ip with
  | Some (File c) =>
      zlen p + zlen c + 140 ≤ r →
      ∃ b s', hanafs_get_file_alloc (Some p) s
              = Ret (Some (b, if decide (c = []) then [0] else c, zlen c), s') ∧ b ≠ 0 ∧
              fs_abs s' = fs_abs s ∧ fs_inv (r - (zlen p + zlen c + 140)) (b :: X) s'
  | _ => ∃ s', hanafs_get_file_alloc (Some p) s = Ret (None, s') ∧
               fs_abs s' = fs_abs s ∧ fs_inv (r - (zlen p + 66)) X s'
  end.
Proof.
  intros Hi Hp Hr. unfold hanafs_get_file_alloc.
  destruct (path_arg_ok _ _ _ _ Hp) as (_ & Hip & _ & _).
  destruct (open_path r X s p drv pb ip Hi Hp Hr) as (pbuf & h & -> & Hb0 & Hi1).
  rewrite (proj2 (Z.eqb_neq _ _)), (path_arg_resolve _ _ _ _ Hp) by done. cbn [rbind].
  destruct (find_entry_spec _ _ _ ip Hi1 Hip) as (f & -> & Hf & Hfe). cbn [rbind].
  change (fs_abs (set_heap s h)) with (fs_abs s) in Hf. rewrite Hf.
  destruct f as [e|]; cbn [fmap option_fmap option_map]; cycle 1.
  { eexists. split_and!; [done..|]. by apply (leak_step _ pbuf). }
  destruct Hfe as [He _]. unfold node_of. destruct (is_dir e) eqn:Hd.
  { eexists. split_and!; [done..|]. by apply (leak_step _ pbuf). }
  intros Hr2. pose proof (eo_len _ He) as Hl. pose proof (eo_max _ He). pose proof (zlen_nonneg (data e)).
  destruct (kmalloc_step _ _ _ (if len e =? 0 then 1 else len e) Hi1) as (b & h2 & -> & Hb & Hi2).
  { destruct (Z.eqb_spec (len e) 0); lia. }
  { unfold cost. destruct (Z.eqb_spec (len e) 0); lia. }
  rewrite (proj2 (Z.eqb_neq b 0)) by done.
  assert (Hfin : fs_inv (r - (zlen p + zlen (data e) + 140)) (b :: X)
                   (kfree pbuf (set_heap (set_heap s h) h2))).
  { apply kfree_step. eapply fs_inv_perm; [apply perm_swap|]. eapply fs_inv_le; [|exact Hi2].
    unfold cost. destruct (Z.eqb_spec (len e) 0); lia. }
  destruct (Z.eqb_spec (len e) 0) as [Hz|Hnz].
  - assert (Hdn : data e = []) by (destruct (data e); [done|]; rewrite zlen_cons in *;
      pose proof (zlen_nonneg l); lia).
    rewrite Hdn in *. rewrite decide_True by done. exists b. eexists. by split_and!.
  - rewrite decide_False by (intros Hn; rewrite Hn in *; change (zlen (@nil Z)) with 0 in *; lia).
    rewrite (proj2 (Z.leb_le _ _)) by lia. exists b, (kfree pbuf (set_heap (set_heap s h) h2)).
    split_and!; [|done|done|done]. rewrite <- Hl. unfold zlen at 1. by rewrite Nat2Z.id, firstn_all.
Qed.

(** The second comparison of the operations without a drive never finds anything else:
    stored paths are shorter than the cut. *)
Lemma legacy_path drv pb ip q :
  ip = internal_path drv pb → zlen q ≤ 511 → drv < 0 → q = pb → q = ip.
Proof.
  intros -> Hq Hd ->. unfold internal_path. rewrite (proj2 (Z.ltb_lt _ _)) by done.
  rewrite take_ge; [done|]. unfold zlen in Hq. lia.
Qed.

Lemma unlink_spec r X (s : St) p drv pb ip :
  fs_inv r X s → path_arg p drv pb ip → fits 0 s → op_room p 0 s ≤ r →
  ∃ s', hanafs_unlink (Some p) s
        = Ret (if decide (is_Some (fs_abs s !! ip)) then 0 else -1, s') ∧
        fs_abs s' = delete ip (fs_abs s) ∧ fs_inv (r - op_room p 0 s) X s'.
Proof.
  intros Hi Hp [Hf1 Hf2] Hr. unfold op_room, hanafs_unlink in *.
  pose proof (zlen_nonneg p). pose proof (zlen_nonneg (records (g_head s))).
  destruct (path_arg_ok _ _ _ _ Hp) as (Hpb & Hip & Hipb & _).
  destruct (open_path r X s p drv pb ip Hi Hp) as (pbuf & h & -> & Hb0 & Hi1); [lia|].
  rewrite (proj2 (Z.eqb_neq _ _)), (path_arg_resolve _ _ _ _ Hp) by done. cbn [rbind].
  set (test := λ q, (strcmp q ip =? 0) || ((drv <? 0) && (strcmp q pb =? 0))). cbn [g_head set_heap].
  pose proof (fi_entries _ _ _ Hi) as Hes.
  assert (Htest : ∀ e, entry_ok e → test (node_path e) = bool_decide (node_path e = ip)).
  { intros e He. unfold test. rewrite !strcmp_eqb by (done || apply (eo_str _ He)).
    case_bool_decide as H1'; [done|]. cbn [orb]. destruct (Z.ltb_spec drv 0); [|done]. cbn [andb].
    case_bool_decide as H2'; [|done]. destruct H1'.
    by apply (legacy_path drv pb ip); [done|apply (eo_short _ He)|done|]. }
  destruct (walk_spec test (g_head s) Hes) as [(pre & e & post & -> & Hg & Ht & Hpre)|[-> Hno]];
    cbn [rbind].
  - pose proof Hes as Hes'. rewrite Hg in Hes'. apply Forall_app in Hes' as [Hpre' Hes'].
    apply Forall_cons in Hes' as [He _]. rewrite Htest in Ht by done. bool_to_prop.
    destruct (remove_entry_step _ _ _ pre e post Hi1 Hg) as (Hi2 & Hg2 & _).
    pose proof (fi_paths _ _ _ Hi) as Hnd.
    assert (Hsub : pre ++ post `sublist_of` g_head s)
      by (rewrite Hg; apply sublist_app; [done|by apply sublist_cons]).
    destruct (records_sublist _ _ Hsub) as [Hrec Hlen].
    destruct (persist_after _ _ _ (zlen (records (g_head s))) Hi2) as (rc & s3 & -> & Hg3 & Hi3);
      [rewrite Hg2; lia|lia|rewrite Hg2; lia|lia|].
    cbn [rbind]. eexists. split_and!.
    + rewrite decide_True; [done|]. unfold fs_abs. rewrite Hg, fs_map_mid.
      * rewrite decide_True by done. eauto.
      * rewrite Hg, fmap_app, fmap_cons in Hnd. apply NoDup_app in Hnd as (_ & Hnd & _).
        intros Hin. apply (Hnd _ Hin). rewrite Ht. by left.
    + unfold fs_abs. simpl. rewrite Hg3, Hg2, Hg, <- Ht. apply fs_map_delete. by rewrite <- Hg.
    + apply kfree_step. eapply fs_inv_le; [|exact Hi3]. lia.
  - assert (Hnone : fs_abs s !! ip = None).
    { apply fs_map_None. intros (e & He & Hin)%list_elem_of_fmap.
      rewrite Forall_forall in Hno, Hes. specialize (Hno e Hin). simpl in Hno.
      rewrite Htest in Hno by (by apply Hes). bool_to_prop. congruence. }
    eexists. split_and!.
    + rewrite decide_False; [done|]. rewrite Hnone. by intros [].
    + unfold fs_abs. simpl. symmetry. by apply delete_id.
    + apply kfree_step. eapply fs_inv_le; [|exact Hi1]. lia.
Qed.

Lemma make_dir_spec r X (s : St) p drv pb ip :
  fs_inv r X s → path_arg p drv pb ip → fits 518 s → op_room p 0 s ≤ r →
  ∃ s', hanafs_make_dir (Some p) s
        = Ret (if decide (is_Some (fs_abs s !! ip)) then -1 else 0, s') ∧
        fs_abs s' = (if decide (is_Some (fs_abs s !! ip)) then fs_abs s
                     else <[ip := Dir]> (fs_abs s)) ∧
        fs_inv (r - op_room p 0 s) X s'.
Proof.
  intros Hi Hp [Hf1 Hf2] Hr. unfold op_room, hanafs_make_dir in *.
  pose proof (zlen_nonneg p). pose proof (zlen_nonneg (records (g_head s))).
  destruct (path_arg_ok _ _ _ _ Hp) as (Hpb & Hip & Hipb & Hil).
  destruct (open_path r X s p drv pb ip Hi Hp) as (pbuf & h & -> & Hb0 & Hi1); [lia|].
  rewrite (proj2 (Z.eqb_neq _ _)), (path_arg_resolve _ _ _ _ Hp) by done. cbn [rbind].
  destruct (find_entry_spec _ _ _ ip Hi1 Hip) as (f1 & -> & Hf & _). cbn [rbind].
  change (fs_abs (set_heap s h)) with (fs_abs s) in Hf. rewrite Hf.
  destruct f1 as [e|]; cbn [fmap option_fmap option_map].
  { rewrite bool_decide_false by done. cbn [andb rbind negb orb].
    rewrite !(decide_True (P := is_Some _)) by eauto. eexists. split_and!; [done|done|].
    apply kfree_step. eapply fs_inv_le; [|exact Hi1]. lia. }
  rewrite bool_decide_true by done. cbn [andb]. rewrite !(decide_False (P := is_Some _)) by (by intros []).
  assert (Hf2' : (if drv <? 0 then find_entry pb (set_heap s h) else Ret None) = Ret None).
  { destruct (Z.ltb_spec drv 0); [|done].
    destruct (find_entry_spec _ _ _ pb Hi1 Hpb) as (f2 & -> & Hfb & Hfe). f_equal.
    destruct f2 as [e|]; [|done]. destruct Hfe as [He <-].
    change (fs_abs (set_heap s h)) with (fs_abs s) in Hfb.
    rewrite (legacy_path drv _ ip (node_path e) Hipb (eo_short _ He)) in Hfb by done.
    rewrite Hf in Hfb. done. }
  rewrite Hf2'. cbn [rbind]. rewrite bool_decide_true by done. cbn [negb orb].
  destruct (kmalloc_step _ _ (set_heap s h) sizeof_HanaEntry Hi1) as (e & h3 & -> & He & Hi3);
    [unfold sizeof_HanaEntry; lia|unfold cost, sizeof_HanaEntry; lia|].
  rewrite (proj2 (Z.eqb_neq _ _)) by done.
  destruct (strdup_step _ _ _ ip Hi3 Hil) as (pp & h4 & -> & Hpp & Hi4);
    [unfold cost, sizeof_HanaEntry; lia|]. unfold cost, sizeof_HanaEntry in *.
  set (ne := Entry e pp (Some ip) true 0 [] 0).
  assert (Hno : ip ∉ node_path <$> g_head s) by (by apply fs_map_notin).
  assert (Hi5 : fs_inv (r - (zlen p + 66) - (40 + 64) - 576) (pbuf :: X)
                  (push_entry ne (set_heap (set_heap (set_heap s h) h3) h4))).
  { apply push_step; [|by apply (new_entry_ok _ _ _ _ _ [])|done].
    unfold owned. simpl. by rewrite (proj2 (Z.eqb_neq _ _)). }
  destruct (persist_after _ _ _ (zlen (records (g_head s)) + 518) Hi5) as (rc & s6 & -> & Hg6 & Hi6).
  { simpl. unfold ne. rewrite records_cons, zlen_app, new_record_length. change (zlen (@nil Z)) with 0. lia. }
  { lia. }
  { simpl. rewrite zlen_cons. lia. }
  { lia. }
  cbn [rbind]. exists s6. split_and!; [done| |].
  - unfold fs_abs. by rewrite Hg6.
  - apply (leak_step _ pbuf). eapply fs_inv_le; [|exact Hi6]. lia.
Qed.

(** ** Removing directories *)

Lemma prefix_slash q ip :
  cstr_ok q → cstr_ok ip →
  (strncmp q ip (strlen ip) =? 0) && slash_at q (strlen ip)
  = bool_decide ((ip ++ [47]) `prefix_of` q).
Proof.
  intros Hq Hip. rewrite strncmp_eqb by done. unfold slash_at, strlen, zlen. rewrite Nat2Z.id.
  case_bool_decide as Hpre; cbn [andb].
  - destruct Hpre as [k ->]. rewrite lookup_app_r, Nat.sub_diag by done.
    apply bool_decide_ext. split.
    + intros Hk. destruct k as [|c k]; [done|]. injection Hk as ->. exists k.
      by rewrite <- app_assoc.
    + intros [k' Hk']. rewrite <- app_assoc in Hk'. apply app_inv_head in Hk'. by subst k.
  - symmetry. apply bool_decide_false. intros [k ->]. apply Hpre. exists ([47] ++ k).
    by rewrite app_assoc.
Qed.

Definition child_of (ip q : list Z) : Prop := (ip ++ [47]) `prefix_of` q.

Global Instance child_of_dec ip q : Decision (child_of ip q).
Proof. unfold child_of. apply _. Defined.

Lemma child_ne ip : ¬ child_of ip ip.
Proof.
  intros [k Hk]. apply (f_equal length) in Hk. rewrite !length_app in Hk. simpl in Hk. lia.
Qed.

Lemma has_child_spec pb l :
  Forall entry_ok l → cstr_ok pb →
  ∃ c, has_child (-1) pb pb l = Ret c ∧ (c = true ↔ ∃ q, q ∈ node_path <$> l ∧ child_of pb q).
Proof.
  intros Hl Hpb. induction Hl as [|e l He _ (c & IHe & IH)].
  - exists false. split; [done|]. split; [done|]. intros (q & Hq & _). by apply elem_of_nil in Hq.
  - cbn [has_child]. rewrite (eo_path _ He). cbn [of_opt rbind].
    rewrite !prefix_slash, strcmp_eqb by (done || apply (eo_str _ He)).
    assert (Hskip : ¬ child_of pb (node_path e) →
      (c = true ↔ ∃ q, q ∈ node_path <$> e :: l ∧ child_of pb q)).
    { intros Hn. rewrite IH. setoid_rewrite fmap_cons. setoid_rewrite elem_of_cons.
      split; [intros (q & ? & ?); eauto|]. intros (q & [->|?] & ?); [done|eauto]. }
    case_bool_decide as Heq; cbn [andb Z.leb Z.compare].
    + exists c. split; [done|]. apply Hskip. rewrite Heq. apply child_ne.
    + case_bool_decide as Hpre.
      * exists true. split; [done|]. split; [|done]. intros _. exists (node_path e).
        split; [by left|done].
      * exists c. split; [done|]. by apply Hskip.
Qed.

(** A normalized path without a drive resolves to itself. *)
Lemma path_arg_again p pb ip : path_arg p (-1) pb ip → zlen pb < 2 ^ 61 → path_arg pb (-1) pb ip.
Proof.
  intros Hp Hl. destruct (path_arg_ok _ _ _ _ Hp) as (Hpb & _ & Hip & _).
  destruct Hp as [Hs _ Hr]. split; [done|done|]. unfold resolve_spec in *.
  destruct (split_drive p) as [d rest]. injection Hr as -> <- <-.
  pose proof (normalize_head rest) as Hh. pose proof (normalize_idem rest) as Hidem.
  destruct (normalize rest) as [|c n]; [done|]. injection Hh as ->.
  assert (Hsd : split_drive (47 :: n) = (-1, 47 :: n)) by (destruct n; done).
  rewrite Hsd, Hidem. done.
Qed.

Lemma remove_dir_spec r X (s : St) p pb ip :
  fs_inv r X s → path_arg p (-1) pb ip → zlen pb ≤ 511 → fits 0 s →
  op_room p 0 s + op_room pb 0 s ≤ r →
  ∃ rc s', hanafs_remove_dir (Some p) s = Ret (rc, s') ∧
    fs_inv (r - (op_room p 0 s + op_room pb 0 s)) X s' ∧
    (if decide (Exists (child_of pb) (node_path <$> g_head s))
     then rc = -1 ∧ fs_abs s' = fs_abs s
     else rc = (if decide (is_Some (fs_abs s !! pb)) then 0 else -1) ∧
          fs_abs s' = delete pb (fs_abs s)).
Proof.
  intros Hi Hp Hl Hf Hr. pose proof (zlen_nonneg p). pose proof (zlen_nonneg pb).
  pose proof (zlen_nonneg (records (g_head s))).
  destruct (path_arg_ok _ _ _ _ Hp) as (Hpb & _ & Hip & _).
  assert (Heq : ip = pb).
  { rewrite Hip. unfold internal_path. simpl. rewrite take_ge; [done|]. unfold zlen in Hl. lia. }
  clear Hip. subst ip. unfold hanafs_remove_dir.
  assert (Hr1 : zlen p + 66 ≤ r) by (unfold op_room in Hr; lia).
  destruct (open_path r X s p (-1) pb pb Hi Hp Hr1) as (pbuf & h & -> & Hb0 & Hi1).
  rewrite (proj2 (Z.eqb_neq _ _)), (path_arg_resolve _ _ _ _ Hp) by done. cbn [rbind g_head set_heap].
  destruct (has_child_spec pb (g_head s) (fi_entries _ _ _ Hi) Hpb) as (c & -> & Hc). cbn [rbind].
  assert (Hc' : c = true ↔ Exists (child_of pb) (node_path <$> g_head s))
    by (rewrite Exists_exists; exact Hc).
  destruct c.
  - eexists _, _. split_and!; [done| |].
    + apply kfree_step. eapply fs_inv_le; [|exact Hi1]. unfold op_room. lia.
    + by rewrite (decide_True (P := Exists _ _)) by (by apply Hc').
  - assert (Hr2 : op_room pb 0 (set_heap s h) ≤ r - (zlen p + 66)) by (unfold op_room in *; simpl; lia).
    destruct (unlink_spec _ _ (set_heap s h) pb (-1) pb pb Hi1) as (s2 & -> & Ha2 & Hi2);
      [apply (path_arg_again p); [done|lia]|done|done|].
    cbn [rbind]. change (fs_abs (set_heap s h)) with (fs_abs s) in *.
    eexists _, _. split_and!; [done| |].
    + apply kfree_step. eapply fs_inv_le; [|exact Hi2]. unfold op_room in *. simpl. lia.
    + by rewrite (decide_False (P := Exists _ _)) by (by intros ?%Hc').
Qed.

Lemma stat_spec r X (s : St) p drv pb ip :
  fs_inv r X s → path_arg p drv pb ip → zlen p + 66 ≤ r →
  ∃ s', hanafs_stat (Some p) s =
          Ret (match fs_abs s !! ip with
               | Some Dir => Some (Stat 0 1 0x4000)
               | Some (File c) => Some (Stat (zlen c) 1 0x8000)
               | None => None
               end, s') ∧
        fs_abs s' = fs_abs s ∧ fs_inv (r - (zlen p + 66)) X s'.
Proof.
  intros Hi Hp Hr. unfold hanafs_stat.
  destruct (path_arg_ok _ _ _ _ Hp) as (Hpb & Hip & Hipb & _).
  destruct (open_path r X s p drv pb ip Hi Hp Hr) as (pbuf & h & -> & Hb0 & Hi1).
  rewrite (proj2 (Z.eqb_neq _ _)), (path_arg_resolve _ _ _ _ Hp) by done. cbn [rbind].
  pose proof (kfree_step _ _ _ _ Hi1) as Hi2.
  destruct (find_entry_spec _ _ _ ip Hi1 Hip) as (f & -> & Hf & Hfe). cbn [rbind].
  change (fs_abs (set_heap s h)) with (fs_abs s) in Hf. rewrite Hf.
  destruct f as [e|]; cbn [fmap option_fmap option_map].
  - rewrite bool_decide_false by done. cbn [andb rbind].
    exists (kfree pbuf (set_heap s h)). split_and!; [|done|exact Hi2].
    destruct Hfe as [He _]. pose proof (eo_len _ He) as Hl. unfold node_of.
    destruct (is_dir e) eqn:Hd; [|by rewrite Hl].
    rewrite (eo_dir _ He Hd), zlen_nil in Hl. by rewrite <- Hl.
  - rewrite bool_decide_true by done. cbn [andb]. destruct (Z.ltb_spec drv 0); [|by eexists].
    destruct (find_entry_spec _ _ _ pb Hi1 Hpb) as (f2 & -> & Hfb & Hfe2). cbn [rbind].
    destruct f2 as [e|]; [|by eexists]. destruct Hfe2 as [He Hpe].
    change (fs_abs (set_heap s h)) with (fs_abs s) in Hfb. rewrite <- Hpe in Hfb.
    rewrite (legacy_path drv pb ip (node_path e) Hipb (eo_short _ He)) in Hfb by done. by rewrite Hf in Hfb.
Qed.
End ops.
