(* ===== verification/HanaRefine.v ===== *)
(** * HanaFS refines a map from paths to nodes

    [acall] is the abstract file system: a finite map.  [hanafs_refines_map] runs any
    sequence of calls on the linked list, heap and disk and shows the answers of the
    map. *)
From S2P Require Import Prelude CString HeapSpec HanaPath BlockDev HanaFs HanaInv HanaImage HanaOps.

Inductive call :=
| Write (p c : list Z)
| Create (p : list Z)
| Read (p : list Z)
| Unlink (p : list Z)
| Mkdir (p : list Z)
| Rmdir (p : list Z)
| StatOf (p : list Z).

Inductive answer := Rc (z : Z) | Content (c : option (list Z)) | Info (st : option hana_stat).

Definition call_path (c : call) : list Z :=
  match c with
  | Write p _ | Create p | Read p | Unlink p | Mkdir p | Rmdir p | StatOf p => p
  end.

(** The key a path resolves to. *)
Definition key_of (p : list Z) : list Z := (resolve_spec p).2.

(** ** The abstract file system *)

Notation AFs := (gmap (list Z) node).

Definition has_children (m : AFs) (k : list Z) : Prop :=
  Exists (child_of k) (map_to_list m).*1.
Global Instance has_children_dec m k : Decision (has_children m k).
Proof. unfold has_children. apply _. Defined.

Definition acall (m : AFs) (c : call) : answer * AFs :=
  let k := key_of (call_path c) in
  match c with
  | Write _ b => (Rc 0, <[k := File b]> m)
  | Create _ => (Rc 0, <[k := File []]> m)
  | Read _ => (Content (match m !! k with Some (File b) => Some b | _ => None end), m)
  | Unlink _ => (Rc (if decide (is_Some (m !! k)) then 0 else -1), delete k m)
  | Mkdir _ => if decide (is_Some (m !! k)) then (Rc (-1), m) else (Rc 0, <[k := Dir]> m)
  | Rmdir _ =>
      if decide (has_children m k) then (Rc (-1), m)
      else (Rc (if decide (is_Some (m !! k)) then 0 else -1), delete k m)
  | StatOf _ =>
      (Info (match m !! k with
             | Some Dir => Some (Stat 0 1 0x4000)
             | Some (File b) => Some (Stat (zlen b) 1 0x8000)
             | None => None
             end), m)
  end.

Fixpoint arun (m : AFs) (cs : list call) : list answer :=
  match cs with
  | [] => []
  | c :: cs => let '(a, m') := acall m c in a :: arun m' cs
  end.

(** Calls the refinement covers: C strings and bytes; the drive-less form for [rmdir]. *)
Definition call_ok (c : call) : Prop :=
  cstr_ok (call_path c) ∧ zlen (call_path c) ≤ 500 ∧
  match c with
  | Write _ b => Forall is_byte b ∧ zlen b < 2 ^ 31
  | Rmdir p => (split_drive p).1 = -1
  | _ => True
  end.

Global Instance call_ok_dec c : Decision (call_ok c).
Proof. destruct c; unfold call_ok; apply _. Defined.

(** What a call adds to the records, and the heap room it takes when these are at most [K]. *)
Definition grow (c : call) : Z :=
  match c with Write _ b => 518 + zlen b | Create _ | Mkdir _ => 518 | _ => 0 end.
Definition room (K : Z) (c : call) : Z :=
  match c with
  | Write _ b => 500 + 2 * zlen b + K + 2000
  | Rmdir _ => 2 * (501 + K + 2000)
  | _ => 500 + K + 2000
  end.

(** The bytes the records of an abstract state take. *)
Definition node_size (kn : list Z * node) : Z :=
  7 + zlen kn.1 + match kn.2 with File b => zlen b | Dir => 0 end.
Definition map_size (m : AFs) : Z := foldr (λ kn n, node_size kn + n) 0 (map_to_list m).

(** A run fits into [r] bytes of heap: each call finds its room, and the state stays
    small enough for the 32-bit fields of the image. *)
Fixpoint run_fits (r : Z) (m : AFs) (cs : list call) : Prop :=
  match cs with
  | [] => True
  | c :: cs =>
      room (map_size m) c ≤ r ∧ map_size m + grow c < 2 ^ 31 ∧ Z.of_nat (size m) + 1 < 2 ^ 31 ∧
      run_fits (r - room (map_size m) c) (acall m c).2 cs
  end.

Lemma map_size_elem m k b : m !! k = Some (File b) → zlen b ≤ map_size m.
Proof.
  intros Hk%elem_of_map_to_list. unfold map_size.
  assert (Hpos : ∀ kn, 0 ≤ node_size kn).
  { intros [q n]. unfold node_size. simpl. pose proof (zlen_nonneg q).
    destruct n as [|c]; [lia|]. pose proof (zlen_nonneg c). lia. }
  revert Hk. generalize (map_to_list m) as l. intros l.
  induction l as [|kn l IH]; intros Hk; [by apply elem_of_nil in Hk|].
  assert (0 ≤ foldr (λ kn n, node_size kn + n) 0 l).
  { clear -Hpos. induction l as [|kn l IH]; simpl; [lia|]. pose proof (Hpos kn). lia. }
  apply elem_of_cons in Hk as [<-|Hk]; simpl.
  - change (node_size (k, File b)) with (7 + zlen k + zlen b). pose proof (zlen_nonneg k). lia.
  - pose proof (Hpos kn). specialize (IH Hk). lia.
Qed.

Section refine.
Context {H D : Type} `{AllocatorSpec H} `{BlockDevSpec D}.
Notation St := (HanaFS H D).

(** The same calls on hanafs.cpp; the reader copies the buffer it gets and frees it. *)
Definition ccall (s : St) (c : call) : res (answer * St) :=
  match c with
  | Write p b => let! (rc, s) := hanafs_write_file (Some p) (Some b) (zlen b) s in Ret (Rc rc, s)
  | Create p => let! (rc, s) := hanafs_create_file (Some p) s in Ret (Rc rc, s)
  | Read p =>
      let! (r, s) := hanafs_get_file_alloc (Some p) s in
      match r with
      | Some (b, bytes, n) => Ret (Content (Some (take (Z.to_nat n) bytes)), kfree b s)
      | None => Ret (Content None, s)
      end
  | Unlink p => let! (rc, s) := hanafs_unlink (Some p) s in Ret (Rc rc, s)
  | Mkdir p => let! (rc, s) := hanafs_make_dir (Some p) s in Ret (Rc rc, s)
  | Rmdir p => let! (rc, s) := hanafs_remove_dir (Some p) s in Ret (Rc rc, s)
  | StatOf p => let! (st, s) := hanafs_stat (Some p) s in Ret (Info st, s)
  end.

Fixpoint crun (s : St) (cs : list call) : res (list answer) :=
  match cs with
  | [] => Ret []
  | c :: cs => let! (a, s) := ccall s c in let! r := crun s cs in Ret (a :: r)
  end.

Lemma fs_map_perm l :
  NoDup (node_path <$> l) →
  map_to_list (fs_map l) ≡ₚ (λ e, (node_path e, node_of e)) <$> l.
Proof.
  intros Hn. apply map_to_list_to_map. rewrite <- list_fmap_compose. exact Hn.
Qed.

Lemma record_size e : entry_ok e → zlen (record_of e) = node_size (node_path e, node_of e).
Proof.
  intros He. rewrite record_length. unfold node_size, node_of. simpl.
  destruct (is_dir e) eqn:Hd; [|done]. by rewrite (eo_dir _ He Hd).
Qed.

Lemma map_size_records r X (s : St) : fs_inv r X s → zlen (records (g_head s)) = map_size (fs_abs s).
Proof.
  intros [_ He Hp]. unfold map_size, fs_abs.
  assert (Hperm : ∀ l k, l ≡ₚ k →
    foldr (λ kn n, node_size kn + n) 0 l = foldr (λ kn n, node_size kn + n) 0 k).
  { intros l k Hlk. induction Hlk; simpl; lia. }
  rewrite (Hperm _ _ (fs_map_perm _ Hp)). clear Hp. induction He as [|e l He _ IH]; [done|].
  rewrite records_cons, zlen_app, IH, record_size by done. done.
Qed.

Lemma map_size_len r X (s : St) : fs_inv r X s → zlen (g_head s) = Z.of_nat (size (fs_abs s)).
Proof.
  intros [_ He Hp]. unfold fs_abs, zlen. rewrite <- length_map_to_list, (fs_map_perm _ Hp).
  by rewrite length_fmap.
Qed.

Lemma has_children_list r X (s : St) k :
  fs_inv r X s → has_children (fs_abs s) k ↔ Exists (child_of k) (node_path <$> g_head s).
Proof.
  intros [_ _ Hp]. unfold has_children, fs_abs. rewrite (fs_map_perm _ Hp).
  rewrite <- list_fmap_compose. done.
Qed.

Lemma call_path_arg c :
  call_ok c → ∃ drv pb, path_arg (call_path c) drv pb (key_of (call_path c)).
Proof.
  intros (Hs & Hl & _). unfold key_of. destruct (resolve_spec (call_path c)) as [[drv pb] ip] eqn:E.
  exists drv, pb. split; [done|lia|done].
Qed.

Lemma rmdir_path_arg p :
  call_ok (Rmdir p) → path_arg p (-1) (key_of p) (key_of p) ∧ zlen (key_of p) ≤ 501.
Proof.
  intros (Hs & Hl & Hd). simpl in *. unfold key_of, resolve_spec.
  destruct (parse_drive_spec p Hs) as (_ & _ & _ & _ & Hlen).
  destruct (split_drive p) as [drv rest] eqn:E. simpl in Hd, Hlen. subst drv. cbn [snd].
  assert (Hn : zlen (normalize rest) ≤ 501).
  { pose proof (zlen_nonneg rest). destruct (rstrip_prefix rest) as [k Hk].
    assert (zlen (normalize rest) ≤ 1 + zlen rest); [|lia].
    unfold normalize. apply (f_equal length) in Hk. rewrite length_app in Hk.
    destruct rest as [|c rest]; [done|]. rewrite zlen_cons in *.
    destruct (rstrip_prefix rest) as [k2 Hk2]. apply (f_equal length) in Hk2.
    rewrite length_app in Hk2. unfold zlen in *.
    repeat case_match; simpl length in *; lia. }
  assert (Hip : internal_path (-1) (normalize rest) = normalize rest).
  { unfold internal_path. simpl. rewrite take_ge; [done|]. unfold zlen in Hn. lia. }
  rewrite Hip. split; [|done]. split; [done|lia|]. unfold resolve_spec. by rewrite E, Hip.
Qed.

Lemma hana_call_refines r X (s : St) c :
  fs_inv r X s → call_ok c → room (map_size (fs_abs s)) c ≤ r →
  map_size (fs_abs s) + grow c < 2 ^ 31 → Z.of_nat (size (fs_abs s)) + 1 < 2 ^ 31 →
  ∃ s', ccall s c = Ret ((acall (fs_abs s) c).1, s') ∧ fs_abs s' = (acall (fs_abs s) c).2 ∧
        fs_inv (r - room (map_size (fs_abs s)) c) X s'.
Proof.
  intros Hi Hok Hr Hg Hn. pose proof Hok as (_ & Hl & Hc).
  rewrite <- (map_size_records _ _ _ Hi) in *. rewrite <- (map_size_len _ _ _ Hi) in Hn.
  pose proof (zlen_nonneg (records (g_head s))). pose proof (zlen_nonneg (call_path c)).
  destruct (call_path_arg c Hok) as (drv & pb & Hp).
  destruct c; cbn [call_path room grow] in *; unfold ccall, acall; cbn [call_path].
  - destruct Hc as [Hb Hbl]. pose proof (zlen_nonneg c).
    destruct (write_file_spec r X s p (Some c) (zlen c) drv pb _ Hi Hp) as (s' & -> & Ha & Hi');
      [lia|intros src [= <-]; done|split; lia|unfold op_room; lia|].
    cbn [rbind]. exists s'. split_and!; [done| |eapply fs_inv_le; [|exact Hi']; unfold op_room; lia].
    rewrite Ha. unfold file_content, zlen. by rewrite Nat2Z.id, firstn_all.
  - destruct (write_file_spec r X s p None 0 drv pb _ Hi Hp) as (s' & He & Ha & Hi');
      [lia|done|split; lia|unfold op_room; lia|].
    unfold hanafs_create_file. rewrite He. cbn [rbind].
    exists s'. split_and!; [done|done|eapply fs_inv_le; [|exact Hi']; unfold op_room; lia].
  - pose proof (get_file_spec r X s p drv pb _ Hi Hp ltac:(lia)) as Hget.
    destruct (fs_abs s !! key_of p) as [[|b]|] eqn:Ha.
    1,3: destruct Hget as (s' & -> & Ha' & Hi'); cbn [rbind]; exists s';
         (split_and!; [done|done|eapply fs_inv_le; [|exact Hi']; lia]).
    assert (Hbl : zlen b ≤ zlen (records (g_head s))).
    { destruct (find_entry_spec _ _ _ (key_of p) Hi) as (f & _ & Hf & _);
        [by destruct (path_arg_ok _ _ _ _ Hp) as (_ & ? & _)|].
      rewrite (map_size_records _ _ _ Hi). by apply (map_size_elem _ (key_of p)). }
    destruct Hget as (bp & s' & -> & Hb & Ha' & Hi'); [lia|]. cbn [rbind].
    exists (kfree bp s'). split_and!; [|done|apply kfree_step; eapply fs_inv_le; [|exact Hi']; lia].
    simpl. do 4 f_equal. case_decide as Hd; [by subst b|]. unfold zlen. by rewrite Nat2Z.id, firstn_all.
  - destruct (unlink_spec r X s p drv pb _ Hi Hp) as (s' & -> & Ha & Hi'); [split; lia|unfold op_room; lia|].
    cbn [rbind]. exists s'. split_and!; [done|done|eapply fs_inv_le; [|exact Hi']; unfold op_room; lia].
  - destruct (make_dir_spec r X s p drv pb _ Hi Hp) as (s' & -> & Ha & Hi'); [split; lia|unfold op_room; lia|].
    cbn [rbind]. exists s'. rewrite Ha.
    case_decide; (split_and!; [done|done|eapply fs_inv_le; [|exact Hi']; unfold op_room; lia]).
  - destruct (rmdir_path_arg p Hok) as [Hp' Hkl].
    destruct (remove_dir_spec r X s p (key_of p) (key_of p) Hi Hp') as (rc & s' & -> & Hi' & Hrc);
      [lia|split; lia|unfold op_room; lia|].
    cbn [rbind]. exists s'. pose proof (has_children_list _ _ _ (key_of p) Hi) as Hch.
    assert (Hroom : fs_inv (r - 2 * (501 + zlen (records (g_head s)) + 2000)) X s')
      by (eapply fs_inv_le; [|exact Hi']; unfold op_room; lia).
    destruct (decide (has_children (fs_abs s) (key_of p))) as [Hd|Hd].
    + rewrite (decide_True (P := Exists _ _)) in Hrc by (by apply Hch). destruct Hrc as [-> Ha].
      by split_and!.
    + rewrite (decide_False (P := Exists _ _)) in Hrc by (by rewrite <- Hch).
      destruct Hrc as [-> Ha]. by split_and!.
  - destruct (stat_spec r X s p drv pb _ Hi Hp) as (s' & -> & Ha & Hi'); [lia|].
    cbn [rbind]. exists s'. split_and!; [done|done|eapply fs_inv_le; [|exact Hi']; lia].
Qed.

Lemma hana_calls_refine cs : ∀ r (s : St),
  fs_inv r [] s → Forall call_ok cs → run_fits r (fs_abs s) cs →
  crun s cs = Ret (arun (fs_abs s) cs).
Proof.
  induction cs as [|c cs IH]; intros r s Hi Hok Hf; [done|].
  apply Forall_cons in Hok as [Hc Hok]. destruct Hf as (Hr & Hg & Hn & Hf).
  destruct (hana_call_refines r [] s c Hi Hc Hr Hg Hn) as (s' & He & Ha & Hi').
  cbn [crun arun]. rewrite He. destruct (acall (fs_abs s) c) as [a m]. cbn [rbind fst snd] in *.
  subst m. by rewrite (IH _ s' Hi' Hok Hf).
Qed.


(** ** Initialization *)

(** One [hanafs_make_dir] with the cost of the abstract state it starts from. *)
Lemma mkdir_step r (s : St) p m :
  fs_inv r [] s → call_ok (Mkdir p) → fs_abs s = m → 2500 + map_size m ≤ r →
  map_size m + 518 < 2 ^ 31 → Z.of_nat (size m) + 1 < 2 ^ 31 →
  ∃ rc s', hanafs_make_dir (Some p) s = Ret (rc, s') ∧ fs_abs s' = (acall m (Mkdir p)).2 ∧
           fs_inv (r - (2500 + map_size m)) [] s'.
Proof.
  intros Hi Hok <- Hr Hg Hn.
  destruct (hana_call_refines r [] s (Mkdir p) Hi Hok) as (s' & He & Ha & Hi'); [simpl; lia|simpl; lia|done|].
  unfold ccall in He. inv_ret. eexists _, _. split_and!; [done|done|].
  eapply fs_inv_le; [|exact Hi']. simpl. lia.
Qed.

Definition init_map : AFs :=
  list_to_map ((λ p, (str p, Dir)) <$> ["/"; "/bin"; "/dev"; "/proc"; "/home"]%string).

(** [hanafs_init] on an empty list creates the root and the four top-level directories
    and leaves a valid file system; on a list that is not empty it changes nothing. *)
Theorem hanafs_init_creates_root r (s : St) :
  fs_inv r [] s → 12000 ≤ r →
  ∃ s', hanafs_init s = Ret (0, s') ∧ fs_inv (r - 12000) [] s' ∧
        fs_abs s' = (if decide (g_head s = []) then init_map else fs_abs s).
Proof.
  intros Hi Hr. unfold hanafs_init. destruct (g_head s) as [|e0 l0] eqn:Hg; cycle 1.
  { rewrite decide_False by done. exists s. split_and!; [done|by eapply fs_inv_le, Hi; lia|done]. }
  rewrite decide_True by done.
  destruct (kmalloc_step r [] s sizeof_HanaEntry Hi) as (e & h & -> & He & Hi1);
    [done|unfold cost, sizeof_HanaEntry; lia|].
  rewrite (proj2 (Z.eqb_neq _ _)) by done.
  destruct (strdup_step _ _ _ (str "/") Hi1) as (pp & h2 & -> & Hpp & Hi2);
    [done|unfold cost, sizeof_HanaEntry; lia|].
  rewrite (proj2 (Z.eqb_neq _ _)) by done. unfold cost, sizeof_HanaEntry in *.
  set (root := Entry e pp (Some (str "/")) true 0 [] 0).
  assert (Hi3 : fs_inv (r - (40 + 64) - 576) [] (set_head (set_heap (set_heap s h) h2) [root])).
  { assert (Hs : set_head (set_heap (set_heap s h) h2) [root] = push_entry root (set_heap (set_heap s h) h2))
      by (unfold push_entry; cbn [g_head set_heap]; by rewrite Hg).
    rewrite Hs. apply push_step; [unfold owned; simpl; by rewrite (proj2 (Z.eqb_neq _ _))| |].
    - apply (new_entry_ok _ _ _ _ _ []); try done. apply (bool_decide_unpack _). vm_compute. exact I.
    - cbn [g_head set_heap]. rewrite Hg. apply not_elem_of_nil. }
  destruct (mkdir_step _ _ (str "/bin") {[str "/" := Dir]} Hi3) as (? & s4 & -> & Ha4 & Hi4);
    [by apply (bool_decide_unpack _)|done|vm_compute map_size; lia|done|done|]. cbn [rbind].
  destruct (mkdir_step _ _ (str "/dev") _ Hi4 ltac:(by apply (bool_decide_unpack _)) Ha4)
    as (? & s5 & -> & Ha5 & Hi5); [vm_compute map_size; lia|done|done|]. cbn [rbind].
  destruct (mkdir_step _ _ (str "/proc") _ Hi5 ltac:(by apply (bool_decide_unpack _)) Ha5)
    as (? & s6 & -> & Ha6 & Hi6); [vm_compute map_size; lia|done|done|]. cbn [rbind].
  destruct (mkdir_step _ _ (str "/home") _ Hi6 ltac:(by apply (bool_decide_unpack _)) Ha6)
    as (? & s7 & -> & Ha7 & Hi7); [vm_compute map_size; lia|done|done|]. cbn [rbind].
  exists s7. split_and!; [done| |].
  - eapply fs_inv_le; [|exact Hi7]. vm_compute map_size. lia.
  - rewrite Ha7. vm_compute. reflexivity.
Qed.
End refine.

(** ** A concrete file system: the heap of HeapSpec.v and an empty disk *)

#[export] Existing Instance heap_allocator.
#[export] Existing Instance heap_allocator_spec.

Definition fs0 : HanaFS Heap.Heap Disk := FsState h0 ∅ [] false true.

Lemma fs0_inv : fs_inv (H0 := heap_allocator bi0) (H1 := heap_allocator_spec bi0) 262000 [] fs0.
Proof.
  split; [|constructor|constructor]. exists ∅. split_and!; [apply h0_alloc_inv|constructor|constructor].
Qed.


Lemma hanafs_init_creates_root_witness :
  ∃ s', hanafs_init (H0 := heap_allocator bi0) fs0 = Ret (0, s') ∧ fs_abs s' = init_map.
Proof.
  destruct (hanafs_init_creates_root 262000 fs0 fs0_inv) as (s' & He & _ & Ha).
  - lia.
  - exists s'. split; [exact He|]. rewrite decide_True in Ha by reflexivity. exact Ha.
Defined.
