(* ===== verification/HanaFrame.v ===== *)
(** * What the HanaFS calls leave alone

    A call changes the device by writing sectors of the saved image only, and keeps the
    persistence flag. *)
From S2P Require Import Prelude CString HeapSpec HanaPath BlockDev HanaFs HanaInv HanaImage HanaOps HanaRefine.

(** A run of writes to sectors of [A], successful or not. *)
Section writes.
Context {D : Type} `{BlockDev D}.
Definition wrote (A : Z → Prop) (d d' : D) : Prop :=
  ∃ lba b, A lba ∧ length b = 512%nat ∧ Forall is_byte b ∧ d' = (ata_write_sector lba b d).2.
Definition written (A : Z → Prop) : relation D := rtc (wrote A).
End writes.

Section frame.
Context {H D : Type} `{AllocatorSpec H} `{BlockDevSpec D}.
Notation St := (HanaFS H D).
Context (A : Z → Prop).

(** The persistence flag stays, and the disk changes by sector writes only. *)
Definition frame (s s' : St) : Prop :=
  g_hanafs_persist_enabled s' = g_hanafs_persist_enabled s ∧ written A (disk s) (disk s').

Lemma frame_trans s1 s2 s3 : frame s1 s2 → frame s2 s3 → frame s1 s3.
Proof. intros [E Hd] [E' Hd']. split; [congruence|by etrans]. Qed.
Lemma frame_same s s' :
  g_hanafs_persist_enabled s' = g_hanafs_persist_enabled s → disk s' = disk s → frame s s'.
Proof. intros Hf Hd. split; [done|]. rewrite Hd. apply rtc_refl. Qed.
Lemma kmalloc_frame n (s : St) : frame s (kmalloc n s).2 ∧ g_head (kmalloc n s).2 = g_head s.
Proof. unfold kmalloc. by destruct (amalloc n (heap s)). Qed.
Lemma remove_frame pre e post (s : St) : frame s (remove_entry_node pre e post s).
Proof. apply frame_same; unfold remove_entry_node; by repeat case_match. Qed.
Lemma strdup_frame t (s : St) r : strdup_k t s = r → frame s r.2 ∧ g_head r.2 = g_head s.
Proof.
  intros <-. unfold strdup_k. pose proof (kmalloc_frame (strlen t + 1) s) as Hk.
  destruct (kmalloc _ s) as [p s1]. by destruct (p =? 0).
Qed.

Lemma write_sectors_frame fuel : ∀ sec buf (s : St) ok s',
  Forall is_byte buf → u32 sec = sec → (∀ i, 0 ≤ i → 512 * i < zlen buf → A (u32 (sec + i))) →
  write_sectors fuel sec buf s = Ret (ok, s') → frame s s'.
Proof.
  induction fuel as [|fuel IH]; intros sec buf s ok s' Hb Hsec HA Hw; destruct buf as [|x buf]; cbn [write_sectors] in Hw.
  1,3: injection Hw as <- <-; by apply frame_same.
  { done. }
  set (b := x :: buf) in *. fold (HanaImage.pad (take 512 b)) in Hw.
  destruct (ata_write_sector sec (HanaImage.pad (take 512 b)) (disk s)) as [rc d] eqn:E.
  assert (Hf : frame s (set_disk s d)).
  { split; [done|]. apply rtc_once. exists sec, (HanaImage.pad (take 512 b)). split_and!; [|apply pad_length; rewrite length_take; lia| |].
    - rewrite <- Hsec, <- (Z.add_0_r sec). apply HA; [lia|]. unfold b. rewrite zlen_cons. pose proof (zlen_nonneg buf). lia.
    - by apply pad_bytes, Forall_take.
    - by rewrite E. }
  destruct (rc =? 0); cbn [negb] in Hw.
  - refine (frame_trans _ _ _ Hf (IH _ _ _ _ _ (Forall_drop _ 512 _ Hb) _ _ Hw)).
    + unfold u32, wrap. apply Z.mod_mod. lia.
    + intros i Hi Hl. replace (u32 (u32 (sec + 1) + i)) with (u32 (sec + (1 + i))).
      * apply HA; [lia|]. unfold zlen in *. rewrite length_drop in Hl. lia.
      * unfold u32, wrap. rewrite Z.add_mod_idemp_l by lia. f_equal. lia.
  - by injection Hw as <- <-.
Qed.

Lemma write_sectors_head fuel : ∀ sec buf (s : St) ok s',
  write_sectors fuel sec buf s = Ret (ok, s') → g_head s' = g_head s.
Proof.
  induction fuel as [|fuel IH]; intros sec buf s ok s' Hw; destruct buf as [|x buf]; cbn [write_sectors] in Hw;
    [by injection Hw as <- <-|done|by injection Hw as <- <-|].
  destruct (ata_write_sector _ _ _) as [rc d]. destruct (negb _); [by injection Hw as <- <-|].
  by rewrite (IH _ _ _ _ _ Hw).
Qed.

Lemma persist_head (s : St) rc s' : hanafs_persist_to_ata s = Ret (rc, s') → g_head s' = g_head s.
Proof.
  unfold hanafs_persist_to_ata. intros Hp. apply rbind_Ret in Hp as (n & _ & Hp).
  pose proof (kmalloc_frame (16 + n) s) as [_ Hg]. destruct (kmalloc _ s) as [b s1]. cbn [snd] in *.
  destruct (b =? 0); [by injection Hp as <- <-|].
  do 5 (apply rbind_Ret in Hp as (? & _ & Hp)). apply rbind_Ret in Hp as ([ok s2] & Hw & Hp).
  apply write_sectors_head in Hw. destruct ok; injection Hp as <- <-; cbn; congruence.
Qed.

(** The sectors of the image a state is saved as are in [A]. *)
Definition area (s : St) : Prop :=
  ∀ i, 0 ≤ i → 512 * i < 16 + zlen (records (g_head s)) → A (u32 (HANAFS_PERSIST_LBA + i)).

(** An operation that ends by persisting. *)
Lemma persist_frame (s : St) rc s' :
  hanafs_persist_to_ata s = Ret (rc, s') → Forall entry_ok (g_head s') → area s' → frame s s'.
Proof.
  intros Hp He HA. unfold area in HA. rewrite (persist_head _ _ _ Hp) in He, HA. revert Hp.
  unfold hanafs_persist_to_ata. rewrite payload_len_spec by done. cbn [rbind].
  pose proof (kmalloc_frame (16 + zlen (records (g_head s))) s) as [Hf Hg].
  destruct (kmalloc _ s) as [b s1]. cbn [snd] in *. destruct (b =? 0); [by intros [= <- <-]|].
  pose proof (zlen_nonneg (records (g_head s))).
  rewrite (put_Ret _ [] (str "HANA")) by (change (zlen (str "HANA")) with 4; zlen_lia). cbn [rbind].
  do 3 (rewrite put_Ret by (rewrite ?zlen_app; change (zlen (str "HANA")) with 4; zlen_lia); cbn [rbind]).
  rewrite Hg, persist_entries_spec; [|done|rewrite ?zlen_app; change (zlen (str "HANA")) with 4; zlen_lia].
  cbn [rbind]. set (buf := (_ ++ records _) ++ _).
  assert (Hb : Forall is_byte buf).
  { unfold buf. repeat (apply Forall_app; split); try apply le_bytes_is_byte; [constructor| | |apply Forall_replicate; done].
    - apply (bool_decide_unpack _). vm_compute. exact I.
    - unfold records. apply Forall_concat, Forall_fmap. eapply Forall_impl; [exact He|]. intros e. apply HanaImage.record_bytes. }
  intros Hw. apply rbind_Ret in Hw as ([ok s2] & Hw & Hr). 
  assert (Hf2 : frame s1 s2).
  { refine (write_sectors_frame _ _ _ _ _ _ Hb eq_refl _ Hw). intros i Hi Hl. apply HA; [done|].
    unfold buf in Hl. rewrite !zlen_app in Hl. change (zlen (str "HANA")) with 4 in Hl. rewrite zlen_nil in Hl.
    rewrite !zlen_le_bytes in Hl. unfold zlen in *. rewrite length_replicate in Hl. lia. }
  pose proof (frame_trans _ _ _ Hf Hf2). by destruct ok; injection Hr as <- <-.
Qed.

Lemma make_dir_frame p (s : St) rc s' :
  hanafs_make_dir (Some p) s = Ret (rc, s') → Forall entry_ok (g_head s') → area s' → frame s s'.
Proof.
  unfold hanafs_make_dir. intros Hm He HA.
  pose proof (kmalloc_frame (strlen p + 2) s) as [Hf _]. destruct (kmalloc _ s) as [b s1]. cbn [snd] in *.
  destruct (b =? 0); [by injection Hm as <- <-|].
  apply rbind_Ret in Hm as ([[drv pb] ip] & _ & Hm). apply rbind_Ret in Hm as (f1 & _ & Hm).
  apply rbind_Ret in Hm as (f2 & _ & Hm). destruct (_ || _); [by injection Hm as <- <-|].
  pose proof (kmalloc_frame sizeof_HanaEntry s1) as [Hf2 _]. destruct (kmalloc _ s1) as [e s2]. cbn [snd] in *.
  pose proof (frame_trans _ _ _ Hf Hf2) as Hf3. destruct (e =? 0); [by injection Hm as <- <-|].
  destruct (strdup_k ip s2) as [[pp ps] s3] eqn:E. pose proof (frame_trans _ _ _ Hf3 (proj1 (strdup_frame _ _ _ E))) as Hf4.
  apply rbind_Ret in Hm as ([rc' s4] & Hp & Hm). injection Hm as <- <-.
  exact (frame_trans _ _ _ Hf4 (persist_frame _ _ _ Hp He HA)).
Qed.

Lemma remove_existing_frame ip (s s' : St) : remove_existing ip s = Ret s' → frame s s'.
Proof.
  unfold remove_existing. intros Hr. apply rbind_Ret in Hr as (w & _ & Hr). injection Hr as <-.
  destruct w as [[[pre cur] post]|]; [apply remove_frame|by apply frame_same].
Qed.

Lemma write_file_frame p b n (s : St) rc s' :
  hanafs_write_file (Some p) b n s = Ret (rc, s') → Forall entry_ok (g_head s') → area s' → frame s s'.
Proof.
  unfold hanafs_write_file. intros Hm He HA.
  pose proof (kmalloc_frame (strlen p + 2) s) as [Hf _]. destruct (kmalloc _ s) as [pb s1]. cbn [snd] in *.
  destruct (pb =? 0); [by injection Hm as <- <-|].
  apply rbind_Ret in Hm as ([[drv q] ip] & _ & Hm). apply rbind_Ret in Hm as (s2 & Hr & Hm).
  pose proof (frame_trans _ _ _ Hf (remove_existing_frame _ _ _ Hr)) as Hf2. clear Hf Hr.
  pose proof (kmalloc_frame sizeof_HanaEntry s2) as [Hf _]. destruct (kmalloc _ s2) as [e s3]. cbn [snd] in *.
  pose proof (frame_trans _ _ _ Hf2 Hf) as Hf3. destruct (e =? 0); [by injection Hm as <- <-|].
  destruct (strdup_k ip s3) as [[pp ps] s4] eqn:E. pose proof (frame_trans _ _ _ Hf3 (proj1 (strdup_frame _ _ _ E))) as Hf4.
  apply rbind_Ret in Hm as ([ok s5] & Hd & Hm).
  assert (Hf5 : frame s s5).
  { destruct b as [b|]; [|by injection Hd as <- <-]. destruct (0 <? n); [|by injection Hd as <- <-].
    pose proof (kmalloc_frame n s4) as [Hk _]. destruct (kmalloc n s4) as [dp s6]. cbn [snd] in *.
    pose proof (frame_trans _ _ _ Hf4 Hk) as Hf6. destruct (dp =? 0).
    - injection Hd as <- <-. exact (frame_trans _ _ _ Hf6 (remove_frame _ _ _ _)).
    - destruct (n <=? zlen b); [by injection Hd as <- <-|done]. }
  destruct (negb ok); [by injection Hm as <- <-|]. destruct (_ && _); [|by injection Hm as <- <-].
  apply rbind_Ret in Hm as ([rc' s6] & Hp & Hm). injection Hm as <- <-.
  exact (frame_trans _ _ _ Hf5 (persist_frame _ _ _ Hp He HA)).
Qed.

Lemma unlink_frame p (s : St) rc s' :
  hanafs_unlink (Some p) s = Ret (rc, s') → Forall entry_ok (g_head s') → area s' → frame s s'.
Proof.
  unfold hanafs_unlink. intros Hm He HA.
  pose proof (kmalloc_frame (strlen p + 2) s) as [Hf _]. destruct (kmalloc _ s) as [b s1]. cbn [snd] in *.
  destruct (b =? 0); [by injection Hm as <- <-|].
  apply rbind_Ret in Hm as ([[drv pb] ip] & _ & Hm). apply rbind_Ret in Hm as (w & _ & Hm).
  destruct w as [[[pre cur] post]|]; [|by injection Hm as <- <-].
  apply rbind_Ret in Hm as ([rc' s2] & Hp & Hm). injection Hm as <- <-.
  exact (frame_trans _ _ _ Hf (frame_trans _ _ _ (remove_frame _ _ _ _) (persist_frame _ _ _ Hp He HA))).
Qed.

Lemma remove_dir_frame p (s : St) rc s' :
  hanafs_remove_dir (Some p) s = Ret (rc, s') → Forall entry_ok (g_head s') → area s' → frame s s'.
Proof.
  unfold hanafs_remove_dir. intros Hm He HA.
  pose proof (kmalloc_frame (strlen p + 2) s) as [Hf _]. destruct (kmalloc _ s) as [b s1]. cbn [snd] in *.
  destruct (b =? 0); [by injection Hm as <- <-|].
  apply rbind_Ret in Hm as ([[drv pb] ip] & _ & Hm). apply rbind_Ret in Hm as (c & _ & Hm).
  destruct c; [by injection Hm as <- <-|]. apply rbind_Ret in Hm as ([rc' s2] & Hu & Hm). injection Hm as <- <-.
  exact (frame_trans _ _ _ Hf (unlink_frame _ _ _ _ Hu He HA)).
Qed.

Lemma get_file_frame p (s : St) r s' : hanafs_get_file_alloc (Some p) s = Ret (r, s') → frame s s'.
Proof.
  unfold hanafs_get_file_alloc. intros Hm.
  pose proof (kmalloc_frame (strlen p + 2) s) as [Hf _]. destruct (kmalloc _ s) as [b s1]. cbn [snd] in *.
  destruct (b =? 0); [by injection Hm as <- <-|].
  apply rbind_Ret in Hm as ([[drv pb] ip] & _ & Hm). apply rbind_Ret in Hm as (f & _ & Hm).
  destruct f as [e|]; [|by injection Hm as <- <-]. destruct (is_dir e); [by injection Hm as <- <-|].
  pose proof (kmalloc_frame (if len e =? 0 then 1 else len e) s1) as [Hf2 _].
  destruct (kmalloc _ s1) as [b2 s2]. cbn [snd] in *. pose proof (frame_trans _ _ _ Hf Hf2) as Hf3.
  destruct (b2 =? 0); [by injection Hm as <- <-|]. destruct (len e =? 0); [by injection Hm as <- <-|].
  destruct (_ <=? _); [by injection Hm as <- <-|done].
Qed.
End frame.

