(* ===== verification/HanaLoad.v ===== *)
(** * Loading a persisted HanaFS

    [load_spec] shows that [hanafs_load_from_ata] on a disk that holds the image of a list
    of entries rebuilds these entries (in reverse order, in front of a fresh root), or
    fails on a read error and leaves the state as it was. *)
From S2P Require Import Prelude CString HeapSpec HanaPath BlockDev HanaFs HanaInv HanaImage HanaOps.

(** ** Reading fields of a buffer *)

Lemma get_u32_app a z t :
  0 ≤ z < 2 ^ 32 → get_u32 (a ++ le_bytes 4 z ++ t) (zlen a) = Ret z.
Proof.
  intros Hz. unfold get_u32. pose proof (zlen_nonneg a). pose proof (zlen_nonneg t).
  rewrite (proj2 (Z.leb_le 0 _)), (proj2 (Z.leb_le (_ + 4) _)) by zlen_lia. cbn [andb].
  unfold zlen at 1. rewrite Nat2Z.id, drop_app_length.
  rewrite take_app_length' by (by rewrite length_le_bytes).
  by rewrite le_val_bytes_small by (simpl; lia).
Qed.

Lemma get_bytes_app (a s t : list Z) : get_bytes (a ++ s ++ t) (zlen a) (zlen s) = Ret s.
Proof.
  unfold get_bytes. pose proof (zlen_nonneg a). pose proof (zlen_nonneg s). pose proof (zlen_nonneg t).
  rewrite (proj2 (Z.leb_le 0 _)), (proj2 (Z.leb_le (_ + _) _)) by zlen_lia.
  rewrite orb_true_r. unfold zlen. rewrite !Nat2Z.id, drop_app_length.
  by rewrite take_app_length.
Qed.

Lemma u16_le_bytes n :
  0 ≤ n < 2 ^ 16 → ∃ b0 b1, le_bytes 2 n = [b0; b1] ∧ u16 (Z.lor b0 (Z.shiftl b1 8)) = n.
Proof.
  intros Hn. eexists _, _. split; [done|].
  assert (Hq : 0 ≤ n `div` 256 < 256).
  { split; [apply Z.div_pos; lia|apply Z.div_lt_upper_bound; lia]. }
  rewrite (Z.mod_small (n `div` 256)) by lia.
  pose proof (Z.mod_pos_bound n 256 ltac:(lia)).
  rewrite lor_shiftl_add by lia. change (2 ^ 8) with 256.
  pose proof (Z.div_mod n 256). rewrite u16_small; lia.
Qed.

(** Entries that agree up to their addresses. *)
Definition same_entry (e e' : HanaEntry) : Prop :=
  path e' = path e ∧ is_dir e' = is_dir e ∧ data e' = data e ∧ len e' = len e.

Lemma same_entry_ok e e' : same_entry e e' → entry_ok e → entry_ok e'.
Proof.
  intros (Hp & Hd & Hda & Hl) []. unfold node_path in *.
  split; unfold node_path; rewrite ?Hp, ?Hd, ?Hda, ?Hl; done.
Qed.

Lemma same_entry_node e e' :
  same_entry e e' → node_path e' = node_path e ∧ node_of e' = node_of e.
Proof. intros (Hp & Hd & Hda & _). unfold node_path, node_of. by rewrite Hp, Hd, Hda. Qed.

(** The fields of the record that starts behind [a]. *)
Lemma record_fields a e t :
  entry_ok e →
  let buf := a ++ record_of e ++ t in
  let n := zlen (node_path e) in
  ∃ b0 b1, bget buf (zlen a) = Ret b0 ∧ bget buf (zlen a + 1) = Ret b1 ∧
    u16 (Z.lor b0 (Z.shiftl b1 8)) = n ∧
    bget buf (zlen a + 2) = Ret (if is_dir e then 1 else 0) ∧
    get_u32 buf (zlen a + 3) = Ret (len e) ∧
    get_bytes buf (zlen a + 7) n = Ret (node_path e) ∧
    get_bytes buf (zlen a + 7 + n) (len e) = Ret (data e) ∧
    zlen buf = zlen a + (7 + n + zlen (data e)) + zlen t.
Proof.
  intros He buf n. subst n. pose proof (zlen_nonneg (node_path e)). pose proof (zlen_nonneg (data e)).
  pose proof (eo_short _ He). pose proof (eo_len _ He) as Hlen. pose proof (eo_max _ He).
  assert (Hbl : zlen buf = zlen a + (7 + zlen (node_path e) + zlen (data e)) + zlen t)
    by (unfold buf; rewrite !zlen_app, record_length; lia).
  destruct (u16_le_bytes (zlen (node_path e)) ltac:(lia)) as (b0 & b1 & Hb & Hu).
  set (dirb := if is_dir e then 1 else 0).
  assert (Hbuf : buf = a ++ b0 :: b1 :: dirb :: le_bytes 4 (len e) ++ node_path e ++ data e ++ t).
  { unfold buf, record_of. rewrite Hb, <- !app_assoc. done. }
  assert (G0 : bget buf (zlen a) = Ret b0) by (by rewrite Hbuf, bget_app_mid).
  assert (G1 : bget buf (zlen a + 1) = Ret b1).
  { rewrite Hbuf. change (b0 :: b1 :: ?x) with ([b0] ++ b1 :: x).
    replace (zlen a + 1) with (zlen (a ++ [b0])) by zlen_lia. by rewrite app_assoc, bget_app_mid. }
  assert (G2 : bget buf (zlen a + 2) = Ret dirb).
  { rewrite Hbuf. change (b0 :: b1 :: dirb :: ?x) with ([b0; b1] ++ dirb :: x).
    replace (zlen a + 2) with (zlen (a ++ [b0; b1])) by zlen_lia. by rewrite app_assoc, bget_app_mid. }
  assert (G3 : get_u32 buf (zlen a + 3) = Ret (len e)).
  { rewrite Hbuf. change (b0 :: b1 :: dirb :: ?x) with ([b0; b1; dirb] ++ x).
    replace (zlen a + 3) with (zlen (a ++ [b0; b1; dirb])) by zlen_lia.
    rewrite app_assoc. apply get_u32_app. lia. }
  assert (Hpre : buf = (a ++ b0 :: b1 :: dirb :: le_bytes 4 (len e)) ++ node_path e ++ data e ++ t)
    by (rewrite Hbuf, <- app_assoc; done).
  assert (Hpl : zlen (a ++ b0 :: b1 :: dirb :: le_bytes 4 (len e)) = zlen a + 7) by zlen_lia.
  assert (G4 : get_bytes buf (zlen a + 7) (zlen (node_path e)) = Ret (node_path e))
    by (rewrite Hpre, <- Hpl; apply get_bytes_app).
  assert (G5 : get_bytes buf (zlen a + 7 + zlen (node_path e)) (len e) = Ret (data e)).
  { rewrite Hpre, app_assoc.
    replace (get_bytes _ _ (len e)) with
      (get_bytes (((a ++ b0 :: b1 :: dirb :: le_bytes 4 (len e)) ++ node_path e) ++ data e ++ t)
        (zlen a + 7 + zlen (node_path e)) (zlen (data e))) by (by rewrite Hlen).
    replace (zlen a + 7 + zlen (node_path e))
      with (zlen ((a ++ b0 :: b1 :: dirb :: le_bytes 4 (len e)) ++ node_path e))
      by (rewrite zlen_app, Hpl; done). apply get_bytes_app. }
  exists b0, b1. by split_and!.
Qed.

Section load.
Context {H D : Type} `{AllocatorSpec H} `{BlockDevSpec D}.
Notation St := (HanaFS H D).

(** The invariant without distinct paths: loading adds a second root. *)
Record fs_mem (r : Z) (X : list Z) (s : St) : Prop := {
  fm_mem : mem_ok r (heap s) (X ++ owned_all (g_head s));
  fm_entries : Forall entry_ok (g_head s)
}.

Lemma fs_inv_mem r X s : fs_inv r X s → fs_mem r X s.
Proof. intros [Hm He _]. by split. Qed.

Lemma fm_le r r' X s : r' ≤ r → fs_mem r X s → fs_mem r' X s.
Proof. intros Hr [Hm He]. split; [by eapply mem_le|done]. Qed.

Lemma fm_alloc r X s n :
  fs_mem r X s → 0 < n < 2 ^ 62 → cost n ≤ r →
  ∃ p h, kmalloc n s = (p, set_heap s h) ∧ p ≠ 0 ∧ fs_mem (r - cost n) (p :: X) (set_heap s h).
Proof.
  intros [Hm He] Hn Hc. destruct (mem_alloc r (heap s) _ n Hm Hn Hc) as (p & h & Ha & Hp & Hm').
  exists p, h. unfold kmalloc. rewrite Ha. by split_and!.
Qed.

Lemma fm_free r p X s : fs_mem r (p :: X) s → fs_mem r X (kfree p s).
Proof. intros [Hm He]. split; [by apply mem_free|done]. Qed.

Lemma fm_push r X s e :
  fs_mem r (owned e ++ X) s → entry_ok e → fs_mem r X (push_entry e s).
Proof.
  intros [Hm He] Hok. split; simpl; [|by constructor].
  eapply mem_perm; [|exact Hm]. unfold owned_all. simpl. solve_Permutation.
Qed.

(** The heap room the records of a list need on loading. *)
Definition load_room (l : list HanaEntry) : Z := zlen (records l) + 300 * zlen l.

(** One record: parsed, allocated and linked. *)
Lemma load_record fuel a e t r X s count ei :
  entry_ok e → fs_mem r X s → ei < count →
  zlen (record_of e) + 300 ≤ r →
  let buf := a ++ record_of e ++ t in
  ∃ e' s', same_entry e e' ∧ g_head s' = e' :: g_head s ∧
    fs_mem (r - (zlen (record_of e) + 300)) X s' ∧
    disk s' = disk s ∧
    load_entries (S fuel) buf (zlen buf) ei count (zlen a) s
    = load_entries fuel buf (zlen buf) (ei + 1) count (zlen (a ++ record_of e)) s'.
Proof.
  intros He Hi Hei Hr buf. rewrite record_length in Hr.
  pose proof (zlen_nonneg (node_path e)). pose proof (zlen_nonneg (data e)).
  pose proof (zlen_nonneg a). pose proof (zlen_nonneg t).
  pose proof (eo_short _ He). pose proof (eo_len _ He) as Hlen. pose proof (eo_max _ He).
  destruct (record_fields a e t He) as (b0 & b1 & G0 & G1 & Hu & G2 & G3 & G4 & G5 & Hbl).
  fold buf in G0, G1, G2, G3, G4, G5, Hbl. set (dirb := if is_dir e then 1 else 0) in *.
  cbn [load_entries]. rewrite (proj2 (Z.ltb_lt _ _)) by done.
  rewrite (proj2 (Z.ltb_ge _ _)) by lia.
  rewrite G0, G1, G2, G3. cbn [rbind]. rewrite Hu. rewrite (proj2 (Z.ltb_ge _ _)) by lia.
  destruct (fm_alloc r X s (zlen (node_path e) + 1) Hi) as (pp & h1 & -> & Hpp & Hi1);
    [lia|unfold cost; lia|].
  rewrite (proj2 (Z.eqb_neq _ _)), G4 by done. cbn [rbind].
  destruct (fm_alloc _ _ _ sizeof_HanaEntry Hi1) as (ep & h2 & -> & Hep & Hi2);
    [done|unfold cost, sizeof_HanaEntry; lia|]. unfold cost, sizeof_HanaEntry in *.
  rewrite (proj2 (Z.eqb_neq ep _)), (cstr_id (node_path e) (eo_str _ He)) by done.
  assert (Hdir : negb (dirb =? 0) = is_dir e) by (unfold dirb; by destruct (is_dir e)).
  rewrite Hdir.
  destruct (negb (is_dir e) && (0 <? len e)) eqn:Hdata.
  - bool_to_prop.
    destruct (fm_alloc _ _ _ (len e) Hi2) as (dp & h3 & -> & Hdp & Hi3); [lia|unfold cost; lia|].
    rewrite (proj2 (Z.eqb_neq dp _)), G5 by done. cbn [rbind].
    set (ne := Entry ep pp (Some (node_path e)) (is_dir e) dp (data e) (len e)).
    assert (Hse : same_entry e ne) by (unfold same_entry; simpl; rewrite (eo_path _ He); done).
    exists ne, (push_entry ne (set_heap (set_heap (set_heap s h1) h2) h3)).
    split_and!; [exact Hse|done| |done|f_equal; rewrite zlen_app, record_length; lia].
    apply fm_push; [|by eapply same_entry_ok]. unfold owned. simpl.
    rewrite (proj2 (Z.eqb_neq dp 0) Hdp), (proj2 (Z.eqb_neq pp 0) Hpp). cbn [app].
    destruct Hi3 as [Hm3 He3]. split; [|exact He3].
    eapply mem_le; [|eapply mem_perm; [|exact Hm3]; simpl; solve_Permutation].
    unfold cost. rewrite record_length. lia.
  - set (ne := Entry ep pp (Some (node_path e)) (is_dir e) 0 [] (len e)).
    assert (Hd0 : data e = []).
    { apply andb_false_iff in Hdata as [Hd|Hd]; bool_to_prop.
      - by apply (eo_dir _ He).
      - destruct (data e); [done|]. rewrite zlen_cons in *. pose proof (zlen_nonneg l). lia. }
    assert (Hse : same_entry e ne)
      by (unfold same_entry; simpl; rewrite (eo_path _ He), Hd0; done).
    exists ne, (push_entry ne (set_heap (set_heap s h1) h2)).
    split_and!; [exact Hse|done| |done|].
    + apply fm_push; [|by eapply same_entry_ok]. unfold owned. simpl.
      rewrite (proj2 (Z.eqb_neq pp 0) Hpp). cbn [app].
      destruct Hi2 as [Hm2 He2]. split; [|exact He2].
      eapply mem_le; [|eapply mem_perm; [|exact Hm2]; simpl; solve_Permutation].
      rewrite record_length. lia.
    + f_equal. rewrite zlen_app, record_length, Hd0. unfold zlen. simpl. lia.
Qed.

Lemma load_entries_spec rest : ∀ fuel a r X s count ei,
  Forall entry_ok rest → fs_mem r X s → load_room rest ≤ r →
  (length rest ≤ fuel)%nat → ei + zlen rest = count →
  let buf := a ++ records rest in
  ∃ news s', load_entries fuel buf (zlen buf) ei count (zlen a) s = Ret s' ∧
    Forall2 same_entry rest news ∧ g_head s' = reverse news ++ g_head s ∧
    disk s' = disk s ∧ fs_mem (r - load_room rest) X s'.
Proof.
  induction rest as [|e rest IH]; intros fuel a r X s count ei Hok Hi Hr Hf Hc buf.
  { exists [], s. rewrite zlen_nil, Z.add_0_r in Hc. subst ei.
    split_and!; [|done|done|done|eapply fm_le; [|exact Hi]; unfold load_room, zlen; simpl; lia].
    destruct fuel; cbn [load_entries]; by rewrite Z.ltb_irrefl. }
  destruct fuel as [|fuel]; [simpl in Hf; lia|]. apply Forall_cons in Hok as [He Hok].
  unfold load_room in *. rewrite records_cons, zlen_app, zlen_cons in *.
  pose proof (zlen_nonneg rest). pose proof (zlen_nonneg (records rest)).
  destruct (load_record fuel a e (records rest) r X s count ei He Hi) as (e' & s1 & Hse & Hg & Hi1 & Hd & Hle);
    [lia|lia|].
  destruct (IH fuel (a ++ record_of e) (r - (zlen (record_of e) + 300)) X s1 count (ei + 1) Hok Hi1)
    as (news & s2 & Hl2 & HF & Hg2 & Hd2 & Hi2); [lia|simpl in Hf; lia|lia|].
  subst buf. rewrite records_cons. exists (e' :: news), s2. split_and!.
  - rewrite Hle. rewrite <- Hl2, <- app_assoc. done.
  - by constructor.
  - rewrite Hg2, Hg, reverse_cons, <- app_assoc. done.
  - congruence.
  - eapply fm_le; [|exact Hi2]. lia.
Qed.

(** The sector loop collects the image, or stops at the first failing read. *)
Lemma read_sectors_spec fuel : ∀ k b (s : St),
  disk_holds (disk s) HANAFS_PERSIST_LBA b → zlen b < 2 ^ 31 + 16 →
  (length b - 512 * k ≤ fuel)%nat → (1 ≤ k)%nat →
  ∃ r s', read_sectors fuel (HANAFS_PERSIST_LBA + Z.of_nat k) (zlen b - 512 * Z.of_nat k)
            (take (512 * k) b) s = Ret (r, s') ∧ (r = None ∨ r = Some b) ∧ same_fs s s'.
Proof.
  induction fuel as [|fuel IH]; intros k b s Hd Hb Hf Hk; cbn [read_sectors];
    destruct (Z.ltb_spec 0 (zlen b - 512 * Z.of_nat k)) as [Hlt|Hge].
  1: unfold zlen in *; lia.
  1,3: exists (Some b), s; split_and!; [rewrite take_ge by (unfold zlen in *; lia); done|by right|done].
  destruct (ata_read_sector _ (disk s)) as [[rc sb] d] eqn:Hrd.
  destruct (Z.eqb_spec rc 0) as [->|Hrc]; cbn [negb]; cycle 1.
  { eexists None, _. split_and!; [done|by left|done]. }
  destruct (read_ok _ _ _ _ Hrd) as [-> Hsame]. rewrite Hd by (unfold zlen in *; lia).
  unfold HANAFS_PERSIST_LBA in *. rewrite u32_small by (unfold zlen in *; lia).
  set (n := Z.min _ 512).
  replace (take (512 * k) b ++ take (Z.to_nat n) (pad (take 512 (drop (512 * k) b))))
    with (take (512 * S k) b).
  2:{ replace (512 * S k)%nat with (512 * k + 512)%nat by lia. rewrite <- take_take_drop. f_equal.
      unfold pad. rewrite take_app_le by (rewrite length_take, length_drop; unfold zlen in *; lia).
      rewrite take_take. unfold zlen in *.
      destruct (decide (512 ≤ length b - 512 * k)%nat); [f_equal; lia|].
      rewrite !take_ge by (rewrite length_drop; lia). done. }
  destruct (IH (S k) b (set_disk s d)) as (r & s' & He & Hr & Hs); [|done|unfold zlen in *; lia|lia|].
  { intros j Hj. simpl. rewrite Hsame. by apply Hd. }
  exists r, s'. split_and!; [|done|done]. rewrite <- He. unfold HANAFS_PERSIST_LBA in *.
  unfold zlen in *. destruct (Z.min_spec (Z.of_nat (length b) - 512 * Z.of_nat k) 512) as [[? Hn]|[? Hn]].
  - (* the last sector: nothing is left *)
    fold n in Hn. destruct fuel; cbn [read_sectors]; rewrite !(proj2 (Z.ltb_ge _ _)) by lia; done.
  - fold n in Hn. f_equal; lia.
Qed.

Lemma clear_spec l : ∀ r X (s : St),
  mem_ok r (heap s) (X ++ owned_all l) →
  let s' := clear_entries l s in
  mem_ok r (heap s') X ∧ g_head s' = [] ∧ disk s' = disk s.
Proof.
  induction l as [|e l IH]; intros r X s Hm; cbn [clear_entries].
  - unfold owned_all in Hm. simpl in Hm. rewrite app_nil_r in Hm. done.
  - destruct (remove_entry_mem r X s [] e l Hm) as (Hm' & _ & Hd & _).
    destruct (IH r X (remove_entry_node [] e l s) Hm') as (H1' & H2' & H3').
    split_and!; [done|done|congruence].
Qed.

(** The header of an image in its first sector. *)
Lemma header_fields l rest :
  zlen l < 2 ^ 31 → zlen (records l) < 2 ^ 31 →
  let sb := str "HANA" ++ le_bytes 4 1 ++ le_bytes 4 (zlen l) ++ le_bytes 4 (zlen (records l)) ++ rest in
  take 4 sb = str "HANA" ∧ get_u32 sb 8 = Ret (zlen l) ∧ get_u32 sb 12 = Ret (zlen (records l)).
Proof.
  intros Hl Hr sb. pose proof (zlen_nonneg l). pose proof (zlen_nonneg (records l)).
  split_and!; [done| |].
  - unfold sb. rewrite (app_assoc (str "HANA")).
    apply (get_u32_app (str "HANA" ++ le_bytes 4 1)). lia.
  - unfold sb. rewrite (app_assoc (str "HANA")), (app_assoc (str "HANA" ++ _)).
    replace 12 with (zlen ((str "HANA" ++ le_bytes 4 1) ++ le_bytes 4 (zlen l)))
      by (rewrite !zlen_app, !zlen_le_bytes; done).
    apply get_u32_app. lia.
Qed.

Lemma first_sector l :
  pad (take 512 (image l)) =
    str "HANA" ++ le_bytes 4 1 ++ le_bytes 4 (zlen l) ++ le_bytes 4 (zlen (records l)) ++
    take 496 (records l) ++ replicate (512 - length (take 512 (image l))) 0.
Proof.
  unfold pad. set (n := (512 - _)%nat). unfold image.
  change 512%nat with (4 + (4 + (4 + (4 + 496))))%nat.
  rewrite (take_app_add' (str "HANA")) by done.
  rewrite !(take_app_add' (le_bytes 4 _)) by (by rewrite length_le_bytes).
  by rewrite <- !app_assoc.
Qed.

Definition load_need (l : list HanaEntry) : Z := cost (zlen (image l)) + 680 + load_room l.

(** What follows the reads: the old entries go, the root and the records come. *)
Lemma load_rebuild r b (s : St) l :
  fs_mem r [b] s → Forall entry_ok l → 680 + load_room l ≤ r →
  ∃ s', (let s := clear_entries (g_head s) s in
         let '(root, s) := kmalloc sizeof_HanaEntry s in
         if root =? 0 then Ret (-1, kfree b s)
         else
           let '((pp, ps), s) := strdup_k (str "/") s in
           let s := set_head s [Entry root pp ps true 0 [] 0] in
           let! s := load_entries (S (Z.to_nat (zlen (image l)))) (image l) (zlen (image l)) 0 (zlen l) 16 s in
           Ret (0, kfree b s)) = Ret (0, s') ∧ fs_mem (r - (680 + load_room l)) [] s' ∧
    ∃ news root, Forall2 same_entry l news ∧ g_head s' = reverse news ++ [root] ∧
                 node_path root = str "/" ∧ node_of root = Dir.
Proof.
  intros [Hm _] Hok Hr. pose proof (zlen_nonneg l). pose proof (zlen_nonneg (records l)).
  unfold load_room in Hr.
  destruct (clear_spec (g_head s) r [b] s Hm) as (Hm1 & Hg1 & _). cbn zeta.
  set (s1 := clear_entries (g_head s) s) in *.
  assert (Hi1 : fs_inv r [b] s1) by (split; rewrite ?Hg1; [exact Hm1|constructor|constructor]).
  destruct (kmalloc_step r [b] s1 sizeof_HanaEntry Hi1) as (e & h2 & -> & He & Hi2);
    [done|unfold cost, sizeof_HanaEntry; lia|].
  rewrite (proj2 (Z.eqb_neq _ _)) by done.
  destruct (strdup_step _ _ _ (str "/") Hi2) as (pp & h3 & -> & Hpp & Hi3);
    [done|unfold cost, sizeof_HanaEntry; lia|]. unfold cost, sizeof_HanaEntry in *.
  set (root := Entry e pp (Some (str "/")) true 0 [] 0).
  set (s4 := set_head _ [root]).
  assert (Hi4 : fs_mem (r - (40 + 64) - 576) [b] s4).
  { assert (Hs4 : s4 = push_entry root (set_heap (set_heap s1 h2) h3))
      by (unfold s4, push_entry; cbn [g_head set_heap]; by rewrite Hg1).
    rewrite Hs4. apply fs_inv_mem, push_step.
    - unfold owned. simpl. by rewrite (proj2 (Z.eqb_neq _ _)).
    - apply (new_entry_ok _ _ _ _ _ []); try done. apply (bool_decide_unpack _). vm_compute. exact I.
    - cbn [g_head set_heap]. rewrite Hg1. apply not_elem_of_nil. }
  set (hdr := str "HANA" ++ le_bytes 4 1 ++ le_bytes 4 (zlen l) ++ le_bytes 4 (zlen (records l))).
  assert (Himg : image l = hdr ++ records l) by (unfold image, hdr; by rewrite <- !app_assoc).
  rewrite Himg. change 16 with (zlen hdr).
  destruct (load_entries_spec l (S (Z.to_nat (zlen (hdr ++ records l)))) hdr _ [b] s4 (zlen l) 0 Hok Hi4)
    as (news & s5 & -> & HF & Hg5 & _ & Hi5).
  { unfold load_room. lia. }
  { assert (zlen l ≤ zlen (records l)); [|rewrite zlen_app; pose proof (zlen_nonneg hdr); unfold zlen in *; lia].
    clear. induction l as [|x l IH]; [done|].
    rewrite records_cons, zlen_app, zlen_cons, record_length.
    pose proof (zlen_nonneg (node_path x)). pose proof (zlen_nonneg (data x)). lia. }
  { lia. }
  cbn [rbind]. exists (kfree b s5). split_and!; [done| |].
  - apply fm_free. eapply fm_le; [|exact Hi5]. unfold load_room. lia.
  - by exists news, root.
Qed.

Lemma load_spec r (s : St) l :
  fs_mem r [] s → disk_holds (disk s) HANAFS_PERSIST_LBA (image l) →
  Forall entry_ok l → persistable l → load_need l ≤ r →
  ∃ rc s', hanafs_load_from_ata s = Ret (rc, s') ∧ fs_mem (r - load_need l) [] s' ∧
    ((rc = -1 ∧ g_head s' = g_head s) ∨
     (rc = 0 ∧ ∃ news root, Forall2 same_entry l news ∧ g_head s' = reverse news ++ [root] ∧
                            node_path root = str "/" ∧ node_of root = Dir)).
Proof.
  intros Hi Hd Hok [Hp1 Hp2] Hr. unfold load_need, cost, load_room in *.
  pose proof (zlen_nonneg l). pose proof (zlen_nonneg (records l)).
  pose proof (image_length l) as Hil. unfold hanafs_load_from_ata.
  destruct (ata_read_sector HANAFS_PERSIST_LBA (disk s)) as [[rc sb] d] eqn:Hrd.
  destruct (Z.eqb_spec rc 0) as [->|Hrc]; cbn [negb]; cycle 1.
  { eexists _, _. split_and!; [done| |by left]. destruct Hi as [Hm He].
    split; [eapply mem_le; [|exact Hm]; lia|done]. }
  destruct (read_ok _ _ _ _ Hrd) as [-> Hsame].
  assert (Hsec : sector (disk s) HANAFS_PERSIST_LBA = pad (take 512 (image l))).
  { specialize (Hd 0%nat). rewrite Z.add_0_r in Hd. apply Hd. unfold zlen in *. lia. }
  rewrite Hsec, first_sector.
  destruct (header_fields l (take 496 (records l) ++ replicate (512 - length (take 512 (image l))) 0))
    as (Hmag & Hcnt & Hpay); [done|done|].
  rewrite bool_decide_true by exact Hmag. cbn [negb]. rewrite Hcnt, Hpay. cbn [rbind].
  assert (Hi0 : fs_mem r [] (set_disk s d)) by (destruct Hi; by split).
  destruct (fm_alloc r [] (set_disk s d) (16 + zlen (records l)) Hi0) as (b & h & -> & Hb & Hi1);
    [lia|unfold cost; lia|].
  rewrite (proj2 (Z.eqb_neq _ _)) by done. rewrite <- first_sector, <- Hil.
  assert (Hfirst : take (Z.to_nat (Z.min 512 (zlen (image l)))) (pad (take 512 (image l)))
                   = take (512 * 1) (image l)).
  { unfold pad. rewrite take_app_le by (rewrite length_take; unfold zlen; lia).
    rewrite take_ge; [done|rewrite length_take; unfold zlen; lia]. }
  rewrite Hfirst. change (u32 (HANAFS_PERSIST_LBA + 1)) with (HANAFS_PERSIST_LBA + Z.of_nat 1).
  destruct (read_sectors_spec (Z.to_nat (zlen (image l))) 1 (image l) (set_heap (set_disk s d) h))
    as (rd & s2 & Hrs & Hrd' & Hs2).
  { intros k Hk. simpl. rewrite Hsame. by apply Hd. }
  { lia. }
  { unfold zlen. lia. }
  { lia. }
  change (512 * Z.of_nat 1) with 512 in Hrs. rewrite Hrs. cbn [rbind].
  destruct Hs2 as (Hh2 & Hg2 & _).
  assert (Hi2 : fs_mem (r - (zlen (image l) + 64)) [b] s2)
    by (rewrite Hil; destruct Hi1 as [Hm1 He1]; split; rewrite ?Hh2, ?Hg2; done).
  destruct Hrd' as [-> | ->].
  - eexists _, _. split_and!; [done| |left; split; [done|exact Hg2]].
    apply fm_free. eapply fm_le; [|exact Hi2]. lia.
  - destruct (load_rebuild _ b s2 l Hi2 Hok) as (s' & Heq & Hi' & Hnew); [unfold load_room; lia|].
    exists 0, s'. split_and!; [exact Heq| |right; by split].
    eapply fm_le; [|exact Hi']. unfold load_room. lia.
Qed.

(** The map of a rebuilt list. *)
Lemma rebuilt_map l news root :
  NoDup (node_path <$> l) → Forall2 same_entry l news →
  node_path root = str "/" → node_of root = Dir →
  fs_map (reverse news ++ [root]) = fs_map l ∪ {[str "/" := Dir]}.
Proof.
  intros Hnd HF Hr Hd.
  assert (Heq : (λ e, (node_path e, node_of e)) <$> news = (λ e, (node_path e, node_of e)) <$> l).
  { clear Hnd. induction HF as [|e e' l news Hse _ IH]; [done|]. rewrite !fmap_cons, IH.
    destruct (same_entry_node _ _ Hse) as [-> ->]. done. }
  unfold fs_map at 1. rewrite fmap_app, list_to_map_app. f_equal.
  - rewrite fmap_reverse, Heq. symmetry. apply list_to_map_proper.
    + rewrite <- list_fmap_compose. exact Hnd.
    + by rewrite reverse_Permutation.
  - simpl. rewrite Hr, Hd. by rewrite insert_empty.
Qed.

(** C12. Persistence: persisting a valid file system either fails or leaves an image from
    which any kernel that mounts the disk (with its own heap, whatever it held before)
    rebuilds the same files and directories; a read error is reported and changes
    nothing.  No step faults. *)
Theorem persist_load_roundtrip r (s : St) :
  fs_inv r [] s → persistable (g_head s) → persist_cost (g_head s) ≤ r →
  ∃ rc s1, hanafs_persist_to_ata s = Ret (rc, s1) ∧ (rc = 0 ∨ rc = -1) ∧
    (rc = 0 → ∀ r' (t : St), fs_inv r' [] t → load_need (g_head s) ≤ r' → disk t = disk s1 →
      ∃ rc' t', hanafs_load_from_ata t = Ret (rc', t') ∧
        (rc' = 0 ∧ fs_abs t' = fs_abs s ∪ {[str "/" := Dir]} ∨ rc' = -1 ∧ fs_abs t' = fs_abs t)).
Proof.
  intros Hi Hp Hc. destruct (persist_spec r [] s Hi Hp Hc) as (rc & s1 & He & Hrc & _ & _ & _ & Hd).
  exists rc, s1. split_and!; [done|done|]. intros H0' r' t Ht Hr' Hdt.
  destruct (load_spec r' t (g_head s)) as (rc' & t' & He' & _ & Hcase);
    [by apply fs_inv_mem|rewrite Hdt; by apply Hd|apply (fi_entries _ _ _ Hi)|done|done|].
  exists rc', t'. split; [done|]. destruct Hcase as [[-> Hg]|[-> (news & root & HF & Hg & Hrp & Hrn)]].
  - right. split; [done|]. unfold fs_abs. by rewrite Hg.
  - left. split; [done|]. unfold fs_abs. rewrite Hg. apply rebuilt_map; [apply (fi_paths _ _ _ Hi)|done..].
Qed.
End load.

(** ** A concrete run *)

(** The image of a file system with one file, loaded into an empty one. *)
Definition one_file : HanaFS Heap.Heap Disk :=
  match hanafs_write_file (H0 := heap_allocator bi0) (Some (str "/a")) (Some [1; 2]) 2
          (FsState h0 ∅ [] false false) with
  | Ret (_, s) => s
  | _ => FsState h0 ∅ [] false false
  end.

Lemma one_file_inv :
  fs_inv (H0 := heap_allocator bi0) (H1 := heap_allocator_spec bi0) 200000 [] one_file.
Proof.
  assert (H0' : fs_inv (H0 := heap_allocator bi0) (H1 := heap_allocator_spec bi0) 262000 []
                  (FsState h0 (∅ : Disk) [] false false)).
  { split; [|constructor|constructor]. exists ∅.
    split_and!; [apply h0_alloc_inv|constructor|constructor]. }
  destruct (write_file_spec 262000 [] _ (str "/a") (Some [1; 2]) 2 (-1) (str "/a") (str "/a") H0')
    as (s' & He & _ & Hi).
  - split; [by apply (bool_decide_unpack _)|done|reflexivity].
  - done.
  - intros src [= <-]. split; [done|by apply (bool_decide_unpack _)].
  - split; done.
  - vm_compute. discriminate.
  - unfold one_file. rewrite He. eapply fs_inv_le; [|exact Hi]. vm_compute. discriminate.
Qed.

Lemma persist_load_roundtrip_witness :
  ∃ s1, hanafs_persist_to_ata (H0 := heap_allocator bi0) one_file = Ret (0, s1) ∧
  ∃ t', hanafs_load_from_ata (H0 := heap_allocator bi0) s1 = Ret (0, t') ∧
        fs_abs t' = {[str "/a" := File [1; 2]; str "/" := Dir]}.
Proof.
  destruct (persist_load_roundtrip 200000 one_file one_file_inv) as (rc & s1 & He & _ & Hl).
  - split; vm_compute; reflexivity.
  - vm_compute. discriminate.
  - assert (Hs1 : (let! (rc, s) := hanafs_persist_to_ata (H0 := heap_allocator bi0) one_file in Ret rc) = Ret 0)
      by (vm_compute; reflexivity).
    rewrite He in Hs1. injection Hs1 as ->. exists s1. split; [exact He|].
    assert (Hi1 : fs_inv (H0 := heap_allocator bi0) (H1 := heap_allocator_spec bi0) 190000 [] s1).
    { destruct (persist_spec 200000 [] one_file one_file_inv) as (rc & s2 & He2 & _ & _ & _ & Hi2 & _).
      - split; vm_compute; reflexivity.
      - vm_compute. discriminate.
      - rewrite He in He2. injection He2 as <- <-. eapply fs_inv_le; [|exact Hi2]. vm_compute. discriminate. }
    destruct (Hl eq_refl 190000 s1 Hi1) as (rc' & t' & He' & Hcase); [vm_compute; discriminate|done|].
    assert (Ht : (let! (_, s) := hanafs_persist_to_ata (H0 := heap_allocator bi0) one_file in
                  let! (rc, _) := hanafs_load_from_ata (H0 := heap_allocator bi0) s in Ret rc) = Ret 0)
      by (vm_compute; reflexivity).
    rewrite He in Ht. cbn [rbind] in Ht. rewrite He' in Ht. injection Ht as ->.
    exists t'. split; [exact He'|]. destruct Hcase as [[_ ->]|[? _]]; [|done].
    vm_compute. reflexivity.
Defined.

(** Every mount adds a root entry: the list of an image is one longer after loading. *)
Example load_duplicates_root :
  (let! (_, s) := hanafs_format_ata_master (H0 := heap_allocator bi0) (FsState h0 (∅ : Disk) [] false true) in
   let! (_, s) := hanafs_load_from_ata (H0 := heap_allocator bi0) s in
   let! (_, s) := hanafs_persist_to_ata (H0 := heap_allocator bi0) s in
   let! (_, s) := hanafs_load_from_ata (H0 := heap_allocator bi0) s in
   Ret (path <$> g_head s)) = Ret (replicate 3 (Some (str "/"))).
Proof. vm_compute. reflexivity. Qed.

(** A record whose data length exceeds the image makes the loader read past its buffer. *)
Definition bad_sector : list Z :=
  pad (str "HANA" ++ le_bytes 4 1 ++ le_bytes 4 1 ++ le_bytes 4 8 ++
       le_bytes 2 1 ++ [0] ++ le_bytes 4 100 ++ [47]).
Example load_reads_past_image :
  (let '(_, d) := ata_write_sector HANAFS_PERSIST_LBA bad_sector (∅ : Disk) in
   hanafs_load_from_ata (H0 := heap_allocator bi0) (FsState h0 d [] false true)) = UB.
Proof. vm_compute. reflexivity. Qed.
