(* ===== verification/HanaDirSpec.v ===== *)
(** * Listing HanaFS directories

    [readdir_enumerates]: iterating [hanafs_readdir] after [hanafs_opendir] visits every
    entry of the directory once, in list order, and ends.  [list_root_exact]: a listing
    of the root is the list of the top-level names. *)
From S2P Require Import Prelude CString HeapSpec HanaPath BlockDev HanaFs HanaInv HanaImage HanaOps HanaRefine.

(** Without a slash in between. *)
Definition strip_slash (r : list Z) : list Z :=
  match r with c :: r' => if c =? 47 then r' else r | [] => r end.

(** What the iterator shows of an entry: entries whose path extends [ip] and continues
    without a further slash. *)
Definition dir_item (ip : list Z) (e : HanaEntry) : option (list Z * bool) :=
  let q := node_path e in
  if decide (ip `prefix_of` q ∧ q ≠ ip) then
    let name := strip_slash (drop (length ip) q) in
    if decide (47 ∈ name) then None else Some (name, is_dir e)
  else None.

Lemma readdir_loop_spec ip l next :
  Forall entry_ok l → cstr_ok ip →
  (readdir_loop ip (zlen ip) l next = Ret (None, match l with [] => next | _ => 0 end) ∧
   omap (dir_item ip) l = []) ∨
  (∃ a e b it, l = a ++ e :: b ∧ readdir_loop ip (zlen ip) l next = Ret (Some it, node_addr b) ∧
     dir_item ip e = Some it ∧ omap (dir_item ip) a = []).
Proof.
  intros Hl Hip. revert next. induction Hl as [|e l He Hl IH]; intros next; [by left|].
  cbn [readdir_loop]. rewrite (eo_path _ He). cbn [of_opt rbind].
  assert (Hskip : dir_item ip e = None →
    (readdir_loop ip (zlen ip) l (node_addr l) = Ret (None, 0) ∧ omap (dir_item ip) (e :: l) = []) ∨
    (∃ a x b it, e :: l = a ++ x :: b ∧
       readdir_loop ip (zlen ip) l (node_addr l) = Ret (Some it, node_addr b) ∧
       dir_item ip x = Some it ∧ omap (dir_item ip) a = [])).
  { intros Hn. destruct (IH (node_addr l)) as [[Hr Ho]|(a & x & b & it & -> & Hr & Hx & Ha)].
    - left. split; [rewrite Hr; by destruct l|]. by rewrite omap_step, Hn, Ho.
    - right. exists (e :: a), x, b, it. split_and!; [done|done|done|]. by rewrite omap_step, Hn, Ha. }
  rewrite strcmp_eqb by (done || apply (eo_str _ He)).
  case_bool_decide as Heq.
  { apply Hskip. unfold dir_item. rewrite decide_False; [done|]. by intros [_ ?]. }
  assert (Hsn : (strncmp (node_path e) ip (zlen ip) =? 0) = bool_decide (ip `prefix_of` node_path e))
    by (apply strncmp_eqb; [apply (eo_str _ He)|done]).
  rewrite Hsn.
  case_bool_decide as Hpre; cbn [negb]; cycle 1.
  { apply Hskip. unfold dir_item. rewrite decide_False; [done|]. by intros [? _]. }
  replace (Z.to_nat (zlen ip)) with (length ip) by (unfold zlen; lia).
  fold (strip_slash (drop (length ip) (node_path e))).
  assert (Hd : dir_item ip e =
    if decide (47 ∈ strip_slash (drop (length ip) (node_path e))) then None
    else Some (strip_slash (drop (length ip) (node_path e)), is_dir e)).
  { unfold dir_item. by rewrite decide_True. }
  destruct (strchr _ 47) eqn:Hs.
  - apply Hskip. rewrite Hd, decide_True; [done|].
    destruct (decide (47 ∈ strip_slash (drop (length ip) (node_path e)))) as [?|Hno]; [done|].
    apply strchr_None in Hno. congruence.
  - apply strchr_None in Hs. right. exists [], e, l, (strip_slash (drop (length ip) (node_path e)), is_dir e).
    split_and!; [done|done|by rewrite Hd, decide_False|done].
Qed.

Section iterate.
Context {H D : Type} `{AllocatorSpec H} `{BlockDevSpec D}.
Notation St := (HanaFS H D).

(** The caller's loop: read entries until the iterator answers NULL. *)
Fixpoint readdir_all (fuel : nat) (d : HanaDirObj) (s : St)
  : res (list (list Z * Z) * HanaDirObj * St) :=
  match fuel with
  | O => Diverges
  | S fuel =>
      let! (r, d, s) := hanafs_readdir d s in
      match r with
      | None => Ret ([], d, s)
      | Some de =>
          let! (l, d, s) := readdir_all fuel d s in Ret ((d_name de, d_type de) :: l, d, s)
      end
  end.

Lemma self_in_owned e l : e ∈ l → self e ∈ owned_all l.
Proof.
  intros Hin. induction l as [|x l IH]; [by apply elem_of_nil in Hin|].
  change (owned_all (x :: l)) with (owned x ++ owned_all l). rewrite elem_of_app.
  apply elem_of_cons in Hin as [->|Hin]; [left|right; by apply IH].
  unfold owned. rewrite !elem_of_app. right. right. by left.
Qed.

(** The address of a node leads back to it. *)
Lemma from_addr_spec pre l :
  NoDup (owned_all (pre ++ l)) → Forall (λ a, a ≠ 0) (owned_all (pre ++ l)) → l ≠ [] →
  from_addr (node_addr l) (pre ++ l) = Some l ∧ node_addr l ≠ 0.
Proof.
  intros Hn Hz Hl. destruct l as [|e l]; [done|]. cbn [node_addr]. clear Hl.
  assert (Hne : self e ≠ 0).
  { rewrite Forall_forall in Hz. apply Hz, self_in_owned. apply elem_of_app. right. by left. }
  split; [|done]. induction pre as [|x pre IH]; cbn [from_addr app].
  - by rewrite Z.eqb_refl.
  - destruct (Z.eqb_spec (self x) (self e)) as [Hs|_].
    + exfalso. unfold owned_all in Hn. simpl in Hn. apply NoDup_app in Hn as (_ & Hn & _).
      apply (Hn (self e)).
      * rewrite <- Hs. unfold owned. rewrite !elem_of_app. right. right. by left.
      * apply (self_in_owned e). apply elem_of_app. right. by left.
    + apply IH.
      * unfold owned_all in *. simpl in Hn. by apply NoDup_app in Hn as (_ & _ & Hn).
      * unfold owned_all in *. simpl in Hz. by apply Forall_app in Hz as [_ Hz].
Qed.

Definition shown (it : list Z * bool) : list Z * Z :=
  (take 255 it.1, if it.2 then 1 else 0).

Lemma readdir_all_spec n : ∀ l pre r X (s : St) d,
  length l = n → fs_inv r X s → g_head s = pre ++ l →
  ∀ ip, ipath d = Some ip → ipath_len d = zlen ip → cstr_ok ip → dnext d = node_addr l →
  336 * Z.of_nat n ≤ r →
  ∃ d' s' X', readdir_all (S n) d s = Ret (shown <$> omap (dir_item ip) l, d', s') ∧
    fs_abs s' = fs_abs s ∧ fs_inv (r - 336 * Z.of_nat n) (X' ++ X) s' ∧
    dir_p d' = dir_p d ∧ ipath_p d' = ipath_p d.
Proof.
  induction n as [n IH] using lt_wf_ind. intros l pre r X s d Hn Hi Hg ip Hip Hipl Hok Hnext Hr.
  cbn [readdir_all]. unfold hanafs_readdir. rewrite Hip. cbn [of_opt rbind].
  pose proof (fi_entries _ _ _ Hi) as He. rewrite Hg in He. apply Forall_app in He as [_ He].
  pose proof (mem_NoDup _ _ _ (fi_mem _ _ _ Hi)) as Hnd.
  pose proof (mem_nonnull _ _ _ (fi_mem _ _ _ Hi)) as Hnz. rewrite Hg in Hnd, Hnz.
  apply NoDup_app in Hnd as (_ & _ & Hnd). apply Forall_app in Hnz as [_ Hnz].
  assert (Hl : (if dnext d =? 0 then Ret [] else of_opt (from_addr (dnext d) (g_head s))) = Ret l).
  { rewrite Hnext, Hg. destruct l as [|e l]; [done|].
    destruct (from_addr_spec pre (e :: l) Hnd Hnz) as [-> Hne]; [done|].
    by rewrite (proj2 (Z.eqb_neq _ _)). }
  rewrite Hl. cbn [rbind]. rewrite Hipl.
  destruct (readdir_loop_spec ip l (dnext d) He Hok)
    as [[-> Ho]|(a & e & b & [name dir] & -> & -> & Hit & Ha)]; cbn [rbind].
  - rewrite Ho. eexists _, s, []. split_and!; [done|done| |done|done].
    simpl. eapply fs_inv_le; [|exact Hi]. lia.
  - rewrite length_app in Hn. simpl in Hn. unfold make_dirent.
    destruct (kmalloc_step r X s sizeof_hana_dirent Hi) as (p & h & -> & Hp & Hi1);
      [done|unfold cost, sizeof_hana_dirent; lia|].
    rewrite (proj2 (Z.eqb_neq _ _)) by done. cbn [rbind].
    set (d1 := DirObj _ _ _ _ _).
    destruct (IH (length b) ltac:(lia) b (pre ++ a ++ [e]) (r - 336) (p :: X) (set_heap s h) d1)
      with (ip := ip) as (d' & s' & X' & He' & Habs & Hi' & Hd1 & Hd2); try done.
    { cbn [g_head set_heap]. rewrite Hg, <- !app_assoc. done. }
    { lia. }
    exists d', s', (X' ++ [p]).
    assert (Hmono : ∀ m k (dd : HanaDirObj) (ss : St) v, readdir_all m dd ss = Ret v →
              (m ≤ k)%nat → readdir_all k dd ss = Ret v).
    { clear. induction m as [|m IHm]; intros k dd ss v Hm Hk; [done|].
      destruct k as [|k]; [lia|]. cbn [readdir_all] in *. inv_ret.
      rewrite E. cbn [rbind]. destruct o; [|done]. inv_ret.
      rewrite (IHm k _ _ _ E0) by lia. done. }
    rewrite (Hmono _ n _ _ _ He') by lia. cbn [rbind d_name d_type].
    split_and!; [|done| |done|done].
    + rewrite omap_app, fmap_app, Ha, omap_step, Hit. done.
    + rewrite <- app_assoc. eapply fs_inv_le; [|exact Hi']. lia.
Qed.

Lemma opendir_spec r X (s : St) p drv pb ip :
  fs_inv r X s → path_arg p drv pb ip → zlen p + 800 ≤ r →
  ∃ d h, hanafs_opendir (Some p) s = Ret (Some d, set_heap s h) ∧
    ipath d = Some ip ∧ ipath_len d = zlen ip ∧ dnext d = node_addr (g_head s) ∧ ipath_p d ≠ 0 ∧
    fs_inv (r - (zlen p + 800)) (ipath_p d :: dir_p d :: X) (set_heap s h).
Proof.
  intros Hi Hp Hr. unfold hanafs_opendir. destruct (path_arg_ok _ _ _ _ Hp) as (_ & _ & _ & Hil).
  pose proof (zlen_nonneg p).
  destruct (open_path r X s p drv pb ip Hi Hp) as (b & h & -> & Hb & Hi1); [lia|].
  rewrite (proj2 (Z.eqb_neq _ _)), (path_arg_resolve _ _ _ _ Hp) by done. cbn [rbind].
  destruct (kmalloc_step _ _ _ sizeof_HanaDirObj Hi1) as (d & h2 & -> & Hd & Hi2);
    [done|unfold cost, sizeof_HanaDirObj; lia|].
  rewrite (proj2 (Z.eqb_neq _ _)) by done.
  destruct (strdup_step _ _ _ ip Hi2 Hil) as (ipp & h3 & -> & Hipp & Hi3);
    [unfold cost, sizeof_HanaDirObj; lia|]. cbn [of_opt rbind].
  exists (DirObj d ipp (Some ip) (zlen ip) (node_addr (g_head s))), (afree b h3).
  split_and!; [reflexivity|done..|]. cbn [ipath_p dir_p].
  apply (kfree_step _ b _ (set_heap (set_heap (set_heap s h) h2) h3)). eapply fs_inv_le; [|eapply fs_inv_perm; [|exact Hi3]].
  - unfold cost, sizeof_HanaDirObj. lia.
  - solve_Permutation.
Qed.

(** Directory iteration: [hanafs_opendir], [hanafs_readdir] until it answers NULL, and
    [hanafs_closedir] visit every matching entry exactly once, in list order, with its
    type and its name cut at 255 bytes; the iteration ends, follows no dangling pointer
    and leaves the file system unchanged and valid. *)
Theorem readdir_enumerates r X (s : St) p drv pb ip :
  fs_inv r X s → path_arg p drv pb ip →
  zlen p + 800 + 336 * zlen (g_head s) ≤ r →
  ∃ d s1 d' s2 X' s3,
    hanafs_opendir (Some p) s = Ret (Some d, s1) ∧
    readdir_all (S (length (g_head s))) d s1
    = Ret (shown <$> omap (dir_item ip) (g_head s), d', s2) ∧
    hanafs_closedir (Some d') s2 = (0, s3) ∧
    fs_abs s3 = fs_abs s ∧ fs_inv (r - (zlen p + 800 + 336 * zlen (g_head s))) (X' ++ X) s3.
Proof.
  intros Hi Hp Hr. destruct (path_arg_ok _ _ _ _ Hp) as (_ & Hip & _ & _).
  unfold zlen in Hr at 2. pose proof (zlen_nonneg p).
  destruct (opendir_spec r X s p drv pb ip Hi Hp) as (d & h & He & Hd1 & Hd2 & Hd3 & Hd4 & Hi1); [lia|].
  destruct (readdir_all_spec (length (g_head s)) (g_head s) [] _ _ (set_heap s h) d eq_refl Hi1 eq_refl
              ip Hd1 Hd2 Hip Hd3) as (d' & s2 & X' & He2 & Ha2 & Hi2 & Hp1 & Hp2); [lia|].
  eexists d, _, d', s2, X', _. split_and!; [exact He|exact He2|done| |].
  - rewrite Hp2, (proj2 (Z.eqb_neq _ _)) by done. exact Ha2.
  - rewrite Hp1, Hp2, (proj2 (Z.eqb_neq _ _)) by done. apply kfree_step, kfree_step.
    eapply fs_inv_le; [|eapply fs_inv_perm; [|exact Hi2]]; [unfold zlen at 2; lia|].
    solve_Permutation.
Qed.

(** ** Listing the root *)

Definition top_name (q : list Z) : option (list Z) :=
  match q with
  | [] | [_] => None
  | _ :: r => let n := strip_slash r in if decide (47 ∈ n) then None else Some n
  end.

Lemma listed_root q :
  cstr_ok q → head q = Some 47 → listed_name (-1) (str "/") (str "/") q = top_name q.
Proof.
  intros Hq Hh. destruct q as [|c q]; [done|]. injection Hh as ->.
  unfold listed_name. change (strncmp (47 :: q) (str "/") (strlen (str "/")) =? 0) with true. cbn match.
  change (drop (length (str "/")) (47 :: q)) with q. destruct q as [|x q]; [done|].
  cbn [top_name strip_slash]. set (n := if x =? 47 then q else x :: q).
  case_decide as Hd.
  - destruct (strchr n 47) eqn:E; [done|]. by apply strchr_None in E.
  - apply strchr_None in Hd. by rewrite Hd.
Qed.

(** Stored paths start with a slash when they come from [resolve]. *)
Definition rooted (e : HanaEntry) : Prop := head (node_path e) = Some 47.

Global Instance rooted_dec e : Decision (rooted e).
Proof. unfold rooted. apply _. Defined.

Lemma list_names_root l :
  Forall entry_ok l → Forall rooted l →
  list_names (-1) (str "/") (str "/") l = Ret (omap (λ e, top_name (node_path e)) l).
Proof.
  intros Hl Hr. induction Hl as [|e l He _ IH]; [done|]. apply Forall_cons in Hr as [Hre Hr].
  cbn [list_names]. rewrite (eo_path _ He). cbn [of_opt rbind]. rewrite IH by done. cbn [rbind].
  rewrite listed_root by (done || apply (eo_str _ He)). rewrite omap_step. done.
Qed.

(** Listing the root reports, in list order, exactly the names of the entries directly
    below it, the root itself left out. *)
Theorem list_root_exact r (s : St) :
  fs_inv r [] s → Forall rooted (g_head s) → 100 ≤ r →
  ∃ s', hanafs_list_dir (Some (str "/")) s
        = Ret (0, omap (λ e, top_name (node_path e)) (g_head s), s') ∧
        fs_abs s' = fs_abs s ∧ fs_inv (r - 100) [] s'.
Proof.
  intros Hi Hroot Hr. unfold hanafs_list_dir.
  assert (Hp : path_arg (str "/") (-1) (str "/") (str "/"))
    by (split; [by apply (bool_decide_unpack _)|done|reflexivity]).
  destruct (open_path r [] s _ _ _ _ Hi Hp) as (b & h & -> & Hb & Hi1); [vm_compute zlen; lia|].
  rewrite (proj2 (Z.eqb_neq _ _)), (path_arg_resolve _ _ _ _ Hp) by done. cbn [rbind g_head set_heap].
  rewrite list_names_root by (done || apply (fi_entries _ _ _ Hi)). cbn [rbind].
  eexists. split_and!; [done|done|]. apply kfree_step. eapply fs_inv_le; [|exact Hi1].
  vm_compute zlen. lia.
Qed.
End iterate.

(** ** Concrete runs *)

(** A state with the given paths as directories, on the heap of HeapSpec.v. *)
Definition mk_dirs (ps : list string) : HanaFS Heap.Heap Disk :=
  foldl (λ s p, match hanafs_make_dir (H0 := heap_allocator bi0) (Some (str p)) s with
                | Ret (_, s') => s' | _ => s end) fs0 ps.


Lemma two_dirs_inv :
  fs_inv (H0 := heap_allocator bi0) (H1 := heap_allocator_spec bi0) 200000 [] (mk_dirs ["/a"; "/ab"]).
Proof.
  destruct (mkdir_step (H0 := heap_allocator bi0) 262000 fs0 (str "/a") ∅ fs0_inv)
    as (rc1 & s1 & E1 & A1 & I1);
    [by apply (bool_decide_unpack _)|done|vm_compute; discriminate|done|done|].
  destruct (mkdir_step (H0 := heap_allocator bi0) _ s1 (str "/ab") _ I1 ltac:(by apply (bool_decide_unpack _)) A1)
    as (rc2 & s2 & E2 & A2 & I2); [vm_compute; discriminate|done|done|].
  unfold mk_dirs. cbn [foldl]. rewrite E1, E2. eapply fs_inv_le; [|exact I2]. vm_compute. discriminate.
Qed.

Lemma readdir_enumerates_witness :
  ∃ d s1 d' s2, hanafs_opendir (H0 := heap_allocator bi0) (Some (str "/")) (mk_dirs ["/a"; "/ab"]) = Ret (Some d, s1) ∧
    readdir_all (H0 := heap_allocator bi0) 3 d s1 = Ret ([(str "ab", 1); (str "a", 1)], d', s2).
Proof.
  destruct (readdir_enumerates (H0 := heap_allocator bi0) (H1 := heap_allocator_spec bi0) 200000 [] (mk_dirs ["/a"; "/ab"]) (str "/") (-1) (str "/") (str "/"))
    as (d & s1 & d' & s2 & X' & s3 & E1 & E2 & _).
  - apply two_dirs_inv.
  - split; [by apply (bool_decide_unpack _)|done|reflexivity].
  - vm_compute. discriminate.
  - exists d, s1, d', s2. split; [exact E1|].
    assert (Hl : (shown <$> omap (dir_item (str "/")) (g_head (mk_dirs ["/a"; "/ab"])))
                 = [(str "ab", 1); (str "a", 1)]) by (vm_compute; reflexivity).
    rewrite <- Hl. exact E2.
Defined.

Lemma list_root_exact_witness :
  ∃ s', hanafs_list_dir (H0 := heap_allocator bi0) (Some (str "/")) (mk_dirs ["/a"; "/ab"])
        = Ret (0, [str "ab"; str "a"], s').
Proof.
  destruct (list_root_exact (H0 := heap_allocator bi0) (H1 := heap_allocator_spec bi0) 200000 (mk_dirs ["/a"; "/ab"]) two_dirs_inv) as (s' & E & _).
  - apply (bool_decide_unpack _). vm_compute. exact I.
  - lia.
  - exists s'. rewrite E.
    assert (Hl : omap (λ e, top_name (node_path e)) (g_head (mk_dirs ["/a"; "/ab"]))
                 = [str "ab"; str "a"]) by (vm_compute; reflexivity).
    by rewrite Hl.
Defined.

(** The prefix test has no component boundary: a listing of /a shows a part of /ab. *)
Example list_shows_siblings :
  (let! (_, names, _) := hanafs_list_dir (H0 := heap_allocator bi0) (Some (str "/a")) (mk_dirs ["/a"; "/ab"]) in
   Ret names) = Ret [str "b"].
Proof. vm_compute. reflexivity. Qed.

(** The emptiness test looks for a slash behind the path, which the root never has. *)
Example rmdir_removes_full_root :
  (let! (rc, s) := hanafs_remove_dir (H0 := heap_allocator bi0) (Some (str "/")) (mk_dirs ["/"; "/a"]) in
   Ret (rc, node_path <$> g_head s)) = Ret (0, [str "/a"]).
Proof. vm_compute. reflexivity. Qed.

(** With a drive prefix the directory of the drive is tested but the unprefixed entry of
    the same name is removed, full or not. *)
Example rmdir_wrong_drive :
  (let! (rc, s) := hanafs_remove_dir (H0 := heap_allocator bi0) (Some (str "1:/a"))
                     (mk_dirs ["1:/a"; "/a"; "/a/x"]) in
   Ret (rc, node_path <$> g_head s)) = Ret (0, [str "/a/x"; str "/drv1/a"]).
Proof. vm_compute. reflexivity. Qed.
