(* ===== verification/Vfs.v ===== *)
(** * The virtual file system (kernel/filesystem/vfs.cpp, procfs.cpp, devfs.cpp, ramfs.cpp)

    The mount table sends a path to a file system by its first covering mount point.  The
    ramfs and hanafs names both lead to HanaFS (ramfs.cpp forwards every call); procfs and
    devfs are modelled here; the FAT32 and floppy drivers are an interface. *)
From S2P Require Import Prelude CString HeapSpec HanaPath BlockDev HanaFs.

Record MountEntry := Mount { fsname : list Z; mp_addr : Z; mountpoint : list Z }.

(** What a file read hands to the caller: pointer, bytes behind it, length. *)
Definition file_buf : Type := Z * list Z * Z.

Record Vfs (H D : Type) := VfsState { fs : HanaFS H D; mounts : list MountEntry }.
Arguments VfsState {H D} _ _.
Arguments fs {H D} _.
Arguments mounts {H D} _.

(** The drivers behind the names "fat32" and "floppy".  A listing may mount another drive and
    register it, so it works on the whole state. *)
Class FatFs (H D : Type) := {
  fat32_list_dir : list Z → Vfs H D → res (Z * list (list Z) * Vfs H D);
  fat32_create_file : list Z → HanaFS H D → res (Z * HanaFS H D);
  fat32_unlink : list Z → HanaFS H D → res (Z * HanaFS H D);
  fat32_make_dir : list Z → HanaFS H D → res (Z * HanaFS H D);
  fat32_write_file : list Z → option (list Z) → Z → HanaFS H D → res (Z * HanaFS H D);
  fat32_get_file_alloc : list Z → HanaFS H D → res (option file_buf * HanaFS H D);
  floppy_list_dir : list Z → HanaFS H D → res (Z * list (list Z) * HanaFS H D)
}.

(** [path == mp] or [path] starts with [mp] and a slash. *)
Definition covers (p mp : list Z) : bool :=
  (strcmp p mp =? 0) || ((strncmp p mp (strlen mp) =? 0) && slash_at p (strlen mp)).

Definition find_mount (p : list Z) (ms : list MountEntry) : option MountEntry :=
  snd <$> list_find (λ m, covers p (mountpoint m)) ms.

(** The path the back end of a mount is asked for. *)
Definition rel_path (p mp : list Z) : list Z :=
  if negb (strcmp mp (str "/") =? 0) then
    if strlen p =? strlen mp then str "/" else drop (length mp) p
  else p.

Definition is_fs (m : MountEntry) (name : string) : bool := strcmp (fsname m) (str name) =? 0.
Definition is_ramfs (m : MountEntry) : bool := is_fs m "hanafs" || is_fs m "ramfs".

Section ops.
Context {H D : Type} `{Allocator H} `{BlockDev D} `{FatFs H D}.
Notation St := (HanaFS H D).

(** ** procfs.cpp *)

Definition procfs_list_dir (p : list Z) : Z * list (list Z) :=
  let p := if strcmp p (str "/") =? 0 then str "/proc" else p in
  if negb (strcmp p (str "/proc") =? 0) && negb (strcmp p (str "/proc/") =? 0) then (-1, [])
  else (0, [str "cpuinfo"; str "meminfo"; str "self"]).

(** A constant string copied into a fresh buffer with its NUL. *)
Definition alloc_str (t : list Z) (s : St) : option file_buf * St :=
  let '(b, s) := kmalloc (strlen t + 1) s in
  if b =? 0 then (None, s) else (Some (b, t ++ [0], strlen t), s).

Definition cpuinfo : list Z := str "HanaCore CPU: 1 core" ++ [10].
Definition meminfo : list Z := str "MemTotal: minimal" ++ [10] ++ str "MemFree: unknown" ++ [10].
Definition self_info : list Z := str "1" ++ [10].

Definition procfs_get_file_alloc (p : list Z) (s : St) : option file_buf * St :=
  if (strcmp p (str "/proc/cpuinfo") =? 0) || (strcmp p (str "cpuinfo") =? 0) then alloc_str cpuinfo s
  else if (strcmp p (str "/proc/meminfo") =? 0) || (strcmp p (str "meminfo") =? 0) then alloc_str meminfo s
  else if (strcmp p (str "/proc/self") =? 0) || (strcmp p (str "self") =? 0) then alloc_str self_info s
  else (None, s).

(** ** devfs.cpp *)

Definition dev_names : list (list Z) :=
  [str "console"; str "null"; str "tty0"; str "hda"; str "sda"].

Definition devfs_list_dir (p : list Z) : Z * list (list Z) :=
  if strcmp p (str "/") =? 0 then (0, dev_names)
  else if bool_decide (head p = Some 47) && negb (strncmp p (str "/dev") 4 =? 0) then (-1, [])
  else
    let norm := if strncmp p (str "dev") 3 =? 0 then str "/dev" else p in
    if negb (strcmp norm (str "/dev") =? 0) && negb (strcmp norm (str "/dev/") =? 0) then (-1, [])
    else (0, dev_names).

Definition devfs_get_file_alloc (p : list Z) (s : St) : option file_buf * St :=
  let p :=
    match p with
    | 47 :: r => if strncmp p (str "/dev/") 5 =? 0 then p
                 else match r with [] => p | _ => r end
    | _ => p
    end in
  let p := if strncmp p (str "dev/") 4 =? 0 then drop 4 p else p in
  if strcmp p (str "null") =? 0 then (None, s)
  else if strcmp p (str "console") =? 0 then alloc_str (str "console" ++ [10]) s
  else (None, s).

(** ** vfs.cpp *)

Definition set_fs (v : Vfs H D) (s : St) : Vfs H D := VfsState s (mounts v).

(** [vfs_init]: the free of every registered mount point, then an empty table. *)
Definition vfs_init (v : Vfs H D) : Vfs H D :=
  VfsState (foldl (λ s m, kfree (mp_addr m) s) (fs v) (mounts v)) [].

Definition vfs_register_mount (name mp : option (list Z)) (v : Vfs H D) : Vfs H D :=
  match name, mp with
  | Some name, Some mp =>
      if 16 <=? zlen (mounts v) then v
      else
        let '(c, s) := kmalloc (strlen mp + 1) (fs v) in
        if c =? 0 then set_fs v s else VfsState s (mounts v ++ [Mount name c mp])
  | _, _ => v
  end.

(** [snprintf] into [buf[128]]. *)
Definition vfs_list_mounts (v : Vfs H D) : Z * list (list Z) :=
  (0, (λ m, take 127 (str "VFS mount: [" ++ fsname m ++ str " -> " ++ mountpoint m ++ str "]"))
      <$> mounts v).

(** No mount, or one with an unknown name. *)
Definition list_dir_fallback (p : list Z) (v : Vfs H D) : res (Z * list (list Z) * Vfs H D) :=
  let! (rc, out1, s) := hanafs_list_dir (Some p) (fs v) in
  if rc =? 0 then Ret (0, out1, set_fs v s)
  else
    let! (rc, out2, v) := fat32_list_dir p (set_fs v s) in
    if rc =? 0 then Ret (0, out1 ++ out2, v) else Ret (-1, out1 ++ out2, v).

Definition vfs_list_dir (p : option (list Z)) (v : Vfs H D) : res (Z * list (list Z) * Vfs H D) :=
  match p with
  | None => Ret (-1, [], v)
  | Some p =>
      match find_mount p (mounts v) with
      | Some m =>
          let rel := rel_path p (mountpoint m) in
          if is_fs m "fat32" then fat32_list_dir rel v
          else if is_ramfs m then
            let! (rc, out, s) := hanafs_list_dir (Some rel) (fs v) in Ret (rc, out, set_fs v s)
          else if is_fs m "procfs" then let '(rc, out) := procfs_list_dir rel in Ret (rc, out, v)
          else if is_fs m "devfs" then let '(rc, out) := devfs_list_dir rel in Ret (rc, out, v)
          else if is_fs m "floppy" then
            let! (rc, out, s) := floppy_list_dir rel (fs v) in Ret (rc, out, set_fs v s)
          else list_dir_fallback p v
      | None => list_dir_fallback p v
      end
  end.

(** The four operations with one shape: HanaFS with the whole path, FAT32, or nothing. *)
Definition vfs_dispatch (p : list Z) (v : Vfs H D)
    (ramfs : list Z → St → res (Z * St)) (fat32 : option (list Z → St → res (Z * St)))
  : res (Z * Vfs H D) :=
  let on f := let! (rc, s) := f p (fs v) in Ret (rc, set_fs v s) in
  match find_mount p (mounts v) with
  | Some m =>
      if is_ramfs m then on ramfs
      else match fat32 with
           | Some f => if is_fs m "fat32" then on f else Ret (-1, v)
           | None => Ret (-1, v)
           end
  | None => on ramfs
  end.

Definition vfs_remove_dir (p : option (list Z)) (v : Vfs H D) : res (Z * Vfs H D) :=
  match p with
  | None => Ret (-1, v)
  | Some p => vfs_dispatch p v (λ p, hanafs_remove_dir (Some p)) None
  end.
Definition vfs_create_file (p : option (list Z)) (v : Vfs H D) : res (Z * Vfs H D) :=
  match p with
  | None => Ret (-1, v)
  | Some p => vfs_dispatch p v (λ p, hanafs_create_file (Some p)) (Some fat32_create_file)
  end.
Definition vfs_unlink (p : option (list Z)) (v : Vfs H D) : res (Z * Vfs H D) :=
  match p with
  | None => Ret (-1, v)
  | Some p => vfs_dispatch p v (λ p, hanafs_unlink (Some p)) (Some fat32_unlink)
  end.
Definition vfs_make_dir (p : option (list Z)) (v : Vfs H D) : res (Z * Vfs H D) :=
  match p with
  | None => Ret (-1, v)
  | Some p => vfs_dispatch p v (λ p, hanafs_make_dir (Some p)) (Some fat32_make_dir)
  end.
Definition vfs_write_file (p : option (list Z)) (buf : option (list Z)) (n : Z) (v : Vfs H D)
  : res (Z * Vfs H D) :=
  match p with
  | None => Ret (-1, v)
  | Some p => vfs_dispatch p v (λ p, hanafs_write_file (Some p) buf n)
                (Some (λ p, fat32_write_file p buf n))
  end.

(** [if (data && len > 0) return data; if (data) kfree(data);] *)
Definition nonempty (r : option file_buf) (s : St) : option file_buf * St :=
  match r with
  | Some (b, bytes, n) => if 0 <? n then (r, s) else (None, kfree b s)
  | None => (None, s)
  end.

Definition get_file_fallback (p : list Z) (v : Vfs H D) : res (option file_buf * Vfs H D) :=
  let! (r, s) := hanafs_get_file_alloc (Some p) (fs v) in
  let '(r, s) := nonempty r s in
  if bool_decide (is_Some r) then Ret (r, set_fs v s)
  else
    let '(r, s) := procfs_get_file_alloc p s in
    let '(r, s) := nonempty r s in
    if bool_decide (is_Some r) then Ret (r, set_fs v s)
    else
      let '(r, s) := devfs_get_file_alloc p s in
      let '(r, s) := nonempty r s in
      if bool_decide (is_Some r) then Ret (r, set_fs v s)
      else
        let! (r, s) := fat32_get_file_alloc p s in
        let '(r, s) := nonempty r s in
        Ret (r, set_fs v s).

Definition vfs_get_file_alloc (p : option (list Z)) (v : Vfs H D)
  : res (option file_buf * Vfs H D) :=
  match p with
  | None => Ret (None, v)
  | Some p =>
      match find_mount p (mounts v) with
      | Some m =>
          let rel := rel_path p (mountpoint m) in
          if is_fs m "fat32" then
            let! (r, s) := fat32_get_file_alloc rel (fs v) in
            let '(r, s) := nonempty r s in Ret (r, set_fs v s)
          else if is_ramfs m then
            let! (r, s) := hanafs_get_file_alloc (Some rel) (fs v) in
            let '(r, s) := nonempty r s in Ret (r, set_fs v s)
          else if is_fs m "procfs" then
            let '(r, s) := procfs_get_file_alloc rel (fs v) in Ret (r, set_fs v s)
          else if is_fs m "devfs" then
            let '(r, s) := devfs_get_file_alloc rel (fs v) in Ret (r, set_fs v s)
          else Ret (None, v)
      | None => get_file_fallback p v
      end
  end.

Definition procfs_init (v : Vfs H D) : Vfs H D :=
  vfs_register_mount (Some (str "procfs")) (Some (str "/proc")) v.
Definition devfs_init (v : Vfs H D) : Vfs H D :=
  vfs_register_mount (Some (str "devfs")) (Some (str "/dev")) v.
End ops.
