(* ===== verification/VfsSpec.v ===== *)
(** * Routing, the mount table, and files through the VFS *)
From S2P Require Import Prelude CString HeapSpec HanaPath BlockDev HanaFs HanaInv HanaImage HanaOps HanaRefine Vfs.

(** ** Routing *)

(** [p] is the mount point or lies below it. *)
Definition under (p mp : list Z) : Prop := p = mp ∨ child_of mp p.

Lemma covers_under p mp : cstr_ok p → cstr_ok mp → covers p mp = true ↔ under p mp.
Proof.
  intros Hp Hm. unfold covers, under. rewrite prefix_slash, strcmp_eqb by done.
  rewrite orb_true_iff, !bool_decide_eq_true. done.
Qed.

Definition mounts_ok (ms : list MountEntry) : Prop := Forall (λ m, cstr_ok (mountpoint m)) ms.

(** Routing: a path is served by the first registered mount whose mount point it equals
    or lies below on a component boundary (so /devices is not sent to /dev); it is
    unmounted exactly when there is none. *)
Theorem vfs_routes_first_match p ms :
  cstr_ok p → mounts_ok ms →
  match find_mount p ms with
  | Some m => ∃ pre post, ms = pre ++ m :: post ∧ under p (mountpoint m) ∧
                          Forall (λ x, ¬ under p (mountpoint x)) pre
  | None => Forall (λ x, ¬ under p (mountpoint x)) ms
  end.
Proof.
  intros Hp Hms. unfold find_mount.
  assert (Hu : ∀ i m, ms !! i = Some m → covers p (mountpoint m) = true ↔ under p (mountpoint m)).
  { intros i m Hm. apply covers_under; [done|]. by apply (Forall_lookup_1 _ _ _ _ Hms Hm). }
  destruct (list_find _ ms) as [[i m]|] eqn:Hf; simpl.
  - apply list_find_Some in Hf as (Hi & Hc & Hlt).
    exists (take i ms), (drop (S i) ms). split_and!.
    + by rewrite take_drop_middle.
    + apply (Hu i m Hi). by apply Is_true_true.
    + apply Forall_lookup_2. intros j x Hj. apply lookup_take_Some in Hj as [Hj Hji].
      rewrite <- (Hu j x Hj). intros Hx. apply (Hlt j x Hj Hji). by rewrite Hx.
  - apply list_find_None in Hf. apply Forall_lookup_2. intros j x Hj.
    pose proof (Forall_lookup_1 _ _ _ _ Hf Hj) as Hx. simpl in Hx.
    rewrite <- (Hu j x Hj). intros Ht. apply Hx. by rewrite Ht.
Qed.

Lemma vfs_routes_first_match_witness :
  let ms := [Mount (str "devfs") 16 (str "/dev"); Mount (str "procfs") 32 (str "/proc")] in
  find_mount (str "/devices") ms = None ∧ Forall (λ x, ¬ under (str "/devices") (mountpoint x)) ms.
Proof.
  intros ms. split; [reflexivity|].
  assert (Hp : cstr_ok (str "/devices")) by (apply (bool_decide_unpack _); vm_compute; exact I).
  assert (Hm : mounts_ok ms) by (repeat constructor; vm_compute; done).
  exact (vfs_routes_first_match (str "/devices") ms Hp Hm).
Defined.

Section vfs.
Context {H D : Type} `{AllocatorSpec H} `{BlockDevSpec D} `{FatFs H D}.

(** ** The mount table *)

Record vfs_inv (r : Z) (v : Vfs H D) : Prop := {
  vi_fs : fs_inv r (mp_addr <$> mounts v) (fs v);
  vi_count : zlen (mounts v) ≤ 16;
  vi_mounts : mounts_ok (mounts v)
}.

Lemma free_mounts ms : ∀ r X (s : HanaFS H D),
  fs_inv r ((mp_addr <$> ms) ++ X) s →
  let s' := foldl (λ s m, kfree (mp_addr m) s) s ms in
  fs_inv r X s' ∧ fs_abs s' = fs_abs s.
Proof.
  induction ms as [|m ms IH]; intros r X s Hi; [done|]. cbn [foldl].
  destruct (IH r X (kfree (mp_addr m) s)) as [Hi' Ha]; [by apply kfree_step|]. by split.
Qed.

Lemma vfs_mount_table r v name mp :
  vfs_inv r v → cstr_ok mp → zlen mp < 2 ^ 61 → zlen mp + 65 ≤ r →
  let v1 := vfs_register_mount (Some name) (Some mp) v in
  let v2 := vfs_init v in
  vfs_inv (r - (zlen mp + 65)) v1 ∧ fs_abs (fs v1) = fs_abs (fs v) ∧
  (if decide (zlen (mounts v) < 16)
   then ∃ a, mounts v1 = mounts v ++ [Mount name a mp] else v1 = v) ∧
  vfs_register_mount None (Some mp) v = v ∧ vfs_register_mount (Some name) None v = v ∧
  vfs_inv r v2 ∧ mounts v2 = [] ∧ fs_abs (fs v2) = fs_abs (fs v).
Proof.
  intros Hv Hmp Hl Hr v1 v2. pose proof Hv as [Hf Hc Hm]. pose proof (zlen_nonneg mp).
  assert (Hv1 : vfs_inv (r - (zlen mp + 65)) v1 ∧ fs_abs (fs v1) = fs_abs (fs v) ∧
    (if decide (zlen (mounts v) < 16)
     then ∃ a, mounts v1 = mounts v ++ [Mount name a mp] else v1 = v)).
  { unfold v1, vfs_register_mount. destruct (Z.leb_spec 16 (zlen (mounts v))).
    - rewrite decide_False by lia. split_and!; [|done|done]. split; [|done|done].
      eapply fs_inv_le; [|exact Hf]. lia.
    - rewrite decide_True by lia.
      destruct (kmalloc_step r _ (fs v) (strlen mp + 1) Hf) as (c & h & -> & Hc0 & Hi);
        [unfold strlen; lia|unfold cost, strlen; lia|].
      rewrite (proj2 (Z.eqb_neq _ _)) by done. split_and!; [|done|by exists c].
      split; simpl.
      + eapply fs_inv_le; [|eapply fs_inv_perm; [|exact Hi]]; [unfold cost, strlen; lia|].
        rewrite fmap_app. simpl. by rewrite Permutation_app_comm.
      + rewrite zlen_app, zlen_cons, zlen_nil. lia.
      + apply Forall_app. split; [done|]. by constructor. }
  destruct Hv1 as (Hv1 & Ha1 & Hcase).
  destruct (free_mounts (mounts v) r [] (fs v)) as [Hi2 Ha2]; [by rewrite app_nil_r|].
  split_and!; [done|done|done|done| |split; [done|done|constructor]|done|done].
  unfold vfs_register_mount. done.
Qed.


(** ** Files through the VFS *)

(** Unmounted files: writing through the VFS to a path no mount covers and reading the
    path back returns the bytes written, as long as there is at least one; HanaFS holds
    the file under the path's key. *)
Theorem vfs_unmounted_roundtrip r v p drv pb ip c :
  fs_inv r (mp_addr <$> mounts v) (fs v) → path_arg p drv pb ip → find_mount p (mounts v) = None →
  c ≠ [] → Forall is_byte c → fits (518 + zlen c) (fs v) →
  op_room p (zlen c) (fs v) + zlen p + zlen c + 140 ≤ r →
  ∃ v1 b v2, vfs_write_file (Some p) (Some c) (zlen c) v = Ret (0, v1) ∧
    fs_abs (fs v1) = <[ip := File c]> (fs_abs (fs v)) ∧
    vfs_get_file_alloc (Some p) v1 = Ret (Some (b, c, zlen c), v2) ∧
    fs_abs (fs v2) = fs_abs (fs v1) ∧ mounts v2 = mounts v.
Proof.
  intros Hi Hp Hno Hc Hb Hf Hr. pose proof (zlen_nonneg c).
  assert (Hcl : zlen c < 2 ^ 31) by (destruct Hf; pose proof (zlen_nonneg (records (g_head (fs v)))); lia).
  unfold vfs_write_file, vfs_dispatch. rewrite Hno.
  pose proof (zlen_nonneg p).
  destruct (write_file_spec r _ (fs v) p (Some c) (zlen c) drv pb ip Hi Hp) as (s1 & -> & Ha1 & Hi1);
    [lia|intros src [= <-]; done|done|lia|].
  cbn [rbind]. unfold file_content in Ha1.
  assert (Hfc : take (Z.to_nat (zlen c)) c = c) by (unfold zlen; by rewrite Nat2Z.id, firstn_all).
  rewrite Hfc in Ha1.
  pose proof (get_file_spec _ _ s1 p drv pb ip Hi1 Hp ltac:(lia)) as Hget.
  rewrite Ha1, lookup_insert_eq in Hget.
  destruct Hget as (b & s2 & He & _ & Ha2 & _); [lia|].
  exists (set_fs v s1), b, (set_fs v s2). split_and!; [done|done| |cbn [fs set_fs]; congruence|done].
  unfold vfs_get_file_alloc. cbn [mounts set_fs]. rewrite Hno. unfold get_file_fallback.
  cbn [fs set_fs]. rewrite He. cbn [rbind]. rewrite decide_False by done.
  cbn [nonempty]. rewrite (proj2 (Z.ltb_lt _ _)).
  - by rewrite bool_decide_true by eauto.
  - destruct c; [done|]. rewrite zlen_cons. pose proof (zlen_nonneg c). lia.
Qed.

(** On a ramfs or hanafs mount a write keeps the whole path but a read strips the mount
    point: after writing below the mount the VFS still answers with what HanaFS holds
    under the stripped path, whose key the write does not touch. *)
Theorem vfs_mounted_read_ignores_write r v p drv pb ip m q qdrv qpb qip c b :
  fs_inv r (mp_addr <$> mounts v) (fs v) → path_arg p drv pb ip →
  find_mount p (mounts v) = Some m → is_fs m "fat32" = false → is_ramfs m = true →
  q = rel_path p (mountpoint m) → path_arg q qdrv qpb qip → qip ≠ ip →
  Forall is_byte c → fits (518 + zlen c) (fs v) →
  fs_abs (fs v) !! qip = Some (File b) → b ≠ [] →
  op_room p (zlen c) (fs v) + zlen q + zlen b + 140 ≤ r →
  ∃ v1 a v2, vfs_write_file (Some p) (Some c) (zlen c) v = Ret (0, v1) ∧
    fs_abs (fs v1) !! ip = Some (File c) ∧
    vfs_get_file_alloc (Some p) v1 = Ret (Some (a, b, zlen b), v2).
Proof.
  intros Hi Hp Hm Hfat Hram Hq Hqa Hne Hcb Hf Hb Hbn Hr. pose proof (zlen_nonneg c).
  assert (Hcl : zlen c < 2 ^ 31) by (destruct Hf; pose proof (zlen_nonneg (records (g_head (fs v)))); lia).
  pose proof (zlen_nonneg q). pose proof (zlen_nonneg b).
  unfold vfs_write_file, vfs_dispatch. rewrite Hm, Hram.
  destruct (write_file_spec r _ (fs v) p (Some c) (zlen c) drv pb ip Hi Hp) as (s1 & -> & Ha1 & Hi1);
    [lia|intros src [= <-]; done|done|lia|].
  cbn [rbind]. unfold file_content, zlen in Ha1. rewrite Nat2Z.id, firstn_all in Ha1.
  pose proof (get_file_spec _ _ s1 q qdrv qpb qip Hi1 Hqa ltac:(lia)) as Hget.
  rewrite Ha1, lookup_insert_ne, Hb in Hget by done.
  destruct Hget as (a & s2 & He & _ & Ha2 & _); [lia|].
  exists (set_fs v s1), a, (set_fs v s2). split_and!; [done|cbn [fs set_fs]; by rewrite Ha1, lookup_insert_eq|].
  unfold vfs_get_file_alloc. cbn [mounts set_fs fs]. rewrite Hm, Hfat, Hram, <- Hq, He. cbn [rbind].
  rewrite decide_False by done. cbn [nonempty]. rewrite (proj2 (Z.ltb_lt _ _)); [done|].
  destruct b; [done|]. rewrite zlen_cons. pose proof (zlen_nonneg b). lia.
Qed.
End vfs.

(** ** Concrete runs: no FAT volume *)

#[export] Instance no_fat {H D} : FatFs H D := {
  fat32_list_dir p s := Ret (-1, [], s);
  fat32_create_file p s := Ret (-1, s);
  fat32_unlink p s := Ret (-1, s);
  fat32_make_dir p s := Ret (-1, s);
  fat32_write_file p b n s := Ret (-1, s);
  fat32_get_file_alloc p s := Ret (None, s);
  floppy_list_dir p s := Ret (-1, [], s)
}.

Definition vfs0 : Vfs Heap.Heap Disk := VfsState fs0 [].


Lemma vfs_unmounted_roundtrip_witness :
  ∃ v1 b v2, vfs_write_file (H0 := heap_allocator bi0) (Some (str "/f")) (Some [1; 2]) 2 vfs0 = Ret (0, v1) ∧
    vfs_get_file_alloc (H0 := heap_allocator bi0) (Some (str "/f")) v1 = Ret (Some (b, [1; 2], 2), v2).
Proof.
  destruct (vfs_unmounted_roundtrip (H0 := heap_allocator bi0) (H1 := heap_allocator_spec bi0)
              262000 vfs0 (str "/f") (-1) (str "/f") (str "/f") [1; 2]) as (v1 & b & v2 & E1 & _ & E2 & _).
  - apply fs0_inv.
  - split; [by apply (bool_decide_unpack _)|done|reflexivity].
  - reflexivity.
  - done.
  - by apply (bool_decide_unpack _).
  - split; reflexivity.
  - vm_compute. discriminate.
  - exists v1, b, v2. split; [exact E1|exact E2].
Defined.

(** A ramfs mount at /m over a HanaFS that holds /f: writing /m/f and reading it back
    returns the old /f. *)
Definition fs_f : HanaFS Heap.Heap Disk :=
  match hanafs_write_file (H0 := heap_allocator bi0) (Some (str "/f")) (Some [7]) 1 fs0 with
  | Ret (_, s) => s | _ => fs0 end.
Definition vfs_m : Vfs Heap.Heap Disk :=
  vfs_register_mount (H0 := heap_allocator bi0) (Some (str "ramfs")) (Some (str "/m")) (VfsState fs_f []).

Lemma vfs_m_inv :
  vfs_inv (H0 := heap_allocator bi0) (H1 := heap_allocator_spec bi0) 200000 vfs_m ∧
  fs_abs (fs vfs_m) = {[str "/f" := File [7]]}.
Proof.
  destruct (write_file_spec (H0 := heap_allocator bi0) (H1 := heap_allocator_spec bi0)
              262000 [] fs0 (str "/f") (Some [7]) 1 (-1) (str "/f") (str "/f") fs0_inv)
    as (s' & He & Ha & Hi).
  - split; [by apply (bool_decide_unpack _)|done|reflexivity].
  - done.
  - intros src [= <-]. split; [done|by apply (bool_decide_unpack _)].
  - split; reflexivity.
  - vm_compute. discriminate.
  - assert (Hs : fs_f = s') by (unfold fs_f; by rewrite He).
    unfold vfs_m. rewrite Hs. clear Hs He. rename Hi into Hi0.
    assert (Hi : fs_inv (H0 := heap_allocator bi0) (H1 := heap_allocator_spec bi0) 210000 [] s').
    { eapply fs_inv_le; [|exact Hi0]. vm_compute. discriminate. }
    clear Hi0. unfold vfs_register_mount. cbn [mounts fs].
    change (16 <=? zlen (@nil MountEntry)) with false. cbv iota.
    destruct (kmalloc_step (H0 := heap_allocator bi0) 210000 [] s' (strlen (str "/m") + 1) Hi)
      as (c & h & -> & Hc & Hi2); [vm_compute; split; congruence|vm_compute; discriminate|].
    rewrite (proj2 (Z.eqb_neq _ _)) by exact Hc. split.
    + split; [|vm_compute; discriminate|constructor; [by apply (bool_decide_unpack _)|constructor]].
      eapply fs_inv_le; [|exact Hi2]. vm_compute. discriminate.
    + exact Ha.
Qed.

Lemma vfs_mounted_read_ignores_write_witness :
  ∃ v1 a v2, vfs_write_file (H0 := heap_allocator bi0) (Some (str "/m/f")) (Some [1; 2]) 2 vfs_m = Ret (0, v1) ∧
    vfs_get_file_alloc (H0 := heap_allocator bi0) (Some (str "/m/f")) v1 = Ret (Some (a, [7], 1), v2).
Proof.
  destruct vfs_m_inv as [Hv Ha].
  destruct (vfs_mounted_read_ignores_write (H0 := heap_allocator bi0) (H1 := heap_allocator_spec bi0)
              200000 vfs_m (str "/m/f") (-1) (str "/m/f") (str "/m/f")
              (Mount (str "ramfs") (match mounts vfs_m with m :: _ => mp_addr m | [] => 0 end) (str "/m"))
              (str "/f") (-1) (str "/f") (str "/f") [1; 2] [7]) as (v1 & a & v2 & E1 & _ & E2).
  - apply Hv.
  - split; [by apply (bool_decide_unpack _)|done|reflexivity].
  - vm_compute. reflexivity.
  - reflexivity.
  - reflexivity.
  - reflexivity.
  - split; [by apply (bool_decide_unpack _)|done|reflexivity].
  - done.
  - by apply (bool_decide_unpack _).
  - split; vm_compute; reflexivity.
  - rewrite Ha. reflexivity.
  - done.
  - vm_compute. discriminate.
  - exists v1, a, v2. split; [exact E1|exact E2].
Defined.

(** /proc/cpuinfo is listed but cannot be read once procfs is mounted at /proc: the back end
    is asked for /cpuinfo, which it does not know. *)
Example proc_mount_unreadable :
  (let v := procfs_init (H0 := heap_allocator bi0) vfs0 in
   let! (_, names, v) := vfs_list_dir (H0 := heap_allocator bi0) (Some (str "/proc")) v in
   let! (r, _) := vfs_get_file_alloc (H0 := heap_allocator bi0) (Some (str "/proc/cpuinfo")) v in
   Ret (names, r)) = Ret ([str "cpuinfo"; str "meminfo"; str "self"], None).
Proof. vm_compute. reflexivity. Qed.

(** devfs does not accept the spelling its comment names first. *)
Example dev_console_full_path :
  (devfs_get_file_alloc (H0 := heap_allocator bi0) (str "/dev/console") fs0).1 = None.
Proof. vm_compute. reflexivity. Qed.

(** An empty file cannot be told from a missing one. *)
Example empty_file_unreadable :
  (let! (rc, v) := vfs_create_file (H0 := heap_allocator bi0) (Some (str "/e")) vfs0 in
   let! (r, _) := vfs_get_file_alloc (H0 := heap_allocator bi0) (Some (str "/e")) v in
   Ret (rc, r)) = Ret (0, None).
Proof. vm_compute. reflexivity. Qed.
