(* ===== verification/Fdtable.v ===== *)
(** * File descriptor tables (kernel/userland/fdtable.cpp)

    A table is a heap object: the live tables are kept by address.  An entry owns its path
    and its buffer, so their bytes are kept in the entry beside the pointer. *)
From S2P Require Import Prelude CString HeapSpec.

Inductive FDType := FD_NONE | FD_FILE | FD_TTY | FD_PIPE_READ | FD_PIPE_WRITE.
Global Instance FDType_eq_dec : EqDecision FDType.
Proof. solve_decision. Defined.

Record FDEntry := FD {
  fd_type : FDType;
  path : Z; path_str : list Z;
  buf : Z; buf_bytes : list Z;
  len : Z; pos : Z; flags : Z;
  pipe_obj : Z
}.

Definition fd_none : FDEntry := FD FD_NONE 0 [] 0 [] 0 0 0 0.
Definition set_type (e : FDEntry) (t : FDType) : FDEntry :=
  FD t (path e) (path_str e) (buf e) (buf_bytes e) (len e) (pos e) (flags e) (pipe_obj e).

(** [sizeof(struct FDEntry)] under LP64. *)
Definition sizeof_FDEntry : Z := 56.

(** The live tables. *)
Notation tables := (gmap Z (list FDEntry)).

Section ops.
Context {H : Type} `{Allocator H}.

Definition fdtable_create (count : Z) (h : H) (F : tables) : Z * H * tables :=
  if count <=? 0 then (0, h, F)
  else
    let '(a, h) := amalloc (sizeof_FDEntry * count) h in
    if a =? 0 then (0, h, F) else (a, h, <[a := replicate (Z.to_nat count) fd_none]> F).

(** [if (p) kfree(p)] *)
Definition free_nonnull (p : Z) (h : H) : H := if p =? 0 then h else afree p h.
Definition free_entry (h : H) (e : FDEntry) : H := free_nonnull (buf e) (free_nonnull (path e) h).

Definition fdtable_destroy (a count : Z) (h : H) (F : tables) : res (H * tables) :=
  if a =? 0 then Ret (h, F)
  else
    let! es := of_opt (F !! a) in
    if zlen es <? count then UB
    else Ret (afree a (foldl free_entry h (take (Z.to_nat count) es)), delete a F).

(** The scan from [i], [n] entries left. *)
Fixpoint alloc_scan (n : nat) (i : Z) (es : list FDEntry) : res Z :=
  match n with
  | O => Ret (-1)
  | S n =>
      let! e := of_opt (es !! Z.to_nat i) in
      if decide (fd_type e = FD_NONE) then Ret i else alloc_scan n (i + 1) es
  end.

Definition fdtable_alloc_fd (a count : Z) (F : tables) : res Z :=
  if a =? 0 then Ret (-1)
  else
    let! es := of_opt (F !! a) in
    alloc_scan (Z.to_nat (count - 3)) 3 es.

(** The entry a descriptor names; [None] is the NULL answer. *)
Definition fdtable_get (a count fd : Z) (F : tables) : res (option FDEntry) :=
  if a =? 0 then Ret None
  else if (fd <? 0) || (count <=? fd) then Ret None
  else
    let! es := of_opt (F !! a) in
    let! e := of_opt (es !! Z.to_nat fd) in Ret (Some e).
End ops.

(** A store through the pointer [fdtable_get] returned. *)
Definition fd_put (a fd : Z) (e : FDEntry) (F : tables) : tables :=
  alter (λ es, <[Z.to_nat fd := e]> es) a F.

(** ** What a table owns *)

Definition entry_ptrs (e : FDEntry) : list Z := filter (λ p, p ≠ 0) [path e; buf e].
Definition table_ptrs (es : list FDEntry) : list Z := es ≫= entry_ptrs.

Section spec.
Context {H : Type} `{AllocatorSpec H}.

Lemma entry_ptrs_cases e :
  entry_ptrs e = (if path e =? 0 then [] else [path e]) ++ (if buf e =? 0 then [] else [buf e]).
Proof.
  unfold entry_ptrs. rewrite !filter_cons, filter_nil.
  destruct (Z.eqb_spec (path e) 0), (Z.eqb_spec (buf e) 0);
    repeat first [rewrite decide_True by done|rewrite decide_False by naive_solver]; done.
Qed.

Lemma free_entry_spec r h e O : mem_ok r h (entry_ptrs e ++ O) → mem_ok r (free_entry h e) O.
Proof.
  rewrite entry_ptrs_cases. unfold free_entry, free_nonnull. intros Hm.
  destruct (path e =? 0), (buf e =? 0); simpl in Hm; try done; try by apply mem_free.
  by apply mem_free, mem_free.
Qed.

Lemma free_entries_spec es : ∀ r h O,
  mem_ok r h (table_ptrs es ++ O) → mem_ok r (foldl free_entry h es) O.
Proof.
  induction es as [|e es IH]; intros r h O Hm; [done|]. cbn [foldl]. apply IH.
  unfold table_ptrs in *. rewrite bind_cons, <- app_assoc in Hm.
  by apply free_entry_spec.
Qed.

Lemma fdtable_create_spec r h F O count :
  0 < count < 2 ^ 32 → mem_ok r h O → 56 * count + 64 ≤ r →
  ∃ a h', fdtable_create count h F = (a, h', <[a := replicate (Z.to_nat count) fd_none]> F) ∧
          a ≠ 0 ∧ mem_ok (r - (56 * count + 64)) h' (a :: O).
Proof.
  intros Hc Hm Hr. unfold fdtable_create, sizeof_FDEntry. destruct (Z.leb_spec count 0); [lia|].
  destruct (mem_alloc r h O (56 * count) Hm) as (a & h' & -> & Ha & Hm'); [lia|unfold cost; lia|].
  exists a, h'. rewrite (proj2 (Z.eqb_neq a 0)) by done. split_and!; [done|done|].
  eapply mem_le; [|exact Hm']. unfold cost. lia.
Qed.

Lemma fdtable_destroy_spec r h F O a es count :
  a ≠ 0 → F !! a = Some es → count = zlen es → mem_ok r h (a :: table_ptrs es ++ O) →
  ∃ h', fdtable_destroy a count h F = Ret (h', delete a F) ∧ mem_ok r h' O.
Proof.
  intros Ha HF -> Hm. unfold fdtable_destroy. rewrite (proj2 (Z.eqb_neq a 0)) by done.
  rewrite HF. cbn [rbind of_opt]. rewrite Z.ltb_irrefl. eexists. split; [done|].
  unfold zlen. rewrite Nat2Z.id, firstn_all. apply mem_free, free_entries_spec.
  eapply mem_perm; [|exact Hm]. by rewrite Permutation_middle.
Qed.
End spec.

(** ** The lowest free descriptor *)

Lemma alloc_scan_spec n : ∀ i es, 0 ≤ i → i + Z.of_nat n ≤ zlen es →
  (alloc_scan n i es = Ret (-1) ∧
   ∀ j e, i ≤ j < i + Z.of_nat n → es !! Z.to_nat j = Some e → fd_type e ≠ FD_NONE) ∨
  (∃ k e, alloc_scan n i es = Ret k ∧ i ≤ k < i + Z.of_nat n ∧ es !! Z.to_nat k = Some e ∧
     fd_type e = FD_NONE ∧
     ∀ j e, i ≤ j < k → es !! Z.to_nat j = Some e → fd_type e ≠ FD_NONE).
Proof.
  induction n as [|n IH]; intros i es Hi Hl; cbn [alloc_scan].
  - left. split; [done|]. lia.
  - destruct (lookup_lt_is_Some_2 es (Z.to_nat i)) as [e He]; [unfold zlen in Hl; lia|].
    rewrite He. cbn [rbind of_opt]. destruct (decide (fd_type e = FD_NONE)) as [Hn|Hn].
    + right. exists i, e. split_and!; [done|lia|lia|done|done|lia].
    + assert (Hstep : ∀ j e', i ≤ j → ¬ i + 1 ≤ j → es !! Z.to_nat j = Some e' → fd_type e' ≠ FD_NONE).
      { intros j e' H1 H2. replace j with i by lia. rewrite He. by intros [= <-]. }
      destruct (IH (i + 1) es ltac:(lia) ltac:(lia)) as [[-> Hall]|(k & ek & -> & Hk & Hek & Hkn & Hall)].
      * left. split; [done|]. intros j e' Hj. destruct (decide (i + 1 ≤ j)); [apply Hall; lia|apply Hstep; lia].
      * right. exists k, ek. split_and!; [done|lia|lia|done|done|]. intros j e' Hj.
        destruct (decide (i + 1 ≤ j)); [apply Hall; lia|apply Hstep; lia].
Qed.
