(* ===== verification/Sched.v ===== *)
(** * The scheduler (kernel/scheduler/scheduler.cpp)

    Tasks are heap objects linked in a ring by [next]; the live ones are kept by address, so
    a use of a freed task is undefined.  The heap is passed beside the state, because it
    belongs to the whole kernel. *)
From S2P Require Import Prelude CString Bump Heap HeapSpec Fdtable.

Inductive TaskState := TASK_RUNNING | TASK_READY | TASK_BLOCKED | TASK_DEAD.
Global Instance TaskState_eq_dec : EqDecision TaskState.
Proof. solve_decision. Defined.

Record Task := MkTask {
  pid : Z; state : TaskState; rsp : Z; next : Z;
  entry : Z; entry_arg : Z;
  fds : Z; fd_count : Z; exit_status : Z; parent_pid : Z;
  is_user : bool; user_entry : Z; user_stack : Z; user_stack_size : Z;
  kstack : Z
}.

(** [memset(t, 0, sizeof(Task))] *)
Definition task_zero : Task := MkTask 0 TASK_RUNNING 0 0 0 0 0 0 0 0 false 0 0 0 0.
Definition set_next (n : Z) (t : Task) : Task :=
  MkTask (pid t) (state t) (rsp t) n (entry t) (entry_arg t) (fds t) (fd_count t) (exit_status t)
    (parent_pid t) (is_user t) (user_entry t) (user_stack t) (user_stack_size t) (kstack t).
Definition set_state (x : TaskState) (t : Task) : Task :=
  MkTask (pid t) x (rsp t) (next t) (entry t) (entry_arg t) (fds t) (fd_count t) (exit_status t)
    (parent_pid t) (is_user t) (user_entry t) (user_stack t) (user_stack_size t) (kstack t).
Definition set_exit (c : Z) (t : Task) : Task :=
  MkTask (pid t) (state t) (rsp t) (next t) (entry t) (entry_arg t) (fds t) (fd_count t) c
    (parent_pid t) (is_user t) (user_entry t) (user_stack t) (user_stack_size t) (kstack t).

Record Sched := SchedState {
  tasks : gmap Z Task;
  fdtabs : tables;
  words : gmap Z Z;         (* the 64-bit words written to kernel stacks *)
  next_pid : Z;
  current_task : Z;
  task_list : Z
}.
Definition sched_boot : Sched := SchedState ∅ ∅ ∅ 1 0 0.

Definition set_tasks (s : Sched) (T : gmap Z Task) : Sched :=
  SchedState T (fdtabs s) (words s) (next_pid s) (current_task s) (task_list s).
Definition set_current (s : Sched) (c : Z) : Sched :=
  SchedState (tasks s) (fdtabs s) (words s) (next_pid s) c (task_list s).
Definition set_tabs (s : Sched) (F : tables) : Sched :=
  SchedState (tasks s) F (words s) (next_pid s) (current_task s) (task_list s).

Definition TASK_STACK_SIZE : Z := 16 * 1024.
(** [sizeof(Task)] under LP64. *)
Definition sizeof_Task : Z := 104.

(** [p->f = v] through a pointer. *)
Definition upd (f : Task → Task) (a : Z) (T : gmap Z Task) : res (gmap Z Task) :=
  match T !! a with Some t => Ret (<[a := f t]> T) | None => UB end.

(** [n++] on an [int]. *)
Definition incr (n : Z) : res Z := if n <? 2 ^ 31 - 1 then Ret (n + 1) else UB.

(** ** The ring *)

(** [while (cur->next && cur->next != task_list) cur = cur->next;] *)
Fixpoint last_task (fuel : nat) (T : gmap Z Task) (head cur : Z) : res Z :=
  match fuel with
  | O => Diverges
  | S fuel =>
      let! t := of_opt (T !! cur) in
      if (next t =? 0) || (next t =? head) then Ret cur else last_task fuel T head (next t)
  end.

(** The insertion at the end of the ring. *)
Definition link_task (a : Z) (s : Sched) : res Sched :=
  if task_list s =? 0 then
    let! T := upd (set_next a) a (tasks s) in
    Ret (SchedState T (fdtabs s) (words s) (next_pid s) (current_task s) a)
  else
    let! cur := last_task (S (size (tasks s))) (tasks s) (task_list s) (task_list s) in
    let! T := upd (set_next a) cur (tasks s) in
    let! T := upd (set_next (task_list s)) a T in
    Ret (set_tasks s T).

(** [while (cur)] over a ring: it ends only at a task with the pid or at a NULL link. *)
Fixpoint find_loop (fuel : nat) (T : gmap Z Task) (p cur : Z) : res Z :=
  match fuel with
  | O => Diverges
  | S fuel =>
      if cur =? 0 then Ret 0
      else
        let! t := of_opt (T !! cur) in
        if pid t =? p then Ret cur else find_loop fuel T p (next t)
  end.
Definition find_task_by_pid (fuel : nat) (p : Z) (s : Sched) : res Z :=
  find_loop fuel (tasks s) p (task_list s).

Definition kill_task (fuel : nat) (p : Z) (s : Sched) : res Sched :=
  let! a := find_task_by_pid fuel p s in
  if a =? 0 then Ret s
  else
    let! t := of_opt (tasks s !! a) in
    if decide (state t = TASK_DEAD) then Ret s
    else let! T := upd (set_state TASK_DEAD) a (tasks s) in Ret (set_tasks s T).

Definition sched_getpid (s : Sched) : res Z :=
  if current_task s =? 0 then Ret 0
  else let! t := of_opt (tasks s !! current_task s) in Ret (pid t).

(** ** Task creation *)

Section ops.
Context {H : Type} `{Allocator H} (task_trampoline user_mode_entry_trampoline : Z).

(** The table with stdin, stdout and stderr on the terminal. *)
Definition tty3 (es : list FDEntry) : list FDEntry :=
  imap (λ i e, if (i <? 3)%nat then set_type e FD_TTY else e) es.

Definition create_fds (h : H) (s : Sched) : Z * H * Sched :=
  let '(f, h, F) := fdtable_create 64 h (fdtabs s) in
  (f, h, set_tabs s (if f =? 0 then F else alter tty3 f F)).

Definition alloc_task_common (h : H) (s : Sched) : res (Z * H * Sched) :=
  let '(a, h) := amalloc sizeof_Task h in
  if a =? 0 then Ret (0, h, s)
  else
    let p := next_pid s in
    let! np := incr p in
    let '(f, h, s) := create_fds h s in
    let! parent := if current_task s =? 0 then Ret 0
                   else let! c := of_opt (tasks s !! current_task s) in Ret (pid c) in
    let t := MkTask p TASK_RUNNING 0 0 0 0 f 64 (-1) parent false 0 0 0 0 in
    Ret (a, h, SchedState (<[a := t]> (tasks s)) (fdtabs s) (words s) np (current_task s) (task_list s)).

(** [sp = (stack + TASK_STACK_SIZE) & ~0xF]; push the return address and six zero
    callee-saved registers. *)
Definition stack_top (stack : Z) : Z := u64 (stack + TASK_STACK_SIZE) - u64 (stack + TASK_STACK_SIZE) `mod` 16.
Fixpoint push_frame (ws : list Z) (sp : Z) (M : gmap Z Z) : Z * gmap Z Z :=
  match ws with
  | [] => (sp, M)
  | w :: ws => push_frame ws (u64 (sp - 8)) (<[u64 (sp - 8) := w]> M)
  end.
Definition new_frame (stack : Z) (M : gmap Z Z) : Z * gmap Z Z :=
  push_frame (task_trampoline :: replicate 6 0) (stack_top stack) M.

Definition set_kstack (sp stack : Z) (t : Task) : Task :=
  MkTask (pid t) (state t) sp (next t) (entry t) (entry_arg t) (fds t) (fd_count t) (exit_status t)
    (parent_pid t) (is_user t) (user_entry t) (user_stack t) (user_stack_size t) stack.
Definition set_entry (e arg : Z) (t : Task) : Task :=
  MkTask (pid t) TASK_READY (rsp t) (next t) e arg (fds t) (fd_count t) (exit_status t)
    (parent_pid t) (is_user t) (user_entry t) (user_stack t) (user_stack_size t) (kstack t).

(** [create_task_with_arg]; [create_task] is the same text without the argument. *)
Definition create_task_with_arg (e arg : Z) (h : H) (s : Sched) : res (Z * H * Sched) :=
  if e =? 0 then Ret (0, h, s)
  else
    let! (a, h, s) := alloc_task_common h s in
    if a =? 0 then Ret (0, h, s)
    else
      let! T := upd (set_entry e arg) a (tasks s) in
      let '(stack, h) := amalloc TASK_STACK_SIZE h in
      if stack =? 0 then Ret (0, h, set_tasks s T)
      else
        let '(sp, M) := new_frame stack (words s) in
        let! T := upd (set_kstack sp stack) a T in
        let s := SchedState T (fdtabs s) M (next_pid s) (current_task s) (task_list s) in
        let! s := link_task a s in
        let! t := of_opt (tasks s !! a) in
        Ret (pid t, h, s).

Definition create_task (e : Z) (h : H) (s : Sched) : res (Z * H * Sched) :=
  create_task_with_arg e 0 h s.

Definition create_user_task (e size : Z) (h : H) (s : Sched) : res (Z * H * Sched) :=
  if (e =? 0) || (size =? 0) then Ret (0, h, s)
  else
    let '(a, h) := amalloc sizeof_Task h in
    if a =? 0 then Ret (0, h, s)
    else
      let '(kst, h) := amalloc TASK_STACK_SIZE h in
      if kst =? 0 then Ret (0, afree a h, s)
      else
        let '(ust, h) := amalloc size h in
        if ust =? 0 then Ret (0, afree a (afree kst h), s)
        else
          let p := next_pid s in
          let! np := incr p in
          let '(f, h, s) := create_fds h s in
          let '(sp, M) := new_frame kst (words s) in
          let t := MkTask p TASK_READY sp 0 user_mode_entry_trampoline 0 f 64 (-1) 0
                     true e ust size kst in
          let was_empty := task_list s =? 0 in
          let s := SchedState (<[a := t]> (tasks s)) (fdtabs s) M np (current_task s) (task_list s) in
          let! s := link_task a s in
          Ret (p, h, if was_empty then set_current s a else s).

(** ** Scheduling *)

(** The [kfree] calls for a dead task, then the task itself. *)
Definition free_task (a : Z) (t : Task) (h : H) (s : Sched) : res (H * Sched) :=
  let! (h, F) := if fds t =? 0 then Ret (h, fdtabs s)
                 else fdtable_destroy (fds t) (fd_count t) h (fdtabs s) in
  let h := afree a (free_nonnull (kstack t) (free_nonnull (user_stack t) h)) in
  Ret (h, set_tasks (set_tabs s F) (delete a (tasks s))).

(** One turn of the scan: [(iter, iter_prev)], and whether [prev] was freed so far. *)
Definition reap_step (prev it itp : Z) (freed : bool) (h : H) (s : Sched)
  : res (Z * Z * bool * H * Sched) :=
  let! t := of_opt (tasks s !! it) in
  if decide (state t = TASK_DEAD) then
    let! T := upd (set_next (next t)) itp (tasks s) in
    let s := SchedState T (fdtabs s) (words s) (next_pid s) (current_task s)
               (if it =? task_list s then next t else task_list s) in
    let freed := freed || (it =? prev) in
    let! (h, s) := free_task it t h s in
    let! tp := of_opt (tasks s !! itp) in
    Ret (next tp, itp, freed, h, s)
  else Ret (next t, it, freed, h, s).

(** [do ... while (iter != task_list && task_list)] *)
Fixpoint reap_loop (fuel : nat) (prev it itp : Z) (freed : bool) (h : H) (s : Sched)
  : res (bool * H * Sched) :=
  match fuel with
  | O => Diverges
  | S fuel =>
      let! (it, itp, freed, h, s) := reap_step prev it itp freed h s in
      if (it =? task_list s) || (task_list s =? 0) then Ret (freed, h, s)
      else reap_loop fuel prev it itp freed h s
  end.

(** [while (tmp->next != task_list) tmp = tmp->next;] *)
Fixpoint ring_last (fuel : nat) (T : gmap Z Task) (head cur : Z) : res Z :=
  match fuel with
  | O => Diverges
  | S fuel =>
      let! t := of_opt (T !! cur) in
      if next t =? head then Ret cur else ring_last fuel T head (next t)
  end.

Definition runnable (t : Task) : bool := bool_decide (state t = TASK_READY ∨ state t = TASK_RUNNING).

(** The two log loops read at most eleven tasks each. *)
Fixpoint debug_walk (n : nat) (T : gmap Z Task) (head it : Z) (found : Z) : res Z :=
  match n with
  | O => Ret found
  | S n =>
      let! t := of_opt (T !! it) in
      let found := if runnable t then found + 1 else found in
      if (next t =? 0) || (next t =? head) then Ret found else debug_walk n T head (next t) found
  end.

(** The probe: from [nx], the first runnable task, or back at the start. *)
Fixpoint probe_loop (fuel : nat) (T : gmap Z Task) (prev start nx : Z) : res Z :=
  match fuel with
  | O => Diverges
  | S fuel =>
      if nx =? 0 then Ret 0
      else
        let! t := of_opt (T !! nx) in
        if runnable t then Ret nx
        else
          let nx := if next t =? 0 then prev else next t in
          if (nx =? 0) || (nx =? start) then Ret nx else probe_loop fuel T prev start nx
  end.

(** The answer is the pair of tasks handed to [context_switch], if it was called. *)
Definition schedule_next (h : H) (s : Sched) : res (option (Z * Z) * H * Sched) :=
  if (current_task s =? 0) || (task_list s =? 0) then Ret (None, h, s)
  else
    let prev := current_task s in
    let n := S (size (tasks s)) in
    let! itp := ring_last n (tasks s) (task_list s) (task_list s) in
    let! (freed, h, s) := reap_loop n prev (task_list s) itp false h s in
    if task_list s =? 0 then Ret (None, h, s)
    else
      let! _ := debug_walk 11 (tasks s) (task_list s) (task_list s) 0 in
      let! nx :=
        if freed : bool then Ret (task_list s)
        else let! p := of_opt (tasks s !! prev) in Ret (if next p =? 0 then prev else next p) in
      let! nx := probe_loop n (tasks s) prev nx nx in
      let! ok := if nx =? 0 then Ret false
                 else let! t := of_opt (tasks s !! nx) in Ret (runnable t) in
      let! p := of_opt (tasks s !! prev) in
      if ok : bool then
        let! T := if decide (state p = TASK_RUNNING) then upd (set_state TASK_READY) prev (tasks s)
                  else Ret (tasks s) in
        let! T := upd (set_state TASK_RUNNING) nx T in
        Ret (Some (prev, nx), h, set_current (set_tasks s T) nx)
      else Ret (None, h, s).

Definition sched_yield (h : H) (s : Sched) : res (option (Z * Z) * H * Sched) := schedule_next h s.

(** [task_cleanup] up to its idle loop. *)
Definition task_cleanup (h : H) (s : Sched) : res (option (Z * Z) * H * Sched) :=
  let! T := if current_task s =? 0 then Ret (tasks s)
            else upd (set_state TASK_DEAD) (current_task s) (tasks s) in
  schedule_next h (set_tasks s T).

(** [wait_task]: [others] is what the rest of the system does between the switch away from
    the caller and the return to it. *)
Fixpoint wait_task (fuel : nat) (others : H → Sched → H * Sched) (p : Z) (h : H) (s : Sched)
  : res (H * Sched) :=
  match fuel with
  | O => Diverges
  | S fuel =>
      let! a := find_task_by_pid (S (size (tasks s))) p s in
      if a =? 0 then Ret (h, s)
      else
        let! t := of_opt (tasks s !! a) in
        if decide (state t = TASK_DEAD) then Ret (h, s)
        else
          let! (sw, h, s) := schedule_next h s in
          let '(h, s) := if bool_decide (is_Some sw) then others h s else (h, s) in
          wait_task fuel others p h s
  end.

(** ** The main task *)

(** [init_scheduler] after its [heap_init]; [main_storage] is the address of the static
    fall-back and [sp] the stack pointer at the call. *)
Definition init_main (main_storage sp : Z) (h : H) (s : Sched) : res (H * Sched) :=
  let '(a, h) := amalloc sizeof_Task h in
  let a := if a =? 0 then main_storage else a in
  let! np := incr (next_pid s) in
  let t := MkTask (next_pid s) TASK_RUNNING sp a 0 0 0 0 0 0 false 0 0 0 0 in
  Ret (h, SchedState (<[a := t]> (tasks s)) (fdtabs s) (words s) np a a).

(** ** What a task runs first *)

Inductive start :=
| Call0 (fn : Z)
| Call1 (fn arg : Z)
| Iret (rip cs rsp ss : Z)
| NoStart.

Definition user_mode_entry (t : Task) : start :=
  if user_entry t =? 0 then NoStart
  else
    let top := u64 (user_stack t + user_stack_size t) in
    Iret (user_entry t) 27 (top - top `mod` 16) 35.

Definition task_start (t : Task) : start :=
  if is_user t then user_mode_entry t
  else if entry t =? 0 then NoStart
  else if entry_arg t =? 0 then Call0 (entry t) else Call1 (entry t) (entry_arg t).
End ops.

Definition init_scheduler (bi : Bump.Boot) (static_heap main_storage sp : Z) (h : Heap.Heap) (s : Sched)
  : res (Heap.Heap * Sched) :=
  let h := Heap.heap_init static_heap (256 * 1024) h in
  init_main (H0 := heap_allocator bi) main_storage sp h s.
