(* ===== verification/SchedInv.v ===== *)
(** * The task ring

    [chain T a l b]: following [next] from [a] visits [l] and arrives at [b].  A ring is a
    chain from its first task back to it.  The loops over the ring are shown to terminate
    and to find what they look for. *)
From S2P Require Import Prelude CString HeapSpec Fdtable Sched.

Fixpoint chain (T : gmap Z Task) (a : Z) (l : list Z) (b : Z) : Prop :=
  match l with
  | [] => a = b
  | x :: l => a = x ∧ ∃ t, T !! x = Some t ∧ chain T (next t) l b
  end.

Record ring (T : gmap Z Task) (a : Z) (l : list Z) : Prop := {
  ring_chain : chain T a l a;
  ring_nodup : NoDup l;
  ring_nonnull : Forall (λ x, x ≠ 0) l;
  ring_nonempty : l ≠ []
}.

Lemma chain_app T l1 l2 : ∀ a b, chain T a (l1 ++ l2) b ↔ ∃ c, chain T a l1 c ∧ chain T c l2 b.
Proof.
  induction l1 as [|x l1 IH]; intros a b; simpl; [naive_solver|].
  setoid_rewrite IH. naive_solver.
Qed.

Lemma chain_head T a x l b : chain T a (x :: l) b → a = x.
Proof. by intros [? _]. Qed.

Lemma chain_lookup T l : ∀ a b x, chain T a l b → x ∈ l → is_Some (T !! x).
Proof.
  induction l as [|y l IH]; intros a b x Hc Hx; [set_solver|].
  destruct Hc as (_ & t & Ht & Hc). apply elem_of_cons in Hx as [->|Hx]; [eauto|by eapply IH].
Qed.

(** A chain does not see changes off it, and sees only the links on it. *)
Lemma chain_ext T T' l : ∀ a b, (∀ x, x ∈ l → next <$> T !! x = next <$> T' !! x) →
  chain T a l b → chain T' a l b.
Proof.
  induction l as [|y l IH]; intros a b He Hc; [done|].
  destruct Hc as (-> & t & Ht & Hc). split; [done|].
  pose proof (He y ltac:(by left)) as Hy. rewrite Ht in Hy.
  destruct (T' !! y) as [t'|] eqn:Ht'; simplify_eq/=. exists t'. split; [done|].
  rewrite <- Hy. apply IH; [|done]. intros x Hx. apply He. by right.
Qed.

Lemma chain_insert T l a b x t : x ∉ l → chain T a l b → chain (<[x := t]> T) a l b.
Proof. intros Hx. apply chain_ext. intros y Hy. rewrite lookup_insert_ne; [done|set_solver]. Qed.

Lemma chain_delete T l a b x : x ∉ l → chain T a l b → chain (delete x T) a l b.
Proof. intros Hx. apply chain_ext. intros y Hy. rewrite lookup_delete_ne; [done|set_solver]. Qed.

Lemma ring_app_comm T a b l1 l2 :
  ring T a (a :: l1 ++ b :: l2) → ring T b (b :: l2 ++ a :: l1).
Proof.
  intros [Hc Hn Hz _]. change (a :: l1 ++ b :: l2) with ((a :: l1) ++ b :: l2) in *.
  assert (Hp : (a :: l1) ++ b :: l2 ≡ₚ (b :: l2) ++ a :: l1) by by rewrite Permutation_app_comm.
  apply chain_app in Hc as (c & Hc1 & Hc2). pose proof (chain_head _ _ _ _ _ Hc2) as ->.
  split; [|by rewrite <- Hp|by rewrite <- Hp|done].
  change (b :: l2 ++ a :: l1) with ((b :: l2) ++ a :: l1). apply chain_app. by exists a.
Qed.

Lemma ring_cons T a l : ring T a l → ∃ l', l = a :: l'.
Proof.
  intros [Hc _ _ Hne]. destruct l as [|x l]; [done|]. apply chain_head in Hc as ->. eauto.
Qed.

Lemma ring_lookup T a l x : ring T a l → x ∈ l → ∃ t, T !! x = Some t.
Proof. intros [Hc _ _ _] Hx. by eapply chain_lookup. Qed.

Lemma ring_head_nonnull T a l : ring T a l → a ≠ 0.
Proof. intros Hr. destruct (ring_cons _ _ _ Hr) as [l' ->]. destruct Hr as [_ _ Hz _]. by inv Hz. Qed.

Lemma ring_length T a l : ring T a l → (length l ≤ size T)%nat.
Proof.
  intros Hr. rewrite <- size_dom. rewrite <- (size_list_to_set (C := gset Z) l) by apply Hr.
  apply subseteq_size. intros x Hx. apply elem_of_list_to_set in Hx.
  apply elem_of_dom. by destruct (ring_lookup _ _ _ _ Hr Hx) as [t ->].
Qed.

Lemma ring_next T a pre x y post t :
  ring T a (pre ++ x :: y :: post) → T !! x = Some t → next t = y.
Proof.
  intros [Hc _ _ _] Hx. apply chain_app in Hc as (c & _ & -> & t' & Ht' & Hc).
  simplify_eq. by apply chain_head in Hc.
Qed.

Lemma ring_next_last T a pre x t : ring T a (pre ++ [x]) → T !! x = Some t → next t = a.
Proof.
  intros [Hc _ _ _] Hx. apply chain_app in Hc as (c & _ & -> & t' & Ht' & Hc). by simplify_eq.
Qed.

(** ** The walks to the last task *)

Lemma last_loops T head pre : ∀ cur z fuel,
  chain T cur (pre ++ [z]) head → Forall (λ x, x ≠ head ∧ x ≠ 0) (tail (pre ++ [z])) → head ≠ 0 →
  (length pre < fuel)%nat →
  last_task fuel T head cur = Ret z ∧ ring_last fuel T head cur = Ret z.
Proof.
  induction pre as [|y pre IH]; intros cur z [|fuel] Hc Ht Hh Hf; simpl in Hf; try lia;
    cbn [last_task ring_last].
  - destruct Hc as (-> & t & -> & Hc). simpl in Hc. subst head. cbn [rbind of_opt].
    by rewrite Z.eqb_refl, orb_true_r.
  - destruct Hc as (-> & t & -> & Hc). cbn [rbind of_opt].
    assert (Hn : ∃ w r, pre ++ [z] = w :: r) by (destruct pre; eauto).
    destruct Hn as (w & r & Hw). simpl in Ht. rewrite Hw in Ht.
    assert (next t = w) as Hnw by (rewrite Hw in Hc; by apply chain_head in Hc).
    apply Forall_cons in Ht as [[Hw1 Hw2] Ht].
    rewrite (proj2 (Z.eqb_neq (next t) 0)), (proj2 (Z.eqb_neq (next t) head)) by congruence.
    apply IH; [done| |done|lia]. by rewrite Hw.
Qed.

Lemma ring_last_task T head l z fuel :
  ring T head (l ++ [z]) → (length (l ++ [z]) ≤ fuel)%nat →
  last_task fuel T head head = Ret z ∧ ring_last fuel T head head = Ret z.
Proof.
  intros Hr Hf. rewrite length_app in Hf. simpl in Hf.
  apply (last_loops T head l); [apply Hr| |by eapply ring_head_nonnull|lia].
  pose proof Hr as [_ Hn Hz _]. destruct (ring_cons _ _ _ Hr) as [l' Hl]. rewrite Hl in *. simpl.
  apply NoDup_cons in Hn as [Hn _]. apply Forall_cons in Hz as [_ Hz].
  rewrite Forall_forall in Hz |- *. intros x Hx. split; [set_solver|by apply Hz].
Qed.

(** ** Insertion at the end *)

Lemma chain_relink T l z a b c t : z ∉ l → T !! z = Some t →
  chain T a (l ++ [z]) b → chain (<[z := set_next c t]> T) a (l ++ [z]) c.
Proof.
  intros Hz Ht Hc. apply chain_app in Hc as (x & Hc1 & -> & _ & _ & _). apply chain_app.
  exists z. split; [by apply chain_insert|]. simpl. split; [done|]. exists (set_next c t).
  by rewrite lookup_insert_eq.
Qed.

Lemma link_task_spec s l z a ta tz :
  ring (tasks s) (task_list s) (l ++ [z]) → tasks s !! a = Some ta → tasks s !! z = Some tz →
  a ∉ l ++ [z] → a ≠ 0 →
  let T := <[a := set_next (task_list s) ta]> (<[z := set_next a tz]> (tasks s)) in
  link_task a s = Ret (set_tasks s T) ∧ ring T (task_list s) (l ++ [z; a]).
Proof.
  intros Hr Ha Hz Hn Ha0 T. pose proof (ring_head_nonnull _ _ _ Hr) as Hh. split.
  - unfold link_task. rewrite (proj2 (Z.eqb_neq _ 0)) by done.
    destruct (ring_last_task _ _ _ _ (S (size (tasks s))) Hr) as [-> _];
      [pose proof (ring_length _ _ _ Hr); lia|].
    cbn [rbind]. unfold upd at 1. rewrite Hz. cbn [rbind]. unfold upd.
    rewrite lookup_insert_ne by set_solver. by rewrite Ha.
  - pose proof Hr as [Hc Hnd Hnz _]. assert (Hzl : z ∉ l) by (apply NoDup_app in Hnd; set_solver).
    replace (l ++ [z; a]) with ((l ++ [z]) ++ [a]) by by rewrite <- app_assoc.
    split; [|apply NoDup_app; set_solver by (repeat constructor; set_solver)| |by destruct l].
    + apply chain_app. exists a. split.
      * apply chain_insert; [done|]. by eapply chain_relink.
      * split; [done|]. exists (set_next (task_list s) ta). unfold T. by rewrite lookup_insert_eq.
    + apply Forall_app. by repeat constructor.
Qed.

(** * What the tasks own, and the removal of dead tasks

    Every task owns its block, its stacks and its descriptor table; [core] says that the
    tasks of the ring own distinct live allocations.  The scan of [schedule_next] removes
    dead tasks and keeps [core]. *)


Definition nz (p : Z) : list Z := if p =? 0 then [] else [p].
Definition fds_owned (F : tables) (f : Z) : list Z :=
  if f =? 0 then [] else f :: default [] (table_ptrs <$> F !! f).
Definition task_owned (F : tables) (a : Z) (t : Task) : list Z :=
  a :: nz (kstack t) ++ nz (user_stack t) ++ fds_owned F (fds t).
Definition owned (F : tables) (T : gmap Z Task) (l : list Z) : list Z :=
  l ≫= λ a, default [] (task_owned F a <$> T !! a).

Definition tab_ok (F : tables) (t : Task) : Prop :=
  fds t ≠ 0 → ∃ es, F !! fds t = Some es ∧ zlen es = fd_count t.

(** A task up to its link. *)
Definition info (T : gmap Z Task) (x : Z) : option Task := set_next 0 <$> T !! x.

Lemma info_fmap {A} (f : Task → A) T T' x :
  (∀ n t, f (set_next n t) = f t) → info T' x = info T x → f <$> T' !! x = f <$> T !! x.
Proof.
  unfold info. intros Hf He. apply (f_equal (fmap f)) in He.
  destruct (T' !! x) as [t'|], (T !! x) as [t|]; cbn [fmap option_fmap option_map] in *; try done.
  by rewrite !Hf in He.
Qed.

Lemma info_Some T T' x t : info T' x = info T x → T !! x = Some t → ∃ n, T' !! x = Some (set_next n t).
Proof.
  unfold info. intros He Ht. rewrite Ht in He. destruct (T' !! x) as [[]|]; [|done].
  destruct t. cbn in He. simplify_eq. by eexists.
Qed.

Lemma info_insert T x y n t : T !! y = Some t → info (<[y := set_next n t]> T) x = info T x.
Proof.
  intros Ht. unfold info. destruct (decide (y = x)) as [->|Hne].
  - by rewrite lookup_insert_eq, Ht.
  - by rewrite lookup_insert_ne.
Qed.

Lemma owned_ext F F' T T' l :
  (∀ x, x ∈ l → info T' x = info T x) →
  (∀ x t, x ∈ l → T !! x = Some t → fds_owned F' (fds t) = fds_owned F (fds t)) →
  owned F' T' l = owned F T l.
Proof.
  induction l as [|x l IH]; intros Hi Hf; [done|]. unfold owned in *. rewrite !bind_cons.
  rewrite IH by (intros; first [apply Hi|eapply Hf]; [by right|done..]). f_equal.
  pose proof (Hi x ltac:(by left)) as Hx.
  destruct (T !! x) as [t|] eqn:Ht.
  - destruct (info_Some _ _ _ _ Hx Ht) as [n ->]. cbn. unfold task_owned. cbn.
    by rewrite (Hf x t) by (done || by left).
  - unfold info in Hx. rewrite Ht in Hx. by destruct (T' !! x).
Qed.

Lemma owned_app F T l k : owned F T (l ++ k) = owned F T l ++ owned F T k.
Proof. unfold owned. by rewrite bind_app. Qed.

Lemma owned_single F T x t : T !! x = Some t → owned F T [x] = task_owned F x t.
Proof. intros Ht. unfold owned. cbn. by rewrite Ht, app_nil_r. Qed.

Lemma fds_in_owned F T l x t : x ∈ l → T !! x = Some t → fds t ≠ 0 → fds t ∈ owned F T l.
Proof.
  intros Hx Ht Hf. unfold owned. apply list_elem_of_bind. exists x. split; [|done].
  rewrite Ht. cbn. unfold task_owned, fds_owned.
  rewrite (proj2 (Z.eqb_neq (fds t) 0)) by done. set_solver.
Qed.

Lemma ring_unlink T a u p x v tp t :
  ring T a (u ++ p :: x :: v) → T !! p = Some tp → T !! x = Some t →
  ring (delete x (<[p := set_next (next t) tp]> T)) a (u ++ p :: v).
Proof.
  intros [Hc Hn Hz _] Hp Hx.
  assert (Hs : u ++ p :: v `sublist_of` u ++ p :: x :: v).
  { apply sublist_app; [done|]. apply sublist_skip, sublist_cons. done. }
  assert (Hd : x ∉ u ++ p :: v ∧ p ∉ u ∧ p ∉ v).
  { rewrite (Permutation_app_comm u), NoDup_app in Hn.
    destruct Hn as (Hn & Hd & _). apply NoDup_cons in Hn as [Hpx Hn].
    apply NoDup_cons in Hn as [Hxv _]. set_solver. }
  split; [|by eapply sublist_NoDup|rewrite Forall_app, !Forall_cons in *; naive_solver|by destruct u].
  destruct Hd as (Hxn & Hpu & Hpv). apply chain_delete; [done|].
  apply chain_app in Hc as (c & Hc1 & -> & tp' & Htp & Hc). simplify_eq.
  destruct Hc as (Hnp & t' & Ht & Hc). simplify_eq.
  apply chain_app. exists p. split; [by apply chain_insert|].
  split; [done|]. eexists. rewrite lookup_insert_eq. split; [done|]. by apply chain_insert.
Qed.

Section inv.
Context {H : Type} `{AllocatorSpec H}.

Record core (r : Z) (X : list Z) (h : H) (s : Sched) (a : Z) (l : list Z) : Prop := {
  c_ring : ring (tasks s) a l;
  c_tabs : ∀ x t, x ∈ l → tasks s !! x = Some t → tab_ok (fdtabs s) t;
  c_mem : mem_ok r h (owned (fdtabs s) (tasks s) l ++ X)
}.

Lemma free_nonnull_spec r h p O : mem_ok r h (nz p ++ O) → mem_ok r (free_nonnull p h) O.
Proof. unfold nz, free_nonnull. destruct (p =? 0); [done|]. apply mem_free. Qed.

Lemma free_task_spec r X h s a t :
  tab_ok (fdtabs s) t → mem_ok r h (task_owned (fdtabs s) a t ++ X) →
  ∃ h' F', free_task a t h s = Ret (h', set_tasks (set_tabs s F') (delete a (tasks s))) ∧
    mem_ok r h' X ∧ (∀ f, f ≠ fds t → F' !! f = fdtabs s !! f).
Proof.
  intros Ht Hm.
  assert (Hfd : ∃ h1 F', (if fds t =? 0 then Ret (h, fdtabs s)
      else fdtable_destroy (fds t) (fd_count t) h (fdtabs s)) = Ret (h1, F') ∧
    mem_ok r h1 (nz (user_stack t) ++ nz (kstack t) ++ a :: X) ∧
    (∀ f, f ≠ fds t → F' !! f = fdtabs s !! f)).
  { assert (Hm' : mem_ok r h (fds_owned (fdtabs s) (fds t) ++ nz (user_stack t) ++ nz (kstack t) ++ a :: X)).
    { eapply mem_perm; [|exact Hm]. unfold task_owned. solve_Permutation. }
    unfold fds_owned in Hm'. destruct (Z.eqb_spec (fds t) 0) as [_|Hf]; [by exists h, (fdtabs s)|].
    destruct (Ht Hf) as (es & Hes & Hl). rewrite Hes in Hm'. cbn in Hm'.
    destruct (fdtable_destroy_spec _ _ _ _ _ _ _ Hf Hes (eq_sym Hl) Hm') as (h1 & -> & Hm1).
    exists h1, (delete (fds t) (fdtabs s)). split_and!; [done|done|].
    intros f Hne. by rewrite lookup_delete_ne. }
  destruct Hfd as (h1 & F' & He & Hm1 & HF). unfold free_task. rewrite He. cbn [rbind].
  eexists _, F'. split_and!; [done| |done]. by apply mem_free, free_nonnull_spec, free_nonnull_spec.
Qed.

(** What a removal leaves alone. *)
Record same_rest (s s' : Sched) (l : list Z) : Prop := {
  sr_info : ∀ y, y ∈ l → info (tasks s') y = info (tasks s) y;
  sr_cur : current_task s' = current_task s;
  sr_pid : next_pid s' = next_pid s;
  sr_words : words s' = words s;
  sr_none : ∀ y, tasks s !! y = None → tasks s' !! y = None
}.

Lemma same_rest_trans s1 s2 s3 l l' :
  l' ⊆ l → same_rest s1 s2 l → same_rest s2 s3 l' → same_rest s1 s3 l'.
Proof.
  intros Hl [A1 A2 A3 A4 A5] [B1 B2 B3 B4 B5]. split; try congruence.
  - intros y Hy. rewrite B1 by done. apply A1. by apply Hl.
  - intros y Hy. by apply B5, A5.
Qed.

Lemma core_unlink r X h s a u p x v tp t :
  core r X h s a (u ++ p :: x :: v) → tasks s !! p = Some tp → tasks s !! x = Some t →
  let s1 := SchedState (<[p := set_next (next t) tp]> (tasks s)) (fdtabs s) (words s) (next_pid s)
              (current_task s) (if x =? task_list s then next t else task_list s) in
  ∃ h' s', free_task x t h s1 = Ret (h', s') ∧ core r X h' s' a (u ++ p :: v) ∧
    tasks s' !! p = Some (set_next (next t) tp) ∧ tasks s' !! x = None ∧
    task_list s' = task_list s1 ∧ same_rest s s' (u ++ p :: v).
Proof.
  intros [Hr Ht Hm] Hp Hx s1. set (l := u ++ p :: v).
  assert (Hpl : u ++ p :: x :: v ≡ₚ x :: l) by (unfold l; solve_Permutation).
  assert (Hxl : x ∉ l) by (pose proof (ring_nodup _ _ _ Hr) as Hn; rewrite Hpl in Hn; by apply NoDup_cons in Hn as [? _]).
  assert (Hpn : p ≠ x) by (unfold l in Hxl; set_solver).
  set (F := fdtabs s) in *.
  assert (Hm' : mem_ok r h (task_owned F x t ++ owned F (tasks s) l ++ X)).
  { rewrite app_assoc, <- (owned_single F _ _ _ Hx), <- owned_app. eapply mem_perm; [|exact Hm].
    unfold owned. by rewrite Hpl. }
  destruct (free_task_spec r (owned F (tasks s) l ++ X) h s1 x t) as (h' & F' & He & Hm1 & HF);
    [apply (Ht x t); [set_solver|done]|done|].
  set (s' := set_tasks (set_tabs s1 F') (delete x (tasks s1))).
  assert (Hinfo : ∀ y, y ∈ l → info (tasks s') y = info (tasks s) y).
  { intros y Hy. unfold s', s1. cbn [tasks set_tasks set_tabs]. unfold info at 1.
    rewrite lookup_delete_ne by set_solver. apply (info_insert _ _ _ _ _ Hp). }
  assert (Hfd : ∀ y ty, y ∈ l → tasks s !! y = Some ty → fds ty ≠ 0 → fds ty ≠ fds t).
  { intros y ty Hy Hty Hf0 Heq. pose proof (mem_NoDup _ _ _ Hm') as Hnd.
    rewrite app_assoc in Hnd. apply NoDup_app in Hnd as (Hnd & _ & _).
    apply NoDup_app in Hnd as (_ & Hd & _). apply (Hd (fds t)).
    - unfold task_owned, fds_owned. rewrite (proj2 (Z.eqb_neq (fds t) 0)) by congruence. set_solver.
    - rewrite <- Heq. by eapply fds_in_owned. }
  exists h', s'. split_and!; [done| | | |done|split; try done].
  - split.
    + by apply ring_unlink.
    + intros y ty Hy Hty Hf0.
      pose proof (Hinfo y Hy) as Hi. symmetry in Hi.
      destruct (info_Some _ _ _ _ Hi Hty) as [n Hty'].
      destruct (Ht y _ ltac:(rewrite Hpl; by right) Hty' Hf0) as (es & Hes & Hl).
      exists es. split; [|done]. cbn [fdtabs s' set_tasks set_tabs]. rewrite HF; [done|].
      apply (Hfd y _ Hy Hty'). done.
    + erewrite owned_ext; [exact Hm1|done|]. intros y ty Hy Hty. unfold fds_owned.
      destruct (Z.eqb_spec (fds ty) 0); [done|]. cbn [fdtabs s' set_tasks set_tabs].
      rewrite HF; [done|by eapply Hfd].
  - unfold s', s1. cbn. by rewrite lookup_delete_ne, lookup_insert_eq by done.
  - unfold s'. cbn. by rewrite lookup_delete_eq.
  - intros y Hy. unfold s', s1. cbn. rewrite lookup_delete_None, lookup_insert_ne by congruence. by right.
Qed.
End inv.

(** * The scan for dead tasks in [schedule_next]

    If the first task of the list is alive the scan removes every dead task; if it is dead
    the scan removes it and stops.  [survivors] is what is left. *)


Definition dead (T : gmap Z Task) (x : Z) : bool := bool_decide (state <$> T !! x = Some TASK_DEAD).

Definition keep (d : Z → bool) (l : list Z) : list Z := filter (λ x, d x = false) l.
Definition survivors (d : Z → bool) (l : list Z) : list Z :=
  match l with
  | [] => []
  | a :: l => if d a then l else a :: keep d l
  end.

Lemma keep_cons d x l : keep d (x :: l) = if d x then keep d l else x :: keep d l.
Proof.
  unfold keep. destruct (d x) eqn:E.
  - rewrite filter_cons_False; [done|congruence].
  - by rewrite filter_cons_True.
Qed.

Lemma survivors_sublist d l : survivors d l `sublist_of` l.
Proof.
  destruct l as [|a l]; [done|]. simpl. destruct (d a); [by apply sublist_cons|].
  apply sublist_skip, sublist_filter.
Qed.

Lemma keep_in d l x : x ∈ keep d l ↔ x ∈ l ∧ d x = false.
Proof. unfold keep. rewrite list_elem_of_filter. tauto. Qed.

Lemma dead_ext T T' x : info T' x = info T x → dead T' x = dead T x.
Proof. intros Hi. unfold dead. by rewrite (info_fmap state _ _ _ (λ _ _, eq_refl) Hi). Qed.

Lemma dead_Some T x t : T !! x = Some t → dead T x = bool_decide (state t = TASK_DEAD).
Proof. intros Ht. unfold dead. rewrite Ht. simpl. apply bool_decide_ext. split; congruence. Qed.

Section reap.
Context {H : Type} `{AllocatorSpec H}.

Lemma reap_step_alive prev x p fr (h : H) s t :
  tasks s !! x = Some t → dead (tasks s) x = false →
  reap_step prev x p fr h s = Ret (next t, x, fr, h, s).
Proof.
  intros Ht Hd. rewrite (dead_Some _ _ _ Ht) in Hd. apply bool_decide_eq_false in Hd.
  unfold reap_step. rewrite Ht. cbn [rbind of_opt]. by rewrite decide_False.
Qed.

Lemma reap_step_dead r X prev fr h s a u p x v t :
  core r X h s a (u ++ p :: x :: v) → tasks s !! x = Some t → dead (tasks s) x = true →
  ∃ h' s', reap_step prev x p fr h s = Ret (next t, p, fr || (x =? prev), h', s') ∧
    core r X h' s' a (u ++ p :: v) ∧ tasks s' !! x = None ∧
    task_list s' = (if x =? task_list s then next t else task_list s) ∧
    same_rest s s' (u ++ p :: v).
Proof.
  intros Hc Ht Hd. rewrite (dead_Some _ _ _ Ht) in Hd. apply bool_decide_eq_true in Hd.
  destruct (ring_lookup _ _ _ p (c_ring _ _ _ _ _ _ Hc)) as [tp Htp]; [set_solver|].
  destruct (core_unlink r X h s a u p x v tp t Hc Htp Ht) as (h' & s' & He & Hc' & Hp' & Hx' & Hl & Hs).
  exists h', s'. split_and!; [|done|done|done|done].
  unfold reap_step. rewrite Ht. cbn [rbind of_opt]. rewrite decide_True by done.
  unfold upd. rewrite Htp. cbn [rbind]. rewrite He. cbn [rbind]. by rewrite Hp'.
Qed.

Lemma reap_tail d prev a r X todo : ∀ fuel dn p it fr (h : H) s,
  core r X h s a (dn ++ p :: todo) → task_list s = a → a ∉ todo → head todo = Some it →
  (∀ x, x ∈ todo → dead (tasks s) x = d x) → (length todo ≤ fuel)%nat →
  ∃ h' s', reap_loop fuel prev it p fr h s =
             Ret (fr || bool_decide (prev ∈ todo ∧ d prev = true), h', s') ∧
    core r X h' s' a (dn ++ p :: keep d todo) ∧ task_list s' = a ∧
    same_rest s s' (dn ++ p :: keep d todo) ∧ (∀ y, y ∈ todo → d y = true → tasks s' !! y = None).
Proof.
  induction todo as [|x todo IH]; intros [|fuel] dn p it fr h s Hc Hl Ha Hi Hd Hf; simpl in Hf; try lia; [done|done|].
  simpl in Hi. injection Hi as <-. cbn [reap_loop].
  pose proof (c_ring _ _ _ _ _ _ Hc) as Hr.
  destruct (ring_lookup _ _ _ x Hr) as [t Ht]; [set_solver|].
  assert (Hnx : next t = default a (head todo)).
  { replace (dn ++ p :: x :: todo) with ((dn ++ [p]) ++ x :: todo) in Hr by by rewrite <- app_assoc.
    destruct todo as [|y todo]; [by eapply ring_next_last|by eapply ring_next]. }
  assert (Ha0 : a ≠ 0) by (by eapply ring_head_nonnull).
  rewrite keep_cons. pose proof (Hd x ltac:(by left)) as Hdx.
  assert (Hprev : bool_decide (prev ∈ x :: todo ∧ d prev = true)
    = (d x && (x =? prev)) || bool_decide (prev ∈ todo ∧ d prev = true)).
  { destruct (Z.eqb_spec x prev) as [->|Hne].
    - destruct (d prev) eqn:E; simpl; [apply bool_decide_eq_true_2; set_solver|].
      apply bool_decide_ext. naive_solver.
    - rewrite andb_false_r. simpl. apply bool_decide_ext. set_solver. }
  destruct (d x) eqn:Edx.
  - destruct (reap_step_dead r X prev fr h s a dn p x todo t Hc Ht Hdx)
      as (h1 & s1 & -> & Hc1 & Hx1 & Hl1 & Hs1).
    cbn [rbind]. rewrite (proj2 (Z.eqb_neq x (task_list s))), Hl in Hl1 by set_solver.
    rewrite Hl1, (proj2 (Z.eqb_neq a 0)), orb_false_r by done. rewrite Hprev. simpl.
    destruct todo as [|y todo].
    + simpl in Hnx. rewrite Hnx, Z.eqb_refl. exists h1, s1.
      rewrite (bool_decide_false (prev ∈ [] ∧ _)), orb_false_r by set_solver.
      split_and!; [done|done|done|done|]. intros y Hy _. by apply list_elem_of_singleton in Hy as ->.
    + simpl in Hnx. rewrite Hnx, (proj2 (Z.eqb_neq y a)) by set_solver.
      destruct (IH fuel dn p y (fr || (x =? prev)) h1 s1 Hc1 Hl1) as (h' & s' & -> & Hc' & Hl' & Hs' & Hdd);
        [set_solver|done| |lia|].
      { intros z Hz. rewrite (dead_ext (tasks s)); [apply Hd; by right|].
        apply (sr_info _ _ _ Hs1). set_solver. }
      exists h', s'. rewrite orb_assoc. split_and!; [done|done|done| |].
      * eapply same_rest_trans; [|exact Hs1|exact Hs'].
        intros z Hz. rewrite !elem_of_app, !elem_of_cons, keep_in, elem_of_cons in *. naive_solver.
      * intros z Hz Hdz. apply elem_of_cons in Hz as [->|Hz]; [|by apply Hdd].
        by apply (sr_none _ _ _ Hs').
  - rewrite (reap_step_alive _ _ _ _ _ _ t) by done. cbn [rbind].
    rewrite Hl, (proj2 (Z.eqb_neq a 0)), orb_false_r, Hprev by done. simpl.
    destruct todo as [|y todo].
    + simpl in Hnx. rewrite Hnx, Z.eqb_refl. exists h, s.
      rewrite (bool_decide_false (prev ∈ [] ∧ _)), orb_false_r by set_solver.
      split_and!; [done|done|done|by split|]. intros y Hy. apply list_elem_of_singleton in Hy as ->. congruence.
    + simpl in Hnx. rewrite Hnx, (proj2 (Z.eqb_neq y a)) by set_solver.
      replace (dn ++ p :: x :: y :: todo) with ((dn ++ [p]) ++ x :: y :: todo) in Hc by by rewrite <- app_assoc.
      destruct (IH fuel (dn ++ [p]) x y fr h s Hc Hl) as (h' & s' & -> & Hc' & Hl' & Hs' & Hdd);
        [set_solver|done| |lia|].
      { intros z Hz. apply Hd. by right. }
      exists h', s'. rewrite <- app_assoc in Hc', Hs'. split_and!; [done|done|done|done|].
      intros z Hz Hdz. apply elem_of_cons in Hz as [->|Hz]; [congruence|by apply Hdd].
Qed.
End reap.
