(* ===== verification/SchedSpec.v ===== *)
(** * What the scheduler promises *)
From S2P Require Import Prelude CString HeapSpec Fdtable Sched SchedInv.

Definition ready (T : gmap Z Task) (x : Z) : bool :=
  match T !! x with Some t => runnable t | None => false end.
(** The first runnable task of a list. *)
Definition pick (T : gmap Z Task) (l : list Z) : option Z := head (filter (λ x, ready T x = true) l).

Lemma pick_cons T x l : pick T (x :: l) = if ready T x then Some x else pick T l.
Proof.
  unfold pick. destruct (ready T x) eqn:E.
  - by rewrite filter_cons_True.
  - rewrite filter_cons_False; [done|congruence].
Qed.

Lemma pick_Some T l x : pick T l = Some x → x ∈ l ∧ ready T x = true.
Proof. unfold pick. intros Hx%head_Some_elem_of. apply list_elem_of_filter in Hx. tauto. Qed.

Lemma ready_ext T T' x : info T' x = info T x → ready T' x = ready T x.
Proof.
  intros Hi. unfold ready.
  pose proof (info_fmap runnable _ _ _ (λ _ _, eq_refl) Hi) as He.
  destruct (T' !! x), (T !! x); simpl in *; congruence.
Qed.

Lemma pick_ext T T' l : (∀ x, x ∈ l → ready T' x = ready T x) → pick T' l = pick T l.
Proof.
  induction l as [|x l IH]; intros He; [done|]. rewrite !pick_cons, He by by left.
  rewrite IH by (intros; apply He; by right). done.
Qed.

Lemma ring_closed T a l x t : ring T a l → x ∈ l → T !! x = Some t → next t ∈ l.
Proof.
  intros Hr Hx Ht. apply list_elem_of_split in Hx as (u & v & ->).
  destruct v as [|y v].
  - rewrite (ring_next_last _ _ _ _ _ Hr Ht). destruct (ring_cons _ _ _ Hr) as [l' ->]. by left.
  - rewrite (ring_next _ _ _ _ _ _ _ Hr Ht). set_solver.
Qed.

Lemma debug_walk_Ret T a l n : ∀ x f, ring T a l → x ∈ l → ∃ v, debug_walk n T a x f = Ret v.
Proof.
  induction n as [|n IH]; intros x f Hr Hx; [eauto|]. cbn [debug_walk].
  destruct (ring_lookup _ _ _ _ Hr Hx) as [t Ht]. rewrite Ht. cbn [rbind of_opt].
  destruct ((next t =? 0) || (next t =? a)); [eauto|]. apply IH; [done|]. by eapply ring_closed.
Qed.

Lemma probe_spec T prev start todo : ∀ cur fuel,
  chain T cur todo start → start ∉ tail todo → Forall (λ x, x ≠ 0) todo → todo ≠ [] →
  start ≠ 0 → (length todo ≤ fuel)%nat →
  probe_loop fuel T prev start cur = Ret (default start (pick T todo)).
Proof.
  induction todo as [|x todo IH]; intros cur [|fuel] Hc Hs Hz Hne Hs0 Hf; simpl in Hf; try lia; try done.
  destruct Hc as (-> & t & Ht & Hc). apply Forall_cons in Hz as [Hx0 Hz]. cbn [probe_loop].
  rewrite (proj2 (Z.eqb_neq x 0)), Ht, pick_cons by done. cbn [rbind of_opt].
  unfold ready. rewrite Ht. destruct (runnable t); [done|].
  destruct todo as [|y todo].
  - simpl in Hc. subst start. rewrite (proj2 (Z.eqb_neq (next t) 0)), Z.eqb_refl by done.
    by rewrite orb_true_r.
  - pose proof (chain_head _ _ _ _ _ Hc) as Hy. rewrite Hy in *. apply Forall_cons in Hz as [Hy0 Hz].
    rewrite (proj2 (Z.eqb_neq y 0)) by done.
    rewrite (proj2 (Z.eqb_neq y 0)), (proj2 (Z.eqb_neq y start)) by (done || set_solver). cbn [orb].
    apply IH; [done|set_solver|by constructor|done|done|lia].
Qed.

(** ** The invariant *)

Definition pids (T : gmap Z Task) (l : list Z) : list Z := omap (λ x, pid <$> T !! x) l.

Section spec.
Context {H : Type} `{AllocatorSpec H}.

Record sched_inv (r : Z) (X : list Z) (h : H) (s : Sched) (l : list Z) : Prop := {
  si_core : core r X h s (task_list s) l;
  si_cur : current_task s ∈ l;
  si_pids : NoDup (pids (tasks s) l);
  si_range : Forall (λ p, 0 < p < next_pid s) (pids (tasks s) l);
  si_run : ∀ x t, x ∈ l → tasks s !! x = Some t → state t = TASK_RUNNING → x = current_task s
}.

Lemma reap_spec r X h s l prev :
  core r X h s (task_list s) l → prev ∈ l → survivors (dead (tasks s)) l ≠ [] →
  let d := dead (tasks s) in
  ∃ itp h' s', ring_last (S (size (tasks s))) (tasks s) (task_list s) (task_list s) = Ret itp ∧
    reap_loop (S (size (tasks s))) prev (task_list s) itp false h s
      = Ret (bool_decide (prev ∉ survivors d l), h', s') ∧
    core r X h' s' (task_list s') (survivors d l) ∧ same_rest s s' (survivors d l) ∧
    (∀ y, y ∈ l → y ∉ survivors d l → tasks s' !! y = None).
Proof.
  intros Hc Hp Hne d. pose proof (c_ring _ _ _ _ _ _ Hc) as Hr.
  pose proof (ring_length _ _ _ Hr) as Hlen. pose proof (ring_nodup _ _ _ Hr) as Hnd.
  destruct (ring_cons _ _ _ Hr) as [l' Hl]. set (a := task_list s) in *.
  assert (Ha0 : a ≠ 0) by by eapply ring_head_nonnull.
  destruct (exists_last (ring_nonempty _ _ _ Hr)) as (u & z & Huz).
  exists z. destruct (ring_lookup _ _ _ a Hr) as [t Ht]; [rewrite Hl; by left|].
  assert (Hlast : ring_last (S (size (tasks s))) (tasks s) a a = Ret z).
  { rewrite Huz in Hr, Hlen. apply (ring_last_task _ _ _ _ _ Hr). lia. }
  fold d in Hne. rewrite Hl in Hne, Hnd |- *. cbn [survivors] in *. apply NoDup_cons in Hnd as [Hal Hnd].
  destruct (d a) eqn:Eda.
  - (* the head is dead: only it is removed *)
    destruct l' as [|y l']; [done|]. clear Hne.
    assert (Hu : ∃ v, u = a :: v ∧ y :: l' = v ++ [z]).
    { rewrite Hl in Huz. destruct u as [|b u]; simplify_eq/=. by exists u. }
    destruct Hu as (v & -> & Hv).
    assert (Hrot : core r X h s y (v ++ z :: a :: [])).
    { replace (v ++ [z; a]) with (y :: l' ++ [a]) by (change [z; a] with ([z] ++ [a]); by rewrite app_assoc, <- Hv).
      destruct Hc as [_ Hct Hcm]. rewrite Hl in Hr, Hct, Hcm. split.
      - by apply (ring_app_comm _ a y []).
      - intros x tx Hx. apply Hct. set_solver.
      - eapply mem_perm; [|exact Hcm]. unfold owned. apply Permutation_app_tail, bind_Permutation.
        by rewrite (Permutation_cons_append _ a). }
    assert (Hn : next t = y) by (rewrite Hl in Hr; by apply (ring_next _ a [] a y l' t Hr Ht)).
    destruct (reap_step_dead r X prev false h s y v z a [] t Hrot Ht Eda)
      as (h' & s' & He & Hc' & Hx & Hl' & Hs).
    rewrite Z.eqb_refl in Hl'. exists h', s'. rewrite Hv, Hl', Hn. split_and!; [done| |done|done|].
    + cbn [reap_loop]. rewrite He. cbn [rbind]. rewrite Hl', Z.eqb_refl. simpl. f_equal. f_equal. f_equal.
      rewrite <- Hv. destruct (Z.eqb_spec a prev) as [->|Hap];
        [by rewrite bool_decide_true|rewrite bool_decide_false; [done|]].
      rewrite Hl in Hp. set_solver.
    + intros x Hx1 Hx2. assert (x = a) as -> by set_solver. done.
  - (* the head is alive: every dead task is removed *)
    cbn [reap_loop]. rewrite (reap_step_alive prev a z false h s t Ht Eda). cbn [rbind]. fold a.
    rewrite (proj2 (Z.eqb_neq a 0)), orb_false_r by done.
    destruct l' as [|y l'].
    + assert (Hn : next t = a) by (rewrite Hl in Hr; by apply (ring_next_last _ a [] a t Hr Ht)).
      rewrite Hn, Z.eqb_refl. exists h, s. rewrite Hl in *. cbn. rewrite bool_decide_false by set_solver.
      split_and!; [done|done|done|by split|set_solver].
    + assert (Hn : next t = y) by (rewrite Hl in Hr; by apply (ring_next _ a [] a y l' t Hr Ht)).
      rewrite Hn, (proj2 (Z.eqb_neq y a)) by set_solver. rewrite Hl in Hc, Hlen, Hp.
      destruct (reap_tail d prev a r X (y :: l') (size (tasks s)) [] a y false h s Hc eq_refl Hal eq_refl)
        as (h' & s' & He & Hc' & Hl' & Hs & Hdd); [done|simpl in Hlen |- *; lia|].
      exists h', s'. rewrite He. cbn [orb]. rewrite Hl'. split_and!; [done| |done|done|].
      * f_equal. f_equal. f_equal. apply bool_decide_ext. rewrite !elem_of_cons, keep_in, elem_of_cons in *.
        destruct (d prev) eqn:Ep; naive_solver.
      * intros x Hx Hx'. apply elem_of_cons in Hx as [->|Hx]; [set_solver|]. apply Hdd; [done|].
        rewrite elem_of_cons, keep_in in Hx'. destruct (d x); naive_solver.
Qed.

(** ** The switch *)

Definition view (t : Task) := (next t, kstack t, user_stack t, fds t, fd_count t).

Lemma view_Some (T T' : gmap Z Task) x t : view <$> T' !! x = view <$> T !! x → T' !! x = Some t →
  ∃ t', T !! x = Some t' ∧ view t' = view t.
Proof. intros He Ht. rewrite Ht in He. destruct (T !! x) as [t'|]; [|done]. exists t'. split; [done|]. simpl in He. congruence. Qed.

Lemma view_fmap {A} (f : Task → A) (T T' : gmap Z Task) x :
  (∀ t t', view t = view t' → f t = f t') → view <$> T' !! x = view <$> T !! x →
  f <$> T' !! x = f <$> T !! x.
Proof.
  intros Hf He. destruct (T' !! x) as [t'|], (T !! x) as [t|]; try done.
  cbn [fmap option_fmap option_map] in *. f_equal. apply Hf. congruence.
Qed.

Lemma core_ext r X h s s' a l :
  core r X h s a l → fdtabs s' = fdtabs s →
  (∀ x, view <$> tasks s' !! x = view <$> tasks s !! x) → core r X h s' a l.
Proof.
  intros [Hr Ht Hm] HF Hv. split.
  - destruct Hr as [Hc Hn Hz Hne]. split; [|done..]. eapply chain_ext; [|exact Hc]. intros x _.
    symmetry. apply view_fmap; [|done]. unfold view. congruence.
  - intros x t Hx Hl. destruct (view_Some _ _ _ _ (Hv x) Hl) as (t' & Ht' & Hvt).
    specialize (Ht x t' Hx Ht'). unfold view in Hvt. injection Hvt as _ _ _ Hf Hfc.
    unfold tab_ok in *. by rewrite HF, <- Hf, <- Hfc.
  - rewrite HF. replace (owned (fdtabs s) (tasks s') l) with (owned (fdtabs s) (tasks s) l); [done|].
    unfold owned. clear -Hv. induction l as [|x l IH]; [done|]. rewrite !bind_cons, IH. f_equal. f_equal.
    symmetry. apply view_fmap; [|done]. unfold view, task_owned. congruence.
Qed.

Definition new_state (c n x : Z) (t : Task) : TaskState :=
  if decide (x = n) then TASK_RUNNING
  else if decide (x = c ∧ state t = TASK_RUNNING) then TASK_READY else state t.

Lemma set_state_id t : set_state (state t) t = t.
Proof. by destruct t. Qed.

(** The two state changes before [context_switch]. *)
Lemma switch_spec T c n tc tn : T !! c = Some tc → T !! n = Some tn →
  ∃ T', (let! T := if decide (state tc = TASK_RUNNING) then upd (set_state TASK_READY) c T else Ret T in
         upd (set_state TASK_RUNNING) n T) = Ret T' ∧
    ∀ x, T' !! x = (λ t, set_state (new_state c n x t) t) <$> T !! x.
Proof.
  intros Hc Hn.
  assert (Hid : ∀ x t, T !! x = Some t → x ≠ n → ¬ (x = c ∧ state t = TASK_RUNNING) →
    Some t = Some (set_state (new_state c n x t) t)).
  { intros x t _ Hxn Hxc. unfold new_state. rewrite !decide_False by done. by rewrite set_state_id. }
  set (T1 := if decide (state tc = TASK_RUNNING) then <[c := set_state TASK_READY tc]> T else T).
  assert (He : (if decide (state tc = TASK_RUNNING) then upd (set_state TASK_READY) c T else Ret T) = Ret T1).
  { unfold T1, upd. rewrite Hc. by destruct (decide _). }
  assert (Hn1 : ∃ t1, T1 !! n = Some t1 ∧ set_state TASK_RUNNING t1 = set_state TASK_RUNNING tn).
  { unfold T1. destruct (decide _); [|eauto]. destruct (decide (c = n)) as [->|Hne].
    - rewrite lookup_insert_eq. simplify_eq. eauto.
    - rewrite lookup_insert_ne by done. eauto. }
  destruct Hn1 as (t1 & Ht1 & Hs1). rewrite He. cbn [rbind]. unfold upd. rewrite Ht1.
  eexists. split; [done|]. intros x. rewrite Hs1.
  destruct (decide (x = n)) as [->|Hxn].
  - rewrite lookup_insert_eq, Hn. cbn. unfold new_state. by rewrite decide_True.
  - rewrite lookup_insert_ne by done. unfold T1.
    destruct (decide (state tc = TASK_RUNNING)) as [Hr|Hr]; [destruct (decide (c = x)) as [->|Hcx]|].
    + rewrite lookup_insert_eq, Hc. cbn. unfold new_state. by rewrite decide_False, decide_True.
    + rewrite lookup_insert_ne by done. destruct (T !! x) eqn:E; [|done]. apply (Hid x); naive_solver.
    + destruct (T !! x) eqn:E; [|done]. apply (Hid x); naive_solver.
Qed.

Lemma probe_ring T prev a l fuel : ring T a l → (length l ≤ fuel)%nat →
  probe_loop fuel T prev a a = Ret (default a (pick T l)).
Proof.
  intros Hr Hf. pose proof (ring_head_nonnull _ _ _ Hr). pose proof Hr as [Hc Hn Hz Hne].
  apply probe_spec; try done. destruct (ring_cons _ _ _ Hr) as [l' ->]. by apply NoDup_cons in Hn as [? _].
Qed.

Lemma omap_sublist {A B} (f : A → option B) l k : l `sublist_of` k → omap f l `sublist_of` omap f k.
Proof.
  induction 1 as [|x l k _ IH|x l k _ IH]; [done|..]; rewrite ?omap_step; [|destruct (f x)]; destruct (f x); try done.
  all: by (apply sublist_skip || apply sublist_cons).
Qed.

Lemma pids_ext (T T' : gmap Z Task) l :
  (∀ x, x ∈ l → pid <$> T' !! x = pid <$> T !! x) → pids T' l = pids T l.
Proof.
  unfold pids. induction l as [|x l IH]; intros He; [done|]. rewrite !omap_step, He by by left.
  rewrite IH by (intros; apply He; by right). done.
Qed.

(** Rotation of the ring to the task after the current one. *)
Lemma ring_after T a pre c post t : ring T a (pre ++ c :: post) → T !! c = Some t →
  ring T (next t) (post ++ pre ++ [c]).
Proof.
  intros Hr Ht. destruct post as [|y post].
  - rewrite (ring_next_last _ _ _ _ _ Hr Ht). done.
  - rewrite (ring_next _ _ _ _ _ _ _ Hr Ht). destruct pre as [|b pre].
    + assert (a = c) as -> by (destruct (ring_cons _ _ _ Hr) as [? [=]]; congruence).
      by apply (ring_app_comm _ c y []).
    + assert (a = b) as -> by (destruct (ring_cons _ _ _ Hr) as [? [=]]; congruence).
      cbn [app]. rewrite (cons_middle c), app_assoc in Hr. cbn [app] in Hr.
      change (y :: post ++ b :: pre ++ [c]) with (y :: post ++ b :: (pre ++ [c])).
      by apply ring_app_comm.
Qed.

(** The dead tasks are gone: what is left of [schedule_next]. *)
Lemma schedule_after_reap r X h s s1 h1 pre post t tc :
  let c := current_task s in
  ring_last (S (size (tasks s))) (tasks s) (task_list s) (task_list s) = Ret t →
  reap_loop (S (size (tasks s))) c (task_list s) t false h s = Ret (false, h1, s1) →
  c ≠ 0 → task_list s ≠ 0 → core r X h1 s1 (task_list s1) (pre ++ c :: post) →
  tasks s1 !! c = Some tc → (length (pre ++ c :: post) ≤ S (size (tasks s)))%nat →
  let o := pick (tasks s1) (post ++ pre ++ [c]) in
  ∃ T', schedule_next h s = Ret ((λ n, (c, n)) <$> o, h1, set_current (set_tasks s1 T') (default (current_task s1) o)) ∧
    ∀ x, T' !! x = (λ t, set_state (from_option (λ n, new_state c n x t) (state t) o) t) <$> tasks s1 !! x.
Proof.
  intros c Hlast Hreap Hc0 Hl0 Hcore Htc Hlen o. pose proof (c_ring _ _ _ _ _ _ Hcore) as Hr.
  pose proof (ring_head_nonnull _ _ _ Hr) as Hl1.
  pose proof (ring_after _ _ _ _ _ _ Hr Htc) as Hra. pose proof (ring_head_nonnull _ _ _ Hra) as Hn0.
  unfold schedule_next. rewrite !(proj2 (Z.eqb_neq _ 0)) by done. cbn [orb].
  rewrite Hlast. cbn [rbind]. fold c. rewrite Hreap. cbn [rbind].
  rewrite (proj2 (Z.eqb_neq _ 0)) by done.
  destruct (debug_walk_Ret _ _ _ 11 (task_list s1) 0 Hr) as [v ->];
    [destruct (ring_cons _ _ _ Hr) as [? ->]; by left|].
  cbn [rbind]. rewrite Htc. cbn [rbind of_opt]. rewrite (proj2 (Z.eqb_neq (next tc) 0)) by done.
  rewrite (probe_ring _ c _ _ _ Hra) by (rewrite !length_app in *; simpl in *; lia). fold o. cbn [rbind].
  assert (Hd : ∃ td, default (next tc) o ∈ post ++ pre ++ [c] ∧ tasks s1 !! default (next tc) o = Some td ∧
               runnable td = bool_decide (is_Some o)).
  { destruct o as [n|] eqn:Ho; cbn [default from_option id].
    - apply pick_Some in Ho as [Hin Hrdy]. unfold ready in Hrdy.
      destruct (tasks s1 !! n) as [td|]; [|done]. exists td.
      by rewrite bool_decide_true by eauto.
    - destruct (ring_cons _ _ _ Hra) as [w Hw]. destruct (ring_lookup _ _ _ (next tc) Hra) as [td Htd];
        [rewrite Hw; by left|].
      exists td. split_and!; [rewrite Hw; by left|done|]. unfold o in Ho.
      rewrite Hw, pick_cons in Ho. unfold ready in Ho. rewrite Htd in Ho. by destruct (runnable td). }
  destruct Hd as (td & Hdin & Htd & Hrun).
  rewrite (proj2 (Z.eqb_neq _ 0)) by (pose proof (ring_nonnull _ _ _ Hra) as Hz; rewrite Forall_forall in Hz; by apply Hz).
  rewrite Htd. cbn [rbind of_opt]. rewrite Hrun.
  destruct o as [n|] eqn:Ho; cbn [default from_option id] in *.
  - rewrite bool_decide_true by eauto. destruct (switch_spec (tasks s1) c n tc td Htc Htd) as (T' & He & HT').
    exists T'. split; [|done]. apply rbind_Ret in He as (T1 & E1 & E2). rewrite E1. cbn [rbind]. by rewrite E2.
  - rewrite bool_decide_false by (by intros []). exists (tasks s1). split; [by destruct s1|].
    intros x. destruct (tasks s1 !! x) as [tx|]; [|done]. cbn. by rewrite set_state_id.
Qed.
End spec.
