(* ===== verification/SchedThm.v ===== *)
(** * Theorems on the scheduler: switching, fairness, creation and lookup *)
From S2P Require Import Prelude CString Heap HeapSpec Fdtable Sched SchedInv SchedSpec.

Section thm.
Context {H : Type} `{AllocatorSpec H}.

(** The part of the state a switch may change: links and the [state] fields. *)
Definition switched (c : Z) (o : option Z) (T T' : gmap Z Task) (l : list Z) : Prop :=
  ∀ x t, x ∈ l → T !! x = Some t →
    ∃ n, T' !! x = Some (set_next n (set_state (from_option (λ n, new_state c n x t) (state t) o) t)).

Lemma schedule_next_spec r X h s l pre post :
  let c := current_task s in
  sched_inv r X h s l → survivors (dead (tasks s)) l = pre ++ c :: post →
  let o := pick (tasks s) (post ++ pre ++ [c]) in
  ∃ h' s', schedule_next h s = Ret ((λ n, (c, n)) <$> o, h', s') ∧
    sched_inv r X h' s' (pre ++ c :: post) ∧ current_task s' = default c o ∧
    switched c o (tasks s) (tasks s') (pre ++ c :: post) ∧
    (∀ y, y ∈ l → y ∉ pre ++ c :: post → tasks s' !! y = None).
Proof.
  intros c [Hcore Hcur Hpids Hrange Hrun] Hsv o.
  pose proof (c_ring _ _ _ _ _ _ Hcore) as Hr. pose proof (ring_length _ _ _ Hr) as Hlen.
  pose proof (survivors_sublist (dead (tasks s)) l) as Hsub. rewrite Hsv in Hsub.
  assert (Hin : ∀ x, x ∈ pre ++ c :: post → x ∈ l).
  { intros x Hx. eapply elem_of_sublist; [exact Hx|done]. }
  destruct (reap_spec r X h s l c Hcore Hcur) as (itp & h1 & s1 & Hlast & Hreap & Hc1 & Hs1 & Hgone);
    [rewrite Hsv; by destruct pre|].
  rewrite Hsv in Hreap, Hc1, Hs1, Hgone. rewrite bool_decide_false in Hreap by set_solver.
  destruct (ring_lookup _ _ _ c (c_ring _ _ _ _ _ _ Hc1)) as [tc Htc]; [set_solver|].
  destruct (schedule_after_reap r X h s s1 h1 pre post itp tc Hlast Hreap) as (T' & He & HT');
    [..|done|done| |].
  { pose proof (ring_nonnull _ _ _ Hr) as Hz. rewrite Forall_forall in Hz. by apply Hz. }
  { by eapply ring_head_nonnull. }
  { apply sublist_length in Hsub. etransitivity; [exact Hsub|]. lia. }
  assert (Ho : pick (tasks s1) (post ++ pre ++ [c]) = o).
  { apply pick_ext. intros x Hx. apply ready_ext, (sr_info _ _ _ Hs1). set_solver. }
  fold c in He, HT'. rewrite Ho, (sr_cur _ _ _ Hs1) in He. fold c in He.
  assert (Hsw : switched c o (tasks s) T' (pre ++ c :: post)).
  { intros x t Hx Ht. destruct (info_Some _ _ _ _ (sr_info _ _ _ Hs1 x Hx) Ht) as [n Hn].
    exists n. rewrite HT', Hn, Ho. cbn. unfold new_state. by destruct o. }
  rewrite Ho in HT'. eexists h1, _. split; [exact He|].
  split_and!; [|done|done|intros y Hy Hy'; cbn; by rewrite HT', (Hgone y Hy Hy')].
  assert (Hpe : pids T' (pre ++ c :: post) = pids (tasks s) (pre ++ c :: post)).
  { apply pids_ext. intros x Hx. destruct (ring_lookup _ _ _ x Hr (Hin x Hx)) as [t Ht].
    destruct (Hsw x t Hx Ht) as [n ->]. by rewrite Ht. }
  assert (Hps : pids (tasks s) (pre ++ c :: post) `sublist_of` pids (tasks s) l) by by apply omap_sublist.
  split; cbn [tasks set_current set_tasks task_list next_pid current_task].
  - eapply core_ext; [exact Hc1|done|]. intros x. cbn. rewrite HT'. by destruct (tasks s1 !! x).
  - destruct o as [n|] eqn:Ho'; cbn; [|set_solver]. apply pick_Some in Ho' as [? _]. set_solver.
  - rewrite Hpe. by eapply sublist_NoDup.
  - rewrite Hpe, (sr_pid _ _ _ Hs1). rewrite Forall_forall in Hrange |- *. intros p Hp. apply Hrange.
    by eapply elem_of_sublist.
  - intros x t Hx Ht Hst. destruct (ring_lookup _ _ _ x Hr (Hin x Hx)) as [t0 Ht0].
    destruct (Hsw x t0 Hx Ht0) as [n Hn]. rewrite Ht in Hn. injection Hn as ->. cbn in Hst.
    pose proof (Hrun x t0 (Hin x Hx) Ht0) as Hxc.
    destruct o as [m|]; cbn in *; [|by apply Hxc].
    unfold new_state in Hst. destruct (decide (x = m)); [done|].
    destruct (decide (x = c ∧ state t0 = TASK_RUNNING)) as [|Hno]; [done|]. exfalso. auto.
Qed.


(** A task that exits: if the current task is itself dead and is reaped, [schedule_next]
    goes on to read [prev->state] (or, in a ring of one, [iter_prev->next]) from the block it
    has just freed. *)
Theorem schedule_next_uses_freed_task r X h s l :
  sched_inv r X h s l → current_task s ∉ survivors (dead (tasks s)) l → schedule_next h s = UB.
Proof.
  intros [Hcore Hcur _ _ _] Hns. pose proof (c_ring _ _ _ _ _ _ Hcore) as Hr.
  pose proof (ring_head_nonnull _ _ _ Hr) as Hl0. pose proof (ring_length _ _ _ Hr) as Hlen.
  assert (Hc0 : current_task s ≠ 0).
  { pose proof (ring_nonnull _ _ _ Hr) as Hz. rewrite Forall_forall in Hz. by apply Hz. }
  unfold schedule_next. rewrite !(proj2 (Z.eqb_neq _ 0)) by done. cbn [orb].
  destruct (decide (survivors (dead (tasks s)) l = [])) as [Hnil|Hne].
  - destruct (ring_cons _ _ _ Hr) as [l' Hl]. rewrite Hl in *. cbn [survivors] in Hnil.
    destruct (dead (tasks s) (task_list s)) eqn:Hd; [|done]. subst l'.
    destruct (ring_lookup _ _ _ (task_list s) Hr) as [t Ht]; [by left|].
    destruct (ring_last_task _ _ [] _ (S (size (tasks s))) Hr) as [_ ->]; [simpl; lia|]. cbn [rbind reap_loop].
    rewrite (dead_Some _ _ _ Ht) in Hd. apply bool_decide_eq_true in Hd.
    unfold reap_step. rewrite Ht. cbn [rbind of_opt]. rewrite decide_True by done.
    unfold upd. rewrite Ht. cbn [rbind]. rewrite Z.eqb_refl.
    destruct (free_task_spec r X h (SchedState (<[task_list s := set_next (next t) t]> (tasks s)) (fdtabs s)
      (words s) (next_pid s) (current_task s) (next t)) (task_list s) t) as (h' & F' & -> & _).
    { apply (c_tabs _ _ _ _ _ _ Hcore (task_list s)); [by left|done]. }
    { rewrite <- (owned_single _ _ _ _ Ht). apply (c_mem _ _ _ _ _ _ Hcore). }
    cbn [rbind tasks set_tasks set_tabs]. by rewrite lookup_delete_eq.
  - destruct (reap_spec r X h s l (current_task s) Hcore Hcur Hne) as (itp & h1 & s1 & -> & Hreap & Hc1 & Hs1 & Hgone).
    cbn [rbind]. rewrite Hreap, bool_decide_true by done. cbn [rbind].
    pose proof (c_ring _ _ _ _ _ _ Hc1) as Hr1. pose proof (ring_head_nonnull _ _ _ Hr1) as Hl1.
    rewrite (proj2 (Z.eqb_neq _ 0)) by done.
    assert (Hhd : task_list s1 ∈ survivors (dead (tasks s)) l) by (destruct (ring_cons _ _ _ Hr1) as [? ->]; by left).
    destruct (debug_walk_Ret _ _ _ 11 (task_list s1) 0 Hr1 Hhd) as [v ->]. cbn [rbind].
    rewrite (probe_ring _ _ _ _ _ Hr1)
      by (pose proof (sublist_length _ _ (survivors_sublist (dead (tasks s)) l)); lia).
    cbn [rbind]. rewrite (Hgone _ Hcur Hns). cbn [of_opt rbind].
    assert (Hd : default (task_list s1) (pick (tasks s1) (survivors (dead (tasks s)) l)) ∈ survivors (dead (tasks s)) l).
    { destruct (pick _ _) as [n|] eqn:Hp; [by apply pick_Some in Hp as [? _]|done]. }
    destruct (ring_lookup _ _ _ _ Hr1 Hd) as [td ->].
    by destruct (default _ _ =? 0).
Qed.

(** ** Fairness *)

Fixpoint yields (n : nat) (h : H) (s : Sched) : res (H * Sched) :=
  match n with
  | O => Ret (h, s)
  | S n => let! (_, h, s) := sched_yield h s in yields n h s
  end.

Lemma survivors_all d l : Forall (λ x, d x = false) l → survivors d l = l.
Proof.
  destruct 1 as [|a l Ha Hl]; [done|]. cbn. rewrite Ha. f_equal. unfold keep.
  induction Hl as [|x l Hx Hl IH]; [done|]. by rewrite filter_cons_True, IH.
Qed.

Lemma pick_before T x u : ∀ v n, ready T x = true → pick T (u ++ x :: v) = Some n →
  n = x ∨ ∃ u1 u2, u = u1 ++ n :: u2.
Proof.
  induction u as [|y u IH]; intros v n Hx; cbn [app]; rewrite pick_cons.
  - rewrite Hx. naive_solver.
  - destruct (ready T y).
    + intros [= ->]. right. by exists [], u.
    + intros Hp. destruct (IH v n Hx Hp) as [->|(u1 & u2 & ->)]; [by left|]. right. by exists (y :: u1), u2.
Qed.

Lemma pick_is_Some T l x : x ∈ l → ready T x = true → is_Some (pick T l).
Proof.
  induction l as [|y l IH]; [set_solver|]. rewrite pick_cons. intros Hx Hr. destruct (ready T y) eqn:E; [eauto|].
  apply IH; [|done]. apply elem_of_cons in Hx as [->|?]; [congruence|done].
Qed.

(** The same ring seen from another task. *)
Lemma rotate_at {A} (pre post u w : list A) c n :
  post ++ pre ++ [c] = u ++ n :: w →
  ∃ pre' post', pre ++ c :: post = pre' ++ n :: post' ∧ post' ++ pre' ++ [n] = w ++ u ++ [n].
Proof.
  intros He. apply app_eq_app in He as (k & [[-> He]|[-> He]]).
  - destruct k as [|b k]; simplify_eq/=.
    + exists [], (w ++ u). rewrite app_nil_r. split; [|by rewrite <- app_assoc].
      change (n :: w ++ u) with ((n :: w) ++ u). rewrite He, <- app_assoc. done.
    + exists (pre ++ c :: u), k. split; [by rewrite <- app_assoc|]. by rewrite <- !app_assoc.
  - exists k, (w ++ post). split; [|by rewrite <- !app_assoc].
    change (k ++ n :: w ++ post) with (k ++ (n :: w) ++ post).
    rewrite app_assoc, <- He, <- app_assoc. done.
Qed.

Lemma new_state_alive c n x t : state t ≠ TASK_DEAD → new_state c n x t ≠ TASK_DEAD.
Proof. unfold new_state. by repeat destruct (decide _). Qed.

Lemma new_state_ready c n x t : runnable t = true →
  runnable (set_state (new_state c n x t) t) = true.
Proof.
  unfold runnable, new_state. rewrite !bool_decide_eq_true. cbn. repeat destruct (decide _); naive_solver.
Qed.

Lemma fair_step d r X x : ∀ u v h s l pre post,
  length u = d → sched_inv r X h s l → l = pre ++ current_task s :: post →
  Forall (λ x, dead (tasks s) x = false) l → ready (tasks s) x = true →
  post ++ pre ++ [current_task s] = u ++ x :: v →
  ∃ k h' s', (1 ≤ k ≤ S d)%nat ∧ yields k h s = Ret (h', s') ∧ current_task s' = x.
Proof.
  induction d as [d IH] using lt_wf_ind. intros u v h s l pre post Hd Hi Hl Hdead Hx Hord.
  pose proof (c_ring _ _ _ _ _ _ (si_core _ _ _ _ _ Hi)) as Hr.
  destruct (schedule_next_spec r X h s l pre post Hi) as (h' & s' & He & Hi' & Hc' & Hsw & _);
    [by rewrite survivors_all|].
  rewrite <- Hl in Hi', Hsw.
  assert (Hxl : x ∈ l).
  { rewrite Hl. assert (x ∈ post ++ pre ++ [current_task s]) by (rewrite Hord; set_solver). set_solver. }
  destruct (pick_is_Some (tasks s) (u ++ x :: v) x) as [n Hn]; [set_solver|done|].
  rewrite Hord, Hn in He, Hc', Hsw. cbn in Hc'.
  destruct (pick_before _ _ _ _ _ Hx Hn) as [->|(u1 & u2 & ->)].
  { exists 1%nat, h', s'. cbn. unfold sched_yield. rewrite He. split_and!; [lia|lia|done|done]. }
  rewrite <- app_assoc in Hord. cbn [app] in Hord.
  destruct (rotate_at _ _ _ _ _ _ Hord) as (pre' & post' & Hl' & Hord').
  destruct (IH (length u2)) with (u := u2) (v := v ++ u1 ++ [n]) (h := h') (s := s') (l := l)
    (pre := pre') (post := post') as (k & h2 & s2 & Hk & Hy & Hc2).
  - rewrite <- Hd, length_app. simpl. lia.
  - done.
  - done.
  - rewrite Hc', Hl. done.
  - rewrite Forall_forall in Hdead |- *. intros y Hy. destruct (ring_lookup _ _ _ y Hr Hy) as [t Ht].
    destruct (Hsw y t Hy Ht) as [m Hm]. rewrite (dead_Some _ _ _ Hm). apply bool_decide_eq_false. cbn.
    apply new_state_alive. specialize (Hdead y Hy). rewrite (dead_Some _ _ _ Ht) in Hdead.
    by apply bool_decide_eq_false in Hdead.
  - destruct (ring_lookup _ _ _ x Hr Hxl) as [t Ht]. destruct (Hsw x t Hxl Ht) as [m Hm].
    unfold ready in *. rewrite Hm. rewrite Ht in Hx. by apply (new_state_ready _ _ _ t).
  - rewrite Hc', Hord', <- app_assoc. done.
  - exists (S k), h2, s2. cbn [yields]. unfold sched_yield. rewrite He. cbn [rbind].
    split_and!; [lia|rewrite <- Hd, length_app; simpl; lia|done|done].
Qed.

(** C20. Round robin is fair: in a ring of [n] tasks none of which is dead, every runnable
    task becomes the current one within [n] yields. *)
Theorem round_robin_fair r X h s l x :
  sched_inv r X h s l → Forall (λ x, dead (tasks s) x = false) l → x ∈ l → ready (tasks s) x = true →
  ∃ k h' s', (1 ≤ k ≤ length l)%nat ∧ yields k h s = Ret (h', s') ∧ current_task s' = x.
Proof.
  intros Hi Hd Hx Hr. pose proof (si_cur _ _ _ _ _ Hi) as Hc.
  apply list_elem_of_split in Hc as (pre & post & Hl).
  assert (Hx' : x ∈ post ++ pre ++ [current_task s]) by (rewrite Hl in Hx; set_solver).
  apply list_elem_of_split in Hx' as (u & v & Hu).
  destruct (fair_step (length u) r X x u v h s l pre post eq_refl Hi Hl Hd Hr Hu) as (k & h' & s' & Hk & Hy & Hc).
  exists k, h', s'. split_and!; [lia| |done|done].
  apply (f_equal length) in Hu. rewrite Hl. rewrite !length_app in *. simpl in *. lia.
Qed.
End thm.
