(* ===== verification/SchedLife.v ===== *)
(** * Creating and finding tasks *)
From S2P Require Import Prelude CString Bump Heap HeapSpec Fdtable Sched SchedInv SchedSpec SchedThm.

(** The descriptor table of a new task. *)
Definition new_table : list FDEntry := tty3 (replicate 64 fd_none).

Lemma new_table_ptrs : table_ptrs new_table = [].
Proof. reflexivity. Qed.

Section create.
Context {H : Type} `{AllocatorSpec H} (task_trampoline user_mode_entry_trampoline : Z).

Lemma in_owned F T l x : x ∈ l → is_Some (T !! x) → x ∈ owned F T l.
Proof.
  intros Hx [t Ht]. unfold owned. apply list_elem_of_bind. exists x. split; [|done].
  rewrite Ht. cbn. by left.
Qed.

(** A task with its own fresh blocks joins the ring. *)
Lemma add_task r r' X h h' s l a t es M :
  sched_inv r X h s l → fds t ≠ 0 → zlen es = fd_count t → table_ptrs es = [] →
  mem_ok r' h' (task_owned (<[fds t := es]> (fdtabs s)) a t ++ owned (fdtabs s) (tasks s) l ++ X) →
  pid t = next_pid s → state t ≠ TASK_RUNNING → 0 < next_pid s →
  let s1 := SchedState (<[a := t]> (tasks s)) (<[fds t := es]> (fdtabs s)) M (next_pid s + 1)
              (current_task s) (task_list s) in
  ∃ s', link_task a s1 = Ret s' ∧ sched_inv r' X h' s' (l ++ [a]) ∧ a ∉ l ∧ a ≠ 0 ∧
    tasks s' !! a = Some (set_next (task_list s) t) ∧ fdtabs s' = fdtabs s1 ∧ words s' = M ∧
    current_task s' = current_task s ∧ task_list s' = task_list s ∧
    (∀ x, x ∈ l → info (tasks s') x = info (tasks s) x).
Proof.
  intros [Hcore Hcur Hpids Hrange Hrun] Hf Hes Hep Hm Hpid Hst Hnp s1.
  pose proof Hcore as [Hr Htabs _]. set (F := fdtabs s) in *. set (F' := <[fds t := es]> F) in *.
  pose proof (mem_NoDup _ _ _ Hm) as Hnd.
  assert (Hdis : ∀ y, y ∈ owned F (tasks s) l → y ∉ task_owned F' a t).
  { intros y Hy Hy'. apply NoDup_app in Hnd as (_ & Hd & _). apply (Hd y Hy'). set_solver. }
  assert (Hal : a ∉ l).
  { intros Hin. apply (Hdis a); [apply in_owned; [done|by eapply ring_lookup]|by left]. }
  assert (Ha0 : a ≠ 0).
  { pose proof (mem_nonnull _ _ _ Hm) as Hz. rewrite Forall_forall in Hz. apply Hz. by left. }
  assert (Hfd : ∀ y ty, y ∈ l → tasks s !! y = Some ty → fds ty ≠ 0 → fds ty ≠ fds t).
  { intros y ty Hy Hty H0' Heq. apply (Hdis (fds ty)); [by eapply fds_in_owned|].
    rewrite Heq. unfold task_owned, fds_owned. rewrite (proj2 (Z.eqb_neq (fds t) 0)) by done. set_solver. }
  assert (HF : ∀ y ty, y ∈ l → tasks s !! y = Some ty → fds ty ≠ 0 → F' !! fds ty = F !! fds ty).
  { intros y ty Hy Hty H0'. unfold F'. rewrite lookup_insert_ne; [done|]. by apply not_eq_sym, (Hfd y). }
  destruct (exists_last (ring_nonempty _ _ _ Hr)) as (u & z & Huz).
  assert (Hr1 : ring (tasks s1) (task_list s1) (u ++ [z])).
  { rewrite <- Huz. destruct Hr as [Hc Hn Hz Hne]. split; [|done..]. by apply chain_insert. }
  destruct (ring_lookup _ _ _ z Hr1) as [tz Htz]; [set_solver|].
  destruct (link_task_spec s1 u z a t tz Hr1) as [He Hr2];
    [apply lookup_insert_eq|done|by rewrite <- Huz|done|].
  set (T := <[a := set_next (task_list s1) t]> (<[z := set_next a tz]> (tasks s1))) in *.
  replace (u ++ [z; a]) with (l ++ [a]) in Hr2 by (rewrite Huz, <- app_assoc; done).
  assert (Hinfo : ∀ x, x ∈ l → info T x = info (tasks s) x).
  { intros x Hx. unfold T, info. rewrite lookup_insert_ne by set_solver.
    pose proof (info_insert (tasks s1) x z a tz Htz) as Hi. unfold info in Hi. rewrite Hi.
    unfold s1. cbn. by rewrite lookup_insert_ne by set_solver. }
  assert (HTa : T !! a = Some (set_next (task_list s) t)) by apply lookup_insert_eq.
  eexists. split; [exact He|]. split_and!; try done.
  assert (Hpe : pids T (l ++ [a]) = pids (tasks s) l ++ [next_pid s]).
  { unfold pids. rewrite omap_app. f_equal.
    - apply pids_ext. intros x Hx. by apply (info_fmap pid), Hinfo.
    - rewrite omap_step, HTa. cbn. by rewrite Hpid. }
  rewrite Forall_forall in Hrange.
  split; cbn [tasks set_tasks task_list current_task next_pid].
  - split; cbn [tasks set_tasks fdtabs].
    + done.
    + intros x tx Hx Htx Hfx. apply elem_of_app in Hx as [Hx|Hx%list_elem_of_singleton].
      * pose proof (eq_sym (Hinfo x Hx)) as Hi. destruct (info_Some _ _ _ _ Hi Htx) as [n Hn].
        destruct (Htabs x _ Hx Hn Hfx) as (es' & He' & Hl'). exists es'. split; [|done].
        unfold s1. cbn [fdtabs]. pose proof (HF x _ Hx Hn Hfx) as HFx. cbn in HFx. by rewrite HFx.
      * subst x. rewrite HTa in Htx. injection Htx as <-. exists es. split; [apply lookup_insert_eq|done].
    + eapply mem_perm; [|exact Hm]. rewrite owned_app, (owned_single _ _ _ _ HTa).
      replace (owned (fdtabs s1) T l) with (owned F (tasks s) l).
      * rewrite app_assoc. apply Permutation_app_tail. by rewrite Permutation_app_comm.
      * symmetry. apply owned_ext; [done|]. intros x tx Hx Htx. unfold fds_owned.
        destruct (Z.eqb_spec (fds tx) 0); [done|]. unfold s1. cbn [fdtabs]. fold F F'. by rewrite (HF x tx).
  - set_solver.
  - rewrite Hpe. apply NoDup_app. split_and!; [done| |repeat constructor; set_solver].
    intros p Hp Hp'%list_elem_of_singleton. specialize (Hrange p Hp). lia.
  - rewrite Hpe. apply Forall_app. split.
    + apply Forall_forall. intros p Hp. specialize (Hrange p Hp). cbn. lia.
    + constructor; [cbn; lia|constructor].
  - intros x tx Hx Htx Hrun'. apply elem_of_app in Hx as [Hx|Hx%list_elem_of_singleton].
    + pose proof (eq_sym (Hinfo x Hx)) as Hi. destruct (info_Some _ _ _ _ Hi Htx) as [n Hn].
      by apply (Hrun x _ Hx Hn).
    + subst x. rewrite HTa in Htx. injection Htx as <-. done.
Qed.

Lemma create_fds_spec r h s O : mem_ok r h O → 3648 ≤ r →
  ∃ f h', create_fds h s = (f, h', set_tabs s (<[f := new_table]> (fdtabs s))) ∧ f ≠ 0 ∧
          mem_ok (r - 3648) h' (f :: O).
Proof.
  intros Hm Hr. unfold create_fds.
  destruct (fdtable_create_spec r h (fdtabs s) O 64) as (f & h' & -> & Hf & Hm'); [lia|done|lia|].
  exists f, h'. rewrite (proj2 (Z.eqb_neq f 0)), alter_insert_eq by done. split_and!; [done|done|].
  eapply mem_le; [|exact Hm']. lia.
Qed.

Lemma incr_Ret n : n < 2 ^ 31 - 1 → incr n = Ret (n + 1).
Proof. intros Hn. unfold incr. by rewrite (proj2 (Z.ltb_lt _ _)). Qed.

Lemma si_pid_pos r X h s l : sched_inv r X h s l → 0 < next_pid s.
Proof.
  intros Hi. pose proof (si_core _ _ _ _ _ Hi) as Hc. destruct (ring_lookup _ _ _ _ (c_ring _ _ _ _ _ _ Hc) (si_cur _ _ _ _ _ Hi)) as [t Ht].
  pose proof (si_range _ _ _ _ _ Hi) as Hr. rewrite Forall_forall in Hr.
  assert (Hp : pid t ∈ pids (tasks s) l).
  { apply list_elem_of_omap. exists (current_task s). split; [apply Hi|by rewrite Ht]. }
  specialize (Hr _ Hp). lia.
Qed.

(** What a new task [a] with record [t] is. *)
Record new_task (s s' : Sched) (l : list Z) (a : Z) (t : Task) : Prop := {
  nt_fresh : a ∉ l;
  nt_task : tasks s' !! a = Some t;
  nt_pid : pid t = next_pid s;
  nt_state : state t = TASK_READY;
  nt_fds : fdtabs s' !! fds t = Some new_table;
  nt_frame : (rsp t, words s') = new_frame task_trampoline (kstack t) (words s);
  nt_cur : current_task s' = current_task s;
  nt_rest : ∀ x, x ∈ l → info (tasks s') x = info (tasks s) x
}.

Lemma create_with_arg_spec r X h s l e arg :
  sched_inv r X h s l → e ≠ 0 → next_pid s < 2 ^ 31 - 1 → 20264 ≤ r →
  ∃ a h' s' t, create_task_with_arg task_trampoline e arg h s = Ret (next_pid s, h', s') ∧
    sched_inv (r - 20264) X h' s' (l ++ [a]) ∧ new_task s s' l a t ∧
    task_start t = (if arg =? 0 then Call0 e else Call1 e arg).
Proof.
  intros Hi He Hp Hr. pose proof (si_pid_pos _ _ _ _ _ Hi) as Hp0.
  pose proof (c_mem _ _ _ _ _ _ (si_core _ _ _ _ _ Hi)) as Hm.
  destruct (ring_lookup _ _ _ _ (c_ring _ _ _ _ _ _ (si_core _ _ _ _ _ Hi)) (si_cur _ _ _ _ _ Hi)) as [tc Htc].
  assert (Hc0 : current_task s ≠ 0).
  { pose proof (ring_nonnull _ _ _ (c_ring _ _ _ _ _ _ (si_core _ _ _ _ _ Hi))) as Hz.
    rewrite Forall_forall in Hz. apply Hz, Hi. }
  unfold create_task_with_arg, alloc_task_common. rewrite (proj2 (Z.eqb_neq e 0)) by done.
  destruct (mem_alloc r h _ sizeof_Task Hm) as (a & h1 & -> & Ha & Hm1); [done|unfold cost, sizeof_Task; lia|].
  rewrite (proj2 (Z.eqb_neq a 0)), incr_Ret by done. cbn [rbind].
  destruct (create_fds_spec (r - 168) h1 s (a :: owned (fdtabs s) (tasks s) l ++ X)) as (f & h2 & -> & Hf & Hm2);
    [exact Hm1|lia|].
  cbn [tasks set_tabs fdtabs words current_task task_list].
  rewrite (proj2 (Z.eqb_neq (current_task s) 0)), Htc by done. cbn [rbind of_opt].
  rewrite (proj2 (Z.eqb_neq a 0)) by done. unfold upd. cbn [tasks fdtabs words next_pid current_task task_list].
  rewrite lookup_insert_eq. cbn [rbind].
  destruct (mem_alloc (r - 168 - 3648) h2 _ TASK_STACK_SIZE Hm2) as (k & h3 & -> & Hk & Hm3);
    [done|unfold cost, TASK_STACK_SIZE; lia|].
  rewrite (proj2 (Z.eqb_neq k 0)) by done.
  destruct (new_frame task_trampoline k (words s)) as [sp M] eqn:Hfr. rewrite lookup_insert_eq. cbn [rbind].
  rewrite !insert_insert_eq.
  set (t := set_kstack sp k _).
  destruct (add_task r (r - 20264) X h h3 s l a t new_table M Hi) as (s' & Hlink & Hi' & Hal & _ & Hta & HF & HM & Hcur & _ & Hinfo);
    [done|reflexivity|apply new_table_ptrs| |done|done|done|].
  { unfold task_owned, t, nz, fds_owned. cbn. rewrite !(proj2 (Z.eqb_neq _ 0)) by done.
    rewrite lookup_insert_eq. cbn. eapply mem_le; [|eapply mem_perm; [|exact Hm3]]; [unfold cost, TASK_STACK_SIZE; lia|].
    symmetry. apply (Permutation_middle [k; f]). }
  change (fds t) with f in Hlink. rewrite Hlink. cbn [rbind]. rewrite Hta. cbn [rbind of_opt].
  exists a, h3, s', (set_next (task_list s) t). split; [done|]. split; [done|].
  split; [|unfold task_start, t; cbn [is_user entry entry_arg set_next set_kstack set_entry]; by rewrite (proj2 (Z.eqb_neq e 0))].
  split; try done.
  - cbn. rewrite HF. apply lookup_insert_eq.
  - change (kstack (set_next (task_list s) t)) with k. by rewrite HM, Hfr.
Qed.

Lemma create_user_spec r X h s l e size :
  sched_inv r X h s l → e ≠ 0 → next_pid s < 2 ^ 31 - 1 → 0 < size < 2 ^ 62 → 20328 + size ≤ r →
  ∃ a h' s' t, create_user_task task_trampoline user_mode_entry_trampoline e size h s = Ret (next_pid s, h', s') ∧
    sched_inv (r - (20328 + size)) X h' s' (l ++ [a]) ∧ new_task s s' l a t ∧
    is_user t = true ∧ user_entry t = e ∧ user_stack_size t = size ∧ user_stack t ≠ 0.
Proof.
  intros Hi He Hp Hs Hr. pose proof (si_pid_pos _ _ _ _ _ Hi) as Hp0.
  pose proof (c_mem _ _ _ _ _ _ (si_core _ _ _ _ _ Hi)) as Hm.
  pose proof (ring_head_nonnull _ _ _ (c_ring _ _ _ _ _ _ (si_core _ _ _ _ _ Hi))) as Hl0.
  unfold create_user_task. rewrite (proj2 (Z.eqb_neq e 0)), (proj2 (Z.eqb_neq size 0)) by lia. cbn [orb].
  destruct (mem_alloc r h _ sizeof_Task Hm) as (a & h1 & -> & Ha & Hm1); [done|unfold cost, sizeof_Task; lia|].
  rewrite (proj2 (Z.eqb_neq a 0)) by done.
  destruct (mem_alloc _ h1 _ TASK_STACK_SIZE Hm1) as (k & h2 & -> & Hk & Hm2);
    [done|unfold cost, TASK_STACK_SIZE, sizeof_Task; lia|].
  rewrite (proj2 (Z.eqb_neq k 0)) by done.
  destruct (mem_alloc _ h2 _ size Hm2) as (us & h3 & -> & Hus & Hm3);
    [lia|unfold cost, TASK_STACK_SIZE, sizeof_Task; lia|].
  rewrite (proj2 (Z.eqb_neq us 0)), incr_Ret by done. cbn [rbind].
  destruct (create_fds_spec _ h3 s _ Hm3) as (f & h4 & -> & Hf & Hm4);
    [unfold cost, TASK_STACK_SIZE, sizeof_Task; lia|].
  cbn [tasks set_tabs fdtabs words current_task task_list].
  destruct (new_frame task_trampoline k (words s)) as [sp M] eqn:Hfr.
  rewrite (proj2 (Z.eqb_neq (task_list s) 0)) by done. set (t := MkTask _ _ _ _ _ _ _ _ _ _ _ _ _ _ _).
  destruct (add_task r (r - (20328 + size)) X h h4 s l a t new_table M Hi) as (s' & Hlink & Hi' & Hal & _ & Hta & HF & HM & Hcur & _ & Hinfo);
    [done|reflexivity|apply new_table_ptrs| |done|done|done|].
  { unfold task_owned, t, nz, fds_owned. cbn. rewrite !(proj2 (Z.eqb_neq _ 0)) by done.
    rewrite lookup_insert_eq. cbn. eapply mem_le; [|eapply mem_perm; [|exact Hm4]];
      [unfold cost, TASK_STACK_SIZE, sizeof_Task; lia|]. solve_Permutation. }
  change (fds t) with f in Hlink. rewrite Hlink. cbn [rbind]. exists a, h4, s', (set_next (task_list s) t). split; [done|]. split; [done|]. split; [|done].
  split; try done.
  - cbn. rewrite HF. apply lookup_insert_eq.
  - change (kstack (set_next (task_list s) t)) with k. by rewrite HM, Hfr.
Qed.
End create.

(** * The life of a task: start-up, creation, lookup, death *)


(** ** The first frame of a task *)

Lemma push_frame_spec ws : ∀ sp M, 8 * zlen ws ≤ sp < 2 ^ 64 →
  ∃ M', push_frame ws sp M = (sp - 8 * zlen ws, M') ∧
    (∀ (i : nat) w, ws !! i = Some w → M' !! (sp - 8 * (Z.of_nat i + 1)) = Some w) ∧
    (∀ x, x < sp - 8 * zlen ws ∨ sp ≤ x → M' !! x = M !! x).
Proof.
  induction ws as [|w ws IH]; intros sp M Hsp.
  - exists M. split_and!; [cbn [push_frame]; change (zlen (@nil Z)) with 0; f_equal; lia|done|done].
  - rewrite zlen_cons in *. pose proof (zlen_nonneg ws). cbn [push_frame]. rewrite u64_small by lia.
    destruct (IH (sp - 8) (<[sp - 8 := w]> M)) as (M' & -> & Hw & Hx); [lia|].
    exists M'. split_and!.
    + f_equal. lia.
    + intros [|i] v Hv; cbn in Hv.
      * simplify_eq. rewrite Hx by lia. replace (sp - 8 * (Z.of_nat 0 + 1)) with (sp - 8) by lia.
        apply lookup_insert_eq.
      * specialize (Hw i v Hv). rewrite <- Hw. f_equal. lia.
    + intros x Hxr. rewrite Hx by lia. apply lookup_insert_ne. lia.
Qed.

(** The frame a new task starts from lies inside its 16 KiB stack and ends on a 16-byte
    boundary: six zero words for the callee-saved registers and, above them, the address of
    the trampoline, which is what [context_switch] pops. *)
Theorem new_frame_layout tramp stack M :
  0 < stack → stack + TASK_STACK_SIZE < 2 ^ 64 →
  let '(sp, M') := new_frame tramp stack M in
  stack < sp ∧ sp + 56 ≤ stack + TASK_STACK_SIZE ∧ (sp + 56) `mod` 16 = 0 ∧
  (∀ i, 0 ≤ i < 6 → M' !! (sp + 8 * i) = Some 0) ∧ M' !! (sp + 48) = Some tramp ∧
  (∀ x, x < sp ∨ sp + 56 ≤ x → M' !! x = M !! x).
Proof.
  intros Hs Ht. unfold TASK_STACK_SIZE in *. unfold new_frame, stack_top. rewrite u64_small by (unfold TASK_STACK_SIZE; lia).
  unfold TASK_STACK_SIZE. set (top := _ - _ `mod` 16).
  assert (Htop : top `mod` 16 = 0 ∧ stack + 16 * 1024 - 16 < top ≤ stack + 16 * 1024).
  { unfold top. pose proof (Z.mod_pos_bound (stack + 16 * 1024) 16 eq_refl). split; [|lia].
    rewrite Zminus_mod_idemp_r, Z.sub_diag. done. }
  clearbody top. destruct Htop as [Hm Hb].
  destruct (push_frame_spec (tramp :: replicate 6 0) top M) as (M' & -> & Hw & Hx);
    [change (zlen (tramp :: replicate 6 0)) with 7; lia|].
  change (zlen (tramp :: replicate 6 0)) with 7 in *.
  split_and!; [lia|lia| | | |intros x Hx'; apply Hx; lia].
  - replace (_ + 56) with top by lia. done.
  - intros i Hi. rewrite <- (Hw (Z.to_nat (6 - i)) 0); [f_equal; lia|].
    replace (Z.to_nat (6 - i)) with (S (Z.to_nat (5 - i))) by lia. apply lookup_replicate_2. lia.
  - rewrite <- (Hw 0%nat tramp eq_refl). f_equal. lia.
Qed.

Lemma new_frame_layout_witness :
  let '(sp, M') := new_frame 4096 65536 ∅ in sp = 81864 ∧ M' !! (sp + 48) = Some 4096.
Proof.
  pose proof (new_frame_layout 4096 65536 ∅ eq_refl eq_refl) as Hf.
  destruct (new_frame 4096 65536 ∅) as [sp M'] eqn:E. destruct Hf as (_ & _ & _ & _ & Ht & _).
  split; [|exact Ht]. vm_compute in E. by injection E.
Defined.

Section life.
Context {H : Type} `{AllocatorSpec H} (task_trampoline user_mode_entry_trampoline : Z).

(** C33. Creating a kernel task: with room for its three blocks, [create_task_with_arg] (and
    [create_task], its case without argument) returns a fresh pid and appends to the ring a
    ready task that owns its stack and a table of 64 descriptors with three terminals, and
    that will call the given entry with its argument; no other task changes. *)
Theorem create_task_correct r X h s l e arg :
  sched_inv r X h s l → e ≠ 0 → next_pid s < 2 ^ 31 - 1 → 20264 ≤ r →
  ∃ a h' s' t, create_task_with_arg task_trampoline e arg h s = Ret (next_pid s, h', s') ∧
    sched_inv (r - 20264) X h' s' (l ++ [a]) ∧ new_task task_trampoline s s' l a t ∧
    task_start t = (if arg =? 0 then Call0 e else Call1 e arg).
Proof. apply create_with_arg_spec. Qed.

(** Creating a user task: likewise, and its first act is an [iretq] to the given entry in
    ring 3 with a 16-byte aligned stack pointer in the last 16 bytes of its own user stack. *)
Theorem create_user_task_correct r X h s l e size :
  sched_inv r X h s l → e ≠ 0 → next_pid s < 2 ^ 31 - 1 → 0 < size < 2 ^ 62 → 20328 + size ≤ r →
  ∃ a h' s' t sp, create_user_task task_trampoline user_mode_entry_trampoline e size h s = Ret (next_pid s, h', s') ∧
    sched_inv (r - (20328 + size)) X h' s' (l ++ [a]) ∧ new_task task_trampoline s s' l a t ∧
    task_start t = Iret e 27 sp 35 ∧ Z.land 27 3 = 3 ∧ Z.land 35 3 = 3 ∧ sp `mod` 16 = 0 ∧
    (0 < user_stack t → user_stack t + size < 2 ^ 64 →
     user_stack t + size - 16 < sp ≤ user_stack t + size).
Proof.
  intros Hi He Hp Hs Hr.
  destruct (create_user_spec task_trampoline user_mode_entry_trampoline r X h s l e size Hi He Hp Hs Hr)
    as (a & h' & s' & t & Hc & Hi' & Hn & Hu & Hue & Hus & _).
  set (top := u64 (user_stack t + size)).
  exists a, h', s', t, (top - top `mod` 16). split_and!; try done.
  - unfold task_start, user_mode_entry. rewrite Hu, Hue, Hus, (proj2 (Z.eqb_neq e 0)) by done. done.
  - by rewrite Zminus_mod_idemp_r, Z.sub_diag.
  - intros H1' H2'. pose proof (Z.mod_pos_bound top 16 eq_refl). unfold top in *. rewrite u64_small in * by lia. lia.
Qed.

(** ** Start-up *)

Lemma init_main_spec r X h main_storage sp :
  mem_ok r h X → 168 ≤ r →
  ∃ a h' s, init_main main_storage sp h sched_boot = Ret (h', s) ∧ sched_inv (r - 168) X h' s [a] ∧
    current_task s = a ∧ sched_getpid s = Ret 1 ∧ dead (tasks s) a = false.
Proof.
  intros Hm Hr. unfold init_main.
  destruct (mem_alloc r h X sizeof_Task Hm) as (a & h' & -> & Ha & Hm'); [done|unfold cost, sizeof_Task; lia|].
  rewrite (proj2 (Z.eqb_neq a 0)) by done. cbn [rbind incr sched_boot next_pid Z.ltb].
  exists a, h'. eexists. split; [done|]. split_and!; try done.
  - split; cbn [tasks current_task task_list next_pid sched_boot].
    + split; cbn [tasks fdtabs sched_boot].
      * split; [|repeat constructor; set_solver|by repeat constructor|done].
        split; [done|]. eexists. rewrite lookup_insert_eq. done.
      * intros x t _. destruct (decide (a = x)) as [->|Hne].
        { rewrite lookup_insert_eq. intros [= <-] Hf. by cbn in Hf. }
        { rewrite lookup_insert_ne by done. by rewrite lookup_empty. }
      * erewrite owned_single by apply lookup_insert_eq. cbn. exact Hm'.
    + by left.
    + unfold pids. rewrite omap_step, lookup_insert_eq. cbn. apply NoDup_singleton.
    + unfold pids. rewrite omap_step, lookup_insert_eq. cbn. by apply Forall_singleton.
    + intros x t Hx _ _. by apply list_elem_of_singleton in Hx.
  - unfold sched_getpid. cbn [current_task tasks sched_boot]. rewrite (proj2 (Z.eqb_neq a 0)) by done.
    by rewrite lookup_insert_eq.
  - unfold dead. cbn [tasks sched_boot]. by rewrite lookup_insert_eq.
Qed.

(** ** Lookup by pid *)

Lemma find_loop_found T p a u : ∀ v cur b fuel,
  chain T cur (u ++ a :: v) b → Forall (λ x, x ≠ 0) (u ++ a :: v) →
  (∀ x t, x ∈ u → T !! x = Some t → pid t ≠ p) → pid <$> T !! a = Some p → (length u < fuel)%nat →
  find_loop fuel T p cur = Ret a.
Proof.
  induction u as [|y u IH]; intros v cur b [|fuel] Hc Hz Hu Ha Hf; cbn in Hf; try lia; cbn [find_loop];
    destruct Hc as (-> & t & Ht & Hc); apply Forall_cons in Hz as [Hy Hz];
    rewrite (proj2 (Z.eqb_neq _ 0)), Ht by done; cbn [rbind of_opt].
  - rewrite Ht in Ha. cbn in Ha. simplify_eq. by rewrite Z.eqb_refl.
  - rewrite (proj2 (Z.eqb_neq (pid t) p)) by (apply (Hu y); [by left|done]).
    eapply IH; [done|done| |done|lia]. intros x tx Hx. apply Hu. by right.
Qed.

Lemma find_loop_absent T a l p fuel : ∀ x, ring T a l → p ∉ pids T l → x ∈ l →
  find_loop fuel T p x = Diverges.
Proof.
  induction fuel as [|fuel IH]; intros x Hr Hp Hx; [done|]. cbn [find_loop].
  pose proof (ring_nonnull _ _ _ Hr) as Hz. rewrite Forall_forall in Hz.
  destruct (ring_lookup _ _ _ _ Hr Hx) as [t Ht]. rewrite (proj2 (Z.eqb_neq x 0)), Ht by auto.
  cbn [rbind of_opt]. rewrite (proj2 (Z.eqb_neq (pid t) p)).
  - apply IH; [done|done|]. by eapply ring_closed.
  - intros <-. apply Hp. apply list_elem_of_omap. exists x. by rewrite Ht.
Qed.

Lemma kill_inv r X h s l a t : sched_inv r X h s l → tasks s !! a = Some t →
  sched_inv r X h (set_tasks s (<[a := set_state TASK_DEAD t]> (tasks s))) l.
Proof.
  intros [Hc Hcur Hp Hrg Hrun] Ht.
  assert (Hpe : pids (<[a := set_state TASK_DEAD t]> (tasks s)) l = pids (tasks s) l).
  { apply pids_ext. intros x _. destruct (decide (a = x)) as [->|Hne].
    - by rewrite lookup_insert_eq, Ht.
    - by rewrite lookup_insert_ne. }
  split; cbn [tasks set_tasks task_list current_task next_pid]; rewrite ?Hpe; try done.
  - eapply core_ext; [exact Hc|done|]. intros x. cbn. destruct (decide (a = x)) as [->|Hne].
    + by rewrite lookup_insert_eq, Ht.
    + by rewrite lookup_insert_ne.
  - intros x tx Hx Htx Hst. destruct (decide (a = x)) as [->|Hne].
    + rewrite lookup_insert_eq in Htx. by injection Htx as <-.
    + rewrite lookup_insert_ne in Htx by done. by apply (Hrun x tx).
Qed.

(** Looking up a pid that exists finds its task after at most one round, and [kill_task]
    marks exactly that task dead and keeps the invariant. *)
Theorem kill_task_kills r X h s l a t :
  sched_inv r X h s l → a ∈ l → tasks s !! a = Some t → ∀ fuel, (length l ≤ fuel)%nat →
  let s' := set_tasks s (<[a := set_state TASK_DEAD t]> (tasks s)) in
  find_task_by_pid fuel (pid t) s = Ret a ∧ kill_task fuel (pid t) s = Ret s' ∧ sched_inv r X h s' l.
Proof.
  intros Hi Ha Ht fuel Hf. pose proof (c_ring _ _ _ _ _ _ (si_core _ _ _ _ _ Hi)) as Hr.
  pose proof (si_pids _ _ _ _ _ Hi) as Hn. pose proof (ring_nonnull _ _ _ Hr) as Hz.
  apply list_elem_of_split in Ha as (u & v & ->).
  assert (Hfind : find_task_by_pid fuel (pid t) s = Ret a).
  { unfold find_task_by_pid. eapply (find_loop_found (tasks s) (pid t) a u v); [apply Hr|done| |by rewrite Ht|].
    - intros x tx Hx Htx Heq. unfold pids in Hn. rewrite omap_app, omap_step, Ht in Hn. cbn in Hn.
      apply NoDup_app in Hn as (_ & Hd & _). apply (Hd (pid t)); [|by left].
      apply list_elem_of_omap. exists x. rewrite Htx. cbn. by rewrite Heq.
    - rewrite length_app in Hf. cbn in Hf. lia. }
  split; [done|]. split; [|by apply kill_inv]. unfold kill_task. rewrite Hfind. cbn [rbind].
  rewrite (proj2 (Z.eqb_neq a 0)) by (rewrite Forall_forall in Hz; apply Hz; set_solver).
  rewrite Ht. cbn [rbind of_opt]. destruct (decide (state t = TASK_DEAD)) as [Hd|Hd].
  - rewrite <- Hd, set_state_id, insert_id by done. by destruct s.
  - unfold upd. by rewrite Ht.
Qed.

(** The task list is a ring, and the search stops only at a match or at a null link: for
    a pid that no task has, [find_task_by_pid], and with it [kill_task] and [wait_task],
    never returns. *)
Theorem absent_pid_never_returns r X h s l p others :
  sched_inv r X h s l → p ∉ pids (tasks s) l → ∀ fuel,
  find_task_by_pid fuel p s = Diverges ∧ kill_task fuel p s = Diverges ∧
  wait_task fuel others p h s = Diverges.
Proof.
  intros Hi Hp fuel. pose proof (c_ring _ _ _ _ _ _ (si_core _ _ _ _ _ Hi)) as Hr.
  assert (Hd : ∀ n, find_task_by_pid n p s = Diverges).
  { intros n. apply (find_loop_absent _ _ _ _ _ _ Hr Hp). destruct (ring_cons _ _ _ Hr) as [? ->]. by left. }
  split_and!; [done|unfold kill_task; by rewrite Hd|]. destruct fuel; cbn [wait_task]; [done|]. by rewrite Hd.
Qed.
End life.

(** ** A concrete run: the main task and one kernel task *)

Definition run1 : Heap * Sched :=
  match init_main (H0 := heap_allocator bi0) 0 0 h0 sched_boot with Ret x => x | _ => (h0, sched_boot) end.
Definition run2 : Heap * Sched :=
  match create_task_with_arg (H0 := heap_allocator bi0) 4096 8192 7 run1.1 run1.2 with
  | Ret (_, h, s) => (h, s) | _ => run1 end.
Definition main_addr : Z := task_list run1.2.
Definition task_addr : Z := default 0 (next <$> tasks run2.2 !! main_addr).
Notation inv0 := (sched_inv (H0 := heap_allocator bi0) (H1 := heap_allocator_spec bi0)).

Lemma mem_ok0 : mem_ok (H0 := heap_allocator bi0) (H1 := heap_allocator_spec bi0) 262000 h0 [].
Proof. exists ∅. split_and!; [apply h0_alloc_inv|constructor|constructor]. Qed.

Lemma run1_inv : inv0 261832 [] run1.1 run1.2 [main_addr].
Proof.
  destruct (init_main_spec (H0 := heap_allocator bi0) (H1 := heap_allocator_spec bi0) 262000 [] h0 0 0)
    as (a & h & s & He & Hi & _); [apply mem_ok0|done|].
  assert (run1 = (h, s)) as Hr by (unfold run1; by rewrite He).
  unfold main_addr. rewrite Hr. cbn [fst snd].
  assert (a = task_list s) as <-; [|exact Hi].
  destruct (ring_cons _ _ _ (c_ring _ _ _ _ _ _ (si_core _ _ _ _ _ Hi))) as [l' Hl]. congruence.
Qed.

Lemma create_task_correct_witness :
  ∃ a h' s' t, create_task_with_arg (H0 := heap_allocator bi0) 4096 8192 7 run1.1 run1.2 = Ret (2, h', s') ∧
    inv0 241568 [] h' s' [main_addr; a] ∧ new_task 4096 run1.2 s' [main_addr] a t ∧ task_start t = Call1 8192 7.
Proof.
  destruct (create_task_correct (H0 := heap_allocator bi0) (H1 := heap_allocator_spec bi0) 4096
              261832 [] run1.1 run1.2 [main_addr] 8192 7 run1_inv)
    as (a & h & s & t & He & Hi & Hn & Hst); [done|reflexivity|done|].
  exists a, h, s, t. split; [exact He|]. split; [exact Hi|]. split; [exact Hn|exact Hst].
Defined.

Lemma run2_inv : inv0 241568 [] run2.1 run2.2 [main_addr; task_addr].
Proof.
  destruct (create_with_arg_spec (H0 := heap_allocator bi0) (H1 := heap_allocator_spec bi0) 4096
              261832 [] run1.1 run1.2 [main_addr] 8192 7 run1_inv)
    as (a & h & s & t & He & Hi & _); [done|reflexivity|done|].
  assert (run2 = (h, s)) as Hr by (unfold run2; by rewrite He).
  unfold task_addr. rewrite Hr. cbn [fst snd].
  pose proof (c_ring _ _ _ _ _ _ (si_core _ _ _ _ _ Hi)) as Hring.
  destruct (ring_lookup _ _ _ main_addr Hring) as [tm Htm]; [by left|]. rewrite Htm. cbn.
  rewrite (ring_next _ _ [] main_addr a [] tm Hring Htm). exact Hi.
Qed.


Definition main_task : Task := default task_zero (tasks run2.2 !! main_addr).
(** The main task has exited. *)
Definition run3 : Sched := set_tasks run2.2 (<[main_addr := set_state TASK_DEAD main_task]> (tasks run2.2)).

Lemma main_task_lookup : tasks run2.2 !! main_addr = Some main_task.
Proof. vm_compute. reflexivity. Qed.

Lemma kill_task_kills_witness :
  find_task_by_pid 2 1 run2.2 = Ret main_addr ∧ kill_task 2 1 run2.2 = Ret run3 ∧
  inv0 241568 [] run2.1 run3 [main_addr; task_addr].
Proof.
  destruct (kill_task_kills (H0 := heap_allocator bi0) (H1 := heap_allocator_spec bi0)
              241568 [] run2.1 run2.2 [main_addr; task_addr] main_addr main_task run2_inv
              ltac:(by left) main_task_lookup 2 ltac:(done)) as (Hf & Hk & Hi).
  split; [exact Hf|]. split; [exact Hk|exact Hi].
Defined.

Lemma schedule_next_uses_freed_task_witness :
  schedule_next (H0 := heap_allocator bi0) run2.1 run3 = UB.
Proof.
  apply (schedule_next_uses_freed_task (H0 := heap_allocator bi0) (H1 := heap_allocator_spec bi0)
           241568 [] run2.1 run3 [main_addr; task_addr]).
  - apply kill_inv; [apply run2_inv|apply main_task_lookup].
  - replace (survivors (dead (tasks run3)) [main_addr; task_addr]) with [task_addr] by (vm_compute; reflexivity).
    replace (current_task run3) with main_addr by (vm_compute; reflexivity).
    intros Hin%list_elem_of_singleton. vm_compute in Hin. discriminate.
Defined.

Lemma round_robin_fair_witness :
  ∃ k h' s', (1 ≤ k ≤ 2)%nat ∧ yields (H0 := heap_allocator bi0) k run2.1 run2.2 = Ret (h', s') ∧
    current_task s' = main_addr.
Proof.
  apply (round_robin_fair (H0 := heap_allocator bi0) (H1 := heap_allocator_spec bi0)
           241568 [] run2.1 run2.2 [main_addr; task_addr] main_addr run2_inv).
  - constructor; [vm_compute; reflexivity|]. constructor; [vm_compute; reflexivity|constructor].
  - by left.
  - vm_compute. reflexivity.
Defined.

Lemma absent_pid_never_returns_witness :
  find_task_by_pid 100 42 run2.2 = Diverges ∧ kill_task 100 42 run2.2 = Diverges ∧
  wait_task (H0 := heap_allocator bi0) 100 (λ h s, (h, s)) 42 run2.1 run2.2 = Diverges.
Proof.
  apply (absent_pid_never_returns (H0 := heap_allocator bi0) (H1 := heap_allocator_spec bi0)
           241568 [] run2.1 run2.2 [main_addr; task_addr] 42 (λ h s, (h, s)) run2_inv).
  replace (pids (tasks run2.2) [main_addr; task_addr]) with [1; 2] by (vm_compute; reflexivity). set_solver.
Defined.

Lemma create_user_task_correct_witness :
  ∃ a h' s' t sp, create_user_task (H0 := heap_allocator bi0) 4096 4100 0x400000 65536 run1.1 run1.2 = Ret (2, h', s') ∧
    task_start t = Iret 0x400000 27 sp 35 ∧ new_task 4096 run1.2 s' [main_addr] a t.
Proof.
  destruct (create_user_task_correct (H0 := heap_allocator bi0) (H1 := heap_allocator_spec bi0) 4096 4100
              261832 [] run1.1 run1.2 [main_addr] 0x400000 65536 run1_inv)
    as (a & h & s & t & sp & He & _ & Hn & Hst & _); [done|reflexivity|done|done|].
  exists a, h, s, t, sp. split; [exact He|]. split; [exact Hst|exact Hn].
Defined.
