(* ===== verification/Elf.v ===== *)
(** * The ELF loader (kernel/userland/elf_loader.cpp)

    [data] is the object behind the pointer and [size] the length the caller gives.  A load
    outside the object is undefined.  The image is the block the bump allocator returns. *)
From S2P Require Import Prelude CString Bump.

(** A little-endian load of [n] bytes at offset [off]. *)
Definition ld (n : nat) (data : list Z) (off : Z) : res Z :=
  if (0 <=? off) && (off + Z.of_nat n <=? zlen data)
  then Ret (le_val (take n (drop (Z.to_nat off) data))) else UB.

Record Elf64_Ehdr := Ehdr { e_entry : Z; e_phoff : Z; e_phentsize : Z; e_phnum : Z }.
Record Elf64_Phdr := Phdr { p_offset : Z; p_vaddr : Z; p_filesz : Z; p_memsz : Z }.

Definition sizeof_Ehdr : Z := 64.
Definition PT_LOAD : Z := 1.
Definition UINT64_MAX : Z := 2 ^ 64 - 1.
Definition MAX_USER_IMAGE : Z := 64 * 1024 * 1024.

Definition is_valid_elf64 (data : list Z) : res bool :=
  let! m0 := bget data 0 in
  if negb (m0 =? 0x7f) then Ret false
  else
    let! m1 := bget data 1 in
    if negb (m1 =? 69) then Ret false
    else
      let! m2 := bget data 2 in
      if negb (m2 =? 76) then Ret false
      else let! m3 := bget data 3 in Ret (m3 =? 70).

Definition read_ehdr (data : list Z) : res Elf64_Ehdr :=
  let! entry := ld 8 data 24 in
  let! phoff := ld 8 data 32 in
  let! phentsize := ld 2 data 54 in
  let! phnum := ld 2 data 56 in
  Ret (Ehdr entry phoff phentsize phnum).

(** The program header [i]: [None] unless it is a PT_LOAD.  The product is an [int]. *)
Definition read_phdr (data : list Z) (eh : Elf64_Ehdr) (i : Z) : res (option Elf64_Phdr) :=
  if 2 ^ 31 <=? i * e_phentsize eh then UB
  else
    let off := e_phoff eh + i * e_phentsize eh in
    let! t := ld 4 data off in
    if negb (t =? PT_LOAD) then Ret None
    else
      let! o := ld 8 data (off + 8) in
      let! v := ld 8 data (off + 16) in
      let! f := ld 8 data (off + 32) in
      let! m := ld 8 data (off + 40) in
      Ret (Some (Phdr o v f m)).

(** One header of the first loop. *)
Definition span_step (mm : Z * Z) (ph : Elf64_Phdr) : Z * Z :=
  let '(mn, mx) := mm in
  let mn := if p_vaddr ph <? mn then p_vaddr ph else mn in
  let e := u64 (p_vaddr ph + p_memsz ph) in
  (mn, if mx <? e then e else mx).

Fixpoint span_loop (n : nat) (i : Z) (data : list Z) (eh : Elf64_Ehdr) (mm : Z * Z) : res (Z * Z) :=
  match n with
  | O => Ret mm
  | S n =>
      let! ph := read_phdr data eh i in
      span_loop n (i + 1) data eh (match ph with Some ph => span_step mm ph | None => mm end)
  end.

(** One header of the second loop; [None] is [return nullptr]. *)
Definition load_step (data : list Z) (size mn mem total : Z) (img : list Z) (ph : Elf64_Phdr)
  : res (option (list Z)) :=
  if size <? u64 (p_offset ph + p_filesz ph) then Ret None
  else
    let dest := u64 (mem + u64 (p_vaddr ph - mn)) in
    if u64 (mem + total) <? u64 (dest + p_filesz ph) then Ret None
    else let! img := memcpy img (dest - mem) data (p_offset ph) (p_filesz ph) in Ret (Some img).

Fixpoint load_loop (n : nat) (i : Z) (data : list Z) (eh : Elf64_Ehdr) (size mn mem total : Z)
    (img : list Z) : res (option (list Z)) :=
  match n with
  | O => Ret (Some img)
  | S n =>
      let! ph := read_phdr data eh i in
      match ph with
      | None => load_loop n (i + 1) data eh size mn mem total img
      | Some ph =>
          let! o := load_step data size mn mem total img ph in
          match o with
          | None => Ret None
          | Some img => load_loop n (i + 1) data eh size mn mem total img
          end
      end
  end.

(** The answer: entry point, block and its contents; the second component is [bump_ptr]. *)
Definition elf64_load_from_memory (bi : Boot) (data : option (list Z)) (size bump_ptr : Z)
  : res (option (Z * Z * list Z) * Z) :=
  match data with
  | None => Ret (None, bump_ptr)
  | Some data =>
      if size <? sizeof_Ehdr then Ret (None, bump_ptr)
      else
        let! ok := is_valid_elf64 data in
        if negb ok then Ret (None, bump_ptr)
        else
          let! eh := read_ehdr data in
          if (e_phoff eh =? 0) || (e_phnum eh =? 0) then Ret (None, bump_ptr)
          else if size <? u64 (e_phoff eh + e_phnum eh * e_phentsize eh) then Ret (None, bump_ptr)
          else
            let! (mn, mx) := span_loop (Z.to_nat (e_phnum eh)) 0 data eh (UINT64_MAX, 0) in
            if (mn =? UINT64_MAX) || (mx <=? mn) then Ret (None, bump_ptr)
            else
              let total := u64 (mx - mn) in
              if (total =? 0) || (MAX_USER_IMAGE <? total) then Ret (None, bump_ptr)
              else
                let '(mem, bump_ptr) := bump_alloc_alloc bi total 0x1000 bump_ptr in
                if mem =? 0 then Ret (None, bump_ptr)
                else
                  let! o := load_loop (Z.to_nat (e_phnum eh)) 0 data eh size mn mem total
                              (replicate (Z.to_nat total) 0) in
                  match o with
                  | None => Ret (None, bump_ptr)
                  | Some img =>
                      if (e_entry eh <? mn) || (mx <=? e_entry eh) then Ret (None, bump_ptr)
                      else
                        let entry := u64 (mem + u64 (e_entry eh - mn)) in
                        if (entry <? mem) || (u64 (mem + total) <=? entry) then Ret (None, bump_ptr)
                        else Ret (Some (entry, mem, img), bump_ptr)
                  end
  end.

(** ** The segments of a file *)

Fixpoint segments (n : nat) (i : Z) (data : list Z) (eh : Elf64_Ehdr) : res (list Elf64_Phdr) :=
  match n with
  | O => Ret []
  | S n =>
      let! ph := read_phdr data eh i in
      let! l := segments n (i + 1) data eh in
      Ret (match ph with Some ph => ph :: l | None => l end)
  end.

Fixpoint load_all (data : list Z) (size mn mem total : Z) (segs : list Elf64_Phdr) (img : list Z)
  : res (option (list Z)) :=
  match segs with
  | [] => Ret (Some img)
  | ph :: segs =>
      let! o := load_step data size mn mem total img ph in
      match o with None => Ret None | Some img => load_all data size mn mem total segs img end
  end.

Lemma loops_over_segments data eh size mn mem total n : ∀ i segs,
  segments n i data eh = Ret segs →
  (∀ mm, span_loop n i data eh mm = Ret (foldl span_step mm segs)) ∧
  (∀ img, load_loop n i data eh size mn mem total img = load_all data size mn mem total segs img).
Proof.
  induction n as [|n IH]; intros i segs He; cbn [segments span_loop load_loop] in *.
  { by injection He as <-. }
  apply rbind_Ret in He as (ph & -> & He). apply rbind_Ret in He as (l & Hl & He). injection He as <-.
  destruct (IH (i + 1) l Hl) as [IH1 IH2]. cbn [rbind]. split.
  - intros mm. rewrite IH1. by destruct ph.
  - intros img. destruct ph as [ph|]; [|apply IH2]. cbn [load_all].
    destruct (load_step data size mn mem total img ph) as [[img'|]| |]; cbn [rbind]; [apply IH2|done..].
Qed.

(** The header table lies in the object: every segment can be read. *)
Lemma ld_Ret n data off : 0 ≤ off → off + Z.of_nat n ≤ zlen data → Forall is_byte data →
  ∃ v, ld n data off = Ret v ∧ 0 ≤ v < 2 ^ (8 * Z.of_nat n).
Proof.
  intros H1 H2 Hb. unfold ld. rewrite !(proj2 (Z.leb_le _ _)) by done. eexists. split; [done|].
  assert (Hl : zlen (take n (drop (Z.to_nat off) data)) = Z.of_nat n)
    by (unfold zlen in *; rewrite length_take, length_drop; lia).
  rewrite <- Hl. apply le_val_bound. by apply Forall_take, Forall_drop.
Qed.

Definition u64_seg (ph : Elf64_Phdr) : Prop :=
  0 ≤ p_offset ph < 2 ^ 64 ∧ 0 ≤ p_vaddr ph < 2 ^ 64 ∧ 0 ≤ p_filesz ph < 2 ^ 64 ∧ 0 ≤ p_memsz ph < 2 ^ 64.

Lemma segments_Ret data eh n : ∀ i, Forall is_byte data → 0 ≤ i → 0 ≤ e_phoff eh →
  48 ≤ e_phentsize eh → e_phoff eh + (i + Z.of_nat n) * e_phentsize eh ≤ zlen data → zlen data < 2 ^ 31 →
  ∃ segs, segments n i data eh = Ret segs ∧ Forall u64_seg segs.
Proof.
  induction n as [|n IH]; intros i Hb Hi Ho Hp Hl Hd; cbn [segments]; [by exists []|].
  destruct (IH (i + 1)) as (segs & -> & Hs); [done|lia|done|done|lia|done|].
  assert (Hin : e_phoff eh + i * e_phentsize eh + 48 ≤ zlen data) by nia.
  assert (0 ≤ i * e_phentsize eh) by nia.
  unfold read_phdr. destruct (Z.leb_spec (2 ^ 31) (i * e_phentsize eh)); [lia|].
  destruct (ld_Ret 4 data (e_phoff eh + i * e_phentsize eh)) as (t & -> & _); [lia|lia|done|]. cbn [rbind].
  destruct (negb (t =? PT_LOAD)); cbn [rbind]; [by exists segs|].
  destruct (ld_Ret 8 data (e_phoff eh + i * e_phentsize eh + 8)) as (o & -> & ?); [lia|lia|done|].
  destruct (ld_Ret 8 data (e_phoff eh + i * e_phentsize eh + 16)) as (v & -> & ?); [lia|lia|done|].
  destruct (ld_Ret 8 data (e_phoff eh + i * e_phentsize eh + 32)) as (f & -> & ?); [lia|lia|done|].
  destruct (ld_Ret 8 data (e_phoff eh + i * e_phentsize eh + 40)) as (m & -> & ?); [lia|lia|done|].
  cbn [rbind]. eexists. split; [done|]. by constructor.
Qed.

(** ** The image of a file *)

(** The byte the segments put at offset [k]: the last one that covers it wins. *)
Definition seg_byte (data : list Z) (mn k : Z) (v : Z) (ph : Elf64_Phdr) : Z :=
  if (p_vaddr ph - mn <=? k) && (k <? p_vaddr ph - mn + p_filesz ph)
  then default 0 (data !! Z.to_nat (p_offset ph + (k - (p_vaddr ph - mn)))) else v.
Definition image_byte (data : list Z) (mn : Z) (segs : list Elf64_Phdr) (k : Z) : Z :=
  foldl (seg_byte data mn k) 0 segs.

(** What the second loop demands of a segment. *)
Definition seg_fits (size mn mx : Z) (ph : Elf64_Phdr) : bool :=
  (p_offset ph + p_filesz ph <=? size) && (p_vaddr ph + p_filesz ph <=? mx).
