(* ===== verification/ElfSpec.v ===== *)
(** * What the ELF loader loads *)
From S2P Require Import Prelude CString Bump HeapSpec Elf.

Definition seg_min (segs : list Elf64_Phdr) : Z := foldr Z.min UINT64_MAX (p_vaddr <$> segs).
Definition seg_max (segs : list Elf64_Phdr) : Z := foldr Z.max 0 ((λ ph, p_vaddr ph + p_memsz ph) <$> segs).

Definition no_wrap (ph : Elf64_Phdr) : Prop :=
  p_offset ph + p_filesz ph < 2 ^ 64 ∧ p_vaddr ph + p_memsz ph < 2 ^ 64.

Lemma span_fold segs : ∀ mn mx, Forall u64_seg segs → Forall no_wrap segs →
  mn ≤ UINT64_MAX → 0 ≤ mx →
  foldl span_step (mn, mx) segs = (Z.min mn (seg_min segs), Z.max mx (seg_max segs)).
Proof.
  induction segs as [|ph segs IH]; intros mn mx Hu Hw Hmn Hmx; cbn [foldl].
  { unfold seg_min, seg_max. cbn. f_equal; lia. }
  apply Forall_cons in Hu as [(? & ? & ? & ?) Hu]. apply Forall_cons in Hw as [[? ?] Hw].
  unfold span_step. rewrite u64_small by lia. unfold UINT64_MAX in *. rewrite IH; [|done|done| |].
  - unfold seg_min, seg_max. cbn [fmap list_fmap foldr]. f_equal; repeat case_match; bool_to_prop; lia.
  - repeat case_match; bool_to_prop; lia.
  - repeat case_match; bool_to_prop; lia.
Qed.

Lemma seg_bounds segs ph : ph ∈ segs → seg_min segs ≤ p_vaddr ph ∧ p_vaddr ph + p_memsz ph ≤ seg_max segs.
Proof.
  induction segs as [|x segs IH]; [set_solver|]. unfold seg_min, seg_max in *. cbn.
  intros [->|Hin]%elem_of_cons; [lia|]. specialize (IH Hin). lia.
Qed.

(** A copied range, seen byte by byte. *)
Lemma memcpy_lookup dst d src s n dst' k :
  memcpy dst d src s n = Ret dst' → 0 ≤ k < zlen dst →
  dst' !! Z.to_nat k =
    if (d <=? k) && (k <? d + n) then src !! Z.to_nat (s + (k - d)) else dst !! Z.to_nat k.
Proof.
  unfold memcpy. destruct (_ && _) eqn:E; [|done]. bool_to_prop. intros [= <-] Hk. unfold zlen in *.
  destruct (Z.leb_spec d k); cbn [andb].
  - rewrite lookup_app_r by (rewrite length_take; lia). rewrite length_take.
    destruct (Z.ltb_spec k (d + n)).
    + rewrite lookup_app_l by (rewrite length_take, length_drop; lia).
      rewrite lookup_take_lt by lia. rewrite lookup_drop. f_equal. lia.
    + rewrite lookup_app_r by (rewrite length_take, length_drop; lia).
      rewrite length_take, length_drop, lookup_drop. f_equal. lia.
  - rewrite lookup_app_l by (rewrite length_take; lia). by rewrite lookup_take_lt by lia.
Qed.

Section load.
Context (data : list Z) (size mn mx mem : Z).
Context (Hsize : 0 ≤ size ≤ zlen data) (Hdata : zlen data < 2 ^ 31).
Context (Hmx : mn ≤ mx < 2 ^ 64) (Hmem : 0 < mem) (Hroom : mem + (mx - mn) + 2 ^ 31 < 2 ^ 64).

Lemma load_step_spec img ph :
  zlen img = mx - mn → u64_seg ph → no_wrap ph → mn ≤ p_vaddr ph → p_vaddr ph + p_memsz ph ≤ mx →
  if seg_fits size mn mx ph then
    ∃ img', load_step data size mn mem (mx - mn) img ph = Ret (Some img') ∧ zlen img' = mx - mn ∧
      ∀ k v, 0 ≤ k < mx - mn → img !! Z.to_nat k = Some v → img' !! Z.to_nat k = Some (seg_byte data mn k v ph)
  else load_step data size mn mem (mx - mn) img ph = Ret None.
Proof.
  intros Hi (Ho & Hv & Hf & Hm) (Hw1 & Hw2) Hlo Hhi. unfold load_step, seg_fits.
  rewrite (u64_small (p_offset ph + p_filesz ph)) by lia.
  destruct (Z.leb_spec (p_offset ph + p_filesz ph) size), (Z.ltb_spec size (p_offset ph + p_filesz ph));
    try lia; cbn [andb]; [|done].
  rewrite (u64_small (p_vaddr ph - mn)), (u64_small (mem + (p_vaddr ph - mn))) by lia.
  rewrite (u64_small (mem + (mx - mn))), (u64_small (mem + (p_vaddr ph - mn) + _)) by lia.
  destruct (Z.leb_spec (p_vaddr ph + p_filesz ph) mx), (Z.ltb_spec (mem + (mx - mn)) (mem + (p_vaddr ph - mn) + p_filesz ph));
    try lia; [|done].
  replace (mem + (p_vaddr ph - mn) - mem) with (p_vaddr ph - mn) by lia.
  destruct (memcpy img (p_vaddr ph - mn) data (p_offset ph) (p_filesz ph)) as [img'| |] eqn:E;
    [|rewrite memcpy_Ret in E by lia; done..].
  exists img'. cbn [rbind]. split_and!; [done|by rewrite (memcpy_length _ _ _ _ _ _ E)|].
  intros k v Hk Hv'. rewrite (memcpy_lookup _ _ _ _ _ _ _ E) by lia. unfold seg_byte.
  destruct ((p_vaddr ph - mn <=? k) && (k <? p_vaddr ph - mn + p_filesz ph)) eqn:E'; [|done]. bool_to_prop.
  destruct (lookup_lt_is_Some_2 data (Z.to_nat (p_offset ph + (k - (p_vaddr ph - mn))))) as [b Hb];
    [unfold zlen in *; lia|]. by rewrite Hb.
Qed.

Lemma load_all_spec segs : ∀ img (f : Z → Z),
  zlen img = mx - mn → Forall u64_seg segs → Forall no_wrap segs →
  Forall (λ ph, mn ≤ p_vaddr ph ∧ p_vaddr ph + p_memsz ph ≤ mx) segs →
  (∀ k, 0 ≤ k < mx - mn → img !! Z.to_nat k = Some (f k)) →
  if forallb (seg_fits size mn mx) segs then
    ∃ img', load_all data size mn mem (mx - mn) segs img = Ret (Some img') ∧ zlen img' = mx - mn ∧
      ∀ k, 0 ≤ k < mx - mn → img' !! Z.to_nat k = Some (foldl (seg_byte data mn k) (f k) segs)
  else load_all data size mn mem (mx - mn) segs img = Ret None.
Proof.
  induction segs as [|ph segs IH]; intros img f Hi Hu Hw Hb Hf; cbn [forallb load_all foldl]; [by exists img|].
  apply Forall_cons in Hu as [Hu1 Hu]. apply Forall_cons in Hw as [Hw1 Hw]. apply Forall_cons in Hb as [[? ?] Hb].
  pose proof (load_step_spec img ph Hi Hu1 Hw1 ltac:(done) ltac:(done)) as Hs.
  destruct (seg_fits size mn mx ph); cbn [andb]; [|by rewrite Hs].
  destruct Hs as (img1 & -> & Hl1 & Hk1). cbn [rbind].
  apply (IH img1 (λ k, seg_byte data mn k (f k) ph)); [done..|]. intros k Hk. by apply Hk1, Hf.
Qed.
End load.

(** ** The loader *)

Definition magic_ok (data : list Z) : bool :=
  bool_decide (take 4 data = [0x7f; 69; 76; 70]).

Lemma is_valid_elf64_spec data : 64 ≤ zlen data → is_valid_elf64 data = Ret (magic_ok data).
Proof.
  intros Hl. destruct data as [|a [|b [|c [|d data]]]]; try (unfold zlen in Hl; cbn in Hl; lia).
  unfold is_valid_elf64.
  rewrite (proj2 (bget_Ret _ 0 a)), (proj2 (bget_Ret _ 1 b)), (proj2 (bget_Ret _ 2 c)), (proj2 (bget_Ret _ 3 d)) by done.
  cbn [rbind]. unfold magic_ok. cbn [take]. rewrite take_0.
  destruct (Z.eqb_spec a 0x7f) as [->|?]; cbn [negb]; [|by rewrite bool_decide_false by congruence].
  destruct (Z.eqb_spec b 69) as [->|?]; cbn [negb]; [|by rewrite bool_decide_false by congruence].
  destruct (Z.eqb_spec c 76) as [->|?]; cbn [negb]; [|by rewrite bool_decide_false by congruence].
  destruct (Z.eqb_spec d 70) as [->|?]; [by rewrite bool_decide_true|by rewrite bool_decide_false by congruence].
Qed.

(** A file the theorem speaks about: its header table is inside the file and no sum the loader computes wraps. *)
Record elf_file (data : list Z) (size : Z) (eh : Elf64_Ehdr) (segs : list Elf64_Phdr) : Prop := {
  ef_bytes : Forall is_byte data;
  ef_size : 64 ≤ size ≤ zlen data;
  ef_small : zlen data < 2 ^ 31;
  ef_ehdr : read_ehdr data = Ret eh;
  ef_ent : 48 ≤ e_phentsize eh;
  ef_table : e_phoff eh + e_phnum eh * e_phentsize eh < 2 ^ 64;
  ef_segs : segments (Z.to_nat (e_phnum eh)) 0 data eh = Ret segs;
  ef_wrap : Forall no_wrap segs
}.

(** The conditions under which the file is loaded. *)
Definition loadable (data : list Z) (size : Z) (eh : Elf64_Ehdr) (segs : list Elf64_Phdr) : bool :=
  let mn := seg_min segs in
  let mx := seg_max segs in
  magic_ok data && negb (e_phoff eh =? 0) && negb (e_phnum eh =? 0) &&
  (e_phoff eh + e_phnum eh * e_phentsize eh <=? size) &&
  negb (mn =? UINT64_MAX) && (mn <? mx) && (mx - mn <=? MAX_USER_IMAGE) &&
  forallb (seg_fits size mn mx) segs && (mn <=? e_entry eh) && (e_entry eh <? mx).

Lemma ehdr_bounds data eh : Forall is_byte data → 64 ≤ zlen data → read_ehdr data = Ret eh →
  0 ≤ e_entry eh < 2 ^ 64 ∧ 0 ≤ e_phoff eh < 2 ^ 64 ∧ 0 ≤ e_phentsize eh < 2 ^ 16 ∧ 0 ≤ e_phnum eh < 2 ^ 16.
Proof.
  intros Hb Hl. unfold read_ehdr.
  destruct (ld_Ret 8 data 24) as (v1 & -> & ?); [lia|lia|done|].
  destruct (ld_Ret 8 data 32) as (v2 & -> & ?); [lia|lia|done|].
  destruct (ld_Ret 2 data 54) as (v3 & -> & ?); [lia|lia|done|].
  destruct (ld_Ret 2 data 56) as (v4 & -> & ?); [lia|lia|done|].
  cbn [rbind]. intros [= <-]. done.
Qed.

(** The two loops and the entry check, once the header is accepted. *)
Lemma load_checked bi data size eh segs p :
  let mn := seg_min segs in
  let mx := seg_max segs in
  elf_file data size eh segs → Forall u64_seg segs → 0 < p → p + 2 ^ 32 < 2 ^ 64 →
  0 ≤ mn → mn < mx < 2 ^ 64 → mx - mn ≤ MAX_USER_IMAGE → 0 ≤ e_entry eh < 2 ^ 64 →
  let '(mem, p') := bump_alloc_alloc bi (mx - mn) 0x1000 p in
  (p ≤ mem ∧ mem `mod` 4096 = 0 ∧ mem + (mx - mn) ≤ p' ∧ mem + (mx - mn) + 2 ^ 31 < 2 ^ 64) ∧
  if forallb (seg_fits size mn mx) segs then
    ∃ img, load_loop (Z.to_nat (e_phnum eh)) 0 data eh size mn mem (mx - mn)
             (replicate (Z.to_nat (mx - mn)) 0) = Ret (Some img) ∧ zlen img = mx - mn ∧
      ∀ k, 0 ≤ k < mx - mn → img !! Z.to_nat k = Some (image_byte data mn segs k)
  else load_loop (Z.to_nat (e_phnum eh)) 0 data eh size mn mem (mx - mn)
         (replicate (Z.to_nat (mx - mn)) 0) = Ret None.
Proof.
  intros mn mx [Hb Hs Hd _ _ _ Hsegs Hw] Hu Hp Hroom Hmn Hmx Htot He. unfold MAX_USER_IMAGE in Htot.
  destruct (bump_alloc_alloc bi (mx - mn) 0x1000 p) as [mem p'] eqn:Eb.
  apply (bump_alloc_step bi (mx - mn) 12) in Eb as (Hm1 & Hm2 & Hm3 & _); [|lia|lia|lia|unfold bump_room; lia].
  change (2 ^ 12) with 4096 in *. split; [lia|].
  destruct (loops_over_segments data eh size mn mem (mx - mn) _ _ _ Hsegs) as [_ Hload]. rewrite Hload.
  apply (load_all_spec data size mn mx mem ltac:(lia) Hd ltac:(lia) ltac:(lia) ltac:(lia) segs
           _ (λ _, 0)); [|done|done| |].
  - unfold zlen. rewrite length_replicate. lia.
  - apply Forall_forall. intros ph Hph. by apply seg_bounds.
  - intros k Hk. apply lookup_replicate_2. lia.
Qed.


(** ** Concrete files *)

Definition mk_ehdr (entry phoff phentsize phnum : Z) : list Z :=
  [0x7f; 69; 76; 70] ++ replicate 12 0 ++ le_bytes 2 2 ++ le_bytes 2 62 ++ le_bytes 4 1 ++
  le_bytes 8 entry ++ le_bytes 8 phoff ++ le_bytes 8 0 ++ le_bytes 4 0 ++ le_bytes 2 64 ++
  le_bytes 2 phentsize ++ le_bytes 2 phnum ++ replicate 6 0.
Definition mk_phdr (offset vaddr filesz memsz : Z) : list Z :=
  le_bytes 4 1 ++ le_bytes 4 5 ++ le_bytes 8 offset ++ le_bytes 8 vaddr ++ le_bytes 8 vaddr ++
  le_bytes 8 filesz ++ le_bytes 8 memsz ++ le_bytes 8 4096.

(** One segment of four bytes at 0x400000, padded to sixteen. *)
Definition elf1 : list Z := mk_ehdr 0x400001 64 56 1 ++ mk_phdr 120 0x400000 4 16 ++ [144; 144; 235; 254].


(** Without the no-wrap condition the range checks do not protect the loader: a header table
    offset close to 2^64 passes the check and is read far outside the file, *)
Example phoff_wrap_reads_outside :
  elf64_load_from_memory bi0 (Some (mk_ehdr 0 (2 ^ 64 - 8) 8 1)) 64 0x300000 = UB.
Proof. vm_compute. reflexivity. Qed.

(** a header entry size below the size of a header lets the last header straddle the end, *)
Example phentsize_small_reads_outside :
  elf64_load_from_memory bi0 (Some (mk_ehdr 0 63 1 1)) 64 0x300000 = UB.
Proof. vm_compute. reflexivity. Qed.

(** and a segment offset close to 2^64 is copied from outside the file. *)
Example segment_offset_wrap_reads_outside :
  elf64_load_from_memory bi0
    (Some (mk_ehdr 0x400001 64 56 1 ++ mk_phdr (2 ^ 64 - 4) 0x400000 8 16)) 120 0x300000 = UB.
Proof. vm_compute. reflexivity. Qed.
