(* ===== verification/Syscalls.v ===== *)
(** * System calls (kernel/userland/syscalls.cpp)

    The kernel state joins the file systems (and with them the heap), the scheduler with its
    descriptor tables, the pipes and the terminals.  User pointers name typed objects of
    [umem]; a use of a pointer that names none, or of a byte outside the object, is
    undefined.  Results are 64-bit: [-1] is [2^64 - 1]. *)
From S2P Require Import Prelude CString Bump Heap HeapSpec Tty HanaPath BlockDev HanaFs Vfs Fdtable Sched Elf.

Record PipeObj := Pipe { p_buf : Z; p_bytes : list Z; cap : Z; rpos : Z; wpos : Z; refs : Z }.

Inductive uobj := UBytes (b : list Z) | UStat (st : hana_stat) | UInts (l : list Z).

Record Kernel (H D : Type) := KState {
  kvfs : Vfs H D;
  ksched : Sched;
  kpipes : gmap Z PipeObj;
  ktty : Tty;
  umem : gmap Z uobj
}.
Arguments KState {H D} _ _ _ _ _.
Arguments kvfs {H D} _.
Arguments ksched {H D} _.
Arguments kpipes {H D} _.
Arguments ktty {H D} _.
Arguments umem {H D} _.

(** The ELF loader takes its memory from the page allocator below the heap. *)
Class Loader (H : Type) := { elf_load : list Z → Z → H → res (Z * H) }.

#[export] Instance heap_loader (bi : Boot) : Loader Heap := {
  elf_load data size h :=
    let! (o, b) := elf64_load_from_memory bi (Some data) size (bump h) in
    Ret (match o with Some (entry, _, _) => entry | None => 0 end,
         {| hmem := hmem h; free_list := free_list h; heap_start := heap_start h;
            heap_size := heap_size h; bump := b |})
}.

Definition ERR : Z := 2 ^ 64 - 1.
Definition O_CREAT : Z := 0x40.
Definition O_TRUNC : Z := 0x200.
Definition O_APPEND : Z := 0x400.

Section sys.
Context {H D : Type} `{Allocator H} `{BlockDev D} `{FatFs H D} `{Loader H}.
Context (task_trampoline user_mode_entry_trampoline : Z).
(** What the rest of the system does while the caller is switched out, and the number of
    switches after which a wait is given up. *)
Context (others : Kernel H D → Kernel H D) (fuel : nat).
Notation K := (Kernel H D).

Definition kheap (k : K) : H := heap (fs (kvfs k)).
Definition set_kfs (k : K) (s : HanaFS H D) : K :=
  KState (set_fs (kvfs k) s) (ksched k) (kpipes k) (ktty k) (umem k).
Definition set_kheap (k : K) (h : H) : K := set_kfs k (HanaFs.set_heap (fs (kvfs k)) h).
Definition set_kvfs (k : K) (v : Vfs H D) : K := KState v (ksched k) (kpipes k) (ktty k) (umem k).
Definition set_ksched (k : K) (s : Sched) : K := KState (kvfs k) s (kpipes k) (ktty k) (umem k).
Definition set_kpipes (k : K) (p : gmap Z PipeObj) : K := KState (kvfs k) (ksched k) p (ktty k) (umem k).
Definition set_ktty (k : K) (t : Tty) : K := KState (kvfs k) (ksched k) (kpipes k) t (umem k).
Definition set_umem (k : K) (m : gmap Z uobj) : K := KState (kvfs k) (ksched k) (kpipes k) (ktty k) m.

Definition kalloc (n : Z) (k : K) : Z * K :=
  let '(p, h) := amalloc n (kheap k) in (p, set_kheap k h).
Definition kfree_nonnull (p : Z) (k : K) : K := if p =? 0 then k else set_kheap k (afree p (kheap k)).

(** The bytes of a user buffer, and a user string: the bytes up to the first NUL. *)
Definition ubytes (a : Z) (k : K) : res (list Z) :=
  match umem k !! a with Some (UBytes b) => Ret b | _ => UB end.
Definition ustr (a : Z) (k : K) : res (list Z) :=
  let! b := ubytes a k in
  if bool_decide (0 ∈ b) then Ret (cstr b) else UB.

(** A store to the entry [fd] of table [tbl]. *)
Definition put_fd (tbl fd : Z) (e : FDEntry) (k : K) : K :=
  set_ksched k (set_tabs (ksched k) (fd_put tbl fd e (fdtabs (ksched k)))).
Definition get_fd (tbl cnt fd : Z) (k : K) : res (option FDEntry) :=
  fdtable_get tbl cnt fd (fdtabs (ksched k)).

(** ** Reading and writing *)

(** The copy loops between a buffer and a file, from index [i], [n] bytes left. *)
Fixpoint copy_in (n : nat) (i : Z) (src dst : list Z) (off : Z) : res (list Z) :=
  match n with
  | O => Ret dst
  | S n =>
      let! b := bget src i in
      let! dst := bset dst (u64 (off + i)) b in
      copy_in n (i + 1) src dst off
  end.
Fixpoint copy_out (n : nat) (i : Z) (src : list Z) (off : Z) (dst : list Z) : res (list Z) :=
  match n with
  | O => Ret dst
  | S n =>
      let! b := bget src (u64 (off + i)) in
      let! dst := bset dst i b in
      copy_out n (i + 1) src off dst
  end.

(** The write loop of a pipe. *)
Fixpoint pipe_write (n : nat) (i : Z) (src : list Z) (p : PipeObj) (written : Z) : res (Z * PipeObj) :=
  match n with
  | O => Ret (written, p)
  | S n =>
      if cap p =? 0 then UB
      else
        let nx := u64 (wpos p + 1) `mod` cap p in
        if nx =? rpos p then Ret (written, p)
        else
          let! b := bget src i in
          let! bytes := bset (p_bytes p) (wpos p) b in
          pipe_write n (i + 1) src (Pipe (p_buf p) bytes (cap p) (rpos p) nx (refs p)) (written + 1)
  end.
Fixpoint pipe_read (n : nat) (i : Z) (p : PipeObj) (dst : list Z) : res (list Z) :=
  match n with
  | O => Ret dst
  | S n =>
      let! b := bget (p_bytes p) (u64 (rpos p + i) `mod` cap p) in
      let! dst := bset dst i b in
      pipe_read n (i + 1) p dst
  end.

Definition set_file (e : FDEntry) (b : Z) (bytes : list Z) (n p : Z) : FDEntry :=
  FD (fd_type e) (path e) (path_str e) b bytes n p (flags e) (pipe_obj e).

(** The growth of a file buffer to [needed] bytes; [None] when there is no memory. *)
Definition grow (e : FDEntry) (needed : Z) (k : K) : res (option FDEntry * K) :=
  if needed <=? len e then Ret (Some e, k)
  else
    let '(nb, k) := kalloc needed k in
    if nb =? 0 then Ret (None, k)
    else if zlen (buf_bytes e) <? len e then UB
    else
      let bytes := take (Z.to_nat (len e)) (buf_bytes e) ++ replicate (Z.to_nat (needed - len e)) 0 in
      Ret (Some (set_file e nb bytes needed (pos e)), kfree_nonnull (buf e) k).

Definition sys_write (tbl cnt fd b count : Z) (k : K) : res (Z * K) :=
  let! o := get_fd tbl cnt fd k in
  match o with
  | None => Ret (ERR, k)
  | Some e =>
      match fd_type e with
      | FD_TTY =>
          if b =? 0 then Ret (count, k)
          else let! s := ustr b k in let! t := tty_write (ktty k) s in Ret (count, set_ktty k t)
      | FD_PIPE_WRITE =>
          if pipe_obj e =? 0 then Ret (ERR, k)
          else
            let! p := of_opt (kpipes k !! pipe_obj e) in
            let! src := if count =? 0 then Ret [] else ubytes b k in
            let! (w, p) := pipe_write (Z.to_nat count) 0 src p 0 in
            Ret (w, set_kpipes k (<[pipe_obj e := p]> (kpipes k)))
      | FD_FILE =>
          let! (o, k) := grow e (u64 (pos e + count)) k in
          match o with
          | None => Ret (ERR, k)
          | Some e =>
              let! src := if count =? 0 then Ret [] else ubytes b k in
              let! bytes := copy_in (Z.to_nat count) 0 src (buf_bytes e) (pos e) in
              Ret (count, put_fd tbl fd (set_file e (buf e) bytes (len e) (u64 (pos e + count))) k)
          end
      | _ => Ret (ERR, k)
      end
  end.

Definition sys_read (tbl cnt fd b count : Z) (k : K) : res (Z * K) :=
  let! o := get_fd tbl cnt fd k in
  match o with
  | None => Ret (ERR, k)
  | Some e =>
      match fd_type e with
      | FD_FILE =>
          let avail := if pos e <? len e then len e - pos e else 0 in
          let n := if avail <? count then avail else count in
          let! k :=
            if (0 <? n) && negb (b =? 0) then
              let! dst := ubytes b k in
              let! dst := copy_out (Z.to_nat n) 0 (buf_bytes e) (pos e) dst in
              Ret (set_umem k (<[b := UBytes dst]> (umem k)))
            else Ret k in
          Ret (n, put_fd tbl fd (set_file e (buf e) (buf_bytes e) (len e) (u64 (pos e + n))) k)
      | FD_PIPE_READ =>
          if pipe_obj e =? 0 then Ret (ERR, k)
          else
            let! p := of_opt (kpipes k !! pipe_obj e) in
            if cap p =? 0 then UB
            else
              let avail := u64 (u64 (wpos p + cap p) - rpos p) `mod` cap p in
              let n := if avail <? count then avail else count in
              let! k :=
                if n =? 0 then Ret k
                else
                  let! dst := ubytes b k in
                  let! dst := pipe_read (Z.to_nat n) 0 p dst in
                  Ret (set_umem k (<[b := UBytes dst]> (umem k))) in
              let p := Pipe (p_buf p) (p_bytes p) (cap p) (u64 (rpos p + n) `mod` cap p) (wpos p) (refs p) in
              Ret (n, set_kpipes k (<[pipe_obj e := p]> (kpipes k)))
      | _ => Ret (ERR, k)
      end
  end.

(** ** Opening and closing *)

Definition sys_open (tbl cnt a fl : Z) (k : K) : res (Z * K) :=
  if a =? 0 then Ret (ERR, k)
  else
    let! p := ustr a k in
    let! (o, v) := vfs_get_file_alloc (Some p) (kvfs k) in
    let k := set_kvfs k v in
    let! k :=
      if bool_decide (o = None) && negb (Z.land fl O_CREAT =? 0) then
        let! (_, s) := hanafs_create_file (Some p) (fs (kvfs k)) in Ret (set_kfs k s)
      else Ret k in
    let! fd := fdtable_alloc_fd tbl cnt (fdtabs (ksched k)) in
    if fd <? 0 then Ret (ERR, match o with Some (d, _, _) => kfree_nonnull d k | None => k end)
    else
      let! e := of_opt ((fdtabs (ksched k) !! tbl) ≫= (λ es, es !! Z.to_nat fd)) in
      let '(pp, k) := kalloc (strlen p + 1) k in
      let '(d, bytes, n, k) :=
        match o with
        | Some (d, bytes, n) => if 0 <? n then (d, bytes, n, k) else (0, [], 0, kfree_nonnull d k)
        | None => (0, [], 0, k)
        end in
      let '(d, bytes, n, k) :=
        if negb (d =? 0) && negb (Z.land fl O_TRUNC =? 0) then (0, [], 0, kfree_nonnull d k)
        else (d, bytes, n, k) in
      let e := FD FD_FILE pp (if pp =? 0 then [] else p) d bytes n
                 (if Z.land fl O_APPEND =? 0 then 0 else n) fl (pipe_obj e) in
      Ret (u64 fd, put_fd tbl fd e k).

Definition sys_close (tbl cnt fd : Z) (k : K) : res (Z * K) :=
  let! o := get_fd tbl cnt fd k in
  match o with
  | None => Ret (ERR, k)
  | Some e =>
      let! k :=
        if bool_decide (fd_type e = FD_FILE) && negb (path e =? 0) then
          let! (_, s) := hanafs_write_file (Some (path_str e))
                           (if buf e =? 0 then None else Some (buf_bytes e)) (len e) (fs (kvfs k)) in
          Ret (set_kfs k s)
        else Ret k in
      let k := kfree_nonnull (buf e) (kfree_nonnull (path e) k) in
      Ret (0, put_fd tbl fd (FD FD_NONE 0 [] 0 [] 0 0 (flags e) (pipe_obj e)) k)
  end.

Definition sys_lseek (tbl cnt fd offset whence : Z) (k : K) : res (Z * K) :=
  let! o := get_fd tbl cnt fd k in
  match o with
  | Some e =>
      if decide (fd_type e = FD_FILE) then
        let np := if whence =? 0 then offset
                  else if whence =? 1 then i64 (pos e) + offset
                  else if whence =? 2 then i64 (len e) + offset
                  else 0 in
        if (np <? - 2 ^ 63) || (2 ^ 63 <=? np) then UB
        else if np <? 0 then Ret (ERR, k)
        else
          let np := if len e <? np then len e else np in
          Ret (np, put_fd tbl fd (set_file e (buf e) (buf_bytes e) (len e) np) k)
      else Ret (ERR, k)
  | None => Ret (ERR, k)
  end.

(** [dup2]: the path and the buffer are copied, [pipe_obj] is not.  A [newfd] outside the
    table is dereferenced. *)
Definition sys_dup2 (tbl cnt oldfd newfd : Z) (k : K) : res (Z * K) :=
  if oldfd =? newfd then Ret (u64 newfd, k)
  else
    let! olde := get_fd tbl cnt oldfd k in
    let! nde := get_fd tbl cnt newfd k in
    match olde with
    | None => Ret (ERR, k)
    | Some oe =>
        if decide (fd_type oe = FD_NONE) then Ret (ERR, k)
        else
          let! ne := of_opt nde in
          let '(ne, k) :=
            if decide (fd_type ne = FD_NONE) then (ne, k)
            else (FD FD_NONE 0 [] 0 [] 0 0 (flags ne) (pipe_obj ne),
                  kfree_nonnull (buf ne) (kfree_nonnull (path ne) k)) in
          let! (ne, k) :=
            if path oe =? 0 then Ret (ne, k)
            else
              let '(p, k) := kalloc (strlen (path_str oe) + 1) k in
              if p =? 0 then UB
              else Ret (FD (fd_type ne) p (path_str oe) (buf ne) (buf_bytes ne) (len ne) (pos ne)
                          (flags ne) (pipe_obj ne), k) in
          let! (ne, k) :=
            if (buf oe =? 0) || (len oe <=? 0) then Ret (ne, k)
            else
              let '(p, k) := kalloc (len oe) k in
              if (p =? 0) || (zlen (buf_bytes oe) <? len oe) then UB
              else Ret (FD (fd_type ne) (path ne) (path_str ne) p (take (Z.to_nat (len oe)) (buf_bytes oe))
                          (len oe) (pos ne) (flags ne) (pipe_obj ne), k) in
          let ne := FD (fd_type oe) (path ne) (path_str ne) (buf ne) (buf_bytes ne) (len ne)
                      (pos oe) (flags oe) (pipe_obj ne) in
          Ret (u64 newfd, put_fd tbl newfd ne k)
    end.

Definition sizeof_PipeObj : Z := 40.
Definition set_pipe (e : FDEntry) (t : FDType) (p : Z) : FDEntry :=
  FD t (path e) (path_str e) (buf e) (buf_bytes e) (len e) (pos e) (flags e) p.

Definition sys_pipe (tbl cnt a : Z) (k : K) : res (Z * K) :=
  if a =? 0 then Ret (ERR, k)
  else
    let! rd := fdtable_alloc_fd tbl cnt (fdtabs (ksched k)) in
    let! wr := fdtable_alloc_fd tbl cnt (fdtabs (ksched k)) in
    if (rd <? 0) || (wr <? 0) then Ret (ERR, k)
    else
      let '(p, k) := kalloc sizeof_PipeObj k in
      if p =? 0 then UB
      else
        let '(b, k) := kalloc 4096 k in
        let k := set_kpipes k (<[p := Pipe b (if b =? 0 then [] else replicate 4096 0) 4096 0 0 2]> (kpipes k)) in
        let! o := get_fd tbl cnt rd k in
        let! e := of_opt o in
        let k := put_fd tbl rd (set_pipe e FD_PIPE_READ p) k in
        let! o := get_fd tbl cnt wr k in
        let! e := of_opt o in
        let k := put_fd tbl wr (set_pipe e FD_PIPE_WRITE p) k in
        match umem k !! a with
        | Some (UInts (_ :: _ :: r)) => Ret (0, set_umem k (<[a := UInts (rd :: wr :: r)]> (umem k)))
        | _ => UB
        end.

(** ** Files by name *)

Definition put_stat (b : Z) (st : hana_stat) (k : K) : res K :=
  match umem k !! b with
  | Some (UStat _) => Ret (set_umem k (<[b := UStat st]> (umem k)))
  | _ => UB
  end.

Definition stat_path (p : list Z) (b : Z) (k : K) : res (Z * K) :=
  let! (o, s) := hanafs_stat (Some p) (fs (kvfs k)) in
  match o with
  | Some st => let! k := put_stat b st (set_kfs k s) in Ret (0, k)
  | None => Ret (ERR, set_kfs k s)
  end.

Definition sys_stat (a b : Z) (k : K) : res (Z * K) :=
  if (a =? 0) || (b =? 0) then Ret (ERR, k)
  else let! p := ustr a k in stat_path p b k.

Definition sys_fstat (tbl cnt fd b : Z) (k : K) : res (Z * K) :=
  let! o := get_fd tbl cnt fd k in
  match o with
  | Some e =>
      if b =? 0 then Ret (ERR, k)
      else if bool_decide (fd_type e = FD_FILE) && negb (path e =? 0) then stat_path (path_str e) b k
      else
        let! k := put_stat b (Stat (len e) 0 (if decide (fd_type e = FD_TTY) then 0x2000 else 0)) k in
        Ret (0, k)
  | None => Ret (ERR, k)
  end.

(** mkdir, rmdir and unlink share the shape [path ? (op(path) == 0 ? 0 : -1) : -1]. *)
Definition sys_path (op : option (list Z) → HanaFS H D → res (Z * HanaFS H D)) (a : Z) (k : K)
  : res (Z * K) :=
  if a =? 0 then Ret (ERR, k)
  else
    let! p := ustr a k in
    let! (rc, s) := op (Some p) (fs (kvfs k)) in
    Ret (if rc =? 0 then 0 else ERR, set_kfs k s).

(** ** Tasks *)

(** [schedule_next] for the current caller: a switch runs the others. *)
Definition yield_k (k : K) : res K :=
  let! (sw, h, s) := schedule_next (kheap k) (ksched k) in
  let k := set_ksched (set_kheap k h) s in
  Ret (if bool_decide (is_Some sw) then others k else k).

Definition mark_current (f : Task → Task) (k : K) : res K :=
  let s := ksched k in
  if current_task s =? 0 then Ret k
  else let! T := upd f (current_task s) (tasks s) in Ret (set_ksched k (set_tasks s T)).

Definition sys_execve (a : Z) (k : K) : res (Z * K) :=
  if a =? 0 then Ret (ERR, k)
  else
    let! p := ustr a k in
    let! (o, v) := vfs_get_file_alloc (Some p) (kvfs k) in
    let k := set_kvfs k v in
    match o with
    | None => Ret (ERR, k)
    | Some (d, bytes, n) =>
        if n =? 0 then Ret (ERR, kfree_nonnull d k)
        else
          let! (entry, h) := elf_load bytes n (kheap k) in
          let k := kfree_nonnull d (set_kheap k h) in
          if entry =? 0 then Ret (ERR, k)
          else
            let! (pid, h, s) := create_user_task task_trampoline user_mode_entry_trampoline entry
                                  (64 * 1024) (kheap k) (ksched k) in
            let k := set_ksched (set_kheap k h) s in
            if pid =? 0 then Ret (ERR, k)
            else
              let! k := mark_current (set_state TASK_DEAD) k in
              let! k := yield_k k in
              Ret (ERR, k)
    end.

Definition sys_exit (code : Z) (k : K) : res (Z * K) :=
  let! k := mark_current (λ t, set_state TASK_DEAD (set_exit code t)) k in
  let! k := yield_k k in
  Ret (0, k).

(** [while (t->state != TASK_DEAD) sched_yield();] *)
Fixpoint wait_dead (fuel : nat) (t : Z) (k : K) : res K :=
  match fuel with
  | O => Diverges
  | S fuel =>
      let! x := of_opt (tasks (ksched k) !! t) in
      if decide (state x = TASK_DEAD) then Ret k
      else let! k := yield_k k in wait_dead fuel t k
  end.

Definition sys_waitpid (p : Z) (k : K) : res (Z * K) :=
  let! t := find_task_by_pid (S (size (tasks (ksched k)))) p (ksched k) in
  if t =? 0 then Ret (ERR, k)
  else let! k := wait_dead fuel t k in Ret (u64 p, k).

(** ** The dispatcher *)

Definition syscall_dispatch (num a b c : Z) (k : K) : res (Z * K) :=
  let s := ksched k in
  if current_task s =? 0 then Ret (ERR, k)
  else
    let! cur := of_opt (tasks s !! current_task s) in
    if fds cur =? 0 then Ret (ERR, k)
    else
      let tbl := fds cur in
      let cnt := fd_count cur in
      if num =? 1 then sys_write tbl cnt (i32 a) b c k
      else if num =? 0 then sys_read tbl cnt (i32 a) b c k
      else if num =? 2 then sys_open tbl cnt a (i32 b) k
      else if num =? 59 then sys_execve a k
      else if num =? 3 then sys_close tbl cnt (i32 a) k
      else if num =? 8 then sys_lseek tbl cnt (i32 a) (i64 b) (i32 c) k
      else if num =? 33 then sys_dup2 tbl cnt (i32 a) (i32 b) k
      else if num =? 22 then sys_pipe tbl cnt a k
      else if num =? 4 then sys_stat a b k
      else if num =? 5 then sys_fstat tbl cnt (i32 a) b k
      else if num =? 60 then sys_exit (i32 a) k
      else if (num =? 61) || (num =? 20) then sys_waitpid (i32 a) k
      else if num =? 83 then sys_path hanafs_make_dir a k
      else if num =? 84 then sys_path hanafs_remove_dir a k
      else if num =? 87 then sys_path hanafs_unlink a k
      else Ret (ERR, k).
End sys.
