(* ===== verification/SyscallSpec.v ===== *)
(** * What the file system calls promise

    An open file descriptor behaves like a byte string with a cursor: [write] overwrites and
    extends, [read] returns the bytes at the cursor, [lseek] moves it within the file. *)
From S2P Require Import Prelude CString Bump Heap HeapSpec Tty HanaPath BlockDev HanaFs HanaInv HanaImage HanaOps Vfs Fdtable Sched SchedInv Elf ElfSpec Syscalls.

(** ** The copy loops are [memcpy] *)

Lemma bset_at b i v : 0 ≤ i < zlen b → bset b i v = Ret (<[Z.to_nat i := v]> b).
Proof. intros Hi. by apply bset_Ret. Qed.

Lemma zlen_insert {A} i (v : A) l : zlen (<[i := v]> l) = zlen l.
Proof. unfold zlen. by rewrite length_insert. Qed.

Lemma lookup_insert_list (l : list Z) i j v : (i < length l)%nat →
  <[i := v]> l !! j = if decide (i = j) then Some v else l !! j.
Proof. intros Hi. destruct (decide (i = j)) as [->|Hne]; [by apply list_lookup_insert_eq|by apply list_lookup_insert_ne]. Qed.

Lemma copy_in_lookup n : ∀ i src dst off, 0 ≤ i → 0 ≤ off → i + Z.of_nat n ≤ zlen src →
  off + i + Z.of_nat n ≤ zlen dst → zlen dst < 2 ^ 64 →
  ∃ dst', copy_in n i src dst off = Ret dst' ∧ zlen dst' = zlen dst ∧
    ∀ j, 0 ≤ j → dst' !! Z.to_nat j =
      if (off + i <=? j) && (j <? off + i + Z.of_nat n) then src !! Z.to_nat (i + (j - (off + i))) else dst !! Z.to_nat j.
Proof.
  induction n as [|n IH]; intros i src dst off Hi Ho Hs Hd Hb; cbn [copy_in].
  { exists dst. split_and!; [done|done|]. intros j Hj. destruct (_ && _) eqn:E; [|done]. bool_to_prop. lia. }
  destruct (lookup_lt_is_Some_2 src (Z.to_nat i)) as [v Hv]; [unfold zlen in Hs; lia|].
  rewrite (proj2 (bget_Ret src i v)) by done. cbn [rbind]. rewrite u64_small, bset_at by lia. cbn [rbind].
  destruct (IH (i + 1) src (<[Z.to_nat (off + i) := v]> dst) off) as (dst' & -> & Hl & Hk);
    [lia|done|lia|rewrite zlen_insert; lia|rewrite zlen_insert; lia|].
  exists dst'. split_and!; [done|by rewrite zlen_insert in Hl|]. intros j Hj. rewrite Hk by done.
  rewrite lookup_insert_list by (unfold zlen in Hd; lia).
  destruct (Z.leb_spec (off + (i + 1)) j), (Z.ltb_spec j (off + (i + 1) + Z.of_nat n)),
    (Z.leb_spec (off + i) j), (Z.ltb_spec j (off + i + Z.of_nat (S n))); cbn [andb]; try lia;
    try (f_equal; lia); destruct (decide _); try lia; try done.
  replace (i + (j - (off + i))) with i by lia. by rewrite Hv.
Qed.

Lemma copy_out_lookup n : ∀ i src dst off, 0 ≤ i → 0 ≤ off → off + i + Z.of_nat n ≤ zlen src →
  i + Z.of_nat n ≤ zlen dst → zlen src < 2 ^ 64 →
  ∃ dst', copy_out n i src off dst = Ret dst' ∧ zlen dst' = zlen dst ∧
    ∀ j, 0 ≤ j → dst' !! Z.to_nat j =
      if (i <=? j) && (j <? i + Z.of_nat n) then src !! Z.to_nat (off + i + (j - i)) else dst !! Z.to_nat j.
Proof.
  induction n as [|n IH]; intros i src dst off Hi Ho Hs Hd Hb; cbn [copy_out].
  { exists dst. split_and!; [done|done|]. intros j Hj. destruct (_ && _) eqn:E; [|done]. bool_to_prop. lia. }
  destruct (lookup_lt_is_Some_2 src (Z.to_nat (off + i))) as [v Hv]; [unfold zlen in Hs; lia|].
  rewrite u64_small, (proj2 (bget_Ret src (off + i) v)) by (lia || (split; [lia|done])). cbn [rbind].
  rewrite bset_at by lia. cbn [rbind].
  destruct (IH (i + 1) src (<[Z.to_nat i := v]> dst) off) as (dst' & -> & Hl & Hk);
    [lia|done|lia|rewrite zlen_insert; lia|done|].
  exists dst'. split_and!; [done|by rewrite zlen_insert in Hl|]. intros j Hj. rewrite Hk by done.
  rewrite lookup_insert_list by (unfold zlen in Hd; lia).
  destruct (Z.leb_spec (i + 1) j), (Z.ltb_spec j (i + 1 + Z.of_nat n)),
    (Z.leb_spec i j), (Z.ltb_spec j (i + Z.of_nat (S n))); cbn [andb]; try lia;
    try (f_equal; lia); destruct (decide _); try lia; try done.
  replace (off + i + (j - i)) with (off + i) by lia. by rewrite Hv.
Qed.

(** Two buffers that agree at every index. *)
Lemma buf_eq (a b : list Z) : (∀ j, 0 ≤ j → a !! Z.to_nat j = b !! Z.to_nat j) → a = b.
Proof. intros Hj. apply list_eq. intros i. specialize (Hj (Z.of_nat i) ltac:(lia)). by rewrite Nat2Z.id in Hj. Qed.

Lemma memcpy_lookup_all dst d src s n dst' j :
  memcpy dst d src s n = Ret dst' → 0 ≤ j →
  dst' !! Z.to_nat j = if (d <=? j) && (j <? d + n) then src !! Z.to_nat (s + (j - d)) else dst !! Z.to_nat j.
Proof.
  intros He Hj. destruct (Z_lt_le_dec j (zlen dst)); [by apply (memcpy_lookup _ _ _ _ _ _ _ He)|].
  pose proof (memcpy_length _ _ _ _ _ _ He) as Hl. unfold zlen in *.
  rewrite (lookup_ge_None_2 dst') by lia. unfold memcpy in He. destruct (_ && _) eqn:E in He; [|done].
  bool_to_prop. destruct (Z.leb_spec d j), (Z.ltb_spec j (d + n)); cbn;
    unfold zlen in *; try lia; by rewrite lookup_ge_None_2 by lia.
Qed.

Lemma copy_in_memcpy n src dst off : 0 ≤ off → n ≤ zlen src → 0 ≤ n →
  off + n ≤ zlen dst → zlen dst < 2 ^ 64 →
  copy_in (Z.to_nat n) 0 src dst off = memcpy dst off src 0 n.
Proof.
  intros. destruct (copy_in_lookup (Z.to_nat n) 0 src dst off) as (d1 & -> & _ & Hk); [lia..|].
  destruct (memcpy dst off src 0 n) as [d2| |] eqn:E; [|rewrite memcpy_Ret in E by lia; done..].
  f_equal. apply buf_eq. intros j Hj. rewrite Hk, (memcpy_lookup_all _ _ _ _ _ _ _ E) by done.
  rewrite Z2Nat.id, Z.add_0_r by lia. done.
Qed.

Lemma copy_out_memcpy n src dst off : 0 ≤ off → off + n ≤ zlen src → 0 ≤ n → n ≤ zlen dst → zlen src < 2 ^ 64 →
  copy_out (Z.to_nat n) 0 src off dst = memcpy dst 0 src off n.
Proof.
  intros. destruct (copy_out_lookup (Z.to_nat n) 0 src dst off) as (d1 & -> & _ & Hk); [lia..|].
  destruct (memcpy dst 0 src off n) as [d2| |] eqn:E; [|rewrite memcpy_Ret in E by lia; done..].
  f_equal. apply buf_eq. intros j Hj. rewrite Hk, (memcpy_lookup_all _ _ _ _ _ _ _ E) by done.
  rewrite Z2Nat.id, Z.add_0_r by lia. done.
Qed.

(** ** A descriptor as a byte string with a cursor *)

Inductive fcall := FWrite (bs : list Z) | FRead (n : Z) | FSeek (off whence : Z).

Definition afcall (x : fcall) (c : list Z) (p : Z) : Z * list Z * (list Z * Z) :=
  match x with
  | FWrite bs => (zlen bs, [], (take (Z.to_nat p) c ++ bs ++ drop (Z.to_nat (p + zlen bs)) c, p + zlen bs))
  | FRead n => let m := Z.min n (zlen c - p) in (m, take (Z.to_nat m) (drop (Z.to_nat p) c), (c, p + m))
  | FSeek off whence =>
      let np := if whence =? 0 then off else if whence =? 1 then p + off
                else if whence =? 2 then zlen c + off else 0 in
      if np <? 0 then (ERR, [], (c, p)) else (Z.min np (zlen c), [], (c, Z.min np (zlen c)))
  end.

Fixpoint afrun (xs : list fcall) (c : list Z) (p : Z) : list (Z * list Z) * (list Z * Z) :=
  match xs with
  | [] => ([], (c, p))
  | x :: xs =>
      let '(r, out, (c, p)) := afcall x c p in
      let '(l, cp) := afrun xs c p in ((r, out) :: l, cp)
  end.

(** The heap a run may use: every write may move the file to a new block. *)
Fixpoint fneed (xs : list fcall) (c : list Z) (p : Z) : Z :=
  match xs with
  | [] => 0
  | x :: xs =>
      let '(_, _, (c', p')) := afcall x c p in
      (match x with FWrite bs => zlen c + zlen bs + 64 | _ => 0 end) + fneed xs c' p'
  end.

Definition fcall_ok (x : fcall) : Prop :=
  match x with
  | FWrite bs => zlen bs < 2 ^ 60 ∧ Forall is_byte bs
  | FRead n => 0 ≤ n < 2 ^ 60
  | FSeek off _ => - 2 ^ 60 < off < 2 ^ 60
  end.

Section files.
Context {H D : Type} `{AllocatorSpec H} `{BlockDevSpec D} `{FatFs H D}.
Context (tbl cnt fd ub : Z).
Notation K := (Kernel H D).

(** The calls on the descriptor [fd], with a user buffer at [ub]. *)
Definition cfcall (x : fcall) (k : K) : res (Z * list Z * K) :=
  match x with
  | FWrite bs =>
      let! (r, k) := sys_write tbl cnt fd ub (zlen bs) (set_umem k (<[ub := UBytes bs]> (umem k))) in
      Ret (r, [], k)
  | FRead n =>
      let! (r, k) := sys_read tbl cnt fd ub n
                       (set_umem k (<[ub := UBytes (replicate (Z.to_nat n) 0)]> (umem k))) in
      let! b := ubytes ub k in
      Ret (r, take (Z.to_nat r) b, k)
  | FSeek off whence => let! (r, k) := sys_lseek tbl cnt fd off whence k in Ret (r, [], k)
  end.

Fixpoint cfrun (xs : list fcall) (k : K) : res (list (Z * list Z) * K) :=
  match xs with
  | [] => Ret ([], k)
  | x :: xs =>
      let! (r, out, k) := cfcall x k in
      let! (l, k) := cfrun xs k in
      Ret ((r, out) :: l, k)
  end.

Record fd_file (e : FDEntry) (c : list Z) (p : Z) : Prop := {
  ff_type : fd_type e = FD_FILE;
  ff_pos : pos e = p;
  ff_range : 0 ≤ p ≤ zlen c;
  ff_len : len e = zlen c;
  ff_bytes : take (length c) (buf_bytes e) = c;
  ff_cap : zlen (buf_bytes e) < 2 ^ 63;
  ff_isbyte : Forall is_byte (buf_bytes e);
  ff_null : buf e = 0 → c = []
}.

(** The descriptor holds the file [c] at cursor [p]; [O] is what else is allocated. *)
Record fd_at (r : Z) (O : list Z) (k : K) (c : list Z) (p : Z) (e : FDEntry) : Prop := {
  fa_entry : ∃ es, fdtabs (ksched k) !! tbl = Some es ∧ es !! Z.to_nat fd = Some e;
  fa_file : fd_file e c p;
  fa_mem : mem_ok r (kheap k) (nz (buf e) ++ O)
}.

(** What the calls leave alone: the files, the tasks and every other descriptor. *)
Record same_else (k k' : K) : Prop := {
  se_files : g_head (fs (kvfs k')) = g_head (fs (kvfs k));
  se_mounts : mounts (kvfs k') = mounts (kvfs k);
  se_tasks : tasks (ksched k') = tasks (ksched k);
  se_fds : ∀ t j, (t, j) ≠ (tbl, Z.to_nat fd) →
    (fdtabs (ksched k') !! t ≫= λ es, es !! j) = (fdtabs (ksched k) !! t ≫= λ es, es !! j)
}.

Definition same_name (e e' : FDEntry) : Prop := path e' = path e ∧ path_str e' = path_str e.

Lemma same_else_refl k : same_else k k.
Proof. done. Qed.
Lemma same_else_trans k1 k2 k3 : same_else k1 k2 → same_else k2 k3 → same_else k1 k3.
Proof.
  intros [A1 A2 A3 A4] [B1 B2 B3 B4]. split; try congruence. intros t j Hne. by rewrite B4, A4.
Qed.

Lemma put_fd_frame e (k : K) : same_else k (put_fd tbl fd e k).
Proof.
  split; try done. intros t j Hne. cbn. unfold fd_put.
  destruct (decide (tbl = t)) as [->|Ht]; [|by rewrite lookup_alter_ne].
  rewrite lookup_alter_eq. destruct (fdtabs (ksched k) !! t); [|done]. cbn.
  apply list_lookup_insert_ne. congruence.
Qed.

Lemma put_fd_entry e e' (k : K) es : fdtabs (ksched k) !! tbl = Some es → es !! Z.to_nat fd = Some e →
  ∃ es', fdtabs (ksched (put_fd tbl fd e' k)) !! tbl = Some es' ∧ es' !! Z.to_nat fd = Some e'.
Proof.
  intros Hes He. cbn. unfold fd_put. rewrite lookup_alter_eq, Hes. cbn. eexists. split; [done|].
  apply list_lookup_insert_eq. by eapply lookup_lt_Some.
Qed.

Lemma get_fd_entry (k : K) es e : tbl ≠ 0 → 0 ≤ fd < cnt → fdtabs (ksched k) !! tbl = Some es →
  es !! Z.to_nat fd = Some e → get_fd tbl cnt fd k = Ret (Some e).
Proof.
  intros Ht Hf Hes He. unfold get_fd, fdtable_get. rewrite (proj2 (Z.eqb_neq tbl 0)) by done.
  destruct (Z.ltb_spec fd 0); [lia|]. destruct (Z.leb_spec cnt fd); [lia|]. cbn [orb]. by rewrite Hes; cbn; rewrite He.
Qed.

Context (Htbl : tbl ≠ 0) (Hfd : 0 ≤ fd < cnt).

Lemma lseek_step r O k c p e off whence :
  fd_at r O k c p e → fcall_ok (FSeek off whence) → zlen c < 2 ^ 61 →
  let '(res, _, (c', p')) := afcall (FSeek off whence) c p in
  ∃ k' e', sys_lseek tbl cnt fd off whence k = Ret (res, k') ∧ fd_at r O k' c' p' e' ∧ same_else k k' ∧ same_name e e'.
Proof.
  intros [(es & Hes & He) [Hty Hp Hr Hl Hb Hc Hby Hnu] Hm] Hok Hz. cbn in Hok. cbn [afcall].
  unfold sys_lseek. rewrite (get_fd_entry k es e) by done. cbn [rbind]. rewrite decide_True by done.
  rewrite Hp, Hl. assert (Hi : ∀ z, 0 ≤ z < 2 ^ 63 → i64 z = z).
  { intros z Hz'. unfold i64, sgn, wrap. rewrite Z.mod_small by lia. change (2 ^ (64 - 1)) with (2 ^ 63).
    by rewrite (proj2 (Z.ltb_lt _ _)) by lia. }
  rewrite !Hi by lia. set (np := if whence =? 0 then _ else _).
  assert (Hnp : - 2 ^ 62 < np < 2 ^ 62) by (unfold np; repeat case_match; lia).
  destruct (Z.ltb_spec np (- 2 ^ 63)); [lia|]. destruct (Z.leb_spec (2 ^ 63) np); [lia|]. cbn [orb].
  destruct (Z.ltb_spec np 0).
  - exists k, e. split_and!; [done| |apply same_else_refl|done]. split; [eauto|done|done].
  - replace (if zlen c <? np then zlen c else np) with (Z.min np (zlen c))
      by (destruct (Z.ltb_spec (zlen c) np); lia).
    eexists _, _. split; [done|]. split; [|split].
    + split; [by eapply put_fd_entry| |done]. split; try done. cbn. lia.
    + apply put_fd_frame.
    + done.
Qed.

Lemma read_step r O k c p e n :
  fd_at r O k c p e → fcall_ok (FRead n) → zlen c < 2 ^ 61 → ub ≠ 0 →
  let '(res, out, (c', p')) := afcall (FRead n) c p in
  ∃ k' e', cfcall (FRead n) k = Ret (res, out, k') ∧ fd_at r O k' c' p' e' ∧ same_else k k' ∧ same_name e e'.
Proof.
  intros [(es & Hes & He) [Hty Hp Hr Hl Hb Hcp Hby Hnu] Hm] Hok Hz Hub. cbn in Hok. cbn [afcall cfcall].
  set (k1 := set_umem k _). unfold sys_read. rewrite (get_fd_entry k1 es e) by done. cbn [rbind].
  rewrite Hty, Hp, Hl.
  replace (if p <? zlen c then zlen c - p else 0) with (zlen c - p) by (destruct (Z.ltb_spec p (zlen c)); lia).
  replace (if zlen c - p <? n then zlen c - p else n) with (Z.min n (zlen c - p))
    by (destruct (Z.ltb_spec (zlen c - p) n); lia).
  set (m := Z.min n (zlen c - p)). assert (Hm0 : 0 ≤ m ≤ n ∧ p + m ≤ zlen c) by lia.
  assert (Hcap : zlen c ≤ zlen (buf_bytes e)).
  { rewrite <- Hb. unfold zlen. rewrite length_take. lia. }
  rewrite (proj2 (Z.eqb_neq ub 0)), andb_true_r by done.
  assert (Hout : ∃ dst, (if 0 <? m then
        let! dst := ubytes ub k1 in
        let! dst := copy_out (Z.to_nat m) 0 (buf_bytes e) p dst in
        Ret (set_umem k1 (<[ub := UBytes dst]> (umem k1))) else Ret k1)
      = Ret (set_umem k1 (<[ub := UBytes dst]> (umem k1))) ∧
      take (Z.to_nat m) dst = take (Z.to_nat m) (drop (Z.to_nat p) c)).
  { destruct (Z.ltb_spec 0 m).
    - unfold ubytes, k1. cbn [umem set_umem]. rewrite lookup_insert_eq. cbn [rbind].
      assert (Hzr : zlen (replicate (Z.to_nat n) 0) = n) by (unfold zlen; rewrite length_replicate; lia).
      rewrite copy_out_memcpy, memcpy_Ret by lia. cbn [rbind]. eexists. split; [done|].
      rewrite take_0, app_nil_l, take_app_length'.
      + rewrite <- Hb at 1. rewrite skipn_firstn_comm, firstn_firstn. f_equal. unfold zlen in *. lia.
      + rewrite length_take, length_drop. unfold zlen in *. lia.
    - exists (replicate (Z.to_nat n) 0). replace m with 0 by lia. split; [|done].
      unfold k1. cbn. by rewrite insert_insert_eq. }
  destruct Hout as (dst & -> & Hdst). cbn [rbind]. rewrite u64_small by lia.
  unfold ubytes at 1. cbn [umem set_umem put_fd set_ksched]. rewrite lookup_insert_eq. cbn [rbind].
  eexists _, _. split; [by rewrite Hdst|]. split; [|split].
  - split; [by eapply (put_fd_entry e)| |done]. split; try done. cbn. lia.
  - eapply same_else_trans; [|apply put_fd_frame]. done.
  - done.
Qed.

(** Growing a buffer pads the file with zeros up to the end of the write. *)
Lemma grow_spec r O (k : K) c p e needed :
  fd_file e c p → mem_ok r (kheap k) (nz (buf e) ++ O) → 0 ≤ needed < 2 ^ 62 → zlen c < 2 ^ 62 →
  needed + 64 ≤ r →
  ∃ e' k' B, grow e needed k = Ret (Some e', k') ∧
    e' = set_file e (buf e') B (Z.max needed (zlen c)) p ∧
    zlen B < 2 ^ 63 ∧ Forall is_byte B ∧ (buf e' = 0 → Z.max needed (zlen c) = 0) ∧ Z.max needed (zlen c) ≤ zlen B ∧
    take (Z.to_nat (Z.max needed (zlen c))) B = c ++ replicate (Z.to_nat (needed - zlen c)) 0 ∧
    mem_ok (r - (needed + 64)) (kheap k') (nz (buf e') ++ O) ∧
    same_else k k' ∧ ksched k' = ksched k ∧ umem k' = umem k.
Proof.
  intros [Hty Hp Hr Hl Hb Hcp Hby Hnu] Hm Hn Hz Hroom. unfold grow. rewrite Hl.
  assert (Hcap : zlen c ≤ zlen (buf_bytes e)) by (rewrite <- Hb; unfold zlen; rewrite length_take; lia).
  destruct (Z.leb_spec needed (zlen c)).
  - exists e, k, (buf_bytes e). rewrite Z.max_r by lia.
    replace (Z.to_nat (needed - zlen c)) with 0%nat by lia. rewrite app_nil_r.
    replace (Z.to_nat (zlen c)) with (length c) by (unfold zlen; lia).
    split_and!; try done; [| |eapply mem_le; [|exact Hm]; lia].
    + destruct e. unfold set_file. cbn in *. congruence.
    + intros Hb0. by rewrite (Hnu Hb0).
  - unfold kalloc. destruct (mem_alloc r (kheap k) _ needed Hm) as (nb & h & -> & Hnb & Hm'); [pose proof (zlen_nonneg c); lia|unfold cost; lia|].
    rewrite (proj2 (Z.eqb_neq nb 0)) by done. destruct (Z.ltb_spec (zlen (buf_bytes e)) (zlen c)); [lia|].
    eexists _, _, _. split; [done|]. cbn [buf set_file]. rewrite Hp, Z.max_l by lia.
    replace (take (Z.to_nat (zlen c)) (buf_bytes e)) with c by (unfold zlen; by rewrite Nat2Z.id).
    assert (Hlen : zlen (c ++ replicate (Z.to_nat (needed - zlen c)) 0) = needed)
      by (unfold zlen in *; rewrite length_app, length_replicate; lia).
    split_and!; try done; try lia.
    + apply Forall_app. split; [|by apply Forall_replicate].
      rewrite <- Hb. by apply Forall_take.
    + apply take_ge. unfold zlen in *. lia.
    + unfold kfree_nonnull, nz in *. rewrite (proj2 (Z.eqb_neq nb 0)) by done.
      destruct (Z.eqb_spec (buf e) 0) as [|Hb0]; cbn in Hm' |- *; [exact Hm'|].
      apply mem_free. eapply mem_perm; [|exact Hm']. by rewrite perm_swap.
    + unfold kfree_nonnull. by destruct (buf e =? 0).
    + unfold kfree_nonnull. by destruct (buf e =? 0).
    + unfold kfree_nonnull. by destruct (buf e =? 0).
Qed.

(** Overwriting in a padded buffer. *)
Lemma overwrite_content (c bs B : list Z) p :
  let M := Z.max (p + zlen bs) (zlen c) in
  0 ≤ p ≤ zlen c → M ≤ zlen B →
  take (Z.to_nat M) B = c ++ replicate (Z.to_nat (p + zlen bs - zlen c)) 0 →
  let c' := take (Z.to_nat p) c ++ bs ++ drop (Z.to_nat (p + zlen bs)) c in
  zlen c' = M ∧
  take (length c') (take (Z.to_nat p) B ++ take (Z.to_nat (zlen bs)) (drop (Z.to_nat 0) bs) ++
                    drop (Z.to_nat (p + zlen bs)) B) = c'.
Proof.
  intros M Hp HM HB c'. pose proof (zlen_nonneg bs).
  assert (Hl : zlen c' = M).
  { unfold c', M, zlen in *. rewrite !length_app, length_take, length_drop. lia. }
  split; [done|]. replace (length c') with (Z.to_nat M) by (unfold zlen in *; lia).
  rewrite drop_0. replace (take (Z.to_nat (zlen bs)) bs) with bs
    by (unfold zlen; by rewrite Nat2Z.id, firstn_all).
  assert (HpB : take (Z.to_nat p) B = take (Z.to_nat p) c).
  { transitivity (take (Z.to_nat p) (take (Z.to_nat M) B)).
    - rewrite firstn_firstn. f_equal. unfold M, zlen in *. lia.
    - rewrite HB. apply take_app_le. unfold zlen in *. lia. }
  rewrite HpB. unfold c'.
  assert (Hpl : length (take (Z.to_nat p) c) = Z.to_nat p) by (rewrite length_take; unfold zlen in *; lia).
  rewrite take_app_ge by (rewrite Hpl; unfold M; lia). rewrite Hpl. f_equal.
  rewrite take_app_ge by (unfold M, zlen in *; lia). f_equal.
  transitivity (drop (Z.to_nat (p + zlen bs)) (take (Z.to_nat M) B)).
  - rewrite skipn_firstn_comm. f_equal. unfold M, zlen in *. lia.
  - rewrite HB. destruct (Z_le_gt_dec (p + zlen bs) (zlen c)).
    + rewrite drop_app_le by (unfold zlen in *; lia).
      replace (Z.to_nat (p + zlen bs - zlen c)) with 0%nat by lia. by rewrite app_nil_r.
    + rewrite !drop_ge; [done|unfold zlen in *; lia|].
      rewrite length_app, length_replicate. unfold zlen in *. lia.
Qed.

Lemma write_step r O k c p e bs :
  fd_at r O k c p e → fcall_ok (FWrite bs) → zlen c < 2 ^ 61 → zlen c + zlen bs + 64 ≤ r →
  let '(res, out, (c', p')) := afcall (FWrite bs) c p in
  ∃ k' e', cfcall (FWrite bs) k = Ret (res, out, k') ∧
    fd_at (r - (zlen c + zlen bs + 64)) O k' c' p' e' ∧ same_else k k' ∧ same_name e e'.
Proof.
  intros [(es & Hes & He) Hf Hm] Hok Hz Hroom. cbn in Hok. cbn [afcall cfcall].
  pose proof Hf as [Hty Hp Hr Hl Hb Hcp Hby Hnu]. destruct Hok as [Hok Hbs]. pose proof (zlen_nonneg bs).
  set (k1 := set_umem k _). unfold sys_write. rewrite (get_fd_entry k1 es e) by done. cbn [rbind].
  rewrite Hty, Hp, u64_small by lia.
  destruct (grow_spec r O k1 c p e (p + zlen bs) Hf Hm) as (e' & k' & B & -> & He' & HB1 & HBb & HB0 & HB2 & HB3 & Hm' & Hse & Hs' & Hu');
    [lia|lia|lia|].
  cbn [rbind]. assert (Hsrc : (if zlen bs =? 0 then Ret [] else ubytes ub k') = Ret bs).
  { destruct (Z.eqb_spec (zlen bs) 0) as [H0'|_]; [by destruct bs|].
    unfold ubytes. rewrite Hu'. unfold k1. cbn [umem set_umem]. by rewrite lookup_insert_eq. }
  rewrite Hsrc. cbn [rbind]. rewrite He'. cbn [buf_bytes pos len set_file].
  rewrite copy_in_memcpy, memcpy_Ret by lia. cbn [rbind]. rewrite u64_small by lia.
  destruct (overwrite_content c bs B p Hr HB2 HB3) as [Hc1 Hc2].
  eexists _, _. split; [done|]. split; [|split].
  - split.
    + eapply (put_fd_entry e). { rewrite Hs'. exact Hes. } { exact He. }
    + split; cbn [set_file fd_type pos len buf_bytes buf]; try done.
      * rewrite Hc1. lia.
      * rewrite zlen_app, zlen_app, drop_0. unfold zlen in *. rewrite !length_take, length_drop. lia.
      * rewrite drop_0. repeat (apply Forall_app; split); by try first [apply Forall_take|apply Forall_drop].
      * intros Hb0. rewrite Hb0 in HB0. rewrite HB0 in Hc1 by done. by destruct (take _ c ++ _).
    + cbn. eapply mem_le; [|exact Hm']. lia.
  - eapply same_else_trans; [|apply put_fd_frame]. eapply same_else_trans; [|exact Hse]. done.
  - done.
Qed.

Lemma fneed_nonneg xs : ∀ c p, 0 ≤ fneed xs c p.
Proof.
  induction xs as [|x xs IH]; intros c p; cbn [fneed]; [lia|].
  destruct (afcall x c p) as [[? ?] [c' p']]. specialize (IH c' p').
  destruct x as [bs| |]; [pose proof (zlen_nonneg c); pose proof (zlen_nonneg bs)|..]; lia.
Qed.

Lemma fd_at_le r r' O k c p e : r' ≤ r → fd_at r O k c p e → fd_at r' O k c p e.
Proof. intros Hr [He Hf Hm]. split; [done|done|by eapply mem_le]. Qed.

(** One call, and how much the file may grow. *)
Lemma fcall_step r O k c p e x :
  fd_at r O k c p e → fcall_ok x → ub ≠ 0 → zlen c < 2 ^ 61 → fneed [x] c p ≤ r →
  let '(res, out, (c', p')) := afcall x c p in
  ∃ k' e', cfcall x k = Ret (res, out, k') ∧ fd_at (r - fneed [x] c p) O k' c' p' e' ∧ same_else k k' ∧ same_name e e' ∧
    zlen c' ≤ zlen c + fneed [x] c p.
Proof.
  intros Hf Hok Hub Hz Hr. pose proof (ff_range _ _ _ (fa_file _ _ _ _ _ _ Hf)) as Hp. destruct x as [bs|n|off wh].
  - cbn [fneed afcall] in Hr |- *. rewrite Z.add_0_r in *.
    destruct (write_step r O k c p e bs Hf Hok Hz Hr) as (k' & e' & He & Hf' & Hs & Hnm). exists k', e'.
    split_and!; [done|done|done|done|]. pose proof (zlen_nonneg bs).
    unfold zlen in *. rewrite !length_app, length_take, length_drop. lia.
  - pose proof (read_step r O k c p e n Hf Hok Hz Hub) as Hs. cbn [fneed afcall] in *. rewrite Z.sub_0_r.
    destruct Hs as (k' & e' & He & Hf' & Hs & Hnm). exists k', e'. split_and!; [done|done|done|done|lia].
  - pose proof (lseek_step r O k c p e off wh Hf Hok Hz) as Hs. cbn [fneed cfcall] in *.
    destruct (afcall (FSeek off wh) c p) as [[res out] [c' p']] eqn:Ea.
    destruct Hs as (k' & e' & -> & Hf' & Hs & Hnm). cbn [rbind]. rewrite Z.sub_0_r.
    assert (out = [] ∧ c' = c) as [-> ->] by (cbn in Ea; destruct (_ <? 0) in Ea; by simplify_eq).
    exists k', e'. split_and!; [done|done|done|done|lia].
Qed.

Lemma fd_run_spec xs : ∀ r O k c p e,
  fd_at r O k c p e → Forall fcall_ok xs → ub ≠ 0 → fneed xs c p ≤ r → zlen c + fneed xs c p < 2 ^ 61 →
  let '(outs, (c', p')) := afrun xs c p in
  ∃ k' e', cfrun xs k = Ret (outs, k') ∧ fd_at (r - fneed xs c p) O k' c' p' e' ∧ same_else k k' ∧ same_name e e'.
Proof.
  induction xs as [|x xs IH]; intros r O k c p e Hf Hok Hub Hr Hz.
  { exists k, e. split_and!; [done| |apply same_else_refl|done]. cbn [fneed]. by rewrite Z.sub_0_r. }
  apply Forall_cons in Hok as [Hx Hok]. pose proof (fcall_step r O k c p e x Hf Hx Hub) as Hs.
  cbn [afrun cfrun fneed] in *. destruct (afcall x c p) as [[res out] [c' p']].
  pose proof (fneed_nonneg xs c' p') as Hn. rewrite Z.add_0_r in Hs. set (w := match x with FWrite _ => _ | _ => _ end) in *.
  assert (Hw : 0 ≤ w) by (unfold w; destruct x as [bs| |]; [pose proof (zlen_nonneg c); pose proof (zlen_nonneg bs)|..]; lia).
  destruct Hs as (k' & e' & -> & Hf' & Hse & Hnm & Hl); [lia|lia|]. cbn [rbind].
  specialize (IH (r - w) O k' c' p' e' Hf' Hok Hub ltac:(lia) ltac:(lia)).
  destruct (afrun xs c' p') as [outs [c2 p2]]. destruct IH as (k2 & e2 & -> & Hf2 & Hse2 & Hnm2). cbn [rbind].
  exists k2, e2. split_and!; [done| |by eapply same_else_trans|unfold same_name in *; naive_solver congruence].
  eapply fd_at_le; [|exact Hf2]. lia.
Qed.
End files.

(** C11. An open file is a byte string with a cursor: any sequence of [write], [read] and
    [lseek] on a descriptor returns what the byte string predicts (the length written, the
    bytes at the cursor, the clamped position), with no access outside the buffers, while
    the files on disk, the tasks and every other descriptor stay as they were. *)
Theorem fd_calls_refine_file {H D} `{AllocatorSpec H} `{BlockDevSpec D} `{FatFs H D}
    tbl cnt fd ub xs r O (k : Kernel H D) c p e :
  tbl ≠ 0 → 0 ≤ fd < cnt → ub ≠ 0 → fd_at tbl fd r O k c p e → Forall fcall_ok xs →
  fneed xs c p ≤ r → zlen c + fneed xs c p < 2 ^ 61 →
  let '(outs, (c', p')) := afrun xs c p in
  ∃ k' e', cfrun tbl cnt fd ub xs k = Ret (outs, k') ∧
    fd_at tbl fd (r - fneed xs c p) O k' c' p' e' ∧ same_else tbl fd k k' ∧ same_name e e'.
Proof. intros Ht Hfd Hub Hf Hok Hr Hz. by apply (fd_run_spec tbl cnt fd ub Ht Hfd xs r O k c p e). Qed.
