(* ===== verification/FileCalls.v ===== *)
(** * Opening, writing and closing a file through the system calls *)
From S2P Require Import Prelude CString Bump Heap HeapSpec Tty HanaPath BlockDev HanaFs HanaInv HanaImage HanaOps HanaRefine Vfs VfsSpec Fdtable Sched SchedInv Elf Syscalls SyscallSpec.

Section calls.
Context {H D : Type} `{AllocatorSpec H} `{BlockDevSpec D} `{FatFs H D}.
Notation K := (Kernel H D).

(** A read leaves the list of files alone. *)
Lemma get_file_head p (s s' : HanaFS H D) o :
  hanafs_get_file_alloc (Some p) s = Ret (o, s') → g_head s' = g_head s.
Proof.
  unfold hanafs_get_file_alloc, kmalloc, kfree. intros He.
  repeat first [ progress inv_ret | case_match ]; simplify_eq; done.
Qed.

(** The bytes a path holds; an absent path and a directory hold none. *)
Definition old_content (ip : list Z) (s : HanaFS H D) : list Z :=
  match fs_abs s !! ip with Some (File c) => c | _ => [] end.

(** A path that only HanaFS knows: no mount covers it, it is no /proc or /dev name, and no
    FAT volume holds it. *)
Record plain_path (p : list Z) (ms : list MountEntry) : Prop := {
  pp_mount : find_mount p ms = None;
  pp_proc : ∀ s : HanaFS H D, procfs_get_file_alloc p s = (None, s);
  pp_dev : ∀ s : HanaFS H D, devfs_get_file_alloc p s = (None, s);
  pp_fat : ∀ s : HanaFS H D, fat32_get_file_alloc p s = Ret (None, s)
}.

Lemma fallback_none p (v : Vfs H D) s s1 r :
  plain_path p (mounts v) → hanafs_get_file_alloc (Some p) (fs v) = Ret (r, s) →
  nonempty r s = (None, s1) → get_file_fallback p v = Ret (None, set_fs v s1).
Proof.
  intros [_ Hpr Hdv Hft] He Hn. unfold get_file_fallback. rewrite He. cbn [rbind]. rewrite Hn.
  rewrite bool_decide_false by (by intros []). rewrite Hpr. cbn [nonempty].
  rewrite bool_decide_false by (by intros []). rewrite Hdv. cbn [nonempty].
  rewrite bool_decide_false by (by intros []). rewrite Hft. done.
Qed.

Lemma vfs_get_plain r X (v : Vfs H D) p drv pb ip :
  fs_inv r X (fs v) → path_arg p drv pb ip → plain_path p (mounts v) →
  zlen p + zlen (old_content ip (fs v)) + 140 ≤ r →
  let c := old_content ip (fs v) in
  let r' := r - (zlen p + zlen c + 140) in
  ∃ s', g_head s' = g_head (fs v) ∧
    if decide (c = []) then vfs_get_file_alloc (Some p) v = Ret (None, set_fs v s') ∧ fs_inv r' X s'
    else ∃ b, vfs_get_file_alloc (Some p) v = Ret (Some (b, c, zlen c), set_fs v s') ∧ b ≠ 0 ∧ fs_inv r' (b :: X) s'.
Proof.
  intros Hi Hp Hpl Hr c r'. unfold vfs_get_file_alloc. rewrite (pp_mount _ _ Hpl).
  pose proof (zlen_nonneg c) as Hcn. fold c in Hr.
  pose proof (get_file_spec r X (fs v) p drv pb ip Hi Hp ltac:(lia)) as Hg.
  unfold c, old_content in *. destruct (fs_abs (fs v) !! ip) as [[|f]|]; swap 1 2.
  - destruct (Hg Hr) as (b & s' & He & Hb & _ & Hi'). pose proof (get_file_head _ _ _ _ He) as Hh.
    destruct (decide (f = [])) as [Hf|Hf].
    + exists (kfree b s'). split; [done|]. split; [|by apply kfree_step].
      subst f. by apply (fallback_none p v s' _ _ Hpl He).
    + exists s'. split; [done|]. exists b. split_and!; [|done|done]. unfold get_file_fallback. rewrite He.
      cbn [rbind nonempty]. destruct (Z.ltb_spec 0 (zlen f)) as [_|Hn].
      * by rewrite bool_decide_true by eauto.
      * destruct f; [done|]. rewrite zlen_cons in Hn. pose proof (zlen_nonneg f). lia.
  - destruct Hg as (s' & He & _ & Hi'). pose proof (get_file_head _ _ _ _ He) as Hh.
    exists s'. split; [done|]. rewrite decide_True by done.
    split; [by apply (fallback_none p v s' _ _ Hpl He)|]. unfold r'. eapply fs_inv_le; [|exact Hi']. lia.
  - destruct Hg as (s' & He & _ & Hi'). pose proof (get_file_head _ _ _ _ He) as Hh.
    exists s'. split; [done|]. rewrite decide_True by done.
    split; [by apply (fallback_none p v s' _ _ Hpl He)|]. unfold r'. eapply fs_inv_le; [|exact Hi']. lia.
Qed.

(** ** Closing *)

Lemma kfree_nonnull_inv r p X (k : K) : fs_inv r (nz p ++ X) (fs (kvfs k)) →
  fs_inv r X (fs (kvfs (kfree_nonnull p k))) ∧ fs_abs (fs (kvfs (kfree_nonnull p k))) = fs_abs (fs (kvfs k)) ∧
  ksched (kfree_nonnull p k) = ksched k.
Proof.
  unfold kfree_nonnull, nz. destruct (p =? 0); [done|]. intros Hi. split; [|done].
  by apply (kfree_step r p X (fs (kvfs k))).
Qed.

Lemma close_spec r X (k : K) tbl cnt fd c cur e drv pb ip :
  tbl ≠ 0 → 0 ≤ fd < cnt →
  (∃ es, fdtabs (ksched k) !! tbl = Some es ∧ es !! Z.to_nat fd = Some e) →
  fd_file e c cur → zlen c < 2 ^ 31 →
  path e ≠ 0 → path_arg (path_str e) drv pb ip →
  fs_inv r (nz (path e) ++ nz (buf e) ++ X) (fs (kvfs k)) →
  fits (518 + zlen c) (fs (kvfs k)) → op_room (path_str e) (zlen c) (fs (kvfs k)) ≤ r →
  ∃ k', sys_close tbl cnt fd k = Ret (0, k') ∧
    fs_abs (fs (kvfs k')) = <[ip := File c]> (fs_abs (fs (kvfs k))) ∧
    fs_inv (r - op_room (path_str e) (zlen c) (fs (kvfs k))) X (fs (kvfs k')) ∧
    (∃ es, fdtabs (ksched k') !! tbl = Some es ∧ fd_type <$> es !! Z.to_nat fd = Some FD_NONE).
Proof.
  intros Ht Hfd (es & Hes & He) Hf Hc31 Hpe Hpa Hi Hfit Hroom.
  pose proof Hf as [Hty _ _ Hl Hb _ Hby Hb0]. unfold sys_close. rewrite (get_fd_entry tbl cnt fd k es e) by done. cbn [rbind].
  rewrite bool_decide_true by done. rewrite (proj2 (Z.eqb_neq (path e) 0)) by done. cbn [negb andb]. rewrite Hl.
  assert (Hbb : zlen c ≤ zlen (buf_bytes e)) by (rewrite <- Hb; unfold zlen; rewrite length_take; lia).
  assert (Hw : ∃ s', hanafs_write_file (Some (path_str e)) (if buf e =? 0 then None else Some (buf_bytes e)) (zlen c) (fs (kvfs k))
      = Ret (0, s') ∧ fs_abs s' = <[ip := File c]> (fs_abs (fs (kvfs k))) ∧
      fs_inv (r - op_room (path_str e) (zlen c) (fs (kvfs k))) (nz (path e) ++ nz (buf e) ++ X) s').
  { destruct (write_file_spec r _ (fs (kvfs k)) (path_str e) (if buf e =? 0 then None else Some (buf_bytes e)) (zlen c) drv pb ip Hi Hpa)
      as (s' & He' & Ha & Hi'); [pose proof (zlen_nonneg c); lia| |done|done|].
    - intros src Hs. destruct (buf e =? 0); [done|]. injection Hs as <-. done.
    - exists s'. split_and!; [done| |done]. rewrite Ha. f_equal. f_equal. unfold file_content.
      destruct (Z.eqb_spec (buf e) 0) as [Hz|_]; [by rewrite Hb0|]. unfold zlen. by rewrite Nat2Z.id. }
  destruct Hw as (s' & -> & Ha & Hi'). cbn [rbind].
  destruct (kfree_nonnull_inv _ _ _ (set_kfs k s') Hi') as (Hi1 & Ha1 & Hs1).
  destruct (kfree_nonnull_inv _ _ _ _ Hi1) as (Hi2 & Ha2 & Hs2).
  set (k2 := kfree_nonnull (buf e) _) in *. set (e' := FD FD_NONE _ _ _ _ _ _ _ _).
  assert (Hes2 : fdtabs (ksched k2) !! tbl = Some es) by by rewrite Hs2, Hs1.
  destruct (put_fd_entry tbl fd e e' k2 es Hes2 He) as (es' & Hes' & He').
  exists (put_fd tbl fd e' k2). split_and!; [done| |exact Hi2|exists es'; by rewrite He'].
  change (fs (kvfs (put_fd tbl fd e' k2))) with (fs (kvfs k2)). by rewrite Ha2, Ha1.
Qed.

(** ** Opening *)

Lemma old_content_bytes r X (s : HanaFS H D) ip : fs_inv r X s →
  Forall is_byte (old_content ip s) ∧ zlen (old_content ip s) < 2 ^ 32.
Proof.
  intros [_ He _]. unfold old_content, fs_abs.
  destruct (fs_map (g_head s) !! ip) as [[|c]|] eqn:Hm; [done| |done].
  unfold fs_map in Hm. apply elem_of_list_to_map_2, list_elem_of_fmap in Hm as (e & Heq & Hin).
  rewrite Forall_forall in He. destruct (He e Hin) as [_ _ _ Hl Hx Hb _].
  injection Heq as _ Hn. unfold node_of in Hn. destruct (is_dir e); [done|]. injection Hn as ->.
  split; [done|lia].
Qed.

Definition open_content (fl : Z) (c : list Z) : list Z := if Z.land fl O_TRUNC =? 0 then c else [].
Definition open_pos (fl : Z) (c : list Z) : Z := if Z.land fl O_APPEND =? 0 then 0 else zlen c.

(** What [open] may cost. *)
Definition open_room (p c : list Z) (s : HanaFS H D) : Z := 2 * zlen p + zlen c + 210 + op_room p 0 s.

(** The two steps before the descriptor is filled: read the file, create it if it is missing. *)
Lemma open_fetch r X (k : K) p drv pb ip fl :
  fs_inv r X (fs (kvfs k)) → path_arg p drv pb ip → plain_path p (mounts (kvfs k)) →
  fits 518 (fs (kvfs k)) → open_room p (old_content ip (fs (kvfs k))) (fs (kvfs k)) ≤ r →
  let c := old_content ip (fs (kvfs k)) in
  ∃ o d k', vfs_get_file_alloc (Some p) (kvfs k) = Ret (o, set_fs (kvfs k) d) ∧
    (if bool_decide (o = None) && negb (Z.land fl O_CREAT =? 0) then
       let! (_, s) := hanafs_create_file (Some p) d in Ret (set_kfs (set_kvfs k (set_fs (kvfs k) d)) s)
     else Ret (set_kvfs k (set_fs (kvfs k) d))) = Ret k' ∧
    ksched k' = ksched k ∧ mounts (kvfs k') = mounts (kvfs k) ∧ umem k' = umem k ∧
    (∀ x, <[ip := File x]> (fs_abs (fs (kvfs k'))) = <[ip := File x]> (fs_abs (fs (kvfs k)))) ∧
    grows 518 (fs (kvfs k)) (fs (kvfs k')) ∧
    ∃ b, o = (if decide (c = []) then None else Some (b, c, zlen c)) ∧ (c ≠ [] → b ≠ 0) ∧
         fs_inv (r - (zlen p + zlen c + 140 + op_room p 0 (fs (kvfs k)))) ((if decide (c = []) then [] else [b]) ++ X) (fs (kvfs k')).
Proof.
  intros Hi Hp Hpl Hfit Hr c. unfold open_room in Hr. fold c in Hr.
  pose proof (zlen_nonneg p). pose proof (zlen_nonneg c).
  assert (Hop : 0 ≤ op_room p 0 (fs (kvfs k))) by (unfold op_room; pose proof (zlen_nonneg (records (g_head (fs (kvfs k))))); lia).
  destruct (vfs_get_plain r X (kvfs k) p drv pb ip Hi Hp Hpl) as (d & Hh & Hget); [fold c; lia|]. fold c in Hget.
  assert (Ha : fs_abs d = fs_abs (fs (kvfs k))) by (unfold fs_abs; by rewrite Hh).
  assert (Hg0 : grows 518 (fs (kvfs k)) d) by (unfold grows; rewrite Hh; lia).
  assert (Hfd : fits 518 d) by (unfold fits in *; by rewrite Hh).
  destruct (decide (c = [])) as [Hc|Hc].
  - destruct Hget as [He Hi']. exists None, d. rewrite bool_decide_true by done. cbn [andb].
    destruct (Z.land fl O_CREAT =? 0); cbn [negb].
    + exists (set_kvfs k (set_fs (kvfs k) d)). split_and!; try done; [intros x; cbn; by rewrite Ha|].
      exists 0. split_and!; [done|done|]. eapply fs_inv_le; [|exact Hi']. lia.
    + unfold hanafs_create_file.
      destruct (write_file_grows _ X d p None 0 drv pb ip Hi' Hp) as (s' & -> & Ha' & Hi2 & Hg); [lia|done|done| |].
      { unfold op_room in *. rewrite Hh. lia. }
      cbn [rbind]. eexists. split_and!; [done|done|done|done|done| | |].
      * intros x. cbn. rewrite Ha', Ha. by rewrite insert_insert_eq.
      * destruct Hg as [G1 G2]. unfold grows. cbn. rewrite Hh in G1, G2. split; [|done]. exact G1.
      * exists 0. split_and!; [done|done|]. cbn. eapply fs_inv_le; [|exact Hi2]. unfold op_room. rewrite Hh. lia.
  - destruct Hget as (b & He & Hb & Hi'). exists (Some (b, c, zlen c)), d. rewrite bool_decide_false by done. cbn [andb].
    exists (set_kvfs k (set_fs (kvfs k) d)). split_and!; try done; [intros x; cbn; by rewrite Ha|].
    exists b. split_and!; [done|done|]. cbn. eapply fs_inv_le; [|exact Hi']. lia.
Qed.

(** The lowest free descriptor above the standard three. *)
Definition lowest_free (es : list FDEntry) (fd cnt : Z) : Prop :=
  3 ≤ fd < cnt ∧ fd_type <$> es !! Z.to_nat fd = Some FD_NONE ∧
  ∀ j, 3 ≤ j < fd → fd_type <$> es !! Z.to_nat j ≠ Some FD_NONE.

Lemma alloc_fd_spec F tbl cnt es fd : tbl ≠ 0 → F !! tbl = Some es → cnt ≤ zlen es → lowest_free es fd cnt →
  fdtable_alloc_fd tbl cnt F = Ret fd ∧ ∃ e, es !! Z.to_nat fd = Some e.
Proof.
  intros Ht HF Hc (Hr & Hfree & Hlow). unfold fdtable_alloc_fd. rewrite (proj2 (Z.eqb_neq tbl 0)), HF by done.
  cbn [rbind of_opt]. destruct (es !! Z.to_nat fd) as [e|] eqn:He; [|done]. cbn in Hfree. simplify_eq.
  destruct (alloc_scan_spec (Z.to_nat (cnt - 3)) 3 es) as [[_ Hall]|(j & ej & -> & Hj & Hej & Hn & Hall)]; [lia|lia| |].
  { exfalso. by apply (Hall fd e); [lia|done|]. }
  split; [|eauto]. f_equal. destruct (Z_lt_le_dec j fd) as [Hlt|Hge].
  - exfalso. apply (Hlow j); [lia|]. rewrite Hej. cbn. by rewrite Hn.
  - destruct (Z_lt_le_dec fd j); [|lia]. exfalso. by apply (Hall fd e); [lia|done|].
Qed.

Lemma kalloc_inv r X (k : K) n : fs_inv r X (fs (kvfs k)) → 0 < n < 2 ^ 62 → n + 64 ≤ r →
  ∃ a h, kalloc n k = (a, set_kheap k h) ∧ a ≠ 0 ∧ fs_inv (r - (n + 64)) (a :: X) (HanaFs.set_heap (fs (kvfs k)) h).
Proof.
  intros Hi Hn Hr. destruct (kmalloc_step r X (fs (kvfs k)) n Hi Hn) as (a & h & He & Ha & Hi'); [unfold cost; lia|].
  exists a, h. unfold kalloc, kheap. unfold kmalloc in He.
  destruct (amalloc n (heap (fs (kvfs k)))) as [a' h'] eqn:E. injection He as -> Hh.
  split_and!; [|done|exact Hi']. f_equal. unfold set_kheap. f_equal. by rewrite Hh.
Qed.

Lemma open_spec r X (k : K) tbl cnt a fl p drv pb ip es fd :
  tbl ≠ 0 → fdtabs (ksched k) !! tbl = Some es → cnt ≤ zlen es → lowest_free es fd cnt → cnt < 2 ^ 31 →
  a ≠ 0 → ustr a k = Ret p → path_arg p drv pb ip → plain_path p (mounts (kvfs k)) →
  fs_inv r X (fs (kvfs k)) → fits 518 (fs (kvfs k)) →
  open_room p (old_content ip (fs (kvfs k))) (fs (kvfs k)) ≤ r →
  let c := old_content ip (fs (kvfs k)) in
  let c0 := open_content fl c in
  ∃ k' e, sys_open tbl cnt a fl k = Ret (fd, k') ∧
    (∃ es', fdtabs (ksched k') !! tbl = Some es' ∧ es' !! Z.to_nat fd = Some e) ∧
    fd_file e c0 (open_pos fl c0) ∧ path e ≠ 0 ∧ path_str e = p ∧
    fs_inv (r - open_room p c (fs (kvfs k))) (nz (path e) ++ nz (buf e) ++ X) (fs (kvfs k')) ∧
    (∀ x, <[ip := File x]> (fs_abs (fs (kvfs k'))) = <[ip := File x]> (fs_abs (fs (kvfs k)))) ∧
    grows 518 (fs (kvfs k)) (fs (kvfs k')).
Proof.
  intros Ht Hes Hcnt Hlow Hc31 Ha Hstr Hp Hpl Hi Hfit Hr c c0.
  destruct (old_content_bytes r X _ ip Hi) as [Hcb Hcl]. fold c in Hcb, Hcl.
  destruct (open_fetch r X k p drv pb ip fl Hi Hp Hpl Hfit Hr) as (o & d & k1 & Hget & Hcr & Hs1 & Hm1 & Hu1 & Hins & Hg & b & Ho & Hb & Hi1).
  fold c in Ho, Hb, Hi1. unfold open_room in *. fold c in Hr.
  pose proof (zlen_nonneg p). pose proof (zlen_nonneg c).
  unfold sys_open. rewrite (proj2 (Z.eqb_neq a 0)), Hstr by done. cbn [rbind]. rewrite Hget. cbn [rbind].
  change (fs (kvfs (set_kvfs k (set_fs (kvfs k) d)))) with d. rewrite Hcr. cbn [rbind].
  destruct (alloc_fd_spec (fdtabs (ksched k1)) tbl cnt es fd Ht) as [Hal [e0 He0]]; [by rewrite Hs1|done|done|].
  rewrite Hal. cbn [rbind]. pose proof Hlow as (Hfd & _). destruct (Z.ltb_spec fd 0); [lia|].
  assert (Hent : fdtabs (ksched k1) !! tbl = Some es) by by rewrite Hs1.
  rewrite Hent. cbn [option_bind mbind]. rewrite He0. cbn [of_opt rbind].
  destruct (kalloc_inv _ _ k1 (strlen p + 1) Hi1) as (pp & h & -> & Hpp & Hi2);
    [unfold strlen; pose proof (pa_len _ _ _ _ Hp); lia|unfold strlen; lia|].
  set (k2 := set_kheap k1 h).
  assert (Hfin : ∃ db k3, (let '(d, bytes, n, k) :=
        match o with
        | Some (d, bytes, n) => if 0 <? n then (d, bytes, n, k2) else (0, [], 0, kfree_nonnull d k2)
        | None => (0, [], 0, k2)
        end in
      if negb (d =? 0) && negb (Z.land fl O_TRUNC =? 0) then (0, [], 0, kfree_nonnull d k) else (d, bytes, n, k))
      = (db, c0, zlen c0, k3) ∧ (db = 0 → c0 = []) ∧ ksched k3 = ksched k1 ∧
      fs_abs (fs (kvfs k3)) = fs_abs (fs (kvfs k1)) ∧ g_head (fs (kvfs k3)) = g_head (fs (kvfs k1)) ∧
      fs_inv (r - (2 * zlen p + zlen c + 210 + op_room p 0 (fs (kvfs k)))) (pp :: nz db ++ X) (fs (kvfs k3))).
  { unfold c0, open_content. rewrite Ho. unfold strlen in Hi2. destruct (decide (c = [])) as [Hc|Hc].
    - assert (Hc0 : (if Z.land fl O_TRUNC =? 0 then c else []) = []) by by destruct (Z.land fl O_TRUNC =? 0).
      rewrite Hc0. exists 0, k2. split_and!; try done. eapply fs_inv_le; [|exact Hi2]. lia.
    - assert (Hn0 : 0 < zlen c) by (destruct c; [done|]; rewrite zlen_cons; pose proof (zlen_nonneg c); lia).
      rewrite (proj2 (Z.ltb_lt 0 (zlen c))) by done. specialize (Hb Hc).
      rewrite (proj2 (Z.eqb_neq b 0)) by done. cbn [negb andb]. destruct (Z.land fl O_TRUNC =? 0); cbn [negb].
      + exists b, k2. split_and!; try done. unfold nz. rewrite (proj2 (Z.eqb_neq b 0)) by done.
        eapply fs_inv_le; [|exact Hi2]. lia.
      + exists 0, (kfree_nonnull b k2). unfold kfree_nonnull. rewrite (proj2 (Z.eqb_neq b 0)) by done.
        split_and!; try done. apply (kfree_step _ b (pp :: X) (fs (kvfs k2))).
        eapply fs_inv_le; [|eapply fs_inv_perm; [|exact Hi2]]; [lia|]. apply perm_swap. }
  destruct Hfin as (db & k3 & Hfin & Hdb & Hs3 & Ha3 & Hg3 & Hi3).
  destruct (match o with Some (d, bytes, n) => _ | None => _ end) as [[[d' bytes'] n'] k2'].
  rewrite Hfin. rewrite (proj2 (Z.eqb_neq pp 0)) by done. rewrite u64_small by lia.
  set (e' := FD FD_FILE _ _ _ _ _ _ _ _).
  destruct (put_fd_entry tbl fd e0 e' k3 es) as (es' & Hes' & He'); [by rewrite Hs3, Hs1|done|].
  exists (put_fd tbl fd e' k3), e'. split; [done|]. split; [eauto|].
  assert (Hc0b : Forall is_byte c0 ∧ zlen c0 ≤ zlen c) by (unfold c0, open_content; destruct (Z.land fl O_TRUNC =? 0); [done|split; [constructor|done]]).
  split_and!; [|done|done| | |].
  - split; cbn; try done; [|by apply firstn_all|lia|apply Hc0b].
    unfold open_pos. pose proof (zlen_nonneg c0). destruct (Z.land fl O_APPEND =? 0); lia.
  - unfold nz at 1. rewrite (proj2 (Z.eqb_neq (path e') 0)) by done. exact Hi3.
  - intros x. change (fs (kvfs (put_fd tbl fd e' k3))) with (fs (kvfs k3)). rewrite Ha3. apply Hins.
  - unfold grows in *. change (fs (kvfs (put_fd tbl fd e' k3))) with (fs (kvfs k3)). by rewrite Hg3.
Qed.

(** The file after a write of [bs] to a descriptor opened with [fl] on a file [c]. *)
Definition after_write (fl : Z) (c bs : list Z) : list Z :=
  let c0 := open_content fl c in
  let p := open_pos fl c0 in
  take (Z.to_nat p) c0 ++ bs ++ drop (Z.to_nat (p + zlen bs)) c0.

(** C13. Saving a file: [open], [write] and [close] on a path that only HanaFS serves use the
    lowest free descriptor and leave in HanaFS, under the path's key, the old content (none
    if O_TRUNC) overwritten at the start (at the end if O_APPEND) by the bytes written;
    no other path changes. *)
Theorem open_write_close_saves r X (k : K) tbl cnt a fl ub p drv pb ip es fd bs :
  tbl ≠ 0 → fdtabs (ksched k) !! tbl = Some es → cnt ≤ zlen es → lowest_free es fd cnt → cnt < 2 ^ 31 →
  a ≠ 0 → ub ≠ 0 → ustr a k = Ret p → path_arg p drv pb ip → plain_path p (mounts (kvfs k)) →
  fs_inv r X (fs (kvfs k)) → Forall is_byte bs →
  let c := old_content ip (fs (kvfs k)) in
  fits (1036 + zlen c + zlen bs) (fs (kvfs k)) → zlen (g_head (fs (kvfs k))) + 2 < 2 ^ 31 →
  4 * zlen p + 4 * zlen c + 3 * zlen bs + 2 * zlen (records (g_head (fs (kvfs k)))) + 5000 ≤ r →
  ∃ k1 k2 k3, sys_open tbl cnt a fl k = Ret (fd, k1) ∧
    sys_write tbl cnt fd ub (zlen bs) (set_umem k1 (<[ub := UBytes bs]> (umem k1))) = Ret (zlen bs, k2) ∧
    sys_close tbl cnt fd k2 = Ret (0, k3) ∧
    fs_abs (fs (kvfs k3)) = <[ip := File (after_write fl c bs)]> (fs_abs (fs (kvfs k))).
Proof.
  intros Ht Hes Hcnt Hlow Hc31 Ha Hub Hstr Hp Hpl Hi Hbs c Hfit Hg2 Hr.
  pose proof (zlen_nonneg p). pose proof (zlen_nonneg c). pose proof (zlen_nonneg bs).
  pose proof (zlen_nonneg (records (g_head (fs (kvfs k))))). destruct Hfit as [Hf1 Hf2].
  destruct (open_spec r X k tbl cnt a fl p drv pb ip es fd) as (k1 & e & Hop & Hent & Hff & Hpe & Hps & Hi1 & Hins & [Hg1 Hgl]);
    try done; [unfold fits; lia|fold c; unfold open_room, op_room; lia|].
  fold c in Hff, Hi1. set (c0 := open_content fl c) in *.
  assert (Hc0 : 0 ≤ zlen c0 ≤ zlen c) by (unfold c0, open_content; destruct (Z.land fl O_TRUNC =? 0); [lia|]; change (zlen (@nil Z)) with 0; lia).
  set (r1 := r - open_room p c (fs (kvfs k))) in *.
  assert (Hr1 : 3 * zlen c + 3 * zlen bs + zlen p + zlen (records (g_head (fs (kvfs k)))) + 2700 ≤ r1).
  { unfold r1, open_room, op_room. lia. }
  set (O := path e :: X ++ owned_all (g_head (fs (kvfs k1)))).
  assert (Hat : fd_at tbl fd r1 O k1 c0 (open_pos fl c0) e).
  { split; [done|done|]. eapply mem_perm; [|apply (fi_mem _ _ _ Hi1)]. unfold nz at 1.
    rewrite (proj2 (Z.eqb_neq (path e) 0)) by done. unfold O. cbn [app].
    rewrite <- app_assoc. by rewrite Permutation_middle. }
  destruct Hlow as [Hfd Hlow].
  pose proof (write_step tbl cnt fd ub Ht ltac:(lia) r1 O k1 c0 _ e bs Hat) as Hw. cbn [afcall] in Hw.
  destruct Hw as (k2 & e2 & Hw & Hat2 & Hse & [Hn1 Hn2]); [split; [lia|done]|lia|lia|].
  cbn [cfcall] in Hw. apply rbind_Ret in Hw as ([rr kk] & Hw & Heq). injection Heq as -> ->.
  fold (after_write fl c bs) in Hat2. set (cf := after_write fl c bs) in *.
  pose proof (ff_range _ _ _ (fa_file _ _ _ _ _ _ _ _ Hat)) as Hpr.
  assert (Hcf : 0 ≤ zlen cf ≤ zlen c + zlen bs).
  { unfold cf, after_write. fold c0. unfold zlen in *. rewrite !length_app, length_take, length_drop. lia. }
  destruct Hat2 as [Hent2 Hff2 Hm2]. pose proof (se_files _ _ _ _ Hse) as Hh.
  assert (Hi2 : fs_inv (r1 - (zlen c0 + zlen bs + 64)) (nz (path e2) ++ nz (buf e2) ++ X) (fs (kvfs k2))).
  { destruct Hi1 as [_ He1 Hp1]. split; [|by rewrite Hh..]. unfold nz at 1. rewrite Hn1.
    rewrite (proj2 (Z.eqb_neq (path e) 0)), Hh by done. eapply mem_perm; [|exact Hm2]. unfold O. cbn [app].
    rewrite <- app_assoc. by rewrite (Permutation_middle (nz (buf e2))). }
  destruct (close_spec (r1 - (zlen c0 + zlen bs + 64)) X k2 tbl cnt fd cf _ e2 drv pb ip Ht ltac:(lia) Hent2 Hff2)
    as (k3 & Hcl & Ha3 & _).
  - lia.
  - by rewrite Hn1.
  - by rewrite Hn2, Hps.
  - done.
  - unfold fits. rewrite Hh. lia.
  - unfold op_room. rewrite Hn2, Hps, Hh. lia.
  - exists k1, k2, k3. split_and!; [done|done|done|]. rewrite Ha3.
    transitivity (<[ip := File cf]> (fs_abs (fs (kvfs k1)))); [|apply Hins].
    unfold fs_abs. by rewrite Hh.
Qed.
End calls.
