(* ===== verification/Pipes.v ===== *)
(** * Pipes, and concrete runs of the system calls *)
From S2P Require Import Prelude CString Bump Heap HeapSpec Tty HanaPath BlockDev HanaFs HanaInv HanaImage HanaOps HanaRefine Vfs VfsSpec Fdtable Sched SchedInv SchedLife Elf Syscalls SyscallSpec FileCalls.

(** ** The ring buffer of a pipe is a bounded queue *)

Record pipe_rel (p : PipeObj) (q : list Z) : Prop := {
  pr_cap : 0 < cap p < 2 ^ 32;
  pr_bytes : zlen (p_bytes p) = cap p;
  pr_r : 0 ≤ rpos p < cap p;
  pr_len : zlen q < cap p;
  pr_w : wpos p = (rpos p + zlen q) `mod` cap p;
  pr_q : ∀ i, 0 ≤ i < zlen q → p_bytes p !! Z.to_nat ((rpos p + i) `mod` cap p) = q !! Z.to_nat i
}.

(** Two positions of the ring less than a lap apart are different. *)
Lemma mod_inj r i j n : 0 < n → 0 ≤ i < n → 0 ≤ j < n → (r + i) `mod` n = (r + j) `mod` n → i = j.
Proof.
  intros Hn Hi Hj He.
  assert (Hd : (i - j) `mod` n = 0).
  { replace (i - j) with (r + i - (r + j)) by lia. rewrite Zminus_mod, He, Z.sub_diag. apply Zmod_0_l. }
  apply Z.mod_divide in Hd as [k Hk]; [|lia]. assert (k = 0) by nia. lia.
Qed.

Lemma pipe_full p q : pipe_rel p q → u64 (wpos p + 1) `mod` cap p = (rpos p + (zlen q + 1)) `mod` cap p ∧
  ((rpos p + (zlen q + 1)) `mod` cap p = rpos p ↔ zlen q + 1 = cap p).
Proof.
  intros [Hc _ Hr Hl Hw _]. pose proof (zlen_nonneg q).
  pose proof (Z.mod_pos_bound (rpos p + zlen q) (cap p) ltac:(lia)). split.
  - rewrite u64_small by lia. rewrite Hw, Zplus_mod_idemp_l. f_equal. lia.
  - split; intros He.
    + destruct (decide (zlen q + 1 = cap p)); [done|]. exfalso.
      rewrite <- (Z.mod_small (rpos p) (cap p)) in He at 2 by lia.
      rewrite <- (Z.add_0_r (rpos p)) in He at 2. apply mod_inj in He; lia.
    + rewrite He. rewrite <- Zplus_mod_idemp_r, Z.mod_same, Z.add_0_r, Z.mod_small; lia.
Qed.

Lemma pipe_push p q b nx : pipe_rel p q → zlen q + 1 ≠ cap p → nx = (rpos p + (zlen q + 1)) `mod` cap p →
  ∃ bytes, bset (p_bytes p) (wpos p) b = Ret bytes ∧
    pipe_rel (Pipe (p_buf p) bytes (cap p) (rpos p) nx (refs p)) (q ++ [b]).
Proof.
  intros [Hc Hb Hr Hl Hw Hq] Hne ->. pose proof (zlen_nonneg q).
  pose proof (Z.mod_pos_bound (rpos p + zlen q) (cap p) ltac:(lia)) as Hwb. rewrite <- Hw in Hwb.
  exists (<[Z.to_nat (wpos p) := b]> (p_bytes p)). split; [apply bset_at; lia|].
  split; cbn; try done.
  - by rewrite zlen_insert.
  - rewrite zlen_app. change (zlen [b]) with 1. lia.
  - by rewrite zlen_app.
  - intros i Hi. rewrite zlen_app in Hi. change (zlen [b]) with 1 in Hi.
    rewrite lookup_insert_list by (unfold zlen in Hb; lia).
    pose proof (Z.mod_pos_bound (rpos p + i) (cap p) ltac:(lia)).
    destruct (decide (i = zlen q)) as [->|Hi'].
    + rewrite Hw, decide_True by done. rewrite lookup_app_r by (unfold zlen; lia).
      by replace (Z.to_nat (zlen q) - length q)%nat with 0%nat by (unfold zlen; lia).
    + rewrite decide_False.
      * rewrite Hq by lia. symmetry. apply lookup_app_l. unfold zlen in *. lia.
      * intros He. apply Z2Nat.inj in He; [|lia..]. rewrite Hw in He. apply mod_inj in He; lia.
Qed.

Lemma pipe_write_spec n : ∀ i src p q w, pipe_rel p q → 0 ≤ i → i + Z.of_nat n ≤ zlen src →
  let m := Z.min (Z.of_nat n) (cap p - 1 - zlen q) in
  ∃ p', pipe_write n i src p w = Ret (w + m, p') ∧ cap p' = cap p ∧
        pipe_rel p' (q ++ take (Z.to_nat m) (drop (Z.to_nat i) src)).
Proof.
  induction n as [|n IH]; intros i src p q w Hp Hi Hs m; pose proof Hp as [Hc _ _ Hl _ _]; cbn [pipe_write].
  { exists p. replace m with 0 by lia. rewrite Z.add_0_r, app_nil_r. done. }
  rewrite (proj2 (Z.eqb_neq (cap p) 0)) by lia. destruct (pipe_full p q Hp) as [-> Hfull].
  destruct (Z.eqb_spec ((rpos p + (zlen q + 1)) `mod` cap p) (rpos p)) as [He|Hne].
  { apply Hfull in He. exists p. replace m with 0 by lia. rewrite Z.add_0_r, app_nil_r. done. }
  destruct (lookup_lt_is_Some_2 src (Z.to_nat i)) as [b Hb]; [unfold zlen in Hs; lia|].
  rewrite (proj2 (bget_Ret src i b)) by done. cbn [rbind].
  assert (Hroom : zlen q + 1 ≠ cap p) by tauto.
  destruct (pipe_push p q b _ Hp Hroom eq_refl) as (bytes & -> & Hp'). cbn [rbind].
  destruct (IH (i + 1) src _ _ (w + 1) Hp') as (p2 & -> & Hc2 & Hp2); [lia|lia|]. cbn [cap] in *.
  exists p2. rewrite zlen_app in *. change (zlen [b]) with 1 in *. split_and!; [f_equal; f_equal; lia|done|].
  replace (q ++ take (Z.to_nat m) (drop (Z.to_nat i) src))
    with ((q ++ [b]) ++ take (Z.to_nat (Z.min (Z.of_nat n) (cap p - 1 - (zlen q + 1)))) (drop (Z.to_nat (i + 1)) src)); [done|].
  rewrite <- app_assoc. f_equal. rewrite (drop_S _ _ _ Hb).
  replace (Z.to_nat m) with (S (Z.to_nat (Z.min (Z.of_nat n) (cap p - 1 - (zlen q + 1))))) by lia.
  cbn [take app]. do 3 f_equal. lia.
Qed.

(** A pipe's buffer is a bounded queue: a write appends as many bytes as fit (at most
    one less than the capacity are held) and reports their number, and no byte is stored
    outside the buffer. *)
Theorem pipe_write_appends p q src :
  pipe_rel p q →
  let m := Z.min (zlen src) (cap p - 1 - zlen q) in
  ∃ p', pipe_write (length src) 0 src p 0 = Ret (m, p') ∧ pipe_rel p' (q ++ take (Z.to_nat m) src).
Proof.
  intros Hp m. destruct (pipe_write_spec (length src) 0 src p q 0 Hp) as (p' & He & _ & Hp'); [lia|unfold zlen; lia|].
  rewrite drop_0 in Hp'. by exists p'.
Qed.

Definition pipe0 : PipeObj := Pipe 64 (replicate 4 0) 4 0 0 2.

Lemma pipe_write_appends_witness :
  ∃ p', pipe_write 5 0 [1; 2; 3; 4; 5] pipe0 0 = Ret (3, p') ∧ pipe_rel p' [1; 2; 3].
Proof.
  apply (pipe_write_appends pipe0 [] [1; 2; 3; 4; 5]).
  split; cbn; try lia; try done. intros i Hi. change (zlen (@nil Z)) with 0 in Hi. lia.
Defined.

(** ** The [pipe] system call *)

Section pipe.
Context {H D : Type} `{AllocatorSpec H} `{BlockDevSpec D} `{FatFs H D}.
Notation K := (Kernel H D).

(** [pipe] asks twice for the lowest free descriptor before it takes either, so both ends
    get the same one; the second assignment makes it the write end, and the pipe can never
    be read. *)
Theorem pipe_ends_share_descriptor r O (k : K) tbl cnt a es fd x y rest :
  tbl ≠ 0 → fdtabs (ksched k) !! tbl = Some es → cnt ≤ zlen es → lowest_free es fd cnt →
  a ≠ 0 → umem k !! a = Some (UInts (x :: y :: rest)) → mem_ok r (kheap k) O → 4264 ≤ r →
  ∃ k', sys_pipe tbl cnt a k = Ret (0, k') ∧ umem k' !! a = Some (UInts (fd :: fd :: rest)) ∧
    (∃ es' e, fdtabs (ksched k') !! tbl = Some es' ∧ es' !! Z.to_nat fd = Some e ∧ fd_type e = FD_PIPE_WRITE) ∧
    ∀ b n, sys_read tbl cnt fd b n k' = Ret (ERR, k').
Proof.
  intros Ht Hes Hc Hlow Ha Hu Hm Hr. pose proof Hlow as [Hfd _].
  destruct (alloc_fd_spec _ _ _ _ _ Ht Hes Hc Hlow) as [Hal [e He]].
  unfold sys_pipe. rewrite (proj2 (Z.eqb_neq a 0)), Hal by done. cbn [rbind].
  rewrite (proj2 (Z.ltb_ge fd 0)) by lia. cbn [orb]. unfold kalloc.
  destruct (mem_alloc r (kheap k) O sizeof_PipeObj Hm) as (p & h & -> & Hp & Hm1); [done|unfold cost, sizeof_PipeObj; lia|].
  rewrite (proj2 (Z.eqb_neq p 0)) by done.
  destruct (mem_alloc _ h _ 4096 Hm1) as (b & h2 & Hb & Hb0 & _); [done|unfold cost, sizeof_PipeObj; lia|].
  change (kheap (set_kheap k h)) with h. rewrite Hb. set (k1 := set_kpipes _ _).
  rewrite (get_fd_entry tbl cnt fd k1 es e) by (done || lia). cbn [rbind of_opt].
  set (e1 := set_pipe e FD_PIPE_READ p). set (k2 := put_fd tbl fd e1 k1).
  destruct (put_fd_entry tbl fd e e1 k1 es Hes He) as (es2 & Hes2 & He2).
  rewrite (get_fd_entry tbl cnt fd k2 es2 e1) by (done || lia). cbn [rbind of_opt].
  set (e3 := set_pipe e1 FD_PIPE_WRITE p). set (k3 := put_fd tbl fd e3 k2).
  destruct (put_fd_entry tbl fd e1 e3 k2 es2 Hes2 He2) as (es3 & Hes3 & He3).
  change (umem k3) with (umem k). rewrite Hu. eexists. split; [done|]. split_and!.
  - apply lookup_insert_eq.
  - by exists es3, e3.
  - intros b' n. unfold sys_read. by rewrite (get_fd_entry tbl cnt fd _ es3 e3) by (done || lia).
Qed.
End pipe.

(** ** Concrete runs *)

(** A kernel whose descriptor table is at 500, with the string /f at 1, two ints at 2. *)
Definition k0 : Kernel Heap.Heap Disk :=
  KState vfs0 (SchedState ∅ {[500 := new_table]} ∅ 1 0 0) ∅ tty_boot
    {[1 := UBytes (str "/f" ++ [0]); 2 := UInts [0; 0]]}.

Lemma new_table_free : lowest_free new_table 3 64.
Proof. split_and!; [lia|lia|reflexivity|lia]. Qed.

Lemma pipe_ends_share_descriptor_witness :
  ∃ k', sys_pipe (H0 := heap_allocator bi0) 500 64 2 k0 = Ret (0, k') ∧ umem k' !! 2 = Some (UInts [3; 3]).
Proof.
  destruct (pipe_ends_share_descriptor (H0 := heap_allocator bi0) (H1 := heap_allocator_spec bi0)
              262000 [] k0 500 64 2 new_table 3 0 0 []) as (k' & He & Hu & _).
  - done.
  - reflexivity.
  - vm_compute. discriminate.
  - apply new_table_free.
  - done.
  - reflexivity.
  - exact (fi_mem _ _ _ fs0_inv).
  - done.
  - exists k'. split; [exact He|exact Hu].
Defined.

Lemma open_write_close_saves_witness :
  ∃ k1 k2 k3, sys_open (H0 := heap_allocator bi0) 500 64 1 0x40 k0 = Ret (3, k1) ∧
    sys_write (H0 := heap_allocator bi0) 500 64 3 9 2 (set_umem k1 (<[9 := UBytes [7; 8]]> (umem k1))) = Ret (2, k2) ∧
    sys_close (H0 := heap_allocator bi0) 500 64 3 k2 = Ret (0, k3) ∧
    fs_abs (fs (kvfs k3)) = {[str "/f" := File [7; 8]]}.
Proof.
  destruct (open_write_close_saves (H0 := heap_allocator bi0) (H1 := heap_allocator_spec bi0)
              262000 [] k0 500 64 1 0x40 9 (str "/f") (-1) (str "/f") (str "/f") new_table 3 [7; 8])
    as (k1 & k2 & k3 & H1 & H2 & H3 & H4).
  - done.
  - reflexivity.
  - vm_compute. discriminate.
  - apply new_table_free.
  - done.
  - done.
  - done.
  - reflexivity.
  - split; [by apply (bool_decide_unpack _)|done|reflexivity].
  - split; reflexivity.
  - exact fs0_inv.
  - by apply (bool_decide_unpack _).
  - split; reflexivity.
  - reflexivity.
  - vm_compute. discriminate.
  - exists k1, k2, k3. split; [exact H1|]. split; [exact H2|]. split; [exact H3|exact H4].
Defined.

(** An empty file open at descriptor 3. *)
Definition e_empty : FDEntry := FD FD_FILE 0 [] 0 [] 0 0 0 0.
Definition k_file : Kernel Heap.Heap Disk := put_fd (D := Disk) 500 3 e_empty k0.

Lemma fd_calls_refine_file_witness :
  ∃ k' e', cfrun (H0 := heap_allocator bi0) 500 64 3 9
             [FWrite [97; 98; 99]; FSeek (-2) 2; FRead 1; FWrite [1; 2]; FSeek 1 0; FRead 9] k_file
    = Ret ([(3, []); (1, []); (1, [98]); (2, []); (1, []); (3, [98; 1; 2])], k') ∧
    fd_file e' [97; 98; 1; 2] 4.
Proof.
  destruct (fd_calls_refine_file (H0 := heap_allocator bi0) (H1 := heap_allocator_spec bi0) 500 64 3 9
              [FWrite [97; 98; 99]; FSeek (-2) 2; FRead 1; FWrite [1; 2]; FSeek 1 0; FRead 9]
              262000 [] k_file [] 0 e_empty) as (k' & e' & He & Hf & _).
  - done.
  - lia.
  - done.
  - split.
    + exists (<[3%nat := e_empty]> new_table). split; reflexivity.
    + by split.
    + exact (fi_mem _ _ _ fs0_inv).
  - repeat constructor; cbn; lia.
  - vm_compute. discriminate.
  - reflexivity.
  - exists k', e'. split; [exact He|apply Hf].
Defined.

(** Writing to a terminal ignores the count: the bytes up to the NUL are printed. *)
Example tty_write_ignores_count :
  (let k := set_umem k0 {[5 := UBytes (str "hello" ++ [0])]} in
   let! (n, k) := sys_write (H0 := heap_allocator bi0) 500 64 1 5 2 k in
   Ret (n, screen (ktty k))) = Ret (2, [Put (str "hello")]).
Proof. vm_compute. reflexivity. Qed.

(** A missing file opens without O_CREAT, and closing it creates it. *)
Example open_missing_succeeds :
  (let! (fd, k) := sys_open (H0 := heap_allocator bi0) 500 64 1 0 k0 in
   let! (_, k) := sys_close (H0 := heap_allocator bi0) 500 64 fd k in
   Ret (fd, fs_abs (fs (kvfs k)))) = Ret (3, {[str "/f" := File []]}).
Proof. vm_compute. reflexivity. Qed.

(** [dup2] to a descriptor outside the table dereferences NULL. *)
Example dup2_out_of_range : sys_dup2 (H0 := heap_allocator bi0) 500 64 1 64 k0 = UB.
Proof. vm_compute. reflexivity. Qed.

(** A count that wraps the end of the write is not refused: the buffer is not grown and the
    first byte already lands behind it. *)
Lemma write_count_wraps {H D} `{Allocator H} `{BlockDev D} tbl cnt fd b count (k : Kernel H D) e :
  get_fd tbl cnt fd k = Ret (Some e) → fd_type e = FD_FILE →
  pos e = zlen (buf_bytes e) → pos e < 2 ^ 64 → 0 < count → u64 (pos e + count) ≤ len e →
  sys_write tbl cnt fd b count k = UB.
Proof.
  intros He Ht Hp Hp64 Hc Hw. unfold sys_write. rewrite He. cbn [rbind]. rewrite Ht.
  unfold grow. rewrite (proj2 (Z.leb_le _ _)) by done. cbn [rbind].
  rewrite (proj2 (Z.eqb_neq count 0)) by lia. unfold ubytes.
  destruct (umem k !! b) as [[src| |]|]; cbn [rbind]; try done.
  replace (Z.to_nat count) with (S (Z.to_nat (count - 1))) by lia. cbn [copy_in].
  unfold bget. destruct (_ && _); cbn [rbind]; [|done]. destruct (src !! Z.to_nat 0); cbn [of_opt rbind]; [|done].
  pose proof (zlen_nonneg (buf_bytes e)). rewrite Z.add_0_r, u64_small by lia.
  unfold bset. rewrite Hp, Z.ltb_irrefl, andb_false_r. done.
Qed.

(** ** Errors *)

Lemma get_fd_bad {H D} (k : Kernel H D) tbl cnt fd : fd < 0 ∨ cnt ≤ fd → get_fd tbl cnt fd k = Ret None.
Proof.
  intros Hfd. unfold get_fd, fdtable_get. destruct (tbl =? 0); [done|].
  destruct (Z.ltb_spec fd 0); [done|]. destruct (Z.leb_spec cnt fd); [done|lia].
Qed.


