(* ===== verification/Initrd.v ===== *)
(** * The initial RAM disk (kernel/filesystem/initrd.cpp)

    A tar archive in memory is unpacked into HanaFS.  [data] is the archive as bytes; header
    fields are at their ustar offsets.  Log lines are not modelled. *)
From S2P Require Import Prelude CString HeapSpec HanaPath BlockDev HanaFs.

(** [for (i = 0; i < n && s[i]; ++i)]: digits up to the first byte outside 0..7. *)
Fixpoint octal_loop (s : list Z) (v : Z) : Z :=
  match s with
  | [] => v
  | c :: s =>
      if c =? 0 then v
      else if (i8 c <? 48) || (55 <? i8 c) then v
      else octal_loop s (u64 (u64 (Z.shiftl v 3) + (i8 c - 48)))
  end.
Definition parse_octal (s : list Z) : Z := octal_loop s 0.

(** The header at offset [off]: name, size, typeflag and prefix. *)
Record TarHeader := Tar { h_name : list Z; h_size : list Z; h_typeflag : Z; h_prefix : list Z }.

Definition field (data : list Z) (off n : Z) : list Z := take (Z.to_nat n) (drop (Z.to_nat off) data).
Definition read_header (data : list Z) (off : Z) : res TarHeader :=
  if (0 <=? off) && (off + 512 <=? zlen data) then
    let! t := bget data (off + 156) in
    Ret (Tar (field data off 100) (field data (off + 124) 12) t (field data (off + 345) 155))
  else UB.

(** The string [copy_field_nul] leaves in a buffer of [out_n] bytes. *)
Fixpoint copy_field_nul (src : list Z) (out_n : nat) : list Z :=
  match src, out_n with
  | c :: src, S (S n) => if c =? 0 then [] else c :: copy_field_nul src (S n)
  | _, _ => []
  end.

(** [snprintf] into a buffer of [n] bytes. *)
Definition snprintf (n : nat) (s : list Z) : list Z := take (n - 1) s.

Section ops.
Context {H D : Type} `{Allocator H} `{BlockDev D}.
Notation St := (HanaFS H D).

(** The parents of [path], shortest first: the scan from index [i], [n] bytes left. *)
Fixpoint parents_loop (n : nat) (i : nat) (path : list Z) (s : St) : res St :=
  match n with
  | O => Ret s
  | S n =>
      if bool_decide (path !! i = Some 47) then
        let! (_, s) := hanafs_make_dir (Some (snprintf 512 (take i path))) s in
        parents_loop n (S i) path s
      else parents_loop n (S i) path s
  end.

Definition ensure_parent_dirs (path : list Z) (s : St) : res St :=
  if 512 <=? strlen path then Ret s
  else
    let p0 := if bool_decide (head path = Some 47) then 1%nat else 0%nat in
    parents_loop (length path - p0) p0 path s.

(** The path of an entry; [None] for an entry that is skipped. *)
Definition entry_path (h : TarHeader) : option (list Z) :=
  let name := copy_field_nul (h_name h) 256 in
  let prefix := copy_field_nul (h_prefix h) 256 in
  let fullname := if bool_decide (prefix = []) then snprintf 512 name
                  else snprintf 512 (prefix ++ [47] ++ name) in
  let fn := if bool_decide (take 2 fullname = [46; 47]) then drop 2 fullname else fullname in
  if bool_decide (fn = []) || bool_decide (fn = [46]) then None
  else Some (if bool_decide (head fn = Some 47) then snprintf 512 fn else snprintf 512 (47 :: fn)).

(** Directory by typeflag or by a trailing slash, which is then cut off. *)
Definition entry_kind (h : TarHeader) (path : list Z) : bool * list Z :=
  if h_typeflag h =? 53 then (true, path)
  else if bool_decide (last path = Some 47) then (true, removelast path)
  else (false, path).

(** One archive entry at [off]; [false] is [return -1]. *)
Definition unpack_entry (data : list Z) (size off : Z) (h : TarHeader) (path : list Z) (s : St)
  : res (bool * St) :=
  let '(is_dir, path) := entry_kind h path in
  let fsize := parse_octal (h_size h) in
  if is_dir then let! (_, s) := hanafs_make_dir (Some path) s in Ret (true, s)
  else if 0 <? fsize then
    if size <? u64 (u64 (off + 512) + fsize) then Ret (false, s)
    else
      let! s := ensure_parent_dirs path s in
      let! (rc, s) := hanafs_write_file (Some path) (Some (drop (Z.to_nat (off + 512)) data)) fsize s in
      Ret (rc =? 0, s)
  else
    let! s := ensure_parent_dirs path s in
    let! (_, s) := hanafs_create_file (Some path) s in Ret (true, s).

Fixpoint unpack (fuel : nat) (data : list Z) (size off : Z) (s : St) : res (Z * St) :=
  match fuel with
  | O => Diverges
  | S fuel =>
      if u64 (off + 512) <=? size then
        let! h := read_header data off in
        if bool_decide (head (h_name h) = Some 0) then Ret (0, s)
        else
          match entry_path h with
          | None => unpack fuel data size (u64 (off + 512)) s
          | Some path =>
              let! (ok, s) := unpack_entry data size off h path s in
              if ok : bool then
                let blocks := u64 (parse_octal (h_size h) + 511) `div` 512 in
                unpack fuel data size (u64 (u64 (off + 512) + u64 (blocks * 512))) s
              else Ret (-1, s)
          end
      else Ret (0, s)
  end.

Definition init_from_memory (data : option (list Z)) (size : Z) (s : St) : res (Z * St) :=
  match data with
  | None => Ret (-1, s)
  | Some data =>
      if size =? 0 then Ret (-1, s)
      else unpack (S (Z.to_nat (size `div` 512 + 1))) data size 0 s
  end.

(** The boot modules: path and contents.  A path shorter than the name is compared from
    before its start. *)
Fixpoint init_from_module (mods : list (option (list Z) * list Z)) (name : list Z) (s : St) : res (Z * St) :=
  match mods with
  | [] => Ret (-1, s)
  | (None, _) :: mods => init_from_module mods name s
  | (Some path, data) :: mods =>
      if strcmp path name =? 0 then init_from_memory (Some data) (zlen data) s
      else if strlen path <? strlen name then UB
      else if strcmp (drop (length path - length name) path) name =? 0
           then init_from_memory (Some data) (zlen data) s
      else init_from_module mods name s
  end.
End ops.
