(* ===== verification/Users.v ===== *)
(** * Users and permissions (kernel/userland/users.cpp)

    The tables are kept with their counts; a [char] array that holds a string is the string. *)
From S2P Require Import Prelude CString.

Record User := MkUser {
  uid : Z; ugid : Z; username : list Z; password_hash : list Z; home_dir : list Z; shell : list Z
}.
Record Group := MkGroup { gid : Z; groupname : list Z; member_count : Z; members : list Z }.

Record Users := UsersState {
  user_database : list User; user_count : Z;
  group_database : list Group; group_count : Z;
  current_uid : Z; current_gid : Z
}.

Definition user_zero : User := MkUser 0 0 [] [] [] [].
Definition group_zero : Group := MkGroup 0 [] 0 (replicate 32 0).

(** [strncpy(dst, src, n)] into a zeroed array longer than [n]. *)
Definition strncpy (src : list Z) (n : nat) : list Z := take n src.

Fixpoint hash_loop (s : list Z) (hash : Z) : Z :=
  match s with
  | [] => hash
  | c :: s => hash_loop s (u32 (u32 (u32 (Z.shiftl hash 5) + hash) + i8 c))
  end.
Definition simple_hash (s : list Z) : Z := hash_loop s 5381.

Definition init_users (s : Users) : Users :=
  let root := MkUser 0 0 (strncpy (str "root") 63) (strncpy (str "root") 127)
                (strncpy (str "/root") 255) (strncpy (str "/bin/hcsh") 255) in
  let guest := MkUser 1000 1000 (strncpy (str "guest") 63) (strncpy (str "guest") 127)
                 (strncpy (str "/home/guest") 255) (strncpy (str "/bin/sh") 255) in
  let groot := MkGroup 0 (strncpy (str "root") 63) 1 (<[0%nat := 0]> (replicate 32 0)) in
  let gusers := MkGroup 1000 (strncpy (str "users") 63) 1 (<[0%nat := 1000]> (replicate 32 0)) in
  UsersState ([root; guest] ++ replicate 62 user_zero) 2 ([groot; gusers] ++ replicate 14 group_zero) 2
    (current_uid s) (current_gid s).

(** The searches over the first [count] entries of a table. *)
Fixpoint search {A} (n : nat) (i : nat) (db : list A) (test : A → bool) : res (option A) :=
  match n with
  | O => Ret None
  | S n =>
      let! x := of_opt (db !! i) in
      if test x then Ret (Some x) else search n (S i) db test
  end.
Definition search_users (test : User → bool) (s : Users) : res (option User) :=
  search (Z.to_nat (user_count s)) 0 (user_database s) test.
Definition search_groups (test : Group → bool) (s : Users) : res (option Group) :=
  search (Z.to_nat (group_count s)) 0 (group_database s) test.

Definition get_user_by_name (name : option (list Z)) (s : Users) : res (option User) :=
  match name with
  | None => Ret None
  | Some name => search_users (λ u, strcmp (username u) name =? 0) s
  end.
Definition get_user_by_uid (i : Z) (s : Users) : res (option User) := search_users (λ u, uid u =? i) s.
Definition get_uid_by_name (name : option (list Z)) (s : Users) : res Z :=
  let! o := get_user_by_name name s in
  Ret (match o with Some u => uid u | None => 2 ^ 32 - 1 end).
Definition get_username_by_uid (i : Z) (s : Users) : res (list Z) :=
  let! o := get_user_by_uid i s in
  Ret (match o with Some u => username u | None => str "unknown" end).
Definition get_group_by_gid (i : Z) (s : Users) : res (option Group) := search_groups (λ g, gid g =? i) s.
Definition get_gid_by_name (name : option (list Z)) (s : Users) : res Z :=
  match name with
  | None => Ret (2 ^ 32 - 1)
  | Some name =>
      let! o := search_groups (λ g, strcmp (groupname g) name =? 0) s in
      Ret (match o with Some g => gid g | None => 2 ^ 32 - 1 end)
  end.
Definition get_groupname_by_gid (i : Z) (s : Users) : res (list Z) :=
  let! o := get_group_by_gid i s in
  Ret (match o with Some g => groupname g | None => str "unknown" end).

Definition authenticate_user (name password : option (list Z)) (s : Users) : res bool :=
  match name, password with
  | Some name, Some password =>
      let! o := get_user_by_name (Some name) s in
      Ret (match o with Some u => strcmp (password_hash u) password =? 0 | None => false end)
  | _, _ => Ret false
  end.

Definition get_current_uid (s : Users) : Z := current_uid s.
Definition get_current_gid (s : Users) : Z := current_gid s.
Definition set_current_user (u g : Z) (s : Users) : Users :=
  UsersState (user_database s) (user_count s) (group_database s) (group_count s) u g.
Definition get_current_username (s : Users) : res (list Z) := get_username_by_uid (get_current_uid s) s.

(** [mode] is a [uint16_t], the arithmetic on it is [int]. *)
Definition check_permission (mode u g required_bits : Z) : bool :=
  let file_uid := Z.land (Z.shiftr mode 16) 0xFFFF in
  let file_gid := Z.land (Z.shiftr mode 8) 0xFF in
  if u =? 0 then true
  else if u =? file_uid then negb (Z.land mode (Z.shiftl required_bits 6) =? 0)
  else if g =? file_gid then negb (Z.land mode (Z.shiftl required_bits 3) =? 0)
  else negb (Z.land mode required_bits =? 0).

Definition can_read (path : list Z) (u g : Z) : bool := if u =? 0 then true else true.
Definition can_write (path : list Z) (u g : Z) : bool := if u =? 0 then true else true.
Definition can_execute (path : list Z) (u g : Z) : bool := if u =? 0 then true else true.

(** ** Theorems *)

Lemma search_spec {A} (test : A → bool) db n : ∀ i, (i + n ≤ length db)%nat →
  search n i db test = Ret (snd <$> list_find (λ x, test x = true) (take n (drop i db))).
Proof.
  induction n as [|n IH]; intros i Hi; [done|]. cbn [search].
  destruct (lookup_lt_is_Some_2 db i) as [x Hx]; [lia|]. rewrite Hx. cbn [of_opt rbind].
  rewrite (drop_S _ _ _ Hx). cbn [take list_find]. destruct (test x) eqn:Ht.
  - by rewrite decide_True.
  - rewrite decide_False by congruence. rewrite IH by lia.
    by destruct (list_find _ (take n (drop (S i) db))) as [[]|].
Qed.

(** Logging in: after [init_users] exactly two pairs of name and password are accepted,
    root/root and guest/guest, whoever is the current user; a missing argument is refused. *)
Theorem authenticate_accepts s name password :
  cstr_ok name → cstr_ok password →
  authenticate_user (Some name) (Some password) (init_users s)
    = Ret (bool_decide (name = str "root" ∧ password = str "root" ∨ name = str "guest" ∧ password = str "guest")) ∧
  authenticate_user None (Some password) (init_users s) = Ret false ∧
  authenticate_user (Some name) None (init_users s) = Ret false.
Proof.
  intros Hn Hp. split; [|done]. unfold authenticate_user, get_user_by_name, search_users.
  rewrite search_spec by (cbn; lia). cbn [rbind init_users user_count user_database].
  change (take (Z.to_nat 2) (drop 0 _)) with
    [MkUser 0 0 (str "root") (str "root") (str "/root") (str "/bin/hcsh");
     MkUser 1000 1000 (str "guest") (str "guest") (str "/home/guest") (str "/bin/sh")].
  assert (Hs : ∀ t, cstr_ok (str t) → ∀ x, cstr_ok x → (strcmp (str t) x =? 0) = bool_decide (str t = x)).
  { intros t Ht x Hx. by apply strcmp_eqb. }
  assert (Hr : cstr_ok (str "root")) by by apply (bool_decide_unpack _).
  assert (Hg : cstr_ok (str "guest")) by by apply (bool_decide_unpack _).
  cbn [list_find username]. rewrite !Hs by done.
  destruct (decide (str "root" = name)) as [<-|Hnr].
  - rewrite decide_True by by apply bool_decide_true. cbn [fmap option_fmap option_map snd password_hash].
    rewrite Hs by done. f_equal. apply bool_decide_ext. naive_solver.
  - rewrite decide_False by (rewrite bool_decide_eq_true; done).
    destruct (decide (str "guest" = name)) as [<-|Hng].
    + rewrite decide_True by by apply bool_decide_true. cbn [fmap option_fmap option_map snd fst password_hash prod_map id].
      rewrite Hs by done. f_equal. apply bool_decide_ext. naive_solver.
    + rewrite decide_False by (rewrite bool_decide_eq_true; done). cbn. f_equal. symmetry. apply bool_decide_false. naive_solver.
Qed.

Definition users0 : Users := UsersState [] 0 [] 0 0 0.
Lemma authenticate_accepts_witness :
  authenticate_user (Some (str "guest")) (Some (str "guest")) (init_users users0) = Ret true.
Proof.
  destruct (authenticate_accepts users0 (str "guest") (str "guest")) as [He _].
  - by apply (bool_decide_unpack _).
  - by apply (bool_decide_unpack _).
  - exact He.
Defined.

(** The permission check never looks at the owner bits: the owner id is taken from bits
    16 and up of a 16-bit mode, so for a caller other than root the answer depends on the
    group bits when the group id equals bits 8 to 15 of the mode, and on the bits for
    others otherwise; any one of the requested bits is enough. *)
Theorem check_permission_ignores_owner mode u g bits :
  0 ≤ mode < 2 ^ 16 → u ≠ 0 →
  check_permission mode u g bits =
    negb (Z.land mode (if decide (g = mode `div` 256) then bits * 8 else bits) =? 0).
Proof.
  intros Hm Hu. unfold check_permission. rewrite (proj2 (Z.eqb_neq u 0)) by done.
  rewrite !Z.shiftr_div_pow2, !Z.shiftl_mul_pow2 by lia. rewrite (Z.div_small mode) by done. rewrite Z.land_0_l.
  rewrite (proj2 (Z.eqb_neq u 0)) by done. change (2 ^ 8) with 256. change (2 ^ 3) with 8.
  rewrite land_255, (Z.mod_small (mode `div` 256)) by (split; [apply Z.div_pos; lia|apply Z.div_lt_upper_bound; lia]).
  destruct (Z.eqb_spec g (mode `div` 256)); [by rewrite decide_True|by rewrite decide_False].
Qed.

(** A file with mode 0700: its owner, uid 1000, may not read it. *)
Lemma check_permission_ignores_owner_witness : check_permission 448 1000 1000 4 = false.
Proof. rewrite (check_permission_ignores_owner 448 1000 1000 4); [reflexivity|lia|lia]. Defined.
