(* ===== verification/Shell.v ===== *)
(** * The command line (kernel/shell/shell.cpp)

    Line editing, command parsing and tokenising.  A C string is walked as its list of
    characters; the destination arrays are byte lists with checked stores. *)
From S2P Require Import Prelude CString.

Definition is_ws (c : Z) : bool := (c =? 32) || (c =? 9).

(** [while ( *line && ws) line++] *)
Fixpoint skip_ws (s : list Z) : list Z :=
  match s with
  | c :: r => if is_ws c then skip_ws r else s
  | [] => []
  end.

(** The copy loops: up to the end, a blank if [word], or [size - 1] characters. *)
Fixpoint copy_chars (word : bool) (s : list Z) (i size : Z) (dst : list Z) : res (list Z * Z * list Z) :=
  match s with
  | c :: r =>
      if negb (word && is_ws c) && (i <? size - 1) then
        let! dst := bset dst i c in copy_chars word r (i + 1) size dst
      else Ret (s, i, dst)
  | [] => Ret ([], i, dst)
  end.

Definition set_cwd (path : option (list Z)) (cwd : list Z) : Z * list Z :=
  match path with
  | None | Some [] => (-1, cwd)
  | Some p => (0, take 255 p)
  end.

Definition parse (line cmd : list Z) (cmd_size : Z) (args : list Z) (args_size : Z)
  : res (list Z * list Z) :=
  let line := skip_ws line in
  let! (line, i, cmd) := copy_chars true line 0 cmd_size cmd in
  let! cmd := bset cmd i 0 in
  let line := skip_ws line in
  let! (_, i, args) := copy_chars false line 0 args_size args in
  let! args := bset args i 0 in
  Ret (cmd, args).

(** The tokens are filled in order; [n] is [max_tokens - count]. *)
Fixpoint tokenize_loop (n : nat) (p : list Z) (tokens : list (list Z)) (token_size count : Z)
  : res (Z * list (list Z)) :=
  match n with
  | O => Ret (count, tokens)
  | S n =>
      match skip_ws p with
      | [] => Ret (count, tokens)
      | p =>
          let! t := of_opt (tokens !! Z.to_nat count) in
          let! (p, i, t) := copy_chars true p 0 token_size t in
          let! t := bset t i 0 in
          tokenize_loop n p (<[Z.to_nat count := t]> tokens) token_size (count + 1)
      end
  end.
Definition tokenize (args : option (list Z)) (tokens : list (list Z)) (max_tokens token_size : Z)
  : res (Z * list (list Z)) :=
  match args with
  | None => Ret (0, tokens)
  | Some p => tokenize_loop (Z.to_nat max_tokens) p tokens token_size 0
  end.

(** The line reader consumes the characters the keyboard poll returns, 0 for none; [out] is
    what it prints, [echo] what it shows for a character.  It keeps polling when they run
    out. *)
Fixpoint read_loop (echo : Z → Z) (keys : list Z) (maxlen pos : Z) (buf : list Z) (out : list (list Z))
  : res (list Z * list (list Z) * list Z) :=
  if maxlen - 1 <=? pos then let! buf := bset buf pos 0 in Ret (buf, out, keys)
  else
    match keys with
    | [] => Diverges
    | c :: keys =>
        if c =? 0 then read_loop echo keys maxlen pos buf out
        else if (c =? 10) || (c =? 13) then
          let! buf := bset buf pos 0 in Ret (buf, out ++ [[10]], keys)
        else if (c =? 8) && (0 <? pos) then
          let! buf := bset buf (pos - 1) 0 in
          read_loop echo keys maxlen (pos - 1) buf (out ++ [[8; 32; 8]])
        else if (32 <=? c) && (c <? 127) then
          let! buf := bset buf pos c in
          let! buf := bset buf (pos + 1) 0 in
          read_loop echo keys maxlen (pos + 1) buf (out ++ [[echo c]])
        else read_loop echo keys maxlen pos buf out
    end.
Definition read_line (keys : list Z) (maxlen : Z) (buf : list Z) : res (list Z * list (list Z) * list Z) :=
  read_loop id keys maxlen 0 buf [].
(** The password reader of login.cpp shows asterisks. *)
Definition read_password (keys : list Z) (maxlen : Z) (buf : list Z) : res (list Z * list (list Z) * list Z) :=
  read_loop (λ _, 42) keys maxlen 0 buf [].

(** ** Splitting *)

Definition blank (s : list Z) : Prop := Forall (λ c, is_ws c = true) s.
Definition word (s : list Z) : Prop := Forall (λ c, is_ws c = false) s.

Lemma skip_ws_blank b s : blank b → skip_ws (b ++ s) = skip_ws s.
Proof. induction 1 as [|c b Hc _ IH]; [done|]. cbn. by rewrite Hc. Qed.

Lemma skip_ws_word s : head s ≠ Some 32 → head s ≠ Some 9 → skip_ws s = s.
Proof.
  destruct s as [|c s]; [done|]. cbn. intros H1 H2. unfold is_ws.
  destruct (Z.eqb_spec c 32) as [->|]; [done|]. by destruct (Z.eqb_spec c 9) as [->|].
Qed.

(** A copied word lands at the front of the array. *)
Lemma copy_chars_spec w s rest : ∀ i size dst,
  (w = true → word s) → (rest = [] ∨ (w = true ∧ ∃ c r, rest = c :: r ∧ is_ws c = true)) →
  0 ≤ i → i + zlen s ≤ size - 1 → size ≤ zlen dst →
  copy_chars w (s ++ rest) i size dst
  = Ret (rest, i + zlen s, take (Z.to_nat i) dst ++ s ++ drop (Z.to_nat (i + zlen s)) dst).
Proof.
  induction s as [|c s IH]; intros i size dst Hw Hr Hi Hs Hd; cbn [app copy_chars].
  - change (zlen (@nil Z)) with 0. rewrite Z.add_0_r, take_drop.
    destruct Hr as [->|(-> & c & r & -> & Hc)]; [done|]. cbn [copy_chars]. rewrite Hc. done.
  - rewrite zlen_cons in Hs |- *. pose proof (zlen_nonneg s).
    assert (Hc : w && is_ws c = false).
    { destruct w; [|done]. specialize (Hw eq_refl). apply Forall_cons in Hw as [Hc _]. by rewrite Hc. }
    rewrite Hc, (proj2 (Z.ltb_lt i (size - 1))) by lia. cbn [negb andb].
    rewrite (proj2 (bset_Ret dst i c (<[Z.to_nat i := c]> dst))) by (split; [lia|done]). cbn [rbind].
    rewrite IH; [|intros Ht; specialize (Hw Ht); by apply Forall_cons in Hw as [_ ?]|done|lia|lia|unfold zlen in *; rewrite length_insert; lia].
    f_equal. f_equal; [f_equal; lia|].
    replace (Z.to_nat (i + 1)) with (S (Z.to_nat i)) by lia.
    rewrite (take_S_r _ _ c) by (apply list_lookup_insert_eq; unfold zlen in *; lia).
    rewrite take_insert_ge by lia. rewrite <- app_assoc. cbn [app]. do 3 f_equal.
    rewrite drop_insert_lt by lia. f_equal. lia.
Qed.

(** The copied array reads back as the word. *)
Lemma copy_chars_cstr w s rest size dst :
  cstr_ok s → (w = true → word s) → (rest = [] ∨ (w = true ∧ ∃ c r, rest = c :: r ∧ is_ws c = true)) →
  zlen s ≤ size - 1 → size ≤ zlen dst →
  ∃ dst1 dst2, copy_chars w (s ++ rest) 0 size dst = Ret (rest, zlen s, dst1)
    ∧ bset dst1 (zlen s) 0 = Ret dst2 ∧ cstr dst2 = s ∧ zlen dst2 = zlen dst.
Proof.
  intros Hok Hw Hr Hs Hd. pose proof (zlen_nonneg s).
  rewrite copy_chars_spec by (done || lia). rewrite take_0, Z.add_0_l. cbn [app].
  eexists _, _. split_and!; [done|apply bset_Ret; split; [|done]| |].
  - rewrite zlen_app. unfold zlen in *. rewrite length_drop. lia.
  - rewrite insert_app_r_alt by (unfold zlen; lia). unfold zlen. rewrite Nat2Z.id, Nat.sub_diag.
    destruct (drop (length s) dst) as [|c r] eqn:E.
    { apply (f_equal length) in E. rewrite length_drop in E. cbn in E. unfold zlen in *. lia. }
    by apply cstr_app_nul.
  - unfold zlen in *. rewrite length_insert, length_app, length_drop. lia.
Qed.

Definition starts_ws (s : list Z) : Prop := ∃ c r, s = c :: r ∧ is_ws c = true.

Lemma starts_ws_blank b s : b ≠ [] → blank b → starts_ws (b ++ s).
Proof. intros Hb Hbl. destruct Hbl as [|c b Hc]; [done|]. by exists c, (b ++ s). Qed.

Lemma skip_ws_stop s : ¬ starts_ws s → skip_ws s = s.
Proof.
  destruct s as [|c s]; [done|]. intros Hn. cbn. destruct (is_ws c) eqn:E; [|done].
  destruct Hn. by exists c, s.
Qed.

Lemma word_not_ws w s : word w → w ≠ [] → ¬ starts_ws (w ++ s).
Proof. intros Hw Hne (c & r & Heq & Hc). destruct Hw as [|c' w Hc']; [done|]. cbn in *. injection Heq as -> _. by rewrite Hc in Hc'. Qed.

(** Command parsing: of a line made of blanks, a command word, blanks and the remaining
    text, the command buffer receives the word and the argument buffer the text, whenever
    both fit their buffers with the terminating NUL. *)
Theorem parse_splits (b1 w b2 rest cmd args : list Z) (cmd_size args_size : Z)
  (Hb1 : blank b1) (Hw : word w) (Hb2 : blank b2)
  (Hne : w ≠ []) (Hsep : b2 ≠ [] ∨ rest = []) (Hrest : ¬ starts_ws rest)
  (Hwok : cstr_ok w) (Hrok : cstr_ok rest)
  (Hws : zlen w ≤ cmd_size - 1) (Hrs : zlen rest ≤ args_size - 1)
  (Hcmd : cmd_size ≤ zlen cmd) (Hargs : args_size ≤ zlen args) :
  ∃ cmd' args', parse (b1 ++ w ++ b2 ++ rest) cmd cmd_size args args_size = Ret (cmd', args')
    ∧ cstr cmd' = w ∧ cstr args' = rest.
Proof.
  unfold parse. rewrite skip_ws_blank, skip_ws_stop by (done || by apply word_not_ws).
  destruct (copy_chars_cstr true w (b2 ++ rest) cmd_size cmd) as (c1 & c2 & -> & Hc2 & Hcw & _);
    [done|done| |done|done|].
  { destruct b2 as [|x b2]; [left; by destruct Hsep as [Hs | ->]|right]. split; [done|].
    by apply starts_ws_blank. }
  cbn [rbind]. rewrite Hc2. cbn [rbind]. rewrite skip_ws_blank, skip_ws_stop by done.
  destruct (copy_chars_cstr false rest [] args_size args) as (a1 & a2 & Ha & Ha2 & Har & _); try done; [by left|].
  rewrite app_nil_r in Ha. rewrite Ha. cbn [rbind]. rewrite Ha2. cbn [rbind]. eauto.
Qed.

Lemma parse_splits_witness :
  ∃ cmd' args', parse (str "  ls /bin x") (replicate 8 1) 8 (replicate 9 1) 9 = Ret (cmd', args')
    ∧ cstr cmd' = str "ls" ∧ cstr args' = str "/bin x".
Proof.
  apply (parse_splits (str "  ") (str "ls") (str " ") (str "/bin x")); try (vm_compute; done);
    try (repeat constructor; vm_compute; done); try (vm_compute; lia).
  intros (c & r & H & Hc). vm_compute in H. by simplify_eq.
Defined.

(** ** Tokens *)

(** A command tail: words, each followed by its separating blanks. *)
Definition sep_line (ws : list (list Z * list Z)) : list Z := concat ((λ p, p.1 ++ p.2) <$> ws).

(** The words fit the token buffers; every one but the last is followed by a blank. *)
Fixpoint line_ok (token_size : Z) (ws : list (list Z * list Z)) : Prop :=
  match ws with
  | [] => True
  | (w, b) :: r =>
      word w ∧ w ≠ [] ∧ cstr_ok w ∧ zlen w ≤ token_size - 1 ∧ blank b ∧ (r = [] ∨ b ≠ [])
      ∧ line_ok token_size r
  end.

Lemma tokenize_loop_spec token_size ws : ∀ n b tokens count,
  line_ok token_size ws → blank b → (length ws ≤ n)%nat → 0 ≤ count →
  count + zlen ws ≤ zlen tokens → Forall (λ t, token_size ≤ zlen t) tokens →
  ∃ tokens', tokenize_loop n (b ++ sep_line ws) tokens token_size count = Ret (count + zlen ws, tokens')
    ∧ length tokens' = length tokens
    ∧ take (Z.to_nat count) tokens' = take (Z.to_nat count) tokens
    ∧ cstr <$> take (length ws) (drop (Z.to_nat count) tokens') = ws.*1.
Proof.
  induction ws as [|[w b'] ws IH]; intros n b tokens count Hl Hb Hn Hc Hlen Hts.
  { exists tokens. rewrite zlen_nil, Z.add_0_r. split_and!; [|done..].
    destruct n; [done|]. cbn [tokenize_loop]. by rewrite skip_ws_blank. }
  destruct Hl as (Hw & Hwne & Hok & Hsz & Hb' & Hr & Hl).
  rewrite zlen_cons in Hlen |- *. cbn [length] in Hn |- *. destruct n as [|n]; [lia|].
  cbn [tokenize_loop]. change (sep_line ((w, b') :: ws)) with ((w ++ b') ++ sep_line ws).
  rewrite skip_ws_blank, <- app_assoc, skip_ws_stop by (done || by apply word_not_ws).
  destruct w as [|c w]; [done|]. cbn [app].
  assert (is_Some (tokens !! Z.to_nat count)) as [t Ht] by (apply lookup_lt_is_Some; unfold zlen in *; lia).
  rewrite Ht. cbn [of_opt rbind].
  pose proof (Forall_lookup_1 _ _ _ _ Hts Ht) as Htsz.
  destruct (copy_chars_cstr true (c :: w) (b' ++ sep_line ws) token_size t) as (t1 & t2 & Hcp & Ht2 & Hcs & Hlt); try done.
  { destruct b' as [|x b']; [left|right; split; [done|by apply starts_ws_blank]].
    by destruct Hr as [-> | ?]. }
  cbn [app] in Hcp. rewrite Hcp. cbn [rbind]. rewrite Ht2. cbn [rbind].
  destruct (IH n b' (<[Z.to_nat count:=t2]> tokens) (count + 1)) as (tk & Htk & Hlk & Htake & Hmap);
    [done|done|lia|lia|unfold zlen in *; rewrite length_insert; lia| |].
  { apply Forall_insert; [done|cbn in *; lia]. }
  exists tk. split_and!.
  - rewrite Htk. do 2 f_equal. lia.
  - by rewrite Hlk, length_insert.
  - apply (f_equal (take (Z.to_nat count))) in Htake. rewrite !take_take in Htake.
    rewrite !Nat.min_l in Htake by lia. by rewrite take_insert_ge in Htake by lia.
  - rewrite length_insert in Hlk.
    assert (tk !! Z.to_nat count = Some t2) as Hk.
    { rewrite <- (lookup_take_lt _ (Z.to_nat (count + 1))), Htake by lia.
      rewrite lookup_take_lt by lia. apply list_lookup_insert_eq. unfold zlen in *; lia. }
    rewrite (drop_S _ t2) by done. cbn. rewrite Hcs. f_equal.
    by replace (S (Z.to_nat count)) with (Z.to_nat (count + 1)) by lia.
Qed.

(** Tokenising: a command tail of at most [max_tokens] words, each of which fits a token
    buffer, yields exactly its words, in order, one per token; the count is their number. *)
Theorem tokenize_roundtrip (b : list Z) (ws : list (list Z * list Z)) (tokens : list (list Z))
  (max_tokens token_size : Z) (Hb : blank b) (Hws : line_ok token_size ws)
  (Hmax : zlen ws ≤ max_tokens) (Htk : max_tokens ≤ zlen tokens)
  (Hsz : Forall (λ t, token_size ≤ zlen t) tokens) :
  ∃ tokens', tokenize (Some (b ++ sep_line ws)) tokens max_tokens token_size = Ret (zlen ws, tokens')
    ∧ cstr <$> take (length ws) tokens' = ws.*1.
Proof.
  destruct (tokenize_loop_spec token_size ws (Z.to_nat max_tokens) b tokens 0)
    as (tk & Htok & _ & _ & Hm); try done; [unfold zlen in *; lia|lia|].
  exists tk. by rewrite drop_0 in Hm.
Qed.

Lemma tokenize_roundtrip_witness :
  ∃ tokens', tokenize (Some (str " -l /bin")) (replicate 3 (replicate 8 1)) 3 8 = Ret (2, tokens')
    ∧ cstr <$> take 2 tokens' = [str "-l"; str "/bin"].
Proof.
  apply (tokenize_roundtrip (str " ") [(str "-l", str " "); (str "/bin", [])]);
    try (vm_compute; lia); try (repeat constructor; vm_compute; done).
Defined.

(** * The line editor (shell.cpp, login.cpp)

    The reader keeps in its buffer the line a terminal user has edited, and shows on the
    screen what is in the buffer. *)


(** What a key does to the line. *)
Definition edit_key (line : list Z) (c : Z) : list Z :=
  if c =? 8 then take (length line - 1) line
  else if (32 <=? c) && (c <? 127) then line ++ [c] else line.

(** The line stays shorter than the buffer while the keys are typed. *)
Fixpoint stays_short (room : Z) (line : list Z) (keys : list Z) : Prop :=
  zlen line < room ∧ match keys with [] => True | c :: keys => stays_short room (edit_key line c) keys end.

(** A terminal line: what is left of the cursor and what is right of it. *)
Definition put_char (t : list Z * list Z) (c : Z) : list Z * list Z :=
  if c =? 8 then (take (length t.1 - 1) t.1, drop (length t.1 - 1) t.1 ++ t.2) else (t.1 ++ [c], tail t.2).

Definition shows (echo : Z → Z) (line : list Z) (t : list Z * list Z) : Prop :=
  t.1 = echo <$> line ∧ Forall (λ c, c = 32) t.2.

Section editor.
Context (echo : Z → Z) (Hecho : ∀ c, 32 ≤ c < 127 → echo c ≠ 8).

Lemma shows_type line t c : 32 ≤ c < 127 → shows echo line t → shows echo (line ++ [c]) (foldl put_char t [echo c]).
Proof.
  intros Hc [H1 H2]. cbn [foldl]. unfold put_char. rewrite (proj2 (Z.eqb_neq _ _) (Hecho c Hc)). split; cbn [fst snd].
  - by rewrite H1, fmap_app.
  - destruct H2; [constructor|done].
Qed.

Lemma put_back x a y : put_char (x ++ [a], y) 8 = (x, a :: y).
Proof.
  unfold put_char. change (8 =? 8) with true. cbn [fst snd]. rewrite length_app. cbn [length].
  replace (length x + 1 - 1)%nat with (length x) by lia. by rewrite take_app_length, drop_app_length.
Qed.

Lemma shows_erase line t : line ≠ [] → shows echo line t → shows echo (take (length line - 1) line) (foldl put_char t [8; 32; 8]).
Proof.
  intros Hne [H1 H2]. destruct t as [before after]. cbn [fst snd] in *. subst before. destruct line as [|c line] using rev_ind; [done|clear IHline].
  rewrite length_app, fmap_app. replace (length line + length [c] - 1)%nat with (length line) by (cbn; lia).
  rewrite take_app_length. cbn [foldl fmap list_fmap]. rewrite put_back. change (put_char (echo <$> line, echo c :: after) 32) with ((echo <$> line) ++ [32], after).
  rewrite put_back. split; [done|]. by constructor.
Qed.

(** The buffer starts with the line. *)
Definition holds (line buf : list Z) : Prop := take (length line) buf = line.

Lemma erase_step line buf keys maxlen out : line ≠ [] → zlen line < maxlen - 1 → maxlen ≤ zlen buf → holds line buf →
  ∃ buf', read_loop echo (8 :: keys) maxlen (zlen line) buf out
          = read_loop echo keys maxlen (zlen (edit_key line 8)) buf' (out ++ [[8; 32; 8]])
    ∧ length buf' = length buf ∧ holds (edit_key line 8) buf'.
Proof.
  intros Hne Hs Hm Hb. assert (Hpos : 0 < zlen line) by (destruct line; [done|]; unfold zlen; cbn; lia).
  cbn [read_loop]. rewrite (proj2 (Z.leb_gt _ _)) by lia. change (8 =? 0) with false. change ((8 =? 10) || (8 =? 13)) with false.
  change (8 =? 8) with true. rewrite (proj2 (Z.ltb_lt 0 _)) by lia. cbn [andb].
  rewrite (proj2 (bset_Ret buf _ 0 _)) by (split; [lia|reflexivity]). cbn [rbind]. eexists. change (edit_key line 8) with (take (length line - 1) line).
  assert (Hlen : length (take (length line - 1) line) = (length line - 1)%nat) by (rewrite length_take; lia). unfold zlen in *.
  split_and!; [by replace (Z.of_nat (length line) - 1) with (Z.of_nat (length (take (length line - 1) line))) by lia|by rewrite length_insert|].
  unfold holds in *. rewrite Hlen, take_insert_ge by lia.
  transitivity (take (length line - 1) (take (length line) buf)); [rewrite take_take; f_equal; lia|by rewrite Hb].
Qed.

Lemma type_step line buf keys maxlen out c : 32 ≤ c < 127 → zlen line < maxlen - 1 → maxlen ≤ zlen buf → holds line buf →
  ∃ buf', read_loop echo (c :: keys) maxlen (zlen line) buf out = read_loop echo keys maxlen (zlen (line ++ [c])) buf' (out ++ [[echo c]])
    ∧ length buf' = length buf ∧ holds (line ++ [c]) buf'.
Proof.
  intros Hc Hs Hm Hb. cbn [read_loop]. rewrite (proj2 (Z.leb_gt _ _)) by lia. rewrite !(proj2 (Z.eqb_neq c _)) by lia. cbn [orb andb].
  rewrite (proj2 (Z.leb_le 32 c)), (proj2 (Z.ltb_lt c 127)) by lia. cbn [andb]. unfold zlen, holds in *.
  rewrite (proj2 (bset_Ret buf _ c _)) by (split; [unfold zlen; lia|reflexivity]). cbn [rbind]. rewrite Nat2Z.id.
  rewrite (proj2 (bset_Ret _ _ 0 _)) by (split; [unfold zlen; rewrite length_insert; lia|reflexivity]). cbn [rbind].
  replace (Z.to_nat (Z.of_nat (length line) + 1)) with (S (length line)) by lia. eexists.
  rewrite length_app, Nat.add_1_r. split_and!; [by replace (Z.of_nat (length line) + 1) with (Z.of_nat (S (length line))) by lia|by rewrite !length_insert|].
  rewrite take_insert_ge by lia. rewrite (take_S_r _ _ c) by (apply list_lookup_insert_eq; lia). rewrite take_insert_ge by lia. by rewrite Hb.
Qed.

(** One key: the line and the screen are edited alike. *)
Lemma key_step line buf keys maxlen out c t : c ≠ 10 → c ≠ 13 → zlen line < maxlen - 1 → maxlen ≤ zlen buf → holds line buf → shows echo line t →
  ∃ buf' shown, read_loop echo (c :: keys) maxlen (zlen line) buf out = read_loop echo keys maxlen (zlen (edit_key line c)) buf' (out ++ shown)
    ∧ length buf' = length buf ∧ holds (edit_key line c) buf' ∧ shows echo (edit_key line c) (foldl put_char t (mjoin shown))
    ∧ (length (mjoin shown) ≤ 3)%nat.
Proof.
  intros H10 H13 Hs Hm Hb Ht. destruct (Z.eqb_spec c 8) as [->|H8].
  - destruct (decide (line = [])) as [->|Hne].
    + exists buf, []. cbn [read_loop]. rewrite (proj2 (Z.leb_gt _ _)) by done. rewrite app_nil_r. split_and!; try done. cbn. lia.
    + destruct (erase_step line buf keys maxlen out) as (buf' & Hr & Hl & Hh); [done..|].
      exists buf', [[8; 32; 8]]. split_and!; [done..|by apply shows_erase|done].
  - unfold edit_key. rewrite (proj2 (Z.eqb_neq c 8) H8). destruct ((32 <=? c) && (c <? 127)) eqn:Hp.
    + apply andb_true_iff in Hp as [Hp1 Hp2]. assert (Hc : 32 ≤ c < 127) by lia.
      destruct (type_step line buf keys maxlen out c) as (buf' & Hr & Hl & Hh); [done..|].
      exists buf', [[echo c]]. split_and!; [done..|by apply shows_type|cbn; lia].
    + exists buf, []. cbn [read_loop]. rewrite (proj2 (Z.leb_gt _ _)) by lia. rewrite app_nil_r.
      rewrite (proj2 (Z.eqb_neq c 10)), (proj2 (Z.eqb_neq c 13)), (proj2 (Z.eqb_neq c 8)), Hp by done. cbn [orb andb].
      split_and!; [by destruct (c =? 0)|done..|cbn; lia].
Qed.

(** Reading from a line on, up to the key that ends it. *)
Lemma read_loop_ok keys : ∀ line buf out maxlen nl rest t,
  nl = 10 ∨ nl = 13 → Forall (λ c, c ≠ 10 ∧ c ≠ 13) keys → stays_short (maxlen - 1) line keys → maxlen ≤ zlen buf →
  holds line buf → shows echo line t →
  let l := foldl edit_key line keys in
  ∃ buf' shown, read_loop echo (keys ++ nl :: rest) maxlen (zlen line) buf out = Ret (buf', out ++ shown ++ [[10]], rest) ∧
    length buf' = length buf ∧ holds l buf' ∧ buf' !! length l = Some 0 ∧ shows echo l (foldl put_char t (mjoin shown)) ∧
    (length (mjoin shown) ≤ 3 * length keys)%nat.
Proof.
  induction keys as [|c keys IH]; intros line buf out maxlen nl rest t Hnl Hk [Hs Hss] Hm Hb Ht; cbn zeta.
  - exists (<[length line := 0]> buf), []. cbn [app read_loop]. rewrite (proj2 (Z.leb_gt _ _)) by lia.
    rewrite (proj2 (Z.eqb_neq nl 0)) by lia. assert ((nl =? 10) || (nl =? 13) = true) as -> by (destruct Hnl as [-> | ->]; done).
    unfold zlen in *. rewrite (proj2 (bset_Ret buf _ 0 _)) by (split; [unfold zlen; lia|reflexivity]). rewrite Nat2Z.id. cbn [rbind foldl].
    split_and!; [done|by rewrite length_insert| |by apply list_lookup_insert_eq; lia|done|done].
    unfold holds. by rewrite take_insert_ge by lia.
  - apply Forall_cons in Hk as [[H10 H13] Hk].
    destruct (key_step line buf (keys ++ nl :: rest) maxlen out c t) as (buf1 & sh1 & Hr1 & Hl1 & Hh1 & Ht1 & Hn1); [done..|].
    destruct (IH (edit_key line c) buf1 (out ++ sh1) maxlen nl rest (foldl put_char t (mjoin sh1))) as (buf2 & sh2 & Hr2 & Hl2 & Hh2 & H0 & Ht2 & Hn2);
      [done|done|done|unfold zlen in *; by rewrite Hl1|done|done|].
    exists buf2, (sh1 ++ sh2). cbn [app foldl]. rewrite Hr1, Hr2, join_app, foldl_app, <- !app_assoc, Hl2, length_app.
    split_and!; [done..|cbn [length]; lia].
Qed.

Lemma edited_printable keys : ∀ line, Forall (λ c, 32 ≤ c < 127) line → Forall (λ c, 32 ≤ c < 127) (foldl edit_key line keys).
Proof.
  induction keys as [|c keys IH]; intros line Hl; [done|]. cbn [foldl]. apply IH. unfold edit_key. destruct (c =? 8); [by apply Forall_take|].
  destruct (_ && _) eqn:E; [|done]. apply Forall_app. split; [done|]. apply andb_true_iff in E. constructor; [lia|done].
Qed.

Lemma read_result keys maxlen buf nl rest :
  nl = 10 ∨ nl = 13 → Forall (λ c, c ≠ 10 ∧ c ≠ 13) keys → stays_short (maxlen - 1) [] keys → maxlen ≤ zlen buf →
  ∃ buf' shown, read_loop echo (keys ++ nl :: rest) maxlen 0 buf [] = Ret (buf', shown ++ [[10]], rest) ∧
    length buf' = length buf ∧ cstr buf' = foldl edit_key [] keys ∧ shows echo (foldl edit_key [] keys) (foldl put_char ([], []) (mjoin shown)) ∧
    (length (mjoin shown) ≤ 3 * length keys)%nat.
Proof.
  intros Hnl Hk Hs Hm. destruct (read_loop_ok keys [] buf [] maxlen nl rest ([], [])) as (buf' & shown & Hr & Hl & Hh & H0 & Ht & Hn); [done..|].
  exists buf', shown. split_and!; [exact Hr|done| |done|done]. set (l := foldl edit_key [] keys) in *.
  assert (Hok : cstr_ok l).
  { eapply Forall_impl; [by apply edited_printable|]. unfold cchar. cbn. lia. }
  rewrite <- (take_drop_middle _ _ _ H0), Hh. by apply cstr_app_nul.
Qed.
End editor.


