(* ===== verification/LibC.v ===== *)
(** * Numbers, searches and formatted output (kernel/libs/libc.c)

    [strtol], [atoi], the [utoa] family, [strstr], [strrchr], [memcmp], [strncpy], [strcat]
    and the [printf] family.  A C string is the list of its characters; a caller's buffer is
    given by its size and the result is the string left in it. *)
From S2P Require Import Prelude CString.

Definition isdigit (c : Z) : Z := if (48 <=? c) && (c <=? 57) then 1 else 0.

Fixpoint strrchr (s : list Z) (c : Z) : option (list Z) :=
  match s with
  | [] => None
  | x :: r => match strrchr r c with Some t => Some t | None => if x =? c then Some s else None end
  end.

(** The inner loop of [strstr]: the needle is used up. *)
Fixpoint str_prefix (n p : list Z) : bool :=
  match n, p with
  | [], _ => true
  | c :: n, x :: p => (x =? c) && str_prefix n p
  | _ :: _, [] => false
  end.
Fixpoint strstr_loop (h needle : list Z) : option (list Z) :=
  match h with
  | [] => None
  | _ :: r => if str_prefix needle h then Some h else strstr_loop r needle
  end.
Definition strstr (h needle : list Z) : option (list Z) :=
  match needle with [] => Some h | _ => strstr_loop h needle end.

(** The first [n] bytes of two objects. *)
Fixpoint memcmp (n : nat) (a b : list Z) : res Z :=
  match n with
  | O => Ret 0
  | S n =>
      match a, b with
      | x :: a, y :: b => if x <? y then Ret (-1) else if y <? x then Ret 1 else memcmp n a b
      | _, _ => UB
      end
  end.

(** [memmove] inside one object: both directions read the old bytes. *)
Fixpoint move_up (i d s : Z) (n : nat) (m : list Z) : res (list Z) :=
  match n with
  | O => Ret m
  | S n => let! v := bget m (s + i) in let! m := bset m (d + i) v in move_up (i + 1) d s n m
  end.
Fixpoint move_down (d s : Z) (n : nat) (m : list Z) : res (list Z) :=
  match n with
  | O => Ret m
  | S k => let! v := bget m (s + Z.of_nat k) in let! m := bset m (d + Z.of_nat k) v in move_down d s k m
  end.
Definition memmove (m : list Z) (d s : Z) (n : nat) : res (list Z) :=
  if (d =? s) || (n =? 0)%nat then Ret m
  else if d <? s then move_up 0 d s n m
  else move_down d s n m.

(** [strcpy] into the object [dst]. *)
Definition strcpy (dst src : list Z) : res (list Z) :=
  if (length dst <? length src + 1)%nat then UB else Ret (src ++ [0] ++ drop (length src + 1) dst).

(** The [n] bytes [strncpy] stores, and the object [dst] after it. *)
Definition strncpy (dst src : list Z) (n : nat) : res (list Z) :=
  if (length dst <? n)%nat then UB
  else Ret (take n src ++ replicate (n - length src) 0 ++ drop n dst).
(** [strcat] on the object [dst]. *)
Definition strcat (dst src : list Z) : res (list Z) :=
  let k := length (cstr dst) in
  if (length dst <? k + length src + 1)%nat then UB
  else Ret (take k dst ++ src ++ [0] ++ drop (k + length src + 1) dst).

(** ** Numbers from text *)

Definition is_space (c : Z) : bool := (c =? 32) || ((9 <=? c) && (c <=? 13)).
Fixpoint skip_space (s : list Z) : list Z :=
  match s with c :: r => if is_space c then skip_space r else s | [] => [] end.

Definition digit (c : Z) : option Z :=
  if (48 <=? c) && (c <=? 57) then Some (c - 48)
  else if (97 <=? c) && (c <=? 122) then Some (c - 97 + 10)
  else if (65 <=? c) && (c <=? 90) then Some (c - 65 + 10)
  else None.

(** A [long] overflow is undefined. *)
Definition long (z : Z) : res Z := if (- 2 ^ 63 <=? z) && (z <? 2 ^ 63) then Ret z else UB.

Fixpoint strtol_loop (s : list Z) (base acc : Z) (any : bool) : res (Z * bool * list Z) :=
  match s with
  | [] => Ret (acc, any, [])
  | c :: r =>
      match digit c with
      | Some k =>
          if base <=? k then Ret (acc, any, s)
          else let! a := long (acc * base) in let! a := long (a + k) in strtol_loop r base a true
      | None => Ret (acc, any, s)
      end
  end.

Definition hex_prefix (s : list Z) : bool :=
  match s with c :: x :: _ => (c =? 48) && ((x =? 120) || (x =? 88)) | _ => false end.

(** The value and where [*endptr] points. *)
Definition strtol (nptr : list Z) (base : Z) : res (Z * list Z) :=
  let s := skip_space nptr in
  let '(sign, s) :=
    match s with
    | c :: r => if c =? 43 then (1, r) else if c =? 45 then (-1, r) else (1, s)
    | [] => (1, s)
    end in
  let base :=
    if base =? 0 then
      if hex_prefix s then 16 else if bool_decide (head s = Some 48) then 8 else 10
    else base in
  let s := if (base =? 16) && hex_prefix s then drop 2 s else s in
  let! (acc, any, rest) := strtol_loop s base 0 false in
  Ret (sign * acc, if any then rest else nptr).

Definition atoi (s : list Z) : res Z := let! (v, _) := strtol s 10 in Ret (i32 v).

(** ** Text from numbers *)

(** [while (value > 0 && pos < room)]: digits, least significant first. *)
Fixpoint digits (room : nat) (base value : Z) (ch : Z → Z) : list Z :=
  match room with
  | O => []
  | S n => if 0 <? value then ch (value `mod` base) :: digits n base (value `div` base) ch else []
  end.
Definition dec_char (k : Z) : Z := 48 + k.
Definition hex_lower (k : Z) : Z := if k <? 10 then 48 + k else 97 + (k - 10).
Definition hex_upper (k : Z) : Z := if k <? 10 then 48 + k else 65 + (k - 10).

Definition rev_digits (room : nat) (base value : Z) (ch : Z → Z) : list Z :=
  if value =? 0 then [48] else digits room base value ch.

(** The string left in a buffer of [buflen] bytes: a short buffer receives the leading
    digits. *)
Definition to_text (room : nat) (base : Z) (ch : Z → Z) (value buflen : Z) : list Z :=
  let tmp := rev_digits room base value ch in
  if buflen <? zlen tmp + 1 then take (Z.to_nat (buflen - 1)) (reverse tmp) else reverse tmp.
Definition utoa (value buflen : Z) : list Z := to_text 23 10 dec_char value buflen.
Definition utoa64 (value buflen : Z) : list Z := to_text 31 10 dec_char value buflen.
Definition utoa64_hex (value buflen : Z) : list Z := to_text 31 16 hex_lower value buflen.

(** ** Formatted output *)

(** The arguments of a call, as the conversions fetch them. *)
Inductive Arg := AStr (s : list Z) | AInt (z : Z).

(** [-val] of the least integer is undefined. *)
Definition signed_text (w : Z) (utoa : Z → Z → list Z) (buflen z : Z) : res (list Z) :=
  if z <? 0 then
    if z =? - 2 ^ (w - 1) then UB else Ret (45 :: utoa (- z) buflen)
  else Ret (utoa z buflen).

(** One conversion: the text and the arguments left. *)
Definition convert (len_mod : Z) (c : Z) (args : list Arg) : res (list Z * list Arg) :=
  if c =? 115 then
    match args with AStr s :: args => Ret (s, args) | _ => UB end
  else if c =? 100 then
    match args with
    | AInt z :: args =>
        let! t := if len_mod =? 0 then signed_text 32 utoa 32 (i32 z) else signed_text 64 utoa64 64 (i64 z) in
        Ret (t, args)
    | _ => UB
    end
  else if c =? 117 then
    match args with
    | AInt z :: args => Ret (if len_mod =? 0 then utoa (u32 z) 32 else utoa64 (u64 z) 64, args)
    | _ => UB
    end
  else if c =? 120 then
    match args with
    | AInt z :: args =>
        Ret (if len_mod =? 0 then reverse (rev_digits 31 16 (u32 z) hex_upper) else utoa64_hex (u64 z) 64, args)
    | _ => UB
    end
  else if c =? 112 then
    match args with
    | AInt z :: args =>
        let t := utoa64_hex (u64 z) 32 in
        Ret ([48; 120] ++ replicate (16 - length t) 48 ++ t, args)
    | _ => UB
    end
  else if c =? 99 then
    match args with AInt z :: args => Ret ([u8 z], args) | _ => UB end
  else if c =? 37 then Ret ([37], args)
  else Ret ([37; c], args).

(** The length modifier before a conversion. *)
Definition length_mod (fmt : list Z) : Z * list Z :=
  match fmt with
  | c :: r =>
      if c =? 108 then match r with c' :: r' => if c' =? 108 then (2, r') else (1, r) | [] => (1, r) end
      else (0, fmt)
  | [] => (0, fmt)
  end.

(** The characters [vsprintf] writes; a format that ends inside a conversion runs past its
    end. *)
Fixpoint vsprintf_loop (n : nat) (fmt : list Z) (args : list Arg) (out : list Z) : res (list Z) :=
  match n with
  | O => Diverges
  | S n =>
      match fmt with
      | [] => Ret out
      | c :: r =>
          if negb (c =? 37) then vsprintf_loop n r args (out ++ [c])
          else
            let '(len_mod, r) := length_mod r in
            match r with
            | [] => UB
            | c :: r =>
                let! (t, args) := convert len_mod c args in vsprintf_loop n r args (out ++ t)
            end
      end
  end.
Definition vsprintf (fmt : list Z) (args : list Arg) : res (list Z) :=
  vsprintf_loop (S (length fmt)) fmt args [].

(** [vsnprintf] formats into [tmp[1024]] first. *)
Definition vsnprintf (n : Z) (fmt : list Z) (args : list Arg) : res (Z * list Z) :=
  let! t := vsprintf fmt args in
  if 1024 <? zlen t + 1 then UB
  else if n =? 0 then Ret (zlen t, [])
  else
    let to_copy := if n <=? zlen t then n - 1 else zlen t in
    Ret (to_copy, take (Z.to_nat to_copy) t).

(** ** Round trips *)

Lemma digit_dec k : 0 ≤ k < 10 → digit (dec_char k) = Some k.
Proof.
  intros Hk. unfold digit, dec_char. rewrite (proj2 (Z.leb_le 48 (48 + k))) by lia.
  rewrite (proj2 (Z.leb_le (48 + k) 57)) by lia. cbn. f_equal. lia.
Qed.

(** [strtol] of digits (most significant first) continues from [acc]. *)
Lemma strtol_digits n v : ∀ acc any rest,
  0 ≤ v < 10 ^ Z.of_nat n → 0 ≤ acc → (∀ c r, rest = c :: r → digit c = None) →
  let ds := reverse (digits n 10 v dec_char) in
  acc * 10 ^ zlen ds + v < 2 ^ 63 →
  strtol_loop (ds ++ rest) 10 acc any
  = Ret (acc * 10 ^ zlen ds + v, any || negb (v =? 0), rest).
Proof.
  revert v. induction n as [|n IH]; intros v acc any rest Hv Hacc Hrest; cbn zeta.
  - assert (v = 0) as -> by (cbn in Hv; lia). cbn. intros Hb. rewrite Z.mul_1_r, Z.add_0_r, orb_false_r.
    destruct rest as [|c r]; [done|]. cbn. by rewrite (Hrest c r).
  - cbn [digits]. destruct (Z.ltb_spec 0 v) as [Hp|Hz].
    2: { assert (v = 0) as -> by lia. cbn. intros Hb. rewrite Z.mul_1_r, Z.add_0_r, orb_false_r.
         destruct rest as [|c r]; [done|]. cbn. by rewrite (Hrest c r). }
    rewrite reverse_cons. set (q := v `div` 10). set (k := v `mod` 10).
    assert (v = 10 * q + k ∧ 0 ≤ k < 10 ∧ 0 ≤ q < 10 ^ Z.of_nat n) as (Hv' & Hk & Hq).
    { rewrite Nat2Z.inj_succ, Z.pow_succ_r in Hv by lia. pose proof (Z.div_mod v 10 ltac:(lia)).
      pose proof (Z.mod_pos_bound v 10 ltac:(lia)). subst q k. lia. }
    set (ds := reverse (digits n 10 q dec_char)). rewrite zlen_app.
    change (zlen [dec_char k]) with 1. rewrite Z.pow_add_r by (try apply zlen_nonneg; lia). change (10 ^ 1) with 10.
    assert (0 ≤ acc * 10 ^ zlen ds) as Hpos by (apply Z.mul_nonneg_nonneg; [done|apply Z.pow_nonneg; lia]).
    intros Hb. rewrite <- app_assoc. cbn [app].
    (* the leading digits, then the last *)
    assert (Hgen : ∀ ds', strtol_loop (ds' ++ dec_char k :: rest) 10 acc any
      = let! (a, y, r) := strtol_loop ds' 10 acc any in
        if bool_decide (r = []) then strtol_loop (dec_char k :: rest) 10 a y else Ret (a, y, r ++ dec_char k :: rest)).
    { intros ds'. clear. revert acc any. induction ds' as [|c ds' IHd]; intros acc any; [done|].
      cbn [app strtol_loop]. destruct (digit c) as [j|]; [|done].
      destruct (10 <=? j); [done|]. destruct (long (acc * 10)) as [a| |]; [|done..]. cbn [rbind].
      destruct (long (a + j)) as [a'| |]; [|done..]. cbn [rbind]. apply IHd. }
    rewrite Hgen. specialize (IH q acc any [] Hq Hacc). cbn zeta in IH. rewrite app_nil_r in IH. fold ds in IH.
    rewrite IH; [|done|lia]. cbn [rbind]. rewrite bool_decide_true by done.
    cbn [strtol_loop]. rewrite digit_dec by done. rewrite (proj2 (Z.leb_gt 10 k)) by lia.
    assert (Hlong : ∀ z, 0 ≤ z < 2 ^ 63 → long z = Ret z).
    { intros z Hz. unfold long. rewrite (proj2 (Z.leb_le _ _)), (proj2 (Z.ltb_lt _ _)) by lia. done. }
    rewrite Hlong by lia. cbn [rbind]. rewrite Hlong by lia. cbn [rbind].
    rewrite (proj2 (Z.eqb_neq v 0)) by lia. rewrite orb_true_r.
    transitivity (Ret (acc * (10 ^ zlen ds * 10) + v, true, rest)); [|done].
    replace ((acc * 10 ^ zlen ds + q) * 10 + k) with (acc * (10 ^ zlen ds * 10) + v) by lia.
    destruct rest as [|c r]; [done|]. cbn. by rewrite (Hrest c r).
Qed.

Lemma digits_head n v : 0 < v → (0 < n)%nat → ∃ k r, digits n 10 v dec_char = dec_char k :: r ∧ 0 ≤ k < 10.
Proof.
  intros Hv Hn. destruct n as [|n]; [lia|]. cbn [digits]. rewrite (proj2 (Z.ltb_lt 0 v)) by done.
  eexists _, _. split; [done|]. apply Z.mod_pos_bound. lia.
Qed.

Lemma digits_chars n v : Forall (λ c, 48 ≤ c ≤ 57) (digits n 10 v dec_char).
Proof.
  revert v. induction n as [|n IH]; intros v; cbn [digits]; [constructor|].
  destruct (0 <? v); constructor; [|apply IH]. unfold dec_char. pose proof (Z.mod_pos_bound v 10). lia.
Qed.

(** A number written in decimal begins with a digit: no space, sign or prefix is skipped. *)
Lemma strtol_decimal ds rest : ds ≠ [] → Forall (λ c, 48 ≤ c ≤ 57) ds →
  strtol (ds ++ rest) 10
  = let! (acc, any, r) := strtol_loop (ds ++ rest) 10 0 false in Ret (1 * acc, if any then r else ds ++ rest).
Proof.
  intros Hne Hd. destruct Hd as [|c ds Hc Hd]; [done|]. unfold strtol. cbn [app skip_space].
  assert (is_space c = false) as ->.
  { unfold is_space. rewrite (proj2 (Z.eqb_neq c 32)) by lia. rewrite (proj2 (Z.leb_gt c 13)) by lia. by rewrite andb_false_r. }
  rewrite (proj2 (Z.eqb_neq c 43)), (proj2 (Z.eqb_neq c 45)) by lia. done.
Qed.

(** [strtol] reads back what the [utoa] family writes. *)
Lemma strtol_text n v rest :
  (0 < n)%nat → 0 ≤ v < 10 ^ Z.of_nat n → v < 2 ^ 63 → (∀ c r, rest = c :: r → digit c = None) →
  strtol (reverse (rev_digits n 10 v dec_char) ++ rest) 10 = Ret (v, rest).
Proof.
  intros Hn Hv Hl Hrest. unfold rev_digits. destruct (Z.eqb_spec v 0) as [->|Hz].
  - cbn. destruct rest as [|c r]; [done|]. cbn. by rewrite (Hrest c r).
  - destruct (digits_head n v) as (k & r & Hd & Hk); [lia|done|].
    rewrite strtol_decimal.
    + rewrite (strtol_digits n v 0 false rest); [|done|lia|done|lia]. cbn [rbind].
      rewrite (proj2 (Z.eqb_neq v 0)) by done. cbn [orb negb]. do 2 f_equal. lia.
    + rewrite Hd, reverse_cons. by destruct (reverse r).
    + apply Forall_reverse, digits_chars.
Qed.

(** Decimal round trip: a 31-bit number printed by [utoa] with room for its digits is read
    back by [atoi], whatever non-digit text follows it. *)
Theorem utoa_atoi_roundtrip (v buflen : Z) (rest : list Z) (Hv : 0 ≤ v < 2 ^ 31) (Hb : 24 ≤ buflen)
  (Hrest : ∀ c r, rest = c :: r → digit c = None) :
  atoi (utoa v buflen ++ rest) = Ret v.
Proof.
  unfold atoi, utoa, to_text. rewrite (proj2 (Z.ltb_ge _ _)).
  - rewrite strtol_text; [|lia|lia|lia|done]. cbn [rbind]. f_equal. apply i32_small. lia.
  - enough (∀ n w, zlen (digits n 10 w dec_char) ≤ Z.of_nat n) as Hlen.
    { unfold rev_digits. destruct (v =? 0); [|specialize (Hlen 23%nat v); lia]. change (zlen [48]) with 1. lia. }
    clear. induction n as [|n IH]; intros w; cbn [digits]; [done|].
    destruct (0 <? w); [|rewrite zlen_nil; lia]. rewrite zlen_cons. specialize (IH (w `div` 10)). lia.
Qed.

Lemma utoa_atoi_roundtrip_witness : atoi (utoa 1048576 32 ++ str " bytes") = Ret 1048576.
Proof. apply utoa_atoi_roundtrip; [lia|lia|]. vm_compute. by intros c r [= <- _]. Defined.

(** A buffer too short for the number receives its leading digits. *)
Example utoa_truncates : utoa 12345 4 = str "123".
Proof. reflexivity. Qed.

(** [snprintf] returns the number of characters stored, not the number the full text has. *)
Example snprintf_truncates :
  vsnprintf 6 (str "%s=%d") [AStr (str "size"); AInt (-7)] = Ret (5, str "size=").
Proof. reflexivity. Qed.
