(* ===== verification/Fat.v ===== *)
(** * FAT32 (kernel/filesystem/fat32.cpp)

    The volume on sectors: the allocation table, directory entries, path look-up, file
    contents.  The driver's globals are the record [Fat]; the device is threaded.  A sector
    buffer is the list of the bytes a read filled in; a load outside them is undefined.
    Log lines are not modelled. *)
From S2P Require Import Prelude Loop CString HeapSpec BlockDev.

(** ** Structures *)

Record BPB_FAT32 := Bpb {
  jmpBoot : list Z; OEMName : list Z; BytsPerSec : Z; SecPerClus : Z; RsvdSecCnt : Z;
  NumFATs : Z; RootEntCnt : Z; TotSec16 : Z; Media : Z; FATSz16 : Z; SecPerTrk : Z;
  NumHeads : Z; HiddSec : Z; TotSec32 : Z; FATSz32 : Z; ExtFlags : Z; FSVer : Z;
  RootClus : Z; FSInfo : Z; BkBootSec : Z; Reserved : list Z; DrvNum : Z; Reserved1 : Z;
  BootSig : Z; VolID : Z; VolLab : list Z; FilSysType : list Z
}.

(** [n] bytes at [off] as a list and as a little-endian number. *)
Definition bytes_at (b : list Z) (off n : Z) : res (list Z) :=
  if (0 <=? off) && (0 <=? n) && (off + n <=? zlen b)
  then Ret (take (Z.to_nat n) (drop (Z.to_nat off) b)) else UB.
Definition load (n : Z) (b : list Z) (off : Z) : res Z :=
  let! l := bytes_at b off n in Ret (le_val l).

(** [memcpy(&bpb, sector, sizeof(BPB_FAT32))] of the packed structure. *)
Definition read_bpb (b : list Z) : res BPB_FAT32 :=
  let! jmp := bytes_at b 0 3 in let! oem := bytes_at b 3 8 in
  let! bps := load 2 b 11 in let! spc := load 1 b 13 in let! rsvd := load 2 b 14 in
  let! nf := load 1 b 16 in let! rec := load 2 b 17 in let! t16 := load 2 b 19 in
  let! media := load 1 b 21 in let! f16 := load 2 b 22 in let! spt := load 2 b 24 in
  let! nh := load 2 b 26 in let! hid := load 4 b 28 in let! t32 := load 4 b 32 in
  let! f32 := load 4 b 36 in let! ext := load 2 b 40 in let! ver := load 2 b 42 in
  let! root := load 4 b 44 in let! fsi := load 2 b 48 in let! bk := load 2 b 50 in
  let! resv := bytes_at b 52 12 in let! drv := load 1 b 64 in let! r1 := load 1 b 65 in
  let! sig := load 1 b 66 in let! vid := load 4 b 67 in let! lab := bytes_at b 71 11 in
  let! typ := bytes_at b 82 8 in
  Ret (Bpb jmp oem bps spc rsvd nf rec t16 media f16 spt nh hid t32 f32 ext ver root fsi bk
           resv drv r1 sig vid lab typ).

Record Fat := FatState {
  fat32_ready : bool;
  bpb : BPB_FAT32;
  fat_begin_lba : Z;
  cluster_begin_lba : Z;
  sectors_per_cluster : Z;
  bytes_per_sector : Z;
  root_dir_cluster : Z;
  mounted_drive : Z;
  mounted_module_name : list Z;
  module_image : option (list Z);
  module_image_size : Z
}.

Definition BAD : Z := 0x0FFFFFF7.
Definition EOC : Z := 0x0FFFFFF8.
Definition LAST : Z := 0x0FFFFFFF.

(** ** Sector buffers

    [uint8_t sector[4096]]: bytes not yet written are [None]. *)
Definition buffer (b : list Z) : list (option Z) := (Some <$> b) ++ replicate (4096 - length b) None.

Fixpoint stores (buf : list (option Z)) (l : list (Z * Z)) : res (list (option Z)) :=
  match l with
  | [] => Ret buf
  | (i, v) :: l =>
      if (0 <=? i) && (i <? zlen buf) then stores (<[Z.to_nat i := Some v]> buf) l else UB
  end.
Fixpoint seq_stores (i : Z) (bs : list Z) : list (Z * Z) :=
  match bs with [] => [] | v :: bs => (i, v) :: seq_stores (i + 1) bs end.

Section device.
Context {D : Type} `{BlockDev D}.

(** [ata_write_sector(lba, buf)] sends the first 512 bytes. *)
Definition put_sector (lba : Z) (buf : list (option Z)) (d : D) : res (Z * D) :=
  let! b := of_opt (mapM id (take 512 buf)) in
  if zlen b <? 512 then UB else Ret (ata_write_sector lba b d).

(** A read into an array of [cap] bytes. *)
Definition fat32_read_sector (g : Fat) (cap lba : Z) (d : D) : res (Z * list Z * D) :=
  match module_image g with
  | Some img =>
      if (mounted_drive g =? 1) && (0 <? module_image_size g) && (0 <? bytes_per_sector g) then
        let off := lba * bytes_per_sector g in
        if u64 (off + bytes_per_sector g) <=? module_image_size g then
          if cap <? bytes_per_sector g then UB
          else let! b := bytes_at img off (bytes_per_sector g) in Ret (0, b, d)
        else Ret (-1, [], d)
      else Ret (ata_read_sector lba d)
  | None => Ret (ata_read_sector lba d)
  end.

Definition cluster_to_lba (g : Fat) (cluster : Z) : Z :=
  u32 (cluster_begin_lba g + (cluster - 2) * sectors_per_cluster g).

(** ** The allocation table *)

Definition read_fat_entry (g : Fat) (cluster : Z) (d : D) : res (Z * D) :=
  if bytes_per_sector g =? 0 then UB
  else
    let fat_offset := u32 (cluster * 4) in
    let fat_sector := u32 (fat_begin_lba g + fat_offset `div` bytes_per_sector g) in
    let ent_offset := fat_offset `mod` bytes_per_sector g in
    if 512 <? bytes_per_sector g then Ret (BAD, d)
    else
      let! (rc, b, d) := fat32_read_sector g 512 fat_sector d in
      if negb (rc =? 0) then Ret (BAD, d)
      else let! v := load 4 b ent_offset in Ret (Z.land v LAST, d).

(** The copies [fat_i], [fat_i + 1], ... of the table. *)
Definition write_fat_copy (g : Fat) (idx ent_offset val : Z) (fat_i : Z) (d : D) : res (D + (Z * D)) :=
  let fat_sector := u32 (fat_begin_lba g + fat_i * FATSz32 (bpb g) + idx) in
  let! (rc, b, d) := fat32_read_sector g 4096 fat_sector d in
  if negb (rc =? 0) then Ret (inr (-1, d))
  else
    let! buf := stores (buffer b) (seq_stores ent_offset (le_bytes 4 (Z.land val LAST))) in
    let! (rc, d) := put_sector fat_sector buf d in
    if negb (rc =? 0) then Ret (inr (-1, d)) else Ret (inl d).

Definition write_fat_entry (g : Fat) (cluster val : Z) (d : D) : res (Z * D) :=
  if bytes_per_sector g =? 0 then Ret (-1, d)
  else
    let fat_offset := u32 (cluster * 4) in
    let idx := fat_offset `div` bytes_per_sector g in
    let ent_offset := fat_offset `mod` bytes_per_sector g in
    if FATSz32 (bpb g) =? 0 then Ret (-1, d)
    else if 4096 <? bytes_per_sector g then Ret (-1, d)
    else
      let! x := for_loop (range 0 (NumFATs (bpb g)) 1) (write_fat_copy g idx ent_offset val) d in
      match x with inl d => Ret (0, d) | inr r => Ret r end.

Definition find_free_step (g : Fat) (entries : Z) '(c, d) : res ((Z * D) + (Z * D)) :=
  if negb (c <? entries) then Ret (inr (0, d))
  else
    let! (v, d) := read_fat_entry g c d in
    if v =? 0 then Ret (inr (c, d)) else Ret (inl (u32 (c + 1), d)).

Definition find_free_cluster (g : Fat) (d : D) : res (Z * D) :=
  let fatsz := FATSz32 (bpb g) in
  if (fatsz =? 0) || (bytes_per_sector g =? 0) then Ret (0, d)
  else
    let entries := u32 ((fatsz * bytes_per_sector g) `div` 4) in
    while (find_free_step g entries) (2, d).

Definition alloc_cluster (g : Fat) (d : D) : res (Z * D) :=
  let! (c, d) := find_free_cluster g d in
  if c =? 0 then Ret (0, d)
  else
    let! (rc, d) := write_fat_entry g c LAST d in
    if negb (rc =? 0) then Ret (0, d) else Ret (c, d).

Definition free_step (g : Fat) '(cur, d) : res ((Z * D) + D) :=
  if negb ((2 <=? cur) && (cur <? EOC)) then Ret (inr d)
  else
    let! (next, d) := read_fat_entry g cur d in
    let! (_, d) := write_fat_entry g cur 0 d in
    if (next =? 0) || (EOC <=? next) then Ret (inr d)
    else if next =? cur then Ret (inr d)
    else Ret (inl (next, d)).

Definition free_cluster_chain (g : Fat) (start : Z) (d : D) : res D :=
  if start <? 2 then Ret d else while (free_step g) (start, d).

(** ** Walking a cluster chain

    Every walk of the driver reads the sectors of a cluster in order and then follows the
    table.  [visit lba b a] looks at one sector; [err a] is the result of a failed read and
    [stop a] that of the end of the chain; [self] is the test [next == cluster]. *)
Definition in_chain (c : Z) : bool := negb (c =? 0) && negb (c =? BAD) && (c <? EOC).

Definition chain_sector {A R} (g : Fat) (err : A → R) (visit : Z → list Z → A → res (A + R))
  (cluster s : Z) '(a, d) : res ((A * D) + (R * D)) :=
  let lba := u32 (cluster_to_lba g cluster + s) in
  let! (rc, b, d) := fat32_read_sector g 4096 lba d in
  if negb (rc =? 0) then Ret (inr (err a, d))
  else
    let! x := visit lba b a in
    match x with inl a => Ret (inl (a, d)) | inr r => Ret (inr (r, d)) end.

Definition chain_step {A R} (g : Fat) (self : bool) (err : A → R) (stop : A → R)
  (visit : Z → list Z → A → res (A + R)) '(cluster, a, d) : res ((Z * A * D) + (R * D)) :=
  if negb (in_chain cluster) then Ret (inr (stop a, d))
  else
    let! x := for_loop (range 0 (sectors_per_cluster g) 1) (chain_sector g err visit cluster) (a, d) in
    match x with
    | inr r => Ret (inr r)
    | inl (a, d) =>
        let! (next, d) := read_fat_entry g cluster d in
        if (next =? 0) || (next =? BAD) || (EOC <=? next) || (self && (next =? cluster))
        then Ret (inr (stop a, d)) else Ret (inl (next, a, d))
    end.

Definition chain_walk {A R} (g : Fat) (self : bool) (err : A → R) (stop : A → R)
  (visit : Z → list Z → A → res (A + R)) (cluster : Z) (a : A) (d : D) : res (R * D) :=
  while (chain_step g self err stop visit) (cluster, a, d).
End device.

(** The 32-byte entries of a sector. *)
Definition each_entry {A R} (g : Fat) (visit : Z → list Z → Z → A → res (A + R))
  (lba : Z) (b : list Z) (a : A) : res (A + R) :=
  for_loop (range 0 (bytes_per_sector g) 32) (visit lba b) a.
