(* ===== verification/FatTable.v ===== *)
(** * Sector images (kernel/filesystem/fat32.cpp)

    Stores into a sector buffer as updates of its bytes, slices of the result, and devices
    whose sector transfers succeed. *)
From S2P Require Import Prelude Loop CString BlockDev Fat.

(** Byte stores into an array. *)
Definition poke (b : list Z) (l : list (Z * Z)) : list Z :=
  foldl (λ b '(i, v), <[Z.to_nat i := v]> b) b l.

Definition stores_in (n : nat) (l : list (Z * Z)) : Prop := Forall (λ '(i, v), 0 ≤ i < Z.of_nat n ∧ is_byte v) l.

Lemma length_poke b l : length (poke b l) = length b.
Proof. revert b. induction l as [|[i v] l IH]; intros b; [done|]. cbn. rewrite IH. apply length_insert. Qed.

Lemma poke_app b l k : poke b (l ++ k) = poke (poke b l) k.
Proof. apply foldl_app. Qed.

Lemma poke_bytes n b l : stores_in n l → Forall is_byte b → Forall is_byte (poke b l).
Proof.
  intros Hl. revert b. induction Hl as [|[i v] l [_ Hv] _ IH]; intros b Hb; [done|]. cbn.
  apply IH. by apply Forall_insert.
Qed.

(** A cell keeps the last store to it. *)
Lemma poke_lookup_ne b l i : (∀ j v, (j, v) ∈ l → Z.to_nat j ≠ i) → poke b l !! i = b !! i.
Proof.
  revert b. induction l as [|[j v] l IH]; intros b Hl; [done|]. cbn. rewrite IH.
  - apply list_lookup_insert_ne. apply (Hl j v). left.
  - intros j' v' Hin. apply (Hl j' v'). by right.
Qed.

Lemma buffer_length b : (length b ≤ 4096)%nat → length (buffer b) = 4096%nat.
Proof. intros Hb. unfold buffer. rewrite length_app, length_fmap, length_replicate. lia. Qed.

Lemma buffer_insert b i v : (i < length b)%nat → <[i := Some v]> (buffer b) = buffer (<[i := v]> b).
Proof.
  intros Hi. unfold buffer. rewrite insert_app_l by (by rewrite length_fmap).
  by rewrite length_insert, list_fmap_insert.
Qed.

Lemma stores_buffer b l :
  (length b ≤ 4096)%nat → stores_in (length b) l → stores (buffer b) l = Ret (buffer (poke b l)).
Proof.
  intros Hb Hl. revert b Hb Hl. induction l as [|[i v] l IH]; intros b Hb Hl; [done|].
  apply Forall_cons in Hl as [[Hi Hv] Hl]. cbn [stores]. unfold zlen. rewrite buffer_length by done.
  rewrite (proj2 (Z.leb_le 0 i)), (proj2 (Z.ltb_lt i _)) by lia. cbn [andb].
  rewrite buffer_insert by lia. rewrite IH; [done|by rewrite length_insert|].
  by rewrite length_insert.
Qed.

Lemma mapM_buffer (b : list Z) : mapM id (Some <$> b) = Some b.
Proof. induction b as [|x b IH]; [done|]. rewrite fmap_cons. cbn [mapM]. rewrite IH. done. Qed.

Lemma put_buffer {D} `{BlockDev D} lba b (d : D) :
  length b = 512%nat → put_sector lba (buffer b) d = Ret (ata_write_sector lba b d).
Proof.
  intros Hb. unfold put_sector, buffer. rewrite take_app_le by (rewrite length_fmap; lia).
  rewrite take_ge by (rewrite length_fmap; lia). rewrite mapM_buffer. cbn [of_opt rbind].
  unfold zlen. rewrite Hb. done.
Qed.

(** ** Slices *)

Definition slice (b : list Z) (off n : nat) : list Z := take n (drop off b).

Lemma bytes_at_slice b off n :
  0 ≤ off → 0 ≤ n → off + n ≤ zlen b → bytes_at b off n = Ret (slice b (Z.to_nat off) (Z.to_nat n)).
Proof.
  intros. unfold bytes_at. rewrite !(proj2 (Z.leb_le _ _)) by lia. done.
Qed.

Lemma length_slice b off n : (off + n ≤ length b)%nat → length (slice b off n) = n.
Proof. intros. unfold slice. rewrite length_take, length_drop. lia. Qed.

Lemma slice_lookup b off n i : (i < n)%nat → slice b off n !! i = b !! (off + i)%nat.
Proof. intros. unfold slice. by rewrite lookup_take_lt, lookup_drop. Qed.

Lemma slice_bytes b off n : Forall is_byte b → Forall is_byte (slice b off n).
Proof. intros. by apply Forall_take, Forall_drop. Qed.

(** Two slices agree when their cells do. *)
Lemma slice_ext b b' off off' n :
  (∀ i, (i < n)%nat → b !! (off + i)%nat = b' !! (off' + i)%nat) → slice b off n = slice b' off' n.
Proof.
  intros Hb. apply list_eq. intros i. destruct (decide (i < n)%nat) as [Hi|Hi].
  - rewrite !slice_lookup by done. auto.
  - unfold slice. rewrite !lookup_take_ge by lia. done.
Qed.

Lemma slice_poke_ne b l off n :
  (∀ j v, (j, v) ∈ l → Z.to_nat j < off ∨ off + n ≤ Z.to_nat j)%nat → slice (poke b l) off n = slice b off n.
Proof.
  intros Hl. apply slice_ext. intros i Hi. apply poke_lookup_ne. intros j v Hin. specialize (Hl j v Hin). lia.
Qed.

Lemma elem_of_seq_stores i bs j v : (j, v) ∈ seq_stores i bs → i ≤ j < i + zlen bs.
Proof.
  revert i. induction bs as [|x bs IH]; intros i; [by intros ?%elem_of_nil|]. rewrite zlen_cons. cbn [seq_stores].
  pose proof (zlen_nonneg bs). intros [[= -> ->]|Hin]%elem_of_cons; [lia|]. apply IH in Hin. lia.
Qed.

Lemma seq_stores_in n i bs :
  0 ≤ i → i + zlen bs ≤ Z.of_nat n → Forall is_byte bs → stores_in n (seq_stores i bs).
Proof.
  intros Hi Hn Hb. revert i Hi Hn. induction Hb as [|v bs Hv Hb IH]; intros i Hi Hn; [constructor|].
  rewrite zlen_cons in Hn. pose proof (zlen_nonneg bs). constructor; [split; [lia|done]|]. apply IH; lia.
Qed.

(** The bytes of consecutive stores. *)
Lemma slice_seq_stores b i bs :
  0 ≤ i → i + zlen bs ≤ zlen b → slice (poke b (seq_stores i bs)) (Z.to_nat i) (length bs) = bs.
Proof.
  revert i b. induction bs as [|v bs IH]; intros i b Hi Hn; [done|].
  rewrite zlen_cons in Hn. pose proof (zlen_nonneg bs). cbn [seq_stores length].
  change (poke b ((i, v) :: seq_stores (i + 1) bs)) with (poke (<[Z.to_nat i := v]> b) (seq_stores (i + 1) bs)).
  unfold slice. rewrite (drop_S _ v).
  - cbn [take]. f_equal. replace (S (Z.to_nat i)) with (Z.to_nat (i + 1)) by lia.
    apply IH; [lia|]. unfold zlen in *. rewrite length_insert. lia.
  - rewrite poke_lookup_ne; [apply list_lookup_insert_eq; unfold zlen in *; lia|].
    intros j w Hin%elem_of_seq_stores. lia.
Qed.

(** ** Devices whose transfers succeed *)

Class ReliableDev (D : Type) `{BlockDev D} := {
  read_succeeds lba (d : D) : ∃ b d', ata_read_sector lba d = (0, b, d');
  write_succeeds lba b (d : D) :
    length b = 512%nat → Forall is_byte b → ∃ d', ata_write_sector lba b d = (0, d')
}.

#[export] Instance disk_reliable : ReliableDev Disk.
Proof.
  split; [eauto|]. intros lba b d Hl Hb. cbn. case_decide as Hd; [eauto|].
  destruct Hd. by apply bool_decide_pack.
Defined.

Section reliable.
Context {D : Type} `{BlockDevSpec D} `{!ReliableDev D}.

(** Devices with the same contents. *)
Definition same (d d' : D) : Prop := ∀ l, sector d' l = sector d l.

#[export] Instance same_preorder : PreOrder same.
Proof. split; [done|]. intros d1 d2 d3 H1 H2 l. by rewrite H2, H1. Qed.

Lemma ata_read_ok lba (d : D) : ∃ d', ata_read_sector lba d = (0, sector d lba, d') ∧ same d d'.
Proof.
  destruct (read_succeeds lba d) as (b & d' & Hr). destruct (read_ok _ _ _ _ Hr) as [-> Hs]. eauto.
Qed.

Lemma ata_write_ok lba b (d : D) :
  length b = 512%nat → Forall is_byte b →
  ∃ d', ata_write_sector lba b d = (0, d') ∧ ∀ l, sector d' l = if l =? lba then b else sector d l.
Proof.
  intros Hl Hb. destruct (write_succeeds lba b d Hl Hb) as (d' & Hw). exists d'.
  split; [done|]. by apply write_ok.
Qed.
End reliable.

(** * The FAT32 allocation table

    On a mounted ATA volume with 512-byte sectors the table is a function from clusters to
    28-bit values.  [read_fat_entry] evaluates it, [write_fat_entry] updates one point in
    every copy, [alloc_cluster] takes the lowest free cluster, and [free_cluster_chain]
    clears exactly the clusters of a chain. *)


(** The number of table entries. *)
Definition entries (g : Fat) : Z := FATSz32 (bpb g) * 128.

(** A mounted ATA volume: the tables lie before the data, and every cluster the table can
    name has sector numbers of 32 bits. *)
Record vol_ok (g : Fat) : Prop := {
  v_ready : fat32_ready g = true;
  v_ata : mounted_drive g = 0;
  v_bps : bytes_per_sector g = 512;
  v_spc : 1 ≤ sectors_per_cluster g;
  v_fatsz : 0 < FATSz32 (bpb g);
  v_nfats : 1 ≤ NumFATs (bpb g);
  v_begin : 0 ≤ fat_begin_lba g;
  v_layout : cluster_begin_lba g = fat_begin_lba g + NumFATs (bpb g) * FATSz32 (bpb g);
  v_fits : cluster_begin_lba g + (entries g - 2) * sectors_per_cluster g ≤ 2 ^ 32;
  v_entries : entries g ≤ BAD
}.

(** The sectors of the tables. *)
Definition in_table (g : Fat) (l : Z) : Prop := fat_begin_lba g ≤ l < cluster_begin_lba g.

Section table.
Context {D : Type} `{BlockDevSpec D} `{!ReliableDev D}.
Implicit Types d : D.

(** The entry of a cluster in the first table. *)
Definition fat_val (g : Fat) (d : D) (c : Z) : Z :=
  Z.land (le_val (slice (sector d (fat_begin_lba g + c `div` 128)) (Z.to_nat (4 * (c `mod` 128))) 4)) LAST.

Lemma fat_val_same g d d' c : same d d' → fat_val g d' c = fat_val g d c.
Proof. intros Hs. unfold fat_val. by rewrite Hs. Qed.

Lemma zlen_sector d l : zlen (sector d l) = 512.
Proof. unfold zlen. by rewrite sector_size. Qed.

Lemma land_last v : Z.land v LAST = v `mod` 2 ^ 28.
Proof. apply (land_ones_mod v 28). lia. Qed.

Lemma fat_val_bound g d c : 0 ≤ fat_val g d c < 2 ^ 28.
Proof. unfold fat_val. rewrite land_last. apply Z.mod_pos_bound. lia. Qed.

Section vol.
Context (g : Fat) (Hg : vol_ok g).

Lemma read_sector_ata cap lba d :
  ∃ d', fat32_read_sector g cap lba d = Ret (0, sector d lba, d') ∧ same d d'.
Proof.
  destruct (ata_read_ok lba d) as (d' & Hr & Hs). exists d'. split; [|done].
  unfold fat32_read_sector. rewrite Hr, (v_ata _ Hg). by destruct (module_image g).
Qed.

(** The position of an entry. *)
Lemma entry_position c : 0 ≤ c < entries g →
  u32 (c * 4) `div` 512 = c `div` 128 ∧ u32 (c * 4) `mod` 512 = 4 * (c `mod` 128)
  ∧ 0 ≤ c `div` 128 < FATSz32 (bpb g) ∧ 0 ≤ 4 * (c `mod` 128) ≤ 508.
Proof.
  intros Hc. pose proof (v_entries _ Hg). unfold BAD, entries in *.
  rewrite u32_small by lia. pose proof (Z.mod_pos_bound c 128 ltac:(lia)).
  split_and!; [change 512 with (128 * 4); apply Z.div_mul_cancel_r; lia| |apply Z.div_pos; lia|apply Z.div_lt_upper_bound; lia|lia|lia].
  change 512 with (128 * 4). rewrite Z.mul_mod_distr_r by lia. lia.
Qed.

Lemma table_lba_small i k : 0 ≤ i < NumFATs (bpb g) → 0 ≤ k < FATSz32 (bpb g) →
  0 ≤ fat_begin_lba g + i * FATSz32 (bpb g) + k < 2 ^ 32 ∧ in_table g (fat_begin_lba g + i * FATSz32 (bpb g) + k).
Proof.
  intros Hi Hk. unfold in_table. pose proof (v_begin _ Hg). pose proof (v_layout _ Hg). pose proof (v_fits _ Hg).
  pose proof (v_fatsz _ Hg). pose proof (v_spc _ Hg). unfold entries in *.
  assert (0 ≤ (FATSz32 (bpb g) * 128 - 2) * sectors_per_cluster g) by nia. nia.
Qed.

Lemma read_fat_entry_ok c d : 0 ≤ c < entries g →
  ∃ d', read_fat_entry g c d = Ret (fat_val g d c, d') ∧ same d d'.
Proof.
  intros Hc. destruct (entry_position c Hc) as (H1 & H2 & H3 & H4).
  pose proof (table_lba_small 0 (c `div` 128) ltac:(pose proof (v_nfats _ Hg); lia) H3) as [Hl _].
  unfold read_fat_entry. rewrite (v_bps _ Hg), H1, H2. cbn [Z.eqb Z.ltb Z.compare Pos.compare Pos.compare_cont].
  rewrite u32_small by lia.
  destruct (read_sector_ata 512 (fat_begin_lba g + c `div` 128) d) as (d' & -> & Hs). cbn [rbind].
  change (negb (0 =? 0)) with false. cbn iota. exists d'. split; [|done].
  unfold load. rewrite bytes_at_slice by (rewrite ?zlen_sector; lia). done.
Qed.

(** ** Writing an entry *)

Definition patch (off v : Z) (b : list Z) : list Z := poke b (seq_stores off (le_bytes 4 (Z.land v LAST))).

Lemma patch_stores off v : 0 ≤ off ≤ 508 → stores_in 512 (seq_stores off (le_bytes 4 (Z.land v LAST))).
Proof. intros. apply seq_stores_in; [lia|rewrite zlen_le_bytes; lia|apply le_bytes_is_byte]. Qed.

Lemma write_fat_copy_ok idx off v i d :
  0 ≤ i < NumFATs (bpb g) → 0 ≤ idx < FATSz32 (bpb g) → 0 ≤ off ≤ 508 →
  ∃ d', write_fat_copy g idx off v i d = Ret (inl d') ∧
    ∀ l, sector d' l = if l =? fat_begin_lba g + i * FATSz32 (bpb g) + idx then patch off v (sector d l) else sector d l.
Proof.
  intros Hi Hx Ho. destruct (table_lba_small i idx Hi Hx) as [Hl _]. unfold write_fat_copy.
  rewrite u32_small by lia. set (lba := fat_begin_lba g + i * FATSz32 (bpb g) + idx) in *.
  destruct (read_sector_ata 4096 lba d) as (d1 & -> & Hs). cbn [rbind]. change (negb (0 =? 0)) with false. cbn iota.
  rewrite stores_buffer by (rewrite sector_size; (lia || by apply patch_stores)). cbn [rbind].
  rewrite put_buffer by (by rewrite length_poke, sector_size).
  destruct (ata_write_ok lba (patch off v (sector d lba)) d1) as (d2 & Hw & Hd2).
  - unfold patch. by rewrite length_poke, sector_size.
  - eapply poke_bytes; [by apply patch_stores|apply sector_bytes].
  - unfold patch in Hw. rewrite Hw. cbn [rbind]. change (negb (0 =? 0)) with false. cbn iota.
    exists d2. split; [done|]. intros l. rewrite Hd2. destruct (Z.eqb_spec l lba) as [->|]; [done|apply Hs].
Qed.

(** The sectors of the copies in [js]. *)
Definition copy_lbas (idx : Z) (js : list Z) : list Z := (λ i, fat_begin_lba g + i * FATSz32 (bpb g) + idx) <$> js.

Lemma write_fat_copies idx off v js : ∀ d,
  Forall (λ i, 0 ≤ i < NumFATs (bpb g)) js → NoDup js → 0 ≤ idx < FATSz32 (bpb g) → 0 ≤ off ≤ 508 →
  ∃ d', for_loop js (write_fat_copy g idx off v) d = Ret (inl d') ∧
    ∀ l, sector d' l = if bool_decide (l ∈ copy_lbas idx js) then patch off v (sector d l) else sector d l.
Proof.
  induction js as [|i js IH]; intros d Hi Hnd Hx Ho; [by exists d|].
  apply Forall_cons in Hi as [Hi His]. apply NoDup_cons in Hnd as [Hni Hnd].
  destruct (write_fat_copy_ok idx off v i d Hi Hx Ho) as (d1 & Hw & Hd1).
  destruct (IH d1 His Hnd Hx Ho) as (d2 & Hf & Hd2). exists d2. split.
  { cbn [for_loop]. rewrite Hw. cbn. apply Hf. }
  intros l. rewrite Hd2, Hd1. set (lba := fat_begin_lba g + i * FATSz32 (bpb g) + idx).
  change (copy_lbas idx (i :: js)) with (lba :: copy_lbas idx js).
  assert (Hne : lba ∉ copy_lbas idx js).
  { intros (j & Hj & Hin)%list_elem_of_fmap. pose proof (v_fatsz _ Hg). assert (i = j) as -> by (subst lba; nia). done. }
  destruct (Z.eqb_spec l lba) as [->|Hl].
  - rewrite bool_decide_false, bool_decide_true by (done || left). done.
  - destruct (decide (l ∈ copy_lbas idx js)); [rewrite !bool_decide_true by (done || by right); done|].
    rewrite !bool_decide_false; [done|by intros [->|?]%elem_of_cons|done].
Qed.

Lemma range_nodup a b k : 0 < k → NoDup (range a b k).
Proof. intros. apply NoDup_fmap_2_strong, NoDup_seq. intros x y _ _. nia. Qed.

(** One entry changes, in every copy; nothing outside the tables does. *)
Record fat_update (d d' : D) (c v : Z) : Prop := {
  upd_val c' : 0 ≤ c' < entries g → fat_val g d' c' = if c' =? c then v else fat_val g d c';
  upd_data l : ¬ in_table g l → sector d' l = sector d l
}.

Lemma patch_same off v b : 0 ≤ off ≤ 508 → zlen b = 512 → slice (patch off v b) (Z.to_nat off) 4 = le_bytes 4 (Z.land v LAST).
Proof. intros. apply (slice_seq_stores b off (le_bytes 4 (Z.land v LAST))); [lia|]. rewrite zlen_le_bytes. lia. Qed.

Lemma patch_other off off' v b : 0 ≤ off → 0 ≤ off' → off' + 4 ≤ off ∨ off + 4 ≤ off' →
  slice (patch off v b) (Z.to_nat off') 4 = slice b (Z.to_nat off') 4.
Proof.
  intros. apply slice_poke_ne. intros j w Hin%elem_of_seq_stores. rewrite zlen_le_bytes in Hin. lia.
Qed.

Lemma write_fat_entry_ok c v d : 0 ≤ c < entries g →
  ∃ d', write_fat_entry g c v d = Ret (0, d') ∧ fat_update d d' c (Z.land v LAST).
Proof.
  intros Hc. destruct (entry_position c Hc) as (H1 & H2 & Hx & Ho).
  pose proof (v_nfats _ Hg) as Hn. pose proof (v_fatsz _ Hg) as Hz.
  destruct (write_fat_copies (c `div` 128) (4 * (c `mod` 128)) v (range 0 (NumFATs (bpb g)) 1) d) as (d' & Hf & Hd); [| |done|done|].
  { apply Forall_forall. intros i [Hi _]%elem_of_range; [done|lia]. }
  { apply range_nodup. lia. }
  exists d'. split.
  { unfold write_fat_entry. rewrite (v_bps _ Hg), (proj2 (Z.eqb_neq (FATSz32 (bpb g)) 0)), H1, H2 by lia.
    change (512 =? 0) with false. change (4096 <? 512) with false. cbn iota. by rewrite Hf. }
  assert (Hin : ∀ k, k ∈ copy_lbas (c `div` 128) (range 0 (NumFATs (bpb g)) 1) ↔
    ∃ i, 0 ≤ i < NumFATs (bpb g) ∧ k = fat_begin_lba g + i * FATSz32 (bpb g) + c `div` 128).
  { intros k. unfold copy_lbas. rewrite list_elem_of_fmap. split.
    - intros (i & -> & [Hi _]%elem_of_range); [by exists i|lia].
    - intros (i & Hi & ->). exists i. split; [done|]. apply elem_of_range; [lia|]. rewrite Z.mod_1_r. lia. }
  split.
  - intros c' Hc'. destruct (entry_position c' Hc') as (_ & _ & Hx' & Ho').
    unfold fat_val. rewrite Hd. destruct (decide (c' `div` 128 = c `div` 128)) as [Hq|Hq].
    + rewrite bool_decide_true by (apply Hin; exists 0; lia). destruct (Z.eqb_spec c' c) as [->|Hne].
      * rewrite patch_same by (done || apply zlen_sector). rewrite le_val_bytes, !land_last.
        rewrite (Z.mod_small (v `mod` 2 ^ 28) (2 ^ (8 * _))); [by rewrite Z.mod_mod|].
        pose proof (Z.mod_pos_bound v (2 ^ 28) ltac:(lia)). change (2 ^ (8 * Z.of_nat 4)) with (2 ^ 32). lia.
      * rewrite patch_other; [done|lia|lia|].
        pose proof (Z.div_mod c 128 ltac:(lia)). pose proof (Z.div_mod c' 128 ltac:(lia)). lia.
    + rewrite bool_decide_false; [by destruct (Z.eqb_spec c' c) as [->|]|].
      intros (i & Hi & Heq)%Hin. assert (i = 0) by nia. subst i. lia.
  - intros l Hl. rewrite Hd, bool_decide_false; [done|]. intros (i & Hi & ->)%Hin. apply Hl.
    by apply table_lba_small.
Qed.
End vol.
End table.
