(* ===== verification/FatChain.v ===== *)
(** * Allocation and cluster chains

    The allocator hands out the free clusters in ascending order; a chain is the list of
    clusters the table links, ended by an end-of-chain mark; freeing it clears its entries. *)
From S2P Require Import Prelude Loop CString BlockDev Fat FatTable.

(** The free clusters, lowest first. *)
Definition free_list (g : Fat) (f : Z → Z) : list Z := filter (λ c, f c = 0) (seqZ 2 (entries g - 2)).

(** [l] is the chain that starts at its head. *)
Fixpoint chain (g : Fat) (f : Z → Z) (l : list Z) : Prop :=
  match l with
  | [] => False
  | [c] => 2 ≤ c < entries g ∧ EOC ≤ f c
  | c :: ((c' :: _) as r) => 2 ≤ c < entries g ∧ f c = c' ∧ chain g f r
  end.

Lemma chain_cons g f c l :
  chain g f (c :: l) ↔ 2 ≤ c < entries g ∧ (if l is c' :: _ then f c = c' ∧ chain g f l else EOC ≤ f c).
Proof. destruct l; cbn; tauto. Qed.

Lemma chain_bounds g f l : chain g f l → Forall (λ c, 2 ≤ c < entries g) l.
Proof.
  induction l as [|c l IH]; [done|]. intros [Hc Hl]%chain_cons. constructor; [done|].
  destruct l as [|c' l]; [constructor|]. by apply IH, Hl.
Qed.

Lemma fat_chain_ext g f f' l : (∀ c, c ∈ l → f' c = f c) → chain g f l → chain g f' l.
Proof.
  induction l as [|c l IH]; [done|]. intros Hf [Hc Hl]%chain_cons. apply chain_cons. split; [done|].
  destruct l as [|c' l]; [by rewrite Hf by left|]. rewrite Hf by left. destruct Hl. split; [done|].
  apply IH; [|done]. intros x Hx. apply Hf. by right.
Qed.

(** A chain has no more clusters than the table. *)
Lemma chain_length g f l : chain g f l → NoDup l → zlen l ≤ entries g.
Proof.
  intros Hch Hnd. pose proof (chain_bounds _ _ _ Hch) as Hc. rewrite Forall_forall in Hc.
  assert (l ⊆+ seqZ 0 (entries g)) as Hs%submseteq_length.
  { apply NoDup_submseteq; [done|]. intros y Hy. apply elem_of_seqZ. specialize (Hc y Hy). cbn in Hc. lia. }
  rewrite length_seqZ in Hs. destruct l as [|x l]; [done|]. specialize (Hc x ltac:(left)). cbn in Hc.
  unfold zlen. lia.
Qed.

(** ** Free clusters *)

Lemma filter_head_split (P : Z → Prop) `{∀ x, Decision (P x)} L c r :
  filter P L = c :: r → ∃ L1 L2, L = L1 ++ c :: L2 ∧ Forall (λ x, ¬ P x) L1 ∧ P c ∧ r = filter P L2.
Proof.
  induction L as [|x L IH]; [done|]. rewrite filter_cons. case_decide as Hx.
  - intros [= -> <-]. by exists [], L.
  - intros (L1 & L2 & -> & HL1 & Hc & ->)%IH. exists (x :: L1), L2. split_and!; [done|by constructor|done|done].
Qed.

Lemma filter_none (P : Z → Prop) `{∀ x, Decision (P x)} (L : list Z) : (∀ x, x ∈ L → ¬ P x) → filter P L = [].
Proof.
  induction L as [|x L IH]; intros HL; [done|]. rewrite filter_cons_False by (apply HL; left).
  apply IH. intros y Hy. apply HL. by right.
Qed.

Lemma filter_ext_in (P Q : Z → Prop) `{∀ x, Decision (P x)} `{∀ x, Decision (Q x)} (L : list Z) :
  (∀ x, x ∈ L → P x ↔ Q x) → filter P L = filter Q L.
Proof.
  induction L as [|x L IH]; intros HL; [done|]. rewrite !filter_cons, IH by (intros y Hy; apply HL; by right).
  specialize (HL x ltac:(left)). repeat case_decide; tauto.
Qed.

(** Taking the lowest free cluster leaves the others. *)
Lemma free_list_take g f f' c r v :
  free_list g f = c :: r → v ≠ 0 → (∀ x, 2 ≤ x < entries g → f' x = if x =? c then v else f x) →
  free_list g f' = r.
Proof.
  intros Hl Hv Hf. unfold free_list in *.
  pose proof (NoDup_seqZ 2 (entries g - 2)) as Hnd.
  assert (HF : ∀ x, x ∈ seqZ 2 (entries g - 2) → f' x = if x =? c then v else f x).
  { intros x Hx%elem_of_seqZ. apply Hf. lia. }
  destruct (filter_head_split _ _ _ _ Hl) as (L1 & L2 & E & HL1 & Hc & ->). rewrite E in *.
  apply NoDup_app in Hnd as (_ & Hd & Hnd). apply NoDup_cons in Hnd as [Hn2 _].
  rewrite filter_app, (filter_none _ L1); cbn [app].
  - rewrite filter_cons_False by (rewrite HF, Z.eqb_refl by set_solver; done).
    apply filter_ext_in. intros x Hx.
    rewrite HF by set_solver. rewrite (proj2 (Z.eqb_neq x c)) by (by intros ->). done.
  - intros x Hx Hfx. rewrite HF in Hfx by set_solver. rewrite Forall_forall in HL1.
    destruct (Z.eqb_spec x c) as [->|]; [done|]. by apply (HL1 x Hx).
Qed.

Section chain.
Context {D : Type} `{BlockDevSpec D} `{!ReliableDev D} (g : Fat) (Hg : vol_ok g).
Implicit Types d : D.

Lemma find_free_runs k : ∀ c d, 2 ≤ c → c + Z.of_nat k = entries g →
  ∃ n d', (n ≤ k)%nat ∧ same d d' ∧
    runs (find_free_step g (entries g)) n (c, d)
         (default 0 (head (filter (λ x, fat_val g d x = 0) (seqZ c (Z.of_nat k)))), d').
Proof.
  pose proof (v_entries _ Hg). unfold BAD in *.
  induction k as [|k IH]; intros c d Hc Hk.
  - exists 0%nat, d. split_and!; [done|done|]. apply runs_exit. cbn [find_free_step].
    rewrite (proj2 (Z.ltb_ge c _)) by lia. done.
  - rewrite seqZ_cons by lia. rewrite filter_cons.
    destruct (read_fat_entry_ok g Hg c d ltac:(lia)) as (d1 & Hr & Hs).
    case_decide as Hv.
    + exists 0%nat, d1. split_and!; [lia|done|]. apply runs_exit. cbn [find_free_step head from_option id].
      rewrite (proj2 (Z.ltb_lt c _)) by lia. cbn [negb]. rewrite Hr. cbn [rbind]. by rewrite (proj2 (Z.eqb_eq _ _)).
    + destruct (IH (c + 1) d1 ltac:(lia) ltac:(lia)) as (n & d2 & Hn & Hs2 & Hr2).
      exists (S n), d2. split_and!; [lia|by etrans|]. apply runs_next with (c + 1, d1).
      * cbn [find_free_step]. rewrite (proj2 (Z.ltb_lt c _)) by lia. cbn [negb]. rewrite Hr. cbn [rbind].
        rewrite (proj2 (Z.eqb_neq _ _)) by done. by rewrite u32_small by lia.
      * replace (Z.pred (Z.of_nat (S k))) with (Z.of_nat k) by lia. replace (Z.succ c) with (c + 1) by lia.
        erewrite list_filter_iff; [exact Hr2|]. intros x. cbn. by rewrite (fat_val_same g d d1).
Qed.

Lemma find_free_ok d : ∃ d', same d d' ∧
  find_free_cluster g d = Ret (default 0 (head (free_list g (fat_val g d))), d').
Proof.
  pose proof (v_fatsz _ Hg). pose proof (v_entries _ Hg) as He. unfold BAD in He.
  destruct (find_free_runs (Z.to_nat (entries g - 2)) 2 d) as (n & d' & Hn & Hs & Hr);
    [lia|unfold entries in *; lia|].
  exists d'. split; [done|]. unfold find_free_cluster. rewrite (v_bps _ Hg).
  rewrite (proj2 (Z.eqb_neq (FATSz32 (bpb g)) 0)) by lia. cbn [orb]. change (512 =? 0) with false. cbn iota.
  replace ((FATSz32 (bpb g) * 512) `div` 4) with (entries g).
  2: { unfold entries. replace (FATSz32 (bpb g) * 512) with (FATSz32 (bpb g) * 128 * 4) by lia. by rewrite Z.div_mul. }
  rewrite u32_small by (unfold entries in *; lia).
  replace (Z.of_nat (Z.to_nat (entries g - 2))) with (entries g - 2) in Hr by (unfold entries in *; lia).
  apply (while_runs _ n); [exact Hr|]. unfold entries in *. lia.
Qed.

(** The lowest free cluster is taken and marked; with none left the answer is 0. *)
Lemma alloc_cluster_ok d :
  match free_list g (fat_val g d) with
  | [] => ∃ d', alloc_cluster g d = Ret (0, d') ∧ same d d'
  | c :: r => ∃ d', alloc_cluster g d = Ret (c, d') ∧ fat_update g d d' c LAST ∧ 2 ≤ c < entries g
                 ∧ free_list g (fat_val g d') = r
  end.
Proof.
  destruct (find_free_ok d) as (d1 & Hs & Hf). unfold alloc_cluster. rewrite Hf. cbn [rbind].
  destruct (free_list g (fat_val g d)) as [|c r] eqn:E; cbn [head from_option id]; [by exists d1|].
  assert (2 ≤ c < entries g ∧ fat_val g d c = 0) as [Hc Hz].
  { assert (c ∈ free_list g (fat_val g d)) as Hin by (rewrite E; left).
    apply list_elem_of_filter in Hin as [Hz Hin%elem_of_seqZ]. split; [lia|done]. }
  rewrite (proj2 (Z.eqb_neq c 0)) by lia.
  destruct (write_fat_entry_ok g Hg c LAST d1) as (d2 & Hw & Hu & Hd); [lia|]. rewrite Hw. cbn [rbind].
  change (Z.land LAST LAST) with LAST in *. change (negb (0 =? 0)) with false. cbn iota. exists d2.
  assert (fat_update g d d2 c LAST) as Hupd.
  { split; [|intros l Hl; by rewrite Hd, Hs]. intros c' Hc'. rewrite Hu by done. by rewrite (fat_val_same g d d1). }
  split_and!; [done|done|lia|lia|]. eapply free_list_take; [exact E| |]; [|intros x Hx; apply Hupd; lia].
  done.
Qed.

(** ** Freeing a chain *)

(** The entries of [l] are cleared, the others and the data are kept. *)
Record fat_cleared (d d' : D) (l : list Z) : Prop := {
  clr_val c : 0 ≤ c < entries g → fat_val g d' c = if bool_decide (c ∈ l) then 0 else fat_val g d c;
  clr_data s : ¬ in_table g s → sector d' s = sector d s
}.

Lemma free_runs l : ∀ c d, chain g (fat_val g d) (c :: l) → NoDup (c :: l) →
  ∃ d', runs (free_step g) (length l) (c, d) d' ∧ fat_cleared d d' (c :: l).
Proof.
  pose proof (v_entries _ Hg). unfold BAD in *.
  induction l as [|c' l IH]; intros c d [Hc Hch]%chain_cons [Hni Hnd]%NoDup_cons;
    destruct (read_fat_entry_ok g Hg c d ltac:(lia)) as (d1 & Hr & Hs);
    destruct (write_fat_entry_ok g Hg c 0 d1 ltac:(lia)) as (d2 & Hw & Hu & Hd); change (Z.land 0 LAST) with 0 in Hu.
  - exists d2. split.
    + apply runs_exit. cbn [free_step]. unfold EOC in *. rewrite (proj2 (Z.leb_le 2 c)), (proj2 (Z.ltb_lt c _)) by lia.
      cbn [andb negb]. rewrite Hr. cbn [rbind]. rewrite Hw. cbn [rbind].
      rewrite (proj2 (Z.leb_le _ (fat_val g d c))) by lia. by rewrite orb_true_r.
    + split; [|intros s Hl; by rewrite Hd, Hs]. intros x Hx. rewrite Hu by done.
      destruct (Z.eqb_spec x c) as [->|]; [by rewrite bool_decide_true by left|].
      rewrite bool_decide_false by (by intros [->|?%elem_of_nil]%elem_of_cons). by apply fat_val_same.
  - destruct Hch as [Hnext Hch].
    assert (Hf2 : ∀ x, x ∈ c' :: l → fat_val g d2 x = fat_val g d x).
    { intros x Hx. pose proof (chain_bounds _ _ _ Hch) as Hb. rewrite Forall_forall in Hb.
      specialize (Hb x Hx). cbn in Hb. rewrite Hu by lia.
      rewrite (proj2 (Z.eqb_neq x c)) by (by intros ->). by apply fat_val_same. }
    destruct (IH c' d2 (fat_chain_ext _ _ _ _ Hf2 Hch) Hnd) as (d3 & Hrun & Hclr).
    apply chain_cons in Hch as [Hc' _]. exists d3. split.
    + apply runs_next with (c', d2); [|exact Hrun]. cbn [free_step]. unfold EOC.
      rewrite (proj2 (Z.leb_le 2 c)), (proj2 (Z.ltb_lt c _)) by lia.
      cbn [andb negb]. rewrite Hr. cbn [rbind]. rewrite Hw. cbn [rbind]. rewrite Hnext.
      rewrite (proj2 (Z.eqb_neq c' 0)), (proj2 (Z.leb_gt _ c')) by lia. cbn [orb].
      rewrite (proj2 (Z.eqb_neq c' c)) by (intros ->; apply Hni; left). done.
    + split; [|intros s Hl; rewrite (clr_data _ _ _ Hclr) by done; by rewrite Hd, Hs].
      intros x Hx. rewrite (clr_val _ _ _ Hclr) by done. rewrite Hu by done.
      destruct (decide (x ∈ c' :: l)) as [Hin|Hin];
        [rewrite !bool_decide_true by (done || by right); done|]. rewrite (bool_decide_false _ Hin).
      destruct (Z.eqb_spec x c) as [->|Hne]; [by rewrite bool_decide_true by left|].
      rewrite bool_decide_false by (by intros [->|?]%elem_of_cons). by apply fat_val_same.
Qed.

(** Allocation: [alloc_cluster] returns the lowest free cluster and marks it as the end of a
    chain, in every copy of the table; no other entry and no sector outside the tables
    changes.  Without a free cluster it returns 0 and the device keeps its contents. *)
Theorem alloc_cluster_lowest d :
  ∃ c d', alloc_cluster g d = Ret (c, d') ∧
    (c = 0 ∧ (∀ x, 2 ≤ x < entries g → fat_val g d x ≠ 0) ∧ (∀ l, sector d' l = sector d l)
     ∨ 2 ≤ c < entries g ∧ fat_val g d c = 0 ∧ (∀ x, 2 ≤ x < c → fat_val g d x ≠ 0)
       ∧ (∀ x, 0 ≤ x < entries g → fat_val g d' x = if x =? c then LAST else fat_val g d x)
       ∧ (∀ l, ¬ in_table g l → sector d' l = sector d l)).
Proof.
  pose proof (alloc_cluster_ok d) as Ha. destruct (free_list g (fat_val g d)) as [|c r] eqn:E.
  - destruct Ha as (d' & Ha & Hs). exists 0, d'. split; [done|]. left. split_and!; [done| |done].
    intros x Hx Hz. assert (x ∈ free_list g (fat_val g d)) as Hin; [|rewrite E in Hin; by apply elem_of_nil in Hin].
    apply list_elem_of_filter. split; [done|]. apply elem_of_seqZ. lia.
  - destruct Ha as (d' & Ha & [Hu Hs] & Hc & _). exists c, d'. split; [done|]. right.
    unfold free_list in E. pose proof (NoDup_seqZ 2 (entries g - 2)) as Hnd.
    destruct (filter_head_split _ _ _ _ E) as (L1 & L2 & EL & HL1 & Hz & _).
    split_and!; [lia|lia|done| |done|done].
    intros x Hx. assert (x ∈ L1) as Hin; [|rewrite Forall_forall in HL1; by apply HL1].
    assert (L1 = seqZ 2 (Z.of_nat (length L1))) as ->.
    { apply list_eq. intros i. destruct (decide (i < length L1)%nat) as [Hi|Hi].
      - pose proof (f_equal (λ l, l !! i) EL) as Ei. cbn in Ei. rewrite lookup_app_l in Ei by done. rewrite <- Ei.
        assert (length (L1 ++ c :: L2) = Z.to_nat (entries g - 2)) as HL by (rewrite <- EL; apply length_seqZ).
        rewrite length_app in HL. cbn in HL. rewrite !lookup_seqZ_lt by lia. done.
      - rewrite (lookup_ge_None_2 L1), (lookup_ge_None_2 (seqZ _ _)); [done|rewrite length_seqZ; lia|lia]. }
    pose proof (f_equal (λ l, l !! length L1) EL) as Ei. cbn in Ei. rewrite list_lookup_middle in Ei by done.
    apply lookup_seqZ in Ei as [Ei _]. apply elem_of_seqZ. lia.
Qed.

(** C24. Freeing a chain: for a chain of different clusters [free_cluster_chain] returns; it
    clears the table entries of exactly the chain's clusters, in every copy read later, and
    changes no sector outside the tables. *)
Theorem free_cluster_chain_clears d c l (Hch : chain g (fat_val g d) (c :: l)) (Hnd : NoDup (c :: l)) :
  ∃ d', free_cluster_chain g c d = Ret d'
    ∧ (∀ x, 0 ≤ x < entries g → fat_val g d' x = if bool_decide (x ∈ c :: l) then 0 else fat_val g d x)
    ∧ (∀ s, ¬ in_table g s → sector d' s = sector d s).
Proof.
  destruct (free_runs l c d Hch Hnd) as (d' & Hr & [Hv Hs]). exists d'. split; [|done].
  unfold free_cluster_chain. pose proof Hch as [Hc _]%chain_cons. rewrite (proj2 (Z.ltb_ge c 2)) by lia.
  apply (while_runs _ _ _ _ Hr). pose proof (chain_length _ _ _ Hch Hnd) as Hl. rewrite zlen_cons in Hl.
  pose proof (v_entries _ Hg). unfold BAD, zlen in *. lia.
Qed.
End chain.
