(* ===== verification/FatDir.v ===== *)
(** * FAT32 names, directories and files (kernel/filesystem/fat32.cpp)

    Short names, directory entries, path look-up and the public file operations, over the
    sector and table operations of Fat.v. *)
From S2P Require Import Prelude Loop CString HeapSpec BlockDev Fat.

(** ** Names *)

Definition fat_toupper (c : Z) : Z := if (97 <=? c) && (c <=? 122) then c - 32 else c.

(** The bytes of a directory name up to the first NUL or space. *)
Fixpoint norm_entry (n : nat) (l : list Z) : list Z :=
  match n, l with
  | S n, c :: l => if (c =? 0) || (c =? 32) then [] else fat_toupper c :: norm_entry n l
  | _, _ => []
  end.
(** A component without its dots, at most [n] characters. *)
Fixpoint norm_comp (n : nat) (l : list Z) : list Z :=
  match n, l with
  | S n', c :: l => if c =? 46 then norm_comp n l else fat_toupper c :: norm_comp n' l
  | _, _ => []
  end.
Definition fat_shortname_cmp (entry_name component : list Z) : bool :=
  let ne := norm_entry 11 entry_name in
  let nc := norm_comp 15 component in
  if strcmp ne nc =? 0 then true
  else if strlen ne =? strlen nc then strcmp ne nc =? 0 else false.
Definition fat_reconstruct_lfn (dir_entry_raw : list Z) : option (list Z) := None.
Definition fat_dir_entry_matches_component (dir_entry_raw component : list Z) (has_lfn : bool) : bool :=
  match (if has_lfn then fat_reconstruct_lfn dir_entry_raw else None) with
  | Some lfn =>
      if (strlen lfn =? strlen component) && bool_decide (fat_toupper <$> lfn = fat_toupper <$> component)
      then true else fat_shortname_cmp dir_entry_raw component
  | None => fat_shortname_cmp dir_entry_raw component
  end.

Definition ends_with (s suffix : list Z) : bool :=
  if strlen s <? strlen suffix then false
  else bool_decide (drop (length s - length suffix) s = suffix).

(** At most [n] characters of a name in upper case; [None] at a space. *)
Fixpoint short_part (n : nat) (l : list Z) : option (list Z) :=
  match n, l with
  | S n, c :: l => if c =? 32 then None else cons (fat_toupper c) <$> short_part n l
  | _, _ => Some []
  end.
(** The parts around the last dot. *)
Fixpoint split_dot (l : list Z) : option (list Z * list Z) :=
  match l with
  | [] => None
  | c :: l =>
      match split_dot l with
      | Some (b, e) => Some (c :: b, e)
      | None => if c =? 46 then Some ([], l) else None
      end
  end.
Definition pad_spaces (n : nat) (l : list Z) : list Z := l ++ replicate (n - length l) 32.

Definition format_short_name (name : list Z) : option (list Z) :=
  match name with
  | [] => None
  | _ =>
      match split_dot name with
      | Some (base, ext) =>
          base ← short_part 8 base; ext ← short_part 3 ext; Some (pad_spaces 8 base ++ pad_spaces 3 ext)
      | None => base ← short_part 8 name; Some (pad_spaces 8 base ++ pad_spaces 3 [])
      end
  end.

(** The characters left after trailing spaces are cut. *)
Fixpoint trim_right (l : list Z) : list Z :=
  match l with
  | [] => []
  | c :: l => match trim_right l with [] => if c =? 32 then [] else [c] | r => c :: r end
  end.
(** [name[j] == ' '] replaced by NUL wherever it occurs. *)
Definition cut_spaces (l : list Z) : list Z := (λ c, if c =? 32 then 0 else c) <$> l.

(** The base of an entry's name, and the name with its extension. *)
Definition base_name (cut : list Z → list Z) (b : list Z) (off : Z) : res (list Z) :=
  let! n := bytes_at b off 8 in Ret (cstr (cut n)).
Definition short_name (cut : list Z → list Z) (b : list Z) (off : Z) : res (list Z) :=
  let! name := base_name cut b off in
  let! e0 := bget b (off + 8) in
  if e0 =? 32 then Ret name
  else let! e := bytes_at b (off + 8) 3 in Ret (name ++ cstr (46 :: e)).

(** [comp] in upper case against the first characters of [name]. *)
Fixpoint prefix_match (comp name : list Z) : bool :=
  match comp, name with
  | [], _ => true
  | c :: comp, x :: name => (fat_toupper c =? x) && prefix_match comp name
  | _, [] => false
  end.

(** The characters before the first dot. *)
Fixpoint before_dot (l : list Z) : list Z :=
  match l with c :: l => if c =? 46 then [] else c :: before_dot l | [] => [] end.

(** ** Directory entries *)

Definition first_cluster (b : list Z) (off : Z) : res Z :=
  let! h0 := bget b (off + 20) in let! h1 := bget b (off + 21) in
  let! l0 := bget b (off + 26) in let! l1 := bget b (off + 27) in
  Ret (Z.lor (u32 (Z.shiftl (Z.lor h0 (Z.shiftl h1 8)) 16)) (Z.lor l0 (Z.shiftl l1 8))).
Definition entry_size (b : list Z) (off : Z) : res Z :=
  let! s0 := bget b (off + 28) in let! s1 := bget b (off + 29) in
  let! s2 := bget b (off + 30) in let! s3 := bget b (off + 31) in
  Ret (Z.lor (Z.lor (Z.lor s0 (Z.shiftl s1 8)) (Z.shiftl s2 16)) (Z.shiftl s3 24)).

Definition byte_of (v k : Z) : Z := Z.land (Z.shiftr v k) 255.

(** The stores of a new entry at [off]. *)
Definition entry_stores (off : Z) (name11 : list Z) (attr first_cluster filesize : Z) : list (Z * Z) :=
  seq_stores off name11 ++ [(off + 11, attr)] ++ seq_stores (off + 12) (replicate 8 0)
  ++ [(off + 20, byte_of first_cluster 16); (off + 21, byte_of first_cluster 24);
      (off + 26, byte_of first_cluster 0); (off + 27, byte_of first_cluster 8);
      (off + 28, byte_of filesize 0); (off + 29, byte_of filesize 8);
      (off + 30, byte_of filesize 16); (off + 31, byte_of filesize 24)].

(** The entries the four searches accept.  A search ends with [None] when it is refused. *)
Definition visit_free (lba : Z) (b : list Z) (off : Z) (_ : unit) : res (unit + option (Z * list Z * Z)) :=
  let! first := bget b off in
  if (first =? 0) || (first =? 0xE5) then Ret (inr (Some (lba, b, off))) else Ret (inl tt).

(** Entries in use, with their attributes. *)
Definition visit_used {R} (f : Z → res (unit + option R)) (b : list Z) (off : Z) : res (unit + option R) :=
  let! first := bget b off in
  if first =? 0 then Ret (inr None)
  else if first =? 0xE5 then Ret (inl tt)
  else let! attr := bget b (off + 11) in f attr.

Definition visit_sub (need_dir : bool) (comp : list Z) (_ : Z) (b : list Z) (off : Z) (_ : unit)
  : res (unit + option Z) :=
  visit_used (λ attr,
    if Z.land attr 15 =? 15 then Ret (inl tt)
    else
      let! name := short_name trim_right b off in
      if negb (prefix_match comp name) then Ret (inl tt)
      else if need_dir && (Z.land attr 16 =? 0) then Ret (inr None)
      else let! c := first_cluster b off in Ret (inr (Some c))) b off.

(** [comp] is [None] when it was never filled in. *)
Definition visit_remove (comp : option (list Z)) (lba : Z) (b : list Z) (off : Z) (_ : unit)
  : res (unit + option (Z * list Z * Z * Z)) :=
  visit_used (λ attr,
    if Z.land attr 15 =? 15 then Ret (inl tt)
    else
      let! name := short_name trim_right b off in
      let! comp := of_opt comp in
      if negb (prefix_match comp name) then Ret (inl tt)
      else let! c := first_cluster b off in Ret (inr (Some (lba, b, off, c)))) b off.

Definition visit_list_sub (comp : list Z) (_ : Z) (b : list Z) (off : Z) (_ : unit)
  : res (unit + option Z) :=
  visit_used (λ attr,
    if negb (Z.land attr 8 =? 0) then Ret (inl tt)
    else if Z.land attr 15 =? 15 then Ret (inl tt)
    else
      let! name := base_name trim_right b off in
      if negb (bool_decide (before_dot name = comp)) then Ret (inl tt)
      else if Z.land attr 16 =? 0 then Ret (inr None)
      else let! c := first_cluster b off in Ret (inr (Some c))) b off.

(** The match of [fat32_get_file_alloc]: is_dir, cluster and size. *)
Definition visit_file (comp : list Z) (_ : Z) (b : list Z) (off : Z) (_ : unit)
  : res (unit + option (bool * Z * Z)) :=
  visit_used (λ attr,
    if negb (Z.land attr 8 =? 0) then Ret (inl tt)
    else if Z.land attr 15 =? 15 then Ret (inl tt)
    else
      let! name := short_name cut_spaces b off in
      let name := if bool_decide (46 ∈ comp) then name else before_dot name in
      if negb (bool_decide (name = comp)) then Ret (inl tt)
      else
        let! c := first_cluster b off in
        let! n := entry_size b off in
        Ret (inr (Some (negb (Z.land attr 16 =? 0), c, n)))) b off.

(** The listing: names of plain files. *)
Definition visit_names (_ : Z) (b : list Z) (off : Z) (names : list (list Z))
  : res (list (list Z) + (Z * list (list Z))) :=
  let! first := bget b off in
  if first =? 0 then Ret (inr (0, names))
  else if first =? 0xE5 then Ret (inl names)
  else
    let! attr := bget b (off + 11) in
    if negb (Z.land attr 8 =? 0) || (Z.land attr 15 =? 15) || negb (Z.land attr 16 =? 0) then Ret (inl names)
    else let! name := short_name trim_right b off in Ret (inl (names ++ [name])).

(** ** Path components *)

(** [while ( *p && *p != '/' && ci + 1 < 64) comp[ci++] = *p++;] *)
Fixpoint take_comp (n : nat) (p : list Z) : list Z * list Z :=
  match n, p with
  | S n, c :: p' => if c =? 47 then ([], p) else let '(x, r) := take_comp n p' in (c :: x, r)
  | _, _ => ([], p)
  end.
Definition skip_slash (p : list Z) : list Z := match p with c :: r => if c =? 47 then r else p | [] => [] end.
Definition next_comp (p : list Z) : list Z * list Z :=
  let '(c, r) := take_comp 63 p in (c, skip_slash r).

Section ops.
Context {D : Type} `{BlockDev D}.

Definition dir_search {R} (g : Fat) (visit : Z → list Z → Z → unit → res (unit + option R))
  (cluster : Z) (d : D) : res (option R * D) :=
  chain_walk g false (λ _, None) (λ _, None) (each_entry g visit) cluster tt d.

Definition write_dir_entry (g : Fat) (parent_cluster : Z) (name11 : list Z) (attr first_cluster filesize : Z)
  (d : D) : res (Z * D) :=
  let cluster := if parent_cluster <? 2 then root_dir_cluster g else parent_cluster in
  let! (r, d) := dir_search g visit_free cluster d in
  match r with
  | None => Ret (-1, d)
  | Some (lba, b, off) =>
      let! buf := stores (buffer b) (entry_stores off name11 attr first_cluster filesize) in
      let! (rc, d) := put_sector lba buf d in
      if negb (rc =? 0) then Ret (-1, d) else Ret (0, d)
  end.

(** Down to the directory of the last component; a round for each component. *)
Fixpoint parent_walk (n : nat) (need_dir : bool) (g : Fat) (p : list Z) (cur : Z) (d : D)
  : res (option (Z * list Z) * D) :=
  match n with
  | O => Diverges
  | S n =>
      let '(comp, p) := next_comp p in
      match p with
      | [] => Ret (Some (cur, comp), d)
      | _ =>
          let! (r, d) := dir_search g (visit_sub need_dir comp) cur d in
          match r with
          | None => Ret (None, d)
          | Some c => parent_walk n need_dir g p c d
          end
      end
  end.

Definition remove_dir_entry_by_path (g : Fat) (path : list Z) (remove_clusters : bool) (d : D) : res (Z * D) :=
  match path with
  | [] => Ret (-1, d)
  | _ =>
      let p := skip_slash path in
      let! (r, d) :=
        match p with
        | [] => Ret (Some (root_dir_cluster g, None), d)
        | _ => let! (r, d) := parent_walk (length p) false g p (root_dir_cluster g) d in
               Ret ((λ '(c, x), (c, Some x)) <$> r, d)
        end in
      match r with
      | None => Ret (-1, d)
      | Some (cluster, comp) =>
          let! (r, d) := dir_search g (visit_remove comp) cluster d in
          match r with
          | None => Ret (-1, d)
          | Some (lba, b, off, start) =>
              let! d := if remove_clusters && (2 <=? start) then free_cluster_chain g start d else Ret d in
              let! buf := stores (buffer b) [(off, 0xE5)] in
              let! (rc, d) := put_sector lba buf d in
              if negb (rc =? 0) then Ret (-1, d) else Ret (0, d)
          end
      end
  end.

Definition get_parent_cluster_and_name (g : Fat) (path : list Z) (d : D) : res (option (Z * list Z) * D) :=
  match skip_slash path with
  | [] => Ret (None, d)
  | p => parent_walk (length p) true g p (root_dir_cluster g) d
  end.

Definition fat32_create_file (g : Fat) (path : list Z) (d : D) : res (Z * D) :=
  if negb (fat32_ready g) then Ret (-1, d)
  else
    let! (r, d) := get_parent_cluster_and_name g path d in
    match r with
    | None => Ret (-1, d)
    | Some (parent, name) =>
        match format_short_name name with
        | None => Ret (-1, d)
        | Some name11 => write_dir_entry g parent name11 0x20 0 0 d
        end
    end.

Definition fat32_unlink (g : Fat) (path : list Z) (d : D) : res (Z * D) :=
  if negb (fat32_ready g) then Ret (-1, d) else remove_dir_entry_by_path g path true d.
Definition fat32_remove_dir (g : Fat) (path : list Z) (d : D) : res (Z * D) :=
  if negb (fat32_ready g) then Ret (-1, d) else remove_dir_entry_by_path g path true d.

(** An entry [.] or [..]: name, attribute and cluster. *)
Definition dot_stores (off : Z) (name : list Z) (c : Z) : list (Z * Z) :=
  seq_stores off (pad_spaces 11 name)
  ++ [(off + 11, 0x10); (off + 20, byte_of c 16); (off + 21, byte_of c 24);
      (off + 26, byte_of c 0); (off + 27, byte_of c 8)].

Definition clear_sector (g : Fat) (c s : Z) (d : D) : res (D + (Z * D)) :=
  if 4096 <? bytes_per_sector g then UB
  else
    let! (rc, d) := put_sector (u32 (cluster_to_lba g c + s))
                      (buffer (replicate (Z.to_nat (bytes_per_sector g)) 0)) d in
    if negb (rc =? 0) then Ret (inr (-1, d)) else Ret (inl d).

Definition fat32_make_dir (g : Fat) (path : list Z) (d : D) : res (Z * D) :=
  if negb (fat32_ready g) then Ret (-1, d)
  else
    let! (r, d) := get_parent_cluster_and_name g path d in
    match r with
    | None => Ret (-1, d)
    | Some (parent, name) =>
        match format_short_name name with
        | None => Ret (-1, d)
        | Some name11 =>
            let! (newc, d) := alloc_cluster g d in
            if newc =? 0 then Ret (-1, d)
            else
              let! (rc, d) := write_dir_entry g parent name11 0x10 newc 0 d in
              if negb (rc =? 0) then let! d := free_cluster_chain g newc d in Ret (-1, d)
              else
                let! x := for_loop (range 0 (sectors_per_cluster g) 1) (clear_sector g newc) d in
                match x with
                | inr r => Ret r
                | inl d =>
                    let! (rc, b, d) := fat32_read_sector g 4096 (cluster_to_lba g newc) d in
                    if negb (rc =? 0) then Ret (-1, d)
                    else
                      let pcl := if parent <? 2 then 0 else parent in
                      let! buf := stores (buffer b) (dot_stores 0 [46] newc ++ dot_stores 32 [46; 46] pcl) in
                      let! (rc, d) := put_sector (cluster_to_lba g newc) buf d in
                      if negb (rc =? 0) then Ret (-1, d) else Ret (0, d)
                end
        end
    end.

(** ** Writing a file *)

(** One sector of a cluster; the loop is left with success, or after a failed write. *)
Definition write_sector (g : Fat) (c s : Z) '(p, remaining, d)
  : res ((list Z * Z * D) + (bool * list Z * Z * D)) :=
  let to_copy := if remaining <? bytes_per_sector g then remaining else bytes_per_sector g in
  if 4096 <? bytes_per_sector g then UB
  else
    let! part := bytes_at p 0 to_copy in
    let buf := buffer (part ++ replicate (Z.to_nat (bytes_per_sector g - to_copy)) 0) in
    let! (rc, d) := put_sector (u32 (cluster_to_lba g c + s)) buf d in
    if negb (rc =? 0) then Ret (inr (false, p, remaining, d))
    else
      let p := drop (Z.to_nat to_copy) p in
      let remaining := remaining - to_copy in
      if remaining =? 0 then Ret (inr (true, p, remaining, d)) else Ret (inl (p, remaining, d)).

Definition fill_cluster (g : Fat) (c : Z) (p : list Z) (remaining : Z) (d : D) : res (bool * list Z * Z * D) :=
  let! x := for_loop (range 0 (sectors_per_cluster g) 1) (write_sector g c) (p, remaining, d) in
  match x with inl (p, remaining, d) => Ret (true, p, remaining, d) | inr r => Ret r end.

(** One cluster of the chain; the result is the first cluster, or [None] after a failure. *)
Definition write_step (g : Fat) '(first, prev, p, remaining, d)
  : res ((Z * Z * list Z * Z * D) + (option Z * D)) :=
  if remaining <=? 0 then Ret (inr (Some first, d))
  else
    let! (c, d) := alloc_cluster g d in
    if c =? 0 then
      let! d := if negb (first =? 0) then free_cluster_chain g first d else Ret d in Ret (inr (None, d))
    else
      let first := if first =? 0 then c else first in
      let! (rc, d) := if negb (prev =? 0) then write_fat_entry g prev c d else Ret (0, d) in
      if negb (rc =? 0) then let! d := free_cluster_chain g first d in Ret (inr (None, d))
      else
        let! (rc, d) := write_fat_entry g c LAST d in
        if negb (rc =? 0) then let! d := free_cluster_chain g first d in Ret (inr (None, d))
        else
          let! (ok, p, remaining, d) := fill_cluster g c p remaining d in
          if ok then Ret (inl (first, c, p, remaining, d))
          else let! d := free_cluster_chain g first d in Ret (inr (None, d)).

Definition fat32_write_file (g : Fat) (path : list Z) (buf : option (list Z)) (len : Z) (d : D) : res (Z * D) :=
  if negb (fat32_ready g) then Ret (-1, d)
  else
    let! (_, d) := remove_dir_entry_by_path g path true d in
    let! (r, d) := get_parent_cluster_and_name g path d in
    match r with
    | None => Ret (-1, d)
    | Some (parent, name) =>
        match format_short_name name with
        | None => Ret (-1, d)
        | Some name11 =>
            if len =? 0 then write_dir_entry g parent name11 0x20 0 0 d
            else
              let! (r, d) := while (write_step g) (0, 0, default [] buf, len, d) in
              match r with
              | None => Ret (-1, d)
              | Some first =>
                  let! (rc, d) := write_dir_entry g parent name11 0x20 first (u32 len) d in
                  if negb (rc =? 0) then let! d := free_cluster_chain g first d in Ret (-1, d)
                  else Ret (0, d)
              end
        end
    end.
End ops.
