(* ===== verification/FatName.v ===== *)
(** * Short names and directory entries

    An 8.3 name formatted into a directory entry is the name the searches read back.  The
    searches look at one 32-byte entry at a time. *)
From S2P Require Import Prelude Loop CString BlockDev Fat FatTable FatDir.

(** ** 8.3 names *)

(** Printable characters other than the dot and the slash. *)
Definition name_char (c : Z) : Prop := 33 ≤ c ≤ 126 ∧ c ≠ 46 ∧ c ≠ 47.
Definition upper (s : list Z) : list Z := fat_toupper <$> s.

(** A base of one to eight characters and an extension of none or three. *)
Record name83 (base ext : list Z) : Prop := {
  n_base : Forall name_char base;
  n_ext : Forall name_char ext;
  n_len : (1 ≤ length base ≤ 8)%nat;
  n_elen : length ext = 0%nat ∨ length ext = 3%nat
}.
Definition full_name (base ext : list Z) : list Z :=
  base ++ match ext with [] => [] | _ => 46 :: ext end.

Lemma toupper_char c : name_char c → name_char (fat_toupper c) ∧ fat_toupper c ≠ 32 ∧ fat_toupper c ≠ 0.
Proof.
  unfold name_char, fat_toupper. intros Hc.
  destruct (Z.leb_spec 97 c), (Z.leb_spec c 122); cbn [andb]; lia.
Qed.

Lemma upper_chars s : Forall name_char s → Forall name_char (upper s).
Proof. intros Hs. apply Forall_fmap. eapply Forall_impl; [exact Hs|]. intros c Hc. by apply toupper_char. Qed.

Lemma short_part_ok n s : Forall name_char s → (length s ≤ n)%nat → short_part n s = Some (upper s).
Proof.
  intros Hs. revert n. induction Hs as [|c s Hc _ IH]; intros [|n] Hn; try done; cbn in Hn; [lia|].
  cbn [short_part]. unfold name_char in Hc. rewrite (proj2 (Z.eqb_neq c 32)) by lia. by rewrite IH by lia.
Qed.

Lemma split_dot_none s : Forall name_char s → split_dot s = None.
Proof.
  induction 1 as [|c s Hc _ IH]; [done|]. cbn. rewrite IH. unfold name_char in Hc.
  by rewrite (proj2 (Z.eqb_neq c 46)) by lia.
Qed.
Lemma split_dot_ok base ext : Forall name_char ext → split_dot (base ++ 46 :: ext) = Some (base, ext).
Proof.
  intros He. induction base as [|c base IH]; cbn [app split_dot]; [by rewrite split_dot_none|].
  by rewrite IH.
Qed.

Definition name11 (base ext : list Z) : list Z := pad_spaces 8 (upper base) ++ pad_spaces 3 (upper ext).

Lemma format_short_name_ok base ext : name83 base ext → format_short_name (full_name base ext) = Some (name11 base ext).
Proof.
  intros [Hb He Hl Hel]. unfold format_short_name, full_name, name11.
  destruct base as [|b base]; [cbn in Hl; lia|]. destruct ext as [|e ext].
  - rewrite app_nil_r, split_dot_none by done. by rewrite short_part_ok by (done || lia).
  - rewrite split_dot_ok by done. cbn [app mbind option_bind]. rewrite short_part_ok by (done || lia).
    cbn [mbind option_bind]. by rewrite short_part_ok by (done || lia).
Qed.

Lemma length_pad n s : (length s ≤ n)%nat → length (pad_spaces n s) = n.
Proof. intros. unfold pad_spaces. rewrite length_app, length_replicate. lia. Qed.

Lemma length_name11 base ext : name83 base ext → length (name11 base ext) = 11%nat.
Proof.
  intros [_ _ Hl Hel]. unfold name11, upper. rewrite length_app, !length_pad by (rewrite length_fmap; lia). done.
Qed.

Lemma name_char_byte s : Forall name_char s → Forall is_byte s.
Proof. intros Hs. eapply Forall_impl; [exact Hs|]. unfold name_char, is_byte. lia. Qed.

Lemma name11_bytes base ext : name83 base ext → Forall is_byte (name11 base ext).
Proof.
  intros [Hb He _ _]. unfold name11, pad_spaces.
  repeat (apply Forall_app; split); try (apply Forall_replicate; unfold is_byte; lia); by apply name_char_byte, upper_chars.
Qed.

(** Cutting the padding gives the name back. *)
Lemma cut_spaces_pad s k : Forall name_char s → cstr (cut_spaces (s ++ replicate k 32)) = s.
Proof.
  intros Hs. unfold cut_spaces. induction Hs as [|c s Hc _ IH]; cbn [app fmap list_fmap cstr].
  - by destruct k.
  - unfold name_char in Hc. rewrite (proj2 (Z.eqb_neq c 32)), (proj2 (Z.eqb_neq c 0)) by lia. by f_equal.
Qed.

(** ** Components *)

Lemma take_comp_name n s : Forall (λ c, c ≠ 47) s → (length s ≤ n)%nat → take_comp n s = (s, []).
Proof.
  intros Hs. revert n. induction Hs as [|c s Hc _ IH]; intros [|n] Hn; try done; cbn in Hn; [lia|].
  cbn [take_comp]. rewrite (proj2 (Z.eqb_neq c 47)) by done. by rewrite IH by lia.
Qed.

Lemma full_name_no_slash base ext : name83 base ext → Forall (λ c, c ≠ 47) (full_name base ext).
Proof.
  intros [Hb He _ _]. unfold full_name. apply Forall_app. split.
  - eapply Forall_impl; [exact Hb|]. unfold name_char. lia.
  - destruct ext; [constructor|]. constructor; [lia|]. eapply Forall_impl; [exact He|]. unfold name_char. lia.
Qed.

Lemma length_full_name base ext : name83 base ext → (1 ≤ length (full_name base ext) ≤ 12)%nat.
Proof.
  intros [_ _ Hl Hel]. unfold full_name. rewrite length_app. destruct ext; cbn in *; lia.
Qed.

Lemma next_comp_name base ext : name83 base ext → next_comp (full_name base ext) = (full_name base ext, []).
Proof.
  intros Hn. unfold next_comp. rewrite take_comp_name; [done|by apply full_name_no_slash|].
  pose proof (length_full_name _ _ Hn). lia.
Qed.

Lemma skip_slash_name base ext : name83 base ext → skip_slash (47 :: full_name base ext) = full_name base ext.
Proof. done. Qed.

Lemma full_name_cons base ext : name83 base ext → ∃ c r, full_name base ext = c :: r.
Proof. intros Hn. pose proof (length_full_name _ _ Hn). destruct (full_name base ext) as [|c r]; [cbn in *; lia|eauto]. Qed.

Lemma prefix_match_spec comp name : prefix_match comp name = true ↔ upper comp `prefix_of` name.
Proof.
  revert name. induction comp as [|c comp IH]; intros [|x name]; cbn [prefix_match upper fmap list_fmap].
  - split; [intros _; apply prefix_nil|done].
  - split; [intros _; apply prefix_nil|done].
  - split; [done|]. intros ?%prefix_nil_not. done.
  - rewrite andb_true_iff, Z.eqb_eq, IH. split.
    + intros [-> Hp]. by apply prefix_cons.
    + intros Hp. split; [by eapply prefix_cons_inv_1|by eapply prefix_cons_inv_2].
Qed.

Lemma before_dot_prefix s : before_dot s `prefix_of` s.
Proof. induction s as [|c s IH]; [done|]. cbn. destruct (c =? 46); [apply prefix_nil|by apply prefix_cons]. Qed.

Lemma before_dot_name s r : Forall name_char s → before_dot (s ++ 46 :: r) = s.
Proof.
  induction 1 as [|c s Hc _ IH]; [done|]. cbn. unfold name_char in Hc.
  rewrite (proj2 (Z.eqb_neq c 46)) by lia. by rewrite IH.
Qed.
Lemma before_dot_all s : Forall name_char s → before_dot s = s.
Proof.
  induction 1 as [|c s Hc _ IH]; [done|]. cbn. unfold name_char in Hc.
  rewrite (proj2 (Z.eqb_neq c 46)) by lia. by rewrite IH.
Qed.

(** ** One entry *)

(** Loads from a sector at an entry are loads from the entry. *)
Lemma bget_entry b off k : 0 ≤ off → off + 32 ≤ zlen b → 0 ≤ k < 32 →
  bget b (off + k) = bget (slice b (Z.to_nat off) 32) k.
Proof.
  intros Ho Hb Hk. unfold bget. assert (zlen (slice b (Z.to_nat off) 32) = 32) as ->.
  { unfold zlen in *. rewrite length_slice by lia. done. }
  rewrite !(proj2 (Z.leb_le 0 _)), !(proj2 (Z.ltb_lt _ _)) by lia. cbn [andb].
  rewrite slice_lookup by lia. by replace (Z.to_nat off + Z.to_nat k)%nat with (Z.to_nat (off + k)) by lia.
Qed.

Lemma bytes_at_entry b off k n : 0 ≤ off → off + 32 ≤ zlen b → 0 ≤ k → 0 ≤ n → k + n ≤ 32 →
  bytes_at b (off + k) n = bytes_at (slice b (Z.to_nat off) 32) k n.
Proof.
  intros Ho Hb Hk Hn Hkn. assert (zlen (slice b (Z.to_nat off) 32) = 32) as Hl.
  { unfold zlen in *. rewrite length_slice by lia. done. }
  rewrite !bytes_at_slice by lia. f_equal. apply slice_ext. intros i Hi.
  rewrite slice_lookup by lia. f_equal. lia.
Qed.

Section entry.
Context (b : list Z) (off : Z) (Ho : 0 ≤ off) (Hb : off + 32 ≤ zlen b).
Notation e := (slice b (Z.to_nat off) 32).

Lemma bget_entry0 : bget b off = bget e 0.
Proof. rewrite <- (bget_entry b off 0) by lia. f_equal. lia. Qed.

Lemma short_name_entry cut : short_name cut b off = short_name cut e 0.
Proof.
  unfold short_name, base_name. rewrite <- (Z.add_0_r off) at 1.
  rewrite (bytes_at_entry b off 0), (bytes_at_entry b off 8), (bget_entry b off 8) by lia. done.
Qed.

Lemma first_cluster_entry : first_cluster b off = first_cluster e 0.
Proof. unfold first_cluster. by rewrite !(bget_entry b off) by lia. Qed.
Lemma entry_size_entry : entry_size b off = entry_size e 0.
Proof. unfold entry_size. by rewrite !(bget_entry b off) by lia. Qed.

Lemma visit_file_entry comp lba u : visit_file comp lba b off u = visit_file comp lba e 0 u.
Proof.
  unfold visit_file, visit_used. rewrite bget_entry0, (bget_entry b off 11) by lia.
  by rewrite short_name_entry, first_cluster_entry, entry_size_entry.
Qed.
End entry.

(** ** A new entry *)

Definition shift (off : Z) (st : list (Z * Z)) : list (Z * Z) := (λ '(i, v), (off + i, v)) <$> st.

Lemma seq_stores_shift off i bs : seq_stores (off + i) bs = shift off (seq_stores i bs).
Proof.
  revert i. induction bs as [|v bs IH]; intros i; [done|]. cbn [seq_stores].
  change (shift off ((i, v) :: seq_stores (i + 1) bs)) with ((off + i, v) :: shift off (seq_stores (i + 1) bs)).
  rewrite <- IH. by rewrite Z.add_assoc.
Qed.

Lemma entry_stores_shift off n11 attr fc sz : entry_stores off n11 attr fc sz = shift off (entry_stores 0 n11 attr fc sz).
Proof.
  unfold entry_stores, shift. rewrite !fmap_app. rewrite <- (Z.add_0_r off) at 1.
  rewrite (seq_stores_shift off 0), (seq_stores_shift off 12). done.
Qed.

(** Stores into an entry of a sector are stores into the entry. *)
Lemma slice_poke_shift st off n b : (off + n ≤ length b)%nat → stores_in n st →
  slice (poke b (shift (Z.of_nat off) st)) off n = poke (slice b off n) st.
Proof.
  revert b. induction st as [|[i v] st IH]; intros b Hb Hs; [done|].
  apply Forall_cons in Hs as [[Hi Hv] Hs]. cbn. fold (shift (Z.of_nat off) st).
  fold (poke (<[Z.to_nat (Z.of_nat off + i):=v]> b) (shift (Z.of_nat off) st)). fold (poke (<[Z.to_nat i:=v]> (slice b off n)) st).
  rewrite IH by (done || by rewrite length_insert). f_equal. unfold slice.
  replace (Z.to_nat (Z.of_nat off + i)) with (off + Z.to_nat i)%nat by lia.
  rewrite drop_insert_ge by lia. replace (off + Z.to_nat i - off)%nat with (Z.to_nat i) by lia.
  by rewrite take_insert_lt by lia.
Qed.

Lemma byte_of_byte v k : is_byte (byte_of v k).
Proof. unfold byte_of. rewrite land_255. apply Z.mod_pos_bound. lia. Qed.

Lemma entry_stores_in n11 attr fc sz : length n11 = 11%nat → Forall is_byte n11 → is_byte attr →
  stores_in 32 (entry_stores 0 n11 attr fc sz).
Proof.
  intros Hl Hn Ha. unfold entry_stores, stores_in. repeat (apply Forall_app; split).
  - apply seq_stores_in; [lia|unfold zlen; lia|done].
  - constructor; [split; [lia|done]|constructor].
  - apply seq_stores_in; [lia|done|]. apply Forall_replicate. unfold is_byte. lia.
  - repeat constructor; (lia || apply byte_of_byte).
Qed.

Definition new_entry (e n11 : list Z) (attr fc sz : Z) : list Z := poke e (entry_stores 0 n11 attr fc sz).

Lemma new_entry_bytes e n11 attr fc sz : length e = 32%nat → length n11 = 11%nat →
  new_entry e n11 attr fc sz
  = n11 ++ attr :: replicate 8 0 ++ [byte_of fc 16; byte_of fc 24] ++ slice e 22 4
    ++ [byte_of fc 0; byte_of fc 8; byte_of sz 0; byte_of sz 8; byte_of sz 16; byte_of sz 24].
Proof.
  intros He Hn. do 12 (destruct n11 as [|? n11]; try discriminate Hn).
  do 33 (destruct e as [|? e]; try discriminate He). reflexivity.
Qed.

(** Numbers are put together from their bytes. *)
Lemma bytes_sum v : 0 ≤ v < 2 ^ 32 →
  byte_of v 0 + 2 ^ 8 * byte_of v 8 + 2 ^ 16 * byte_of v 16 + 2 ^ 24 * byte_of v 24 = v.
Proof.
  intros Hv. unfold byte_of. rewrite !land_255, !Z.shiftr_div_pow2 by lia.
  change (2 ^ 0) with 1. change (2 ^ 16) with (2 ^ 8 * 2 ^ 8). change (2 ^ 24) with (2 ^ 8 * 2 ^ 8 * 2 ^ 8).
  rewrite <- !Z.div_div, Z.div_1_r by lia. change (2 ^ 8) with 256.
  pose proof (Z.div_mod v 256 ltac:(lia)). pose proof (Z.div_mod (v `div` 256) 256 ltac:(lia)).
  pose proof (Z.div_mod (v `div` 256 `div` 256) 256 ltac:(lia)).
  assert (v `div` 256 `div` 256 `div` 256 < 256) by (rewrite !Z.div_div by lia; apply Z.div_lt_upper_bound; lia).
  assert (0 ≤ v `div` 256 `div` 256 `div` 256) by (rewrite !Z.div_div by lia; apply Z.div_pos; lia).
  rewrite (Z.mod_small (v `div` 256 `div` 256 `div` 256)) by lia. lia.
Qed.

Lemma cluster_of_bytes v : 0 ≤ v < 2 ^ 32 →
  Z.lor (u32 (Z.shiftl (Z.lor (byte_of v 16) (Z.shiftl (byte_of v 24) 8)) 16))
        (Z.lor (byte_of v 0) (Z.shiftl (byte_of v 8) 8)) = v.
Proof.
  intros Hv. pose proof (bytes_sum v Hv).
  pose proof (byte_of_byte v 0). pose proof (byte_of_byte v 8). pose proof (byte_of_byte v 16). pose proof (byte_of_byte v 24).
  unfold is_byte in *. rewrite !(lor_shiftl_add _ _ 8) by lia. rewrite u32_small by (rewrite Z.shiftl_mul_pow2 by lia; lia).
  rewrite Z.lor_comm, lor_shiftl_add by lia. lia.
Qed.

Lemma size_of_bytes v : 0 ≤ v < 2 ^ 32 →
  Z.lor (Z.lor (Z.lor (byte_of v 0) (Z.shiftl (byte_of v 8) 8)) (Z.shiftl (byte_of v 16) 16)) (Z.shiftl (byte_of v 24) 24) = v.
Proof.
  intros Hv. pose proof (bytes_sum v Hv).
  pose proof (byte_of_byte v 0). pose proof (byte_of_byte v 8). pose proof (byte_of_byte v 16). pose proof (byte_of_byte v 24).
  unfold is_byte in *. rewrite (lor_shiftl_add _ _ 8), (lor_shiftl_add _ _ 16), (lor_shiftl_add _ _ 24) by lia. lia.
Qed.

Lemma bget_app_r s t k : 0 ≤ k → bget (s ++ t) (zlen s + k) = bget t k.
Proof.
  intros Hk. unfold bget. rewrite zlen_app. pose proof (zlen_nonneg s). pose proof (zlen_nonneg t).
  rewrite !(proj2 (Z.leb_le 0 _)) by lia. cbn [andb].
  replace (zlen s + k <? zlen s + zlen t) with (k <? zlen t) by (destruct (Z.ltb_spec k (zlen t)); symmetry; (apply Z.ltb_lt || apply Z.ltb_ge); lia).
  case_match; [|done]. rewrite lookup_app_r by (unfold zlen in *; lia). f_equal. f_equal. unfold zlen. lia.
Qed.

(** The four bytes that keep their old value. *)
Lemma slice4 e : length e = 32%nat → ∃ w x y z, slice e 22 4 = [w; x; y; z].
Proof. intros He. do 33 (destruct e as [|? e]; try discriminate He). repeat eexists. Qed.

Section stored.
Context (base ext : list Z) (Hn : name83 base ext) (e : list Z) (He : length e = 32%nat) (fc sz : Z).
Context (Hfc : 0 ≤ fc < 2 ^ 32) (Hsz : 0 ≤ sz < 2 ^ 32).
Notation new := (new_entry e (name11 base ext) 0x20 fc sz).

Lemma bget_new k : 11 ≤ k →
  bget new k = bget (0x20 :: replicate 8 0 ++ [byte_of fc 16; byte_of fc 24] ++ slice e 22 4
    ++ [byte_of fc 0; byte_of fc 8; byte_of sz 0; byte_of sz 8; byte_of sz 16; byte_of sz 24]) (k - 11).
Proof.
  intros Hk. rewrite new_entry_bytes by (done || by apply length_name11).
  assert (zlen (name11 base ext) = 11) as Hl by (unfold zlen; by rewrite length_name11).
  replace k with (zlen (name11 base ext) + (k - 11)) at 1 by lia. apply bget_app_r. lia.
Qed.

Lemma new_attr : bget new 11 = Ret 0x20.
Proof. by rewrite bget_new by lia. Qed.
Lemma new_cluster : first_cluster new 0 = Ret fc.
Proof.
  unfold first_cluster. rewrite !bget_new by lia.
  destruct (slice4 e He) as (w & x & y & z & ->). refine (eq_trans _ (f_equal Ret (cluster_of_bytes fc Hfc))). reflexivity.
Qed.
Lemma new_size : entry_size new 0 = Ret sz.
Proof.
  unfold entry_size. rewrite !bget_new by lia.
  destruct (slice4 e He) as (w & x & y & z & ->). refine (eq_trans _ (f_equal Ret (size_of_bytes sz Hsz))). reflexivity.
Qed.

(** The name read back is the name written, in upper case. *)
Lemma new_name : short_name cut_spaces new 0 = Ret (upper (full_name base ext)).
Proof.
  destruct Hn as [Hb Hx Hl Hel]. pose proof (length_name11 _ _ Hn) as H11.
  assert (Hlen : zlen new = 32) by (unfold zlen, new_entry; by rewrite length_poke, He).
  unfold short_name, base_name. rewrite !bytes_at_slice by lia. cbn [rbind].
  assert (Hs : ∀ k n, (k + n ≤ 11)%nat → slice new k n = slice (name11 base ext) k n).
  { intros k n Hkn. apply slice_ext. intros i Hi. rewrite new_entry_bytes by done. by rewrite lookup_app_l by lia. }
  assert (Hp8 : length (pad_spaces 8 (upper base)) = 8%nat) by (apply length_pad; unfold upper; rewrite length_fmap; lia).
  assert (Hp3 : length (pad_spaces 3 (upper ext)) = 3%nat) by (apply length_pad; unfold upper; rewrite length_fmap; lia).
  rewrite (Hs (Z.to_nat 0) (Z.to_nat 8)), (Hs (Z.to_nat (0 + 8)) (Z.to_nat 3)) by lia.
  change (Z.to_nat 8) with 8%nat. change (Z.to_nat (0 + 8)) with 8%nat. change (Z.to_nat 3) with 3%nat. change (Z.to_nat 0) with 0%nat.
  assert (slice (name11 base ext) 0 8 = pad_spaces 8 (upper base)) as ->.
  { unfold slice, name11. rewrite drop_0, take_app_le by lia. by apply take_ge; lia. }
  assert (slice (name11 base ext) 8 3 = pad_spaces 3 (upper ext)) as ->.
  { unfold slice, name11. rewrite drop_app_ge, Hp8, Nat.sub_diag by lia. apply take_ge. lia. }
  unfold pad_spaces at 1. rewrite cut_spaces_pad by (by apply upper_chars).
  assert (bget new (0 + 8) = of_opt (head (pad_spaces 3 (upper ext)))) as ->.
  { unfold bget. rewrite Hlen. cbn [Z.leb Z.ltb Z.add Z.compare Pos.compare Pos.compare_cont andb].
    rewrite new_entry_bytes by done. rewrite lookup_app_l by lia. unfold name11. rewrite lookup_app_r by lia.
    rewrite Hp8. change (Z.to_nat 8 - 8)%nat with 0%nat. by destruct (pad_spaces 3 (upper ext)). }
  unfold full_name, upper in *. destruct ext as [|x [|y [|z [|? ?]]]]; cbn in Hel; try lia.
  - cbn. by rewrite app_nil_r.
  - apply Forall_cons in Hx as [Hx Hx']. apply Forall_cons in Hx' as [Hy Hz]. apply Forall_cons in Hz as [Hz _].
    destruct (toupper_char x Hx) as (_ & Hx1 & Hx0), (toupper_char y Hy) as (_ & _ & Hy0), (toupper_char z Hz) as (_ & _ & Hz0).
    cbn [fmap list_fmap pad_spaces head app length Nat.sub replicate of_opt rbind].
    unfold pad_spaces. cbn [length Nat.sub replicate app head of_opt rbind].
    rewrite (proj2 (Z.eqb_neq _ 32)) by done. rewrite fmap_app. cbn [fmap list_fmap cstr].
    rewrite (proj2 (Z.eqb_neq _ 0)) by done. rewrite (proj2 (Z.eqb_neq (fat_toupper x) 0)) by done.
    rewrite (proj2 (Z.eqb_neq (fat_toupper y) 0)), (proj2 (Z.eqb_neq (fat_toupper z) 0)) by done.
    by rewrite cut_spaces_pad by (by apply (upper_chars base)).
Qed.

Lemma new_first : ∃ c, bget new 0 = Ret c ∧ c ≠ 0 ∧ c ≠ 0xE5.
Proof.
  pose proof (length_name11 _ _ Hn) as H11. destruct Hn as [Hb _ Hl _]. destruct base as [|b0 base']; [cbn in Hl; lia|].
  apply Forall_cons in Hb as [Hb _]. destruct (toupper_char b0 Hb) as ((Hc & _) & _ & H0).
  exists (fat_toupper b0). split_and!; [|done|lia]. rewrite new_entry_bytes by done.
  apply bget_Ret. split; [lia|reflexivity].
Qed.

(** The open search accepts the new entry. *)
Lemma visit_new lba : visit_file (upper (full_name base ext)) lba new 0 tt = Ret (inr (Some (false, fc, sz))).
Proof.
  destruct new_first as (c & Hc & H0 & H5). unfold visit_file, visit_used. rewrite Hc. cbn [rbind].
  rewrite (proj2 (Z.eqb_neq c 0)), (proj2 (Z.eqb_neq c 0xE5)) by done. change (0 + 11) with 11. rewrite new_attr. cbn [rbind].
  change (negb (Z.land 0x20 8 =? 0)) with false. change (Z.land 0x20 15 =? 15) with false. cbn iota.
  rewrite new_name. cbn [rbind]. rewrite new_cluster, new_size. cbn [rbind].
  change (negb (Z.land 0x20 16 =? 0)) with false.
  assert ((if bool_decide (46 ∈ upper (full_name base ext)) then upper (full_name base ext)
           else before_dot (upper (full_name base ext))) = upper (full_name base ext)) as ->.
  { case_bool_decide as Hd; [done|]. destruct Hn as [Hb _ _ _]. unfold full_name, upper in *.
    rewrite fmap_app in *. destruct ext as [|x ext']; [rewrite app_nil_r; by apply before_dot_all, upper_chars|].
    destruct Hd. rewrite fmap_cons. change (fat_toupper 46) with 46. set_solver. }
  by rewrite bool_decide_true.
Qed.
End stored.
