(* ===== verification/FatFile.v ===== *)
(** * Cluster data

    The sectors of a cluster and of a chain, and what a walk along a chain computes: the
    visitor folded over the chain's sectors in order. *)
From S2P Require Import Prelude Loop CString BlockDev Fat FatTable FatChain FatDir FatName.

(** Sector [s] of cluster [c]. *)
Definition data_lba (g : Fat) (c s : Z) : Z := cluster_begin_lba g + (c - 2) * sectors_per_cluster g + s.
Definition cluster_lbas (g : Fat) (c : Z) : list Z := data_lba g c <$> range 0 (sectors_per_cluster g) 1.
Definition chain_lbas (g : Fat) (l : list Z) : list Z := l ≫= cluster_lbas g.

(** The entry positions of a directory. *)
Definition dir_slots (g : Fat) (l : list Z) : list (Z * Z) :=
  chain_lbas g l ≫= λ lba, (λ off, (lba, off)) <$> range 0 512 32.

Section data.
Context {D : Type} `{BlockDevSpec D} `{!ReliableDev D} (g : Fat) (Hg : vol_ok g).
Implicit Types d : D.

Lemma cluster_to_lba_ok c s : 2 ≤ c < entries g → 0 ≤ s < sectors_per_cluster g →
  u32 (cluster_to_lba g c + s) = data_lba g c s.
Proof.
  intros Hc Hs. pose proof (v_fits _ Hg). pose proof (v_begin _ Hg). pose proof (v_layout _ Hg).
  pose proof (v_nfats _ Hg). pose proof (v_fatsz _ Hg).
  assert (0 ≤ data_lba g c s < 2 ^ 32) by (unfold data_lba; nia).
  unfold cluster_to_lba. fold (data_lba g c 0) in *. unfold data_lba in *.
  rewrite (u32_small (_ + (c - 2) * _)) by nia. apply u32_small. nia.
Qed.

Lemma data_not_table c s : 2 ≤ c → 0 ≤ s → ¬ in_table g (data_lba g c s).
Proof. intros Hc Hs [_ Ht]. unfold data_lba in Ht. pose proof (v_spc _ Hg). nia. Qed.

Lemma data_lba_inj c s c' s' : 0 ≤ s < sectors_per_cluster g → 0 ≤ s' < sectors_per_cluster g →
  data_lba g c s = data_lba g c' s' → c = c' ∧ s = s'.
Proof. unfold data_lba. intros Hs Hs' E. assert (c = c') as -> by nia. split; [done|lia]. Qed.

Lemma elem_of_cluster_lbas c l :
  l ∈ cluster_lbas g c ↔ ∃ s, 0 ≤ s < sectors_per_cluster g ∧ l = data_lba g c s.
Proof.
  unfold cluster_lbas. rewrite list_elem_of_fmap. split.
  - intros (s & -> & [Hs _]%elem_of_range); [eauto|lia].
  - intros (s & Hs & ->). exists s. split; [done|]. apply elem_of_range; [lia|]. rewrite Z.mod_1_r. lia.
Qed.

(** ** Walks *)

Context {A R : Type} (self : bool) (err stop : A → R) (visit : Z → list Z → A → res (A + R)).

(** The visitor over a list of sectors. *)
Definition visit_lbas (d : D) (ls : list Z) (a : A) : res (A + R) :=
  for_loop ls (λ lba, visit lba (sector d lba)) a.

Lemma chain_sectors_ok c ss : ∀ a d x, 2 ≤ c < entries g → Forall (λ s, 0 ≤ s < sectors_per_cluster g) ss →
  visit_lbas d (data_lba g c <$> ss) a = Ret x →
  ∃ d', same d d' ∧ for_loop ss (chain_sector g err visit c) (a, d)
    = Ret (match x with inl a => inl (a, d') | inr r => inr (r, d') end).
Proof.
  induction ss as [|s ss IH]; intros a d x Hc Hss Hv.
  { injection Hv as <-. by exists d. }
  apply Forall_cons in Hss as [Hs Hss]. unfold visit_lbas in Hv. cbn in Hv. cbn [for_loop chain_sector].
  rewrite cluster_to_lba_ok by done.
  destruct (read_sector_ata g Hg 4096 (data_lba g c s) d) as (d1 & -> & Hs1). cbn [rbind].
  change (negb (0 =? 0)) with false. cbn iota.
  destruct (visit (data_lba g c s) (sector d (data_lba g c s)) a) as [[a1|r]| |] eqn:E; try done; cbn in Hv |- *.
  - destruct (IH a1 d1 x Hc Hss) as (d2 & Hs2 & Hf).
    + rewrite <- Hv. apply for_loop_ext. intros lba a' _. by rewrite Hs1.
    + exists d2. split; [by etrans|exact Hf].
  - injection Hv as <-. by exists d1.
Qed.

Lemma chain_walk_runs l : ∀ c a d x, chain g (fat_val g d) (c :: l) → NoDup (c :: l) →
  visit_lbas d (chain_lbas g (c :: l)) a = Ret x →
  ∃ n d', (n ≤ length l)%nat ∧ same d d' ∧
    runs (chain_step g self err stop visit) n (c, a, d) (match x with inl a => stop a | inr r => r end, d').
Proof.
  pose proof (v_entries _ Hg) as He.
  induction l as [|c' l IH]; intros c a d x [Hc Hch]%chain_cons [Hni Hnd]%NoDup_cons Hv;
    unfold visit_lbas, chain_lbas in Hv; cbn [mbind list_bind] in Hv; rewrite for_loop_app in Hv;
    (assert (Hin : in_chain c = true);
      [unfold in_chain, BAD, EOC in *; rewrite (proj2 (Z.eqb_neq c 0)), (proj2 (Z.eqb_neq c _)), (proj2 (Z.ltb_lt c _)) by lia; done|]).
  all: destruct (for_loop (cluster_lbas g c) (λ lba, visit lba (sector d lba)) a) as [y| |] eqn:Ey; try done.
  all: destruct (chain_sectors_ok c (range 0 (sectors_per_cluster g) 1) a d y Hc) as (d1 & Hs1 & Hf);
    [apply Forall_forall; intros s [Hs _]%elem_of_range; [done|lia]|exact Ey|].
  all: destruct y as [a1|r];
    [|injection Hv as <-; exists 0%nat, d1; split_and!; [lia|done|]; apply runs_exit; unfold chain_step; rewrite Hin; cbn [negb];
      by rewrite Hf].
  all: destruct (read_fat_entry_ok g Hg c d1 ltac:(lia)) as (d2 & Hr & Hs2); rewrite (fat_val_same g d d1 c Hs1) in Hr.
  - injection Hv as <-. exists 0%nat, d2. split_and!; [lia|by etrans|]. apply runs_exit. unfold chain_step. rewrite Hin.
    cbn [negb]. rewrite Hf. cbn [rbind]. rewrite Hr. cbn [rbind].
    rewrite (proj2 (Z.leb_le EOC _)) by done. rewrite orb_true_r. done.
  - destruct Hch as [Hnext Hch].
    assert (Hs12 : same d d2) by (by etrans).
    destruct (IH c' a1 d2 x) as (n & d3 & Hn & Hs3 & Hrun); [|done| |].
    { eapply fat_chain_ext; [|exact Hch]. intros y _. by apply fat_val_same. }
    { rewrite <- Hv. apply for_loop_ext. intros lba a' _. by rewrite Hs12. }
    apply chain_cons in Hch as [Hc' _].
    exists (S n), d3. split_and!; [cbn; lia|by etrans|]. apply runs_next with (c', a1, d2); [|done].
    unfold chain_step. rewrite Hin. cbn [negb]. rewrite Hf. cbn [rbind]. rewrite Hr. cbn [rbind].
    rewrite Hnext. unfold BAD, EOC in *.
    rewrite (proj2 (Z.eqb_neq c' 0)), (proj2 (Z.eqb_neq c' _)), (proj2 (Z.leb_gt _ c')) by lia. cbn [orb].
    rewrite (proj2 (Z.eqb_neq c' c)) by (intros ->; apply Hni; left). by rewrite andb_false_r.
Qed.

(** A walk returns what the visitor computes over the chain's sectors; the device keeps its
    contents. *)
Lemma chain_walk_ok c l a d x : chain g (fat_val g d) (c :: l) → NoDup (c :: l) →
  visit_lbas d (chain_lbas g (c :: l)) a = Ret x →
  ∃ d', same d d' ∧ chain_walk g self err stop visit c a d = Ret (match x with inl a => stop a | inr r => r end, d').
Proof.
  intros Hch Hnd Hv. destruct (chain_walk_runs l c a d x Hch Hnd Hv) as (n & d' & Hn & Hs & Hr).
  exists d'. split; [done|]. apply (while_runs _ n); [done|].
  pose proof (chain_length g _ _ Hch Hnd) as Hl. rewrite zlen_cons in Hl. pose proof (v_entries _ Hg).
  unfold BAD, zlen in *. lia.
Qed.
End data.

(** * File contents on a chain

    The write loop allocates the first free clusters, links them and fills them in order;
    reading the chain back returns the bytes. *)


(** The bytes of a list of sectors. *)
Definition contents {D} `{BlockDevSpec D} (d : D) (ls : list Z) : list Z := ls ≫= sector d.

Section file.
Context {D : Type} `{BlockDevSpec D} `{!ReliableDev D} (g : Fat) (Hg : vol_ok g).
Implicit Types d : D.

Lemma contents_cons d l ls : contents d (l :: ls) = sector d l ++ contents d ls.
Proof. done. Qed.

Lemma length_contents d ls : length (contents d ls) = (512 * length ls)%nat.
Proof.
  induction ls as [|l ls IH]; [done|]. rewrite contents_cons, length_app, sector_size, IH. cbn. lia.
Qed.

Lemma contents_ext d d' ls : (∀ l, l ∈ ls → sector d' l = sector d l) → contents d' ls = contents d ls.
Proof.
  induction ls as [|l ls IH]; intros Hl; [done|]. rewrite !contents_cons, Hl by left. f_equal.
  apply IH. intros x Hx. apply Hl. by right.
Qed.

Lemma contents_app d ls ks : contents d (ls ++ ks) = contents d ls ++ contents d ks.
Proof. apply bind_app. Qed.

(** ** One sector *)

(** The image of a sector that holds the first bytes of [p]. *)
Definition sector_image (p : list Z) : list Z := take 512 p ++ replicate (512 - length p) 0.

Lemma length_sector_image p : length (sector_image p) = 512%nat.
Proof. unfold sector_image. rewrite length_app, length_take, length_replicate. lia. Qed.

Lemma sector_image_take p : take (length p) (sector_image p) = take 512 p.
Proof.
  unfold sector_image. destruct (decide (length p ≤ 512)%nat).
  - rewrite (take_ge p 512) by lia. by rewrite take_app_length.
  - replace (512 - length p)%nat with 0%nat by lia. cbn. rewrite app_nil_r, take_ge; [done|].
    rewrite length_take. lia.
Qed.

Lemma write_sector_ok c s p d : 2 ≤ c < entries g → 0 ≤ s < sectors_per_cluster g → p ≠ [] → Forall is_byte p →
  ∃ d', write_sector g c s (p, zlen p, d)
        = Ret (if (length p <=? 512)%nat then inr (true, [], 0, d') else inl (drop 512 p, zlen (drop 512 p), d'))
    ∧ ∀ l, sector d' l = if l =? data_lba g c s then sector_image p else sector d l.
Proof.
  intros Hc Hs Hp Hb. assert (0 < length p)%nat by (destruct p; [done|cbn; lia]).
  destruct (ata_write_ok (data_lba g c s) (sector_image p) d) as (d' & Hw & Hd).
  { apply length_sector_image. }
  { apply Forall_app. split; [by apply Forall_take|]. apply Forall_replicate. unfold is_byte. lia. }
  exists d'. split; [|exact Hd]. unfold write_sector. rewrite (v_bps _ Hg), cluster_to_lba_ok by done.
  change (4096 <? 512) with false. cbn iota.
  set (tc := if zlen p <? 512 then zlen p else 512).
  assert (tc = Z.min (zlen p) 512) as Htc by (unfold tc; destruct (Z.ltb_spec (zlen p) 512); lia).
  rewrite bytes_at_slice by (unfold zlen in *; lia). cbn [rbind].
  assert (slice p (Z.to_nat 0) (Z.to_nat tc) ++ replicate (Z.to_nat (512 - tc)) 0 = sector_image p) as ->.
  { unfold slice, sector_image. change (Z.to_nat 0) with 0%nat. rewrite drop_0. f_equal; [|f_equal; unfold zlen in *; lia].
    destruct (decide (length p ≤ 512)%nat); [rewrite !take_ge by (unfold zlen in *; lia); done|f_equal; unfold zlen in *; lia]. }
  rewrite put_buffer by apply length_sector_image. rewrite Hw. cbn [rbind]. change (negb (0 =? 0)) with false. cbn iota.
  destruct (Nat.leb_spec (length p) 512) as [Hle|Hgt].
  - rewrite (proj2 (Z.eqb_eq (zlen p - tc) 0)) by (unfold zlen in *; lia).
    rewrite drop_ge by (unfold zlen in *; lia). do 3 f_equal. unfold zlen in *. f_equal. lia.
  - rewrite (proj2 (Z.eqb_neq (zlen p - tc) 0)) by (unfold zlen in *; lia).
    replace (Z.to_nat tc) with 512%nat by (unfold zlen in *; lia). do 4 f_equal.
    unfold zlen in *. rewrite length_drop. lia.
Qed.

(** ** One cluster *)

Lemma fill_sectors_ok c ss : ∀ p d, 2 ≤ c < entries g → Forall (λ s, 0 ≤ s < sectors_per_cluster g) ss → NoDup ss →
  p ≠ [] → Forall is_byte p → ss ≠ [] →
  ∃ d', let q := drop (512 * length ss) p in
    (let! x := for_loop ss (write_sector g c) (p, zlen p, d) in
     match x with inl (p, r, d) => Ret (true, p, r, d) | inr r => Ret r end) = Ret (true, q, zlen q, d')
    ∧ take (length p) (contents d' (data_lba g c <$> ss)) = take (512 * length ss) p
    ∧ ∀ l, l ∉ data_lba g c <$> ss → sector d' l = sector d l.
Proof.
  induction ss as [|s ss IH]; intros p d Hc Hss Hnd Hp Hb Hne; [done|].
  apply Forall_cons in Hss as [Hs Hss]. apply NoDup_cons in Hnd as [Hni Hnd].
  destruct (write_sector_ok c s p d Hc Hs Hp Hb) as (d1 & Hw & Hd1). cbn zeta.
  set (lba := data_lba g c s) in *. change (data_lba g c <$> s :: ss) with (lba :: (data_lba g c <$> ss)).
  assert (Hnil : lba ∉ data_lba g c <$> ss).
  { intros (s' & E & Hin)%list_elem_of_fmap. rewrite Forall_forall in Hss. specialize (Hss s' Hin). cbn in Hss.
    apply data_lba_inj in E as [_ ->]; done. }
  assert (Hlba : sector d1 lba = sector_image p) by (rewrite Hd1, Z.eqb_refl; done).
  cbn [for_loop length]. rewrite Hw. destruct (Nat.leb_spec (length p) 512) as [Hle|Hgt].
  - exists d1. cbn [exit_bind rbind]. rewrite (drop_ge p) by lia. split_and!; [done| |].
    + change (contents d1 (lba :: (data_lba g c <$> ss))) with (sector d1 lba ++ contents d1 (data_lba g c <$> ss)).
      rewrite Hlba, take_app_le by (rewrite length_sector_image; lia). rewrite sector_image_take, !take_ge by lia. done.
    + intros l [Hl _]%not_elem_of_cons. rewrite Hd1. by rewrite (proj2 (Z.eqb_neq l lba)).
  - cbn [exit_bind rbind]. destruct ss as [|s' ss'].
    { exists d1. cbn [for_loop rbind length]. rewrite Nat.mul_1_r. split_and!; [done| |].
      - change (contents d1 (lba :: (data_lba g c <$> []))) with (sector d1 lba ++ []).
        rewrite Hlba, app_nil_r. apply sector_image_take.
      - intros l [Hl _]%not_elem_of_cons. rewrite Hd1. by rewrite (proj2 (Z.eqb_neq l lba)). }
    destruct (IH (drop 512 p) d1 Hc Hss Hnd) as (d2 & Hf & Hcont & Hfr); [|by apply Forall_drop|done|].
    { intros E. apply (f_equal length) in E. rewrite length_drop in E. cbn in E. lia. }
    set (ss := s' :: ss') in *. exists d2. rewrite Hf, drop_drop. split_and!.
    + do 4 f_equal; f_equal; f_equal; lia.
    + change (contents d2 (lba :: (data_lba g c <$> ss))) with (sector d2 lba ++ contents d2 (data_lba g c <$> ss)).
      rewrite Hfr by done. rewrite Hlba. rewrite take_app_ge by (rewrite length_sector_image; lia).
      rewrite length_sector_image. rewrite length_drop in Hcont. rewrite Hcont.
      unfold sector_image. replace (512 - length p)%nat with 0%nat by lia. cbn [replicate]. rewrite app_nil_r.
      rewrite <- (take_drop 512 (take (512 * S (length ss)) p)), take_take, Nat.min_l by lia. f_equal.
      rewrite skipn_firstn_comm. f_equal. lia.
    + intros l [Hl Hl']%not_elem_of_cons. rewrite Hfr by done. rewrite Hd1. by rewrite (proj2 (Z.eqb_neq l lba)).
Qed.

(** The bytes of a cluster. *)
Definition cluster_size : nat := 512 * Z.to_nat (sectors_per_cluster g).

Lemma length_range a b : a ≤ b → length (range a b 1) = Z.to_nat (b - a).
Proof. intros. unfold range. rewrite length_fmap, length_seq, Z.div_1_r. f_equal. lia. Qed.

Lemma range_spc : Forall (λ s, 0 ≤ s < sectors_per_cluster g) (range 0 (sectors_per_cluster g) 1).
Proof. apply Forall_forall. intros s [Hs _]%elem_of_range; [done|lia]. Qed.

Lemma length_cluster d c : length (contents d (cluster_lbas g c)) = cluster_size.
Proof.
  pose proof (v_spc _ Hg). unfold cluster_lbas, cluster_size. rewrite length_contents, length_fmap, length_range by lia. lia.
Qed.

Lemma fill_cluster_ok c p d : 2 ≤ c < entries g → p ≠ [] → Forall is_byte p →
  ∃ d', fill_cluster g c p (zlen p) d = Ret (true, drop cluster_size p, zlen (drop cluster_size p), d')
    ∧ take (length p) (contents d' (cluster_lbas g c)) = take cluster_size p
    ∧ ∀ l, l ∉ cluster_lbas g c → sector d' l = sector d l.
Proof.
  intros Hc Hp Hb. pose proof (v_spc _ Hg). assert (Hlr : length (range 0 (sectors_per_cluster g) 1) = Z.to_nat (sectors_per_cluster g))
    by (rewrite length_range by lia; f_equal; lia).
  destruct (fill_sectors_ok c (range 0 (sectors_per_cluster g) 1) p d Hc) as (d' & Hf & Hcont & Hfr);
    [apply range_spc|apply range_nodup; lia|done|done|intros E; rewrite E in Hlr; cbn in Hlr; lia|].
  exists d'. rewrite Hlr in *. done.
Qed.

(** ** Linking clusters *)

Lemma chain_nonzero f l c : chain g f l → c ∈ l → f c ≠ 0.
Proof.
  induction l as [|x l IH]; [done|]. intros [Hx Hl]%chain_cons [->|Hin]%elem_of_cons.
  - destruct l as [|y l]; [unfold EOC in Hl; lia|]. destruct Hl as [-> [Hy _]%chain_cons]. lia.
  - destruct l as [|y l]; [by apply elem_of_nil in Hin|]. apply IH; [apply Hl|done].
Qed.

Lemma chain_snoc f f' l prev c :
  chain g f l → NoDup l → last l = Some prev → c ∉ l → 2 ≤ c < entries g → f' prev = c → EOC ≤ f' c →
  (∀ x, x ∈ l → x ≠ prev → f' x = f x) → chain g f' (l ++ [c]).
Proof.
  intros Hch Hnd Hlast Hni Hc Hp He Hf. induction l as [|x l IH]; [done|].
  apply chain_cons in Hch as [Hx Hl]. apply NoDup_cons in Hnd as [Hnx Hnd].
  cbn [app]. apply chain_cons. split; [done|]. destruct l as [|y l].
  - injection Hlast as ->. cbn. done.
  - destruct Hl as [Hxy Hl]. cbn [app]. split.
    + rewrite Hf; [done|left|]. intros ->. apply Hnx. by apply last_Some_elem_of.
    + apply IH; [done|done|done|by intros ?%(list_elem_of_further _ x)|]. intros z Hz. apply Hf. by right.
Qed.

Lemma fat_val_table d d' c : (∀ l, in_table g l → sector d' l = sector d l) → 0 ≤ c < entries g → fat_val g d' c = fat_val g d c.
Proof.
  intros Ht Hc. unfold fat_val. rewrite Ht; [done|]. destruct (entry_position g Hg c Hc) as (_ & _ & Hx & _).
  pose proof (v_nfats _ Hg). pose proof (table_lba_small g Hg 0 (c `div` 128) ltac:(lia) Hx) as [_ Hin].
  by rewrite Z.mul_0_l, Z.add_0_r in Hin.
Qed.

Lemma cluster_lbas_not_table c l : 2 ≤ c → l ∈ cluster_lbas g c → ¬ in_table g l.
Proof. intros Hc (s & Hs & ->)%elem_of_cluster_lbas. apply data_not_table; [done|done|lia]. Qed.

(** A new last cluster: after the step's table writes the chain is one longer. *)
Lemma link_ok l0 c r d : (l0 = [] ∨ chain g (fat_val g d) l0) → NoDup l0 → free_list g (fat_val g d) = c :: r →
  let prev := default 0 (last l0) in
  ∃ d1 d2 d3, alloc_cluster g d = Ret (c, d1)
    ∧ (if negb (prev =? 0) then write_fat_entry g prev c d1 else Ret (0, d1)) = Ret (0, d2)
    ∧ write_fat_entry g c LAST d2 = Ret (0, d3)
    ∧ chain g (fat_val g d3) (l0 ++ [c]) ∧ NoDup (l0 ++ [c]) ∧ 2 ≤ c < entries g
    ∧ free_list g (fat_val g d3) = r
    ∧ (∀ x, 0 ≤ x < entries g → x ∉ l0 ++ [c] → fat_val g d3 x = fat_val g d x)
    ∧ (∀ l, ¬ in_table g l → sector d3 l = sector d l).
Proof.
  intros Hl0 Hnd HF. cbn zeta. pose proof (v_entries _ Hg) as He. unfold BAD in He.
  pose proof (alloc_cluster_ok g Hg d) as Ha. rewrite HF in Ha. destruct Ha as (d1 & Ha & [Hu1 Hs1] & Hc & HF1).
  assert (Hc0 : fat_val g d c = 0).
  { assert (c ∈ free_list g (fat_val g d)) as [Hz _]%list_elem_of_filter by (rewrite HF; left). done. }
  assert (Hcl : c ∉ l0) by (destruct Hl0 as [->|Hch]; [by intros ?%elem_of_nil|]; intros Hin; by apply (chain_nonzero _ _ _ Hch Hin)).
  destruct (last l0) as [prev|] eqn:Elast; cbn [from_option id].
  - destruct Hl0 as [->|Hch]; [done|]. pose proof (last_Some_elem_of _ _ Elast) as Hpin.
    pose proof (chain_bounds _ _ _ Hch) as Hb. rewrite Forall_forall in Hb.
    specialize (Hb prev Hpin) as Hpb. cbn in Hpb.
    assert (Hpc : prev ≠ c) by (by intros ->). rewrite (proj2 (Z.eqb_neq prev 0)) by lia. cbn [negb].
    destruct (write_fat_entry_ok g Hg prev c d1 ltac:(lia)) as (d2 & Hw2 & [Hu2 Hs2]).
    destruct (write_fat_entry_ok g Hg c LAST d2 ltac:(lia)) as (d3 & Hw3 & [Hu3 Hs3]).
    change (Z.land LAST LAST) with LAST in Hu3. rewrite land_last, Z.mod_small in Hu2 by lia.
    assert (Hf3 : ∀ x, 0 ≤ x < entries g → fat_val g d3 x = if x =? c then LAST else if x =? prev then c else fat_val g d x).
    { intros x Hx. rewrite Hu3, Hu2, Hu1 by done. destruct (x =? c) eqn:E; [done|done]. }
    exists d1, d2, d3. split_and!; try done; try lia.
    + eapply chain_snoc; [exact Hch|done|done|done|lia| | |].
      * rewrite Hf3, (proj2 (Z.eqb_neq prev c)), Z.eqb_refl by (done || lia). done.
      * rewrite Hf3, Z.eqb_refl by lia. done.
      * intros x Hx Hne. specialize (Hb x Hx). cbn in Hb. rewrite Hf3 by lia.
        rewrite (proj2 (Z.eqb_neq x c)), (proj2 (Z.eqb_neq x prev)) by (done || by intros ->). done.
    + apply NoDup_app. split_and!; [done|set_solver|apply NoDup_singleton].
    + rewrite <- HF1. apply filter_ext_in. intros x Hx%elem_of_seqZ. rewrite Hf3, Hu1 by lia.
      destruct (x =? c); [done|]. destruct (Z.eqb_spec x prev) as [->|]; [|done].
      pose proof (chain_nonzero _ _ _ Hch Hpin). split; [lia|done].
    + intros x Hx Hni. rewrite Hf3 by done. rewrite (proj2 (Z.eqb_neq x c)), (proj2 (Z.eqb_neq x prev)) by set_solver. done.
    + intros l Hl. by rewrite Hs3, Hs2, Hs1.
  - apply last_None in Elast as ->. change (negb (0 =? 0)) with false. cbn iota.
    destruct (write_fat_entry_ok g Hg c LAST d1 ltac:(lia)) as (d3 & Hw3 & [Hu3 Hs3]).
    change (Z.land LAST LAST) with LAST in Hu3.
    assert (Hf3 : ∀ x, 0 ≤ x < entries g → fat_val g d3 x = if x =? c then LAST else fat_val g d x).
    { intros x Hx. rewrite Hu3, Hu1 by done. by destruct (x =? c). }
    exists d1, d1, d3. split_and!; try done; try lia.
    + cbn. rewrite Hf3, Z.eqb_refl by lia. done.
    + apply NoDup_singleton.
    + rewrite <- HF1. apply filter_ext_in. intros x Hx%elem_of_seqZ. by rewrite Hf3, Hu1 by lia.
    + intros x Hx Hni. rewrite Hf3 by done. rewrite (proj2 (Z.eqb_neq x c)) by set_solver. done.
    + intros l Hl. by rewrite Hs3, Hs1.
Qed.

(** ** The whole file *)

(** The number of clusters [n] bytes take. *)
Definition clusters_for (n : nat) : nat := ((n + cluster_size - 1) / cluster_size)%nat.

Lemma cluster_size_pos : (0 < cluster_size)%nat.
Proof. pose proof (v_spc _ Hg). unfold cluster_size. lia. Qed.

Lemma clusters_for_0 : clusters_for 0 = 0%nat.
Proof. pose proof cluster_size_pos. unfold clusters_for. apply Nat.div_small. lia. Qed.

Lemma clusters_for_S n : (0 < n)%nat → clusters_for n = S (clusters_for (n - cluster_size)).
Proof.
  pose proof cluster_size_pos. intros Hn. unfold clusters_for. destruct (decide (n ≤ cluster_size)%nat).
  - replace (n - cluster_size)%nat with 0%nat by lia. rewrite (Nat.div_small (0 + _ - 1)) by lia.
    replace (n + cluster_size - 1)%nat with (n - 1 + 1 * cluster_size)%nat by lia.
    rewrite Nat.div_add, Nat.div_small by lia. done.
  - replace (n + cluster_size - 1)%nat with (n - cluster_size + cluster_size - 1 + 1 * cluster_size)%nat by lia.
    rewrite Nat.div_add by lia. lia.
Qed.

Lemma chain_lbas_cons c l : chain_lbas g (c :: l) = cluster_lbas g c ++ chain_lbas g l.
Proof. done. Qed.

Lemma elem_of_chain_lbas x l : x ∈ chain_lbas g l ↔ ∃ c, c ∈ l ∧ x ∈ cluster_lbas g c.
Proof. unfold chain_lbas. rewrite list_elem_of_bind. naive_solver. Qed.

(** Different clusters share no sector. *)
Lemma cluster_lbas_disjoint c c' x : x ∈ cluster_lbas g c → x ∈ cluster_lbas g c' → c = c'.
Proof.
  intros (s & Hs & ->)%elem_of_cluster_lbas (s' & Hs' & E)%elem_of_cluster_lbas; [|done..].
  by apply data_lba_inj in E as [-> _].
Qed.

(** What writing [p] on the clusters [l1] behind [l0] achieves. *)
Record written (l0 l1 p : list Z) (d d' : D) : Prop := {
  wr_chain : l0 ++ l1 ≠ [] → chain g (fat_val g d') (l0 ++ l1);
  wr_nodup : NoDup (l0 ++ l1);
  wr_data : take (length p) (contents d' (chain_lbas g l1)) = p;
  wr_table x : 0 ≤ x < entries g → x ∉ l0 ++ l1 → fat_val g d' x = fat_val g d x;
  wr_frame l : ¬ in_table g l → l ∉ chain_lbas g l1 → sector d' l = sector d l
}.

(** The data of the first cluster and of the rest. *)
Lemma take_contents (p A B : list Z) : length A = cluster_size → take (length p) A = take cluster_size p →
  take (length p - cluster_size) B = drop cluster_size p → take (length p) (A ++ B) = p.
Proof.
  intros HA Ht Hd. destruct (decide (length p ≤ cluster_size)%nat).
  - rewrite take_app_le, Ht by lia. by apply take_ge.
  - rewrite take_app_ge, HA by lia. rewrite Hd. rewrite take_ge in Ht by lia. by rewrite Ht, take_drop.
Qed.

Lemma write_runs n : ∀ l0 p d, n = clusters_for (length p) → (l0 = [] ∨ chain g (fat_val g d) l0) → NoDup l0 →
  Forall is_byte p → (n ≤ length (free_list g (fat_val g d)))%nat →
  let l1 := take n (free_list g (fat_val g d)) in
  ∃ d', runs (write_step g) n (default 0 (head l0), default 0 (last l0), p, zlen p, d)
             (Some (default 0 (head (l0 ++ l1))), d') ∧ written l0 l1 p d d'.
Proof.
  induction n as [|n IH]; intros l0 p d Hn Hl0 Hnd Hb Hlen; cbn zeta.
  - destruct p as [|x p]; [|cbn [length] in Hn; rewrite clusters_for_S in Hn by lia; lia].
    exists d. cbn [take]. rewrite app_nil_r. split.
    + apply runs_exit. done.
    + split; rewrite ?app_nil_r; try done. intros Hne. by destruct Hl0.
  - assert (Hp : p ≠ []) by (intros ->; cbn in Hn; by rewrite clusters_for_0 in Hn).
    assert (0 < length p)%nat by (destruct p; [done|cbn; lia]).
    rewrite clusters_for_S in Hn by done. injection Hn as Hn.
    destruct (free_list g (fat_val g d)) as [|c r] eqn:HF; [cbn in Hlen; lia|]. cbn [take].
    destruct (link_ok l0 c r d Hl0 Hnd HF) as (d1 & d2 & d3 & Ha & Hw2 & Hw3 & Hch & Hnd' & Hc & HF3 & Htab & Hfr).
    destruct (fill_cluster_ok c p d3 Hc Hp Hb) as (d4 & Hfill & Hcont & Hfr4).
    assert (Htab4 : ∀ x, 0 ≤ x < entries g → fat_val g d4 x = fat_val g d3 x).
    { intros x Hx. apply fat_val_table; [|done]. intros l Hl. apply Hfr4. intros Hin. by apply (cluster_lbas_not_table c l); [lia|..]. }
    assert (HF4 : free_list g (fat_val g d4) = r).
    { rewrite <- HF3. apply filter_ext_in. intros x Hx%elem_of_seqZ. by rewrite Htab4 by lia. }
    destruct (IH (l0 ++ [c]) (drop cluster_size p) d4) as (d5 & Hrun & Hwr).
    + by rewrite length_drop.
    + right. eapply fat_chain_ext; [|exact Hch]. intros x Hx. pose proof (chain_bounds _ _ _ Hch) as Hbd.
      rewrite Forall_forall in Hbd. specialize (Hbd x Hx). cbn in Hbd. apply Htab4. lia.
    + done.
    + by apply Forall_drop.
    + rewrite HF4. cbn in Hlen. lia.
    + rewrite HF4 in Hrun, Hwr. rewrite <- app_assoc in Hrun. cbn [app] in Hrun. exists d5. split.
      * apply runs_next with (default 0 (head (l0 ++ [c])), c, drop cluster_size p, zlen (drop cluster_size p), d4).
        -- unfold write_step. rewrite (proj2 (Z.leb_gt (zlen p) 0)) by (unfold zlen; lia). rewrite Ha. cbn [rbind].
           rewrite (proj2 (Z.eqb_neq c 0)) by lia. rewrite Hw2. cbn [rbind]. change (negb (0 =? 0)) with false. cbn iota.
           rewrite Hw3. cbn [rbind]. change (negb (0 =? 0)) with false. cbn iota. rewrite Hfill. cbn [rbind].
           do 6 f_equal. destruct l0 as [|x l0]; [done|]. cbn. destruct Hl0 as [|[Hx _]%chain_cons]; [done|].
           by rewrite (proj2 (Z.eqb_neq x 0)) by lia.
        -- rewrite last_snoc in Hrun. exact Hrun.
      * destruct Hwr as [Wc Wn Wd Wt Wf]. rewrite <- app_assoc in Wc, Wn. cbn [app] in Wc, Wn.
        assert (Hcr : c ∉ take n r).
        { apply NoDup_app in Wn as (_ & _ & Wn). by apply NoDup_cons in Wn as [? _]. }
        split; [done|done| | |].
        -- rewrite chain_lbas_cons, contents_app. apply take_contents; [apply length_cluster| |by rewrite length_drop in Wd].
           rewrite <- Hcont. f_equal. apply contents_ext. intros l Hl. apply Wf.
           ++ by apply (cluster_lbas_not_table c); [lia|].
           ++ intros (c' & Hc' & Hl')%elem_of_chain_lbas. by rewrite (cluster_lbas_disjoint c c' l Hl Hl') in Hcr.
        -- intros x Hx Hni. rewrite Wt, Htab4, Htab by (done || set_solver). done.
        -- intros l Hl Hni. rewrite chain_lbas_cons in Hni. apply not_elem_of_app in Hni as [Hni1 Hni2].
           by rewrite Wf, Hfr4, Hfr.
Qed.

(** Writing a non-empty file takes the first free clusters. *)
Lemma write_clusters_ok p d : p ≠ [] → Forall is_byte p →
  (clusters_for (length p) ≤ length (free_list g (fat_val g d)))%nat →
  let l := take (clusters_for (length p)) (free_list g (fat_val g d)) in
  ∃ c r d', l = c :: r ∧ while (write_step g) (0, 0, p, zlen p, d) = Ret (Some c, d') ∧ written [] l p d d'.
Proof.
  intros Hp Hb Hlen. cbn zeta. destruct (write_runs _ [] p d eq_refl) as (d' & Hr & Hw);
    [by left|by apply NoDup_nil_2|done|done|]. cbn [app head last from_option id] in *.
  assert (0 < length p)%nat as Hpos by (destruct p; [done|cbn; lia]). rewrite clusters_for_S in * by done.
  destruct (free_list g (fat_val g d)) as [|c r] eqn:HF; [cbn in Hlen; lia|]. cbn [take head from_option id] in *.
  exists c, (take (clusters_for (length p - cluster_size)) r), d'. split_and!; [done| |done].
  apply (while_runs _ _ _ _ Hr). pose proof (wr_chain _ _ _ _ _ Hw ltac:(done)) as Hch. cbn [app] in Hch.
  pose proof (chain_length g _ _ Hch (wr_nodup _ _ _ _ _ Hw)) as Hl. pose proof (v_entries _ Hg).
  unfold BAD, zlen in *. cbn [length] in *. rewrite length_take in Hl. lia.
Qed.
End file.
