(* ===== verification/FatSearch.v ===== *)
(** * Directory searches

    A search of a directory is the visitor run over its entry positions in order.  [dir_ok]
    describes a directory with room for a name it does not hold. *)
From S2P Require Import Prelude Loop CString BlockDev Fat FatTable FatChain FatDir FatName FatFile.

(** ** Entries *)

Definition used (e : list Z) : Prop := ∃ c, head e = Some c ∧ c ≠ 0 ∧ c ≠ 0xE5.
Definition free_entry (e : list Z) : Prop := head e = Some 0 ∨ head e = Some 0xE5.
Definition attr_of (e : list Z) : Z := default 0 (e !! 11%nat).
Definition name_of (cut : list Z → list Z) (e : list Z) : list Z := match short_name cut e 0 with Ret n => n | _ => [] end.

(** The entry is part of a long name, or its name has no inner space and does not begin with
    [name]. *)
Definition no_match (name e : list Z) : Prop :=
  Z.land (attr_of e) 15 = 15 ∨
  name_of cut_spaces e = name_of trim_right e ∧ ¬ upper name `prefix_of` name_of trim_right e.

Lemma short_name_of cut e : length e = 32%nat → short_name cut e 0 = Ret (name_of cut e).
Proof.
  intros He. assert (zlen e = 32) by (unfold zlen; lia).
  assert (∃ n, short_name cut e 0 = Ret n) as [n Hn]; [|unfold name_of; by rewrite Hn].
  unfold short_name, base_name. rewrite !bytes_at_slice by lia. cbn [rbind].
  assert (is_Some (e !! 8%nat)) as [c Hc] by (apply lookup_lt_is_Some; lia).
  rewrite (proj2 (bget_Ret e (0 + 8) c)) by (split; [lia|done]). cbn [rbind]. destruct (c =? 32); eauto.
Qed.

Lemma bget_attr e : length e = 32%nat → bget e 11 = Ret (attr_of e).
Proof.
  intros He. apply bget_Ret. split; [lia|]. unfold attr_of. change (Z.to_nat 11) with 11%nat.
  destruct (e !! 11%nat) eqn:E; [done|]. apply lookup_ge_None in E. lia.
Qed.

Lemma bget_head e c : head e = Some c → bget e 0 = Ret c.
Proof. intros Hc. apply bget_Ret. split; [lia|]. by destruct e. Qed.

Section visits.
Context (b : list Z) (off : Z) (Ho : 0 ≤ off) (Hb : off + 32 ≤ zlen b).
Notation e := (slice b (Z.to_nat off) 32).

Lemma length_entry : length e = 32%nat.
Proof. apply length_slice. unfold zlen in *. lia. Qed.

Lemma visit_free_used lba u : used e → visit_free lba b off u = Ret (inl tt).
Proof.
  intros (c & Hc & H0 & H5). unfold visit_free. rewrite (bget_entry0 b off Ho Hb), (bget_head _ _ Hc). cbn [rbind].
  by rewrite (proj2 (Z.eqb_neq c 0)), (proj2 (Z.eqb_neq c _)).
Qed.
Lemma visit_free_free lba u : free_entry e → visit_free lba b off u = Ret (inr (Some (lba, b, off))).
Proof.
  intros Hf. unfold visit_free. rewrite (bget_entry0 b off Ho Hb). by destruct Hf as [->%bget_head | ->%bget_head].
Qed.

(** An unused entry is passed over or ends the search. *)
Lemma visit_used_unused {R} (f : Z → res (unit + option R)) : ¬ used e →
  visit_used f b off = Ret (inl tt) ∨ visit_used f b off = Ret (inr None).
Proof.
  intros Hu. unfold visit_used. rewrite (bget_entry0 b off Ho Hb).
  destruct (head e) as [c|] eqn:Eh.
  2: { apply head_None in Eh. pose proof length_entry as Hl. rewrite Eh in Hl. done. }
  rewrite (bget_head _ _ Eh). cbn [rbind]. destruct (Z.eqb_spec c 0) as [->|]; [by right|].
  destruct (Z.eqb_spec c 0xE5) as [->|]; [by left|]. destruct Hu. by exists c.
Qed.
Lemma visit_used_used {R} (f : Z → res (unit + option R)) : used e → visit_used f b off = f (attr_of e).
Proof.
  intros (c & Hc & H0 & H5). unfold visit_used. rewrite (bget_entry0 b off Ho Hb), (bget_head _ _ Hc). cbn [rbind].
  rewrite (proj2 (Z.eqb_neq c 0)), (proj2 (Z.eqb_neq c _)) by done.
  rewrite (bget_entry b off 11) by lia. by rewrite bget_attr by apply length_entry.
Qed.

Lemma visit_remove_skip name lba u : used e → no_match name e → visit_remove (Some name) lba b off u = Ret (inl tt).
Proof.
  intros Hu Hn. unfold visit_remove. rewrite visit_used_used by done.
  destruct (Z.eqb_spec (Z.land (attr_of e) 15) 15) as [|H15]; [done|]. destruct Hn as [|[_ Hp]]; [done|].
  rewrite (short_name_entry b off Ho Hb), short_name_of by apply length_entry. cbn [rbind of_opt].
  destruct (prefix_match name (name_of trim_right e)) eqn:E; [|done]. by apply prefix_match_spec in E.
Qed.

Lemma visit_file_skip name lba u : used e → no_match name e → visit_file (upper name) lba b off u = Ret (inl tt).
Proof.
  intros Hu Hn. unfold visit_file. rewrite visit_used_used by done.
  destruct (negb (Z.land (attr_of e) 8 =? 0)); [done|].
  destruct (Z.eqb_spec (Z.land (attr_of e) 15) 15) as [|H15]; [done|]. destruct Hn as [|[Hcut Hp]]; [done|].
  rewrite (short_name_entry b off Ho Hb), short_name_of by apply length_entry. cbn [rbind]. rewrite Hcut.
  rewrite bool_decide_false; [done|]. intros E. apply Hp. rewrite <- E.
  case_bool_decide; [done|apply before_dot_prefix].
Qed.
End visits.

(** A search in which every position is passed over or ends it finds nothing. *)
Lemma for_loop_none {I R} (l : list I) (body : I → unit → res (unit + option R)) :
  (∀ i, i ∈ l → body i tt = Ret (inl tt) ∨ body i tt = Ret (inr None)) →
  for_loop l body tt = Ret (inl tt) ∨ for_loop l body tt = Ret (inr None).
Proof.
  induction l as [|i l IH]; intros Hl; [by left|]. cbn [for_loop].
  destruct (Hl i ltac:(left)) as [-> | ->]; cbn; [|by right]. apply IH. intros j Hj. apply Hl. by right.
Qed.

Section search.
Context {D : Type} `{BlockDevSpec D} `{!ReliableDev D} (g : Fat) (Hg : vol_ok g).
Implicit Types d : D.

Definition slot_entry (d : D) (p : Z * Z) : list Z := slice (sector d p.1) (Z.to_nat p.2) 32.

Lemma elem_of_dir_slots l lba off : (lba, off) ∈ dir_slots g l ↔ lba ∈ chain_lbas g l ∧ off ∈ range 0 512 32.
Proof.
  unfold dir_slots. rewrite list_elem_of_bind. split.
  - intros (x & (y & [= -> ->] & Hy)%list_elem_of_fmap & Hx). done.
  - intros [Hl Ho]. exists lba. split; [|done]. apply list_elem_of_fmap. eauto.
Qed.

Lemma slot_off_bound off : off ∈ range 0 512 32 → 0 ≤ off ≤ 480.
Proof.
  intros [Ho Hm]%elem_of_range; [|lia]. rewrite Z.sub_0_r in Hm. apply Z.mod_divide in Hm as [q ->]; [|lia]. lia.
Qed.

Lemma dir_search_ok {R} (visit : Z → list Z → Z → unit → res (unit + option R)) c l d x :
  chain g (fat_val g d) (c :: l) → NoDup (c :: l) →
  for_loop (dir_slots g (c :: l)) (λ p, visit p.1 (sector d p.1) p.2) tt = Ret x →
  ∃ d', same d d' ∧ dir_search g visit c d = Ret (match x with inl _ => None | inr r => r end, d').
Proof.
  intros Hch Hnd Hx. unfold dir_search.
  apply (chain_walk_ok g Hg false (λ _, None) (λ _, None) (each_entry g visit) c l tt d x); [done|done|].
  rewrite <- Hx. unfold visit_lbas, dir_slots, each_entry. rewrite (v_bps _ Hg).
  rewrite <- (for_loop_nested (λ _, range 0 512 32) (chain_lbas g (c :: l)) (λ lba off, visit lba (sector d lba) off)).
  done.
Qed.

(** A directory with a free position, and without the name. *)
Record dir_ok (d : D) (name lr : list Z) (pre : list (Z * Z)) (lba off : Z) (post : list (Z * Z)) : Prop := {
  do_chain : chain g (fat_val g d) lr;
  do_nodup : NoDup lr;
  do_slots : dir_slots g lr = pre ++ (lba, off) :: post;
  do_pre : Forall (λ p, used (slot_entry d p)) pre;
  do_free : free_entry (slot_entry d (lba, off));
  do_absent : Forall (λ p, used (slot_entry d p) → no_match name (slot_entry d p)) (dir_slots g lr)
}.

(** It depends on the directory's table entries and sectors only. *)
Lemma dir_ok_ext d d' name lr pre lba off post :
  (∀ c, c ∈ lr → fat_val g d' c = fat_val g d c) → (∀ l, l ∈ chain_lbas g lr → sector d' l = sector d l) →
  dir_ok d name lr pre lba off post → dir_ok d' name lr pre lba off post.
Proof.
  intros Hf Hs [Hch Hnd Hsl Hpre Hfree Habs].
  assert (He : ∀ p, p ∈ dir_slots g lr → slot_entry d' p = slot_entry d p).
  { intros [l o] [Hl _]%elem_of_dir_slots. unfold slot_entry. cbn. by rewrite Hs. }
  split; [by eapply fat_chain_ext|done|done| | |].
  - rewrite Forall_forall in *. intros p Hp. rewrite He by (rewrite Hsl; set_solver). auto.
  - rewrite He by (rewrite Hsl; set_solver). done.
  - rewrite Forall_forall in *. intros p Hp. rewrite He by done. auto.
Qed.

Section dir.
Context (d : D) (name : list Z) (root : Z) (lr : list Z) (pre post : list (Z * Z)) (lba off : Z).
Context (Hd : dir_ok d name (root :: lr) pre lba off post).

Lemma slot_bounds p : p ∈ dir_slots g (root :: lr) → 0 ≤ p.2 ∧ p.2 + 32 ≤ zlen (sector d p.1).
Proof.
  destruct p as [l o]. intros [_ Ho]%elem_of_dir_slots. apply slot_off_bound in Ho. rewrite zlen_sector. cbn. lia.
Qed.

Lemma pre_in p : p ∈ pre → p ∈ dir_slots g (root :: lr).
Proof. intros Hp. rewrite (do_slots _ _ _ _ _ _ _ Hd). set_solver. Qed.
Lemma slot_in : (lba, off) ∈ dir_slots g (root :: lr).
Proof. rewrite (do_slots _ _ _ _ _ _ _ Hd). set_solver. Qed.

(** The free position is found. *)
Lemma search_free : ∃ d', same d d' ∧ dir_search g visit_free root d = Ret (Some (lba, sector d lba, off), d').
Proof.
  destruct Hd as [Hch Hnd Hsl Hpre Hfree _].
  apply (dir_search_ok visit_free root lr d (inr (Some (lba, sector d lba, off)))); [done|done|].
  rewrite Hsl. apply for_loop_exit.
  - intros p Hp. rewrite Forall_forall in Hpre. destruct (slot_bounds p) as [H1 H2]; [by apply pre_in|].
    apply visit_free_used; [done|done|]. by apply Hpre.
  - destruct (slot_bounds (lba, off) slot_in) as [H1 H2]. apply (visit_free_free _ _ H1 H2). done.
Qed.

(** The removal finds no entry. *)
Lemma search_remove : ∃ d', same d d' ∧ dir_search g (visit_remove (Some name)) root d = Ret (None, d').
Proof.
  destruct Hd as [Hch Hnd Hsl _ _ Habs]. rewrite Forall_forall in Habs.
  destruct (for_loop_none (dir_slots g (root :: lr)) (λ p, visit_remove (Some name) p.1 (sector d p.1) p.2)) as [Hf|Hf].
  - intros p Hp. destruct (slot_bounds p Hp) as [H1 H2]. specialize (Habs p Hp).
    destruct (head (slot_entry d p)) as [c|] eqn:Eh.
    2: { apply head_None in Eh. pose proof (length_entry _ _ H1 H2) as Hl. unfold slot_entry in Eh. by rewrite Eh in Hl. }
    destruct (decide (c = 0 ∨ c = 0xE5)) as [Hc|Hc].
    + apply (visit_used_unused _ _ H1 H2). intros (c' & Hc' & Hz & H5). unfold slot_entry in Eh. rewrite Eh in Hc'. naive_solver.
    + left. assert (used (slot_entry d p)) as Hu by (exists c; naive_solver). apply (visit_remove_skip _ _ H1 H2); auto.
  - by apply (dir_search_ok _ root lr d _ Hch Hnd Hf).
  - by apply (dir_search_ok _ root lr d _ Hch Hnd Hf).
Qed.
End dir.
End search.
