(* ===== verification/FatMount.v ===== *)
(** * FAT32 mounting, reading, listing and formatting (kernel/filesystem/fat32.cpp)

    The operations that use the heap, the mount table or the boot modules.  [FatSys] joins
    the driver's globals with the VFS, whose HanaFS record holds the heap and the device
    both file systems share.  A boot module is its path and its contents. *)
From S2P Require Import Prelude Loop CString HeapSpec BlockDev HanaFs Vfs LibC Fat FatTable FatDir.

Record FatSys (H D : Type) := Sys { vol : Fat; vfs : Vfs H D }.
Arguments Sys {H D} _ _.
Arguments vol {H D} _.
Arguments vfs {H D} _.

Notation BootModule := (option (list Z) * list Z)%type.

Section reading.
Context {D : Type} `{BlockDev D}.

(** [memcpy(buf + total, sector, copy_len)]; the bytes stored so far are the accumulator. *)
Definition visit_data (g : Fat) (len : Z) (_ : Z) (b acc : list Z) : res (list Z + (Z * list Z)) :=
  let remaining := len - zlen acc in
  let copy_len := if remaining <? bytes_per_sector g then remaining else bytes_per_sector g in
  let! part := bytes_at b 0 copy_len in
  let acc := acc ++ part in
  if len <=? zlen acc then Ret (inr (zlen acc, acc)) else Ret (inl acc).

(** The path is a cluster number in decimal; result and bytes stored. *)
Definition fat32_read_file (g : Fat) (path : list Z) (len : Z) (d : D) : res (Z * list Z * D) :=
  if negb (fat32_ready g) || (len =? 0) then Ret (-1, [], d)
  else
    let! v := atoi path in
    let cluster := u32 v in
    if cluster <? 2 then Ret (-1, [], d)
    else if (bytes_per_sector g =? 0) || (sectors_per_cluster g =? 0) then Ret (-1, [], d)
    else if 4096 <? bytes_per_sector g then Ret (-1, [], d)
    else chain_walk g true (λ acc, (-1, acc)) (λ acc, (zlen acc, acc)) (visit_data g len) cluster [] d.

(** The decimal digits of the cluster number. *)
Definition cluster_text (c : Z) : list Z :=
  reverse (if c =? 0 then [48] else digits 32 10 c dec_char).
End reading.

Section ops.
Context {H D : Type} `{Allocator H} `{BlockDev D}.
Notation St := (HanaFS H D).
Notation Y := (FatSys H D).

(** An operation on the device, as an operation on the shared state. *)
Definition on_dev {A} (f : D → res (A * D)) (s : St) : res (A * St) :=
  let! (a, d) := f (disk s) in Ret (a, set_disk s d).

(** ** Reading a file by path *)

(** The last component: allocate, read, or release. *)
Definition read_found (g : Fat) (found_cluster found_size : Z) (s : St) : res (option file_buf * St) :=
  let size := if found_size =? 0 then 1 else found_size in
  let '(buf, s) := HanaFs.kmalloc size s in
  if buf =? 0 then Ret (None, s)
  else
    let! (r, data, s) := on_dev (fat32_read_file g (cluster_text found_cluster) size) s in
    if r <? 0 then Ret (None, HanaFs.kfree buf s) else Ret (Some (buf, data, r), s).

Fixpoint file_walk (n : nat) (g : Fat) (p : list Z) (cur : Z) (s : St) : res (option file_buf * St) :=
  match n with
  | O => Diverges
  | S n =>
      let '(comp, p) := next_comp p in
      let! (r, s) := on_dev (dir_search g (visit_file (fat_toupper <$> comp)) cur) s in
      match r with
      | None => Ret (None, s)
      | Some (is_dir, found_cluster, found_size) =>
          match p with
          | [] => if is_dir : bool then Ret (None, s) else read_found g found_cluster found_size s
          | _ => if is_dir : bool then file_walk n g p found_cluster s else Ret (None, s)
          end
      end
  end.

Definition fat32_get_file_alloc (g : Fat) (path : list Z) (s : St) : res (option file_buf * St) :=
  if negb (fat32_ready g) then Ret (None, s)
  else
    match skip_slash path with
    | [] => Ret (None, s)
    | p => file_walk (length p) g p (root_dir_cluster g) s
    end.

(** ** Mounting *)

(** The boot sector becomes the driver's geometry, before it is checked. *)
Definition set_geometry (g : Fat) (b : BPB_FAT32) : Fat :=
  FatState (fat32_ready g) b (RsvdSecCnt b) (u32 (RsvdSecCnt b + NumFATs b * FATSz32 b))
    (SecPerClus b) (BytsPerSec b) (RootClus b) (mounted_drive g) (mounted_module_name g)
    (module_image g) (module_image_size g).
Definition geometry_ok (g : Fat) : bool :=
  negb ((bytes_per_sector g =? 0) || (4096 <? bytes_per_sector g))
  && negb ((sectors_per_cluster g =? 0) || (128 <? sectors_per_cluster g)).
Definition set_mounted (g : Fat) (drive : Z) (name : list Z) (img : option (list Z)) (size : Z) : Fat :=
  FatState true (bpb g) (fat_begin_lba g) (cluster_begin_lba g) (sectors_per_cluster g)
    (bytes_per_sector g) (root_dir_cluster g) drive name img size.
Definition set_name (g : Fat) (name : list Z) : Fat :=
  set_mounted g (mounted_drive g) name (module_image g) (module_image_size g).

Definition fat32_init_from_iso_root (y : Y) : Z * Y :=
  let g := vol y in
  (0, Sys (set_mounted g (mounted_drive g) (mounted_module_name g) (module_image g) (module_image_size g)) (vfs y)).

Definition fat32_init_from_ata (y : Y) : res (Z * Y) :=
  let g := vol y in
  let! (rc, b, d) := fat32_read_sector g 512 0 (disk (fs (vfs y))) in
  let v := set_fs (vfs y) (set_disk (fs (vfs y)) d) in
  if negb (rc =? 0) then Ret (-1, Sys g v)
  else
    let! bp := read_bpb b in
    let g := set_geometry g bp in
    if negb (geometry_ok g) then Ret (-1, Sys g v)
    else Ret (0, Sys (set_mounted g 0 (mounted_module_name g) (module_image g) (module_image_size g)) v).

Definition fat32_init_from_memory (data : option (list Z)) (size : Z) (y : Y) : res (Z * Y) :=
  match data with
  | None => Ret (-1, y)
  | Some img =>
      if size <? 512 then Ret (-1, y)
      else
        let! b := bytes_at img 0 512 in
        let! bp := read_bpb b in
        let g := set_geometry (vol y) bp in
        if negb (geometry_ok g) then Ret (-1, Sys g (vfs y))
        else
          let g := set_mounted g 1 (str "<memory>") (Some img) size in
          Ret (0, Sys g (vfs_register_mount (Some (str "fat32")) (Some (str "/core/")) (vfs y)))
  end.

Fixpoint fat32_init_from_module (mods : list BootModule) (module_name : list Z) (y : Y) : res (Z * Y) :=
  match mods with
  | [] => Ret (-1, y)
  | (None, _) :: mods => fat32_init_from_module mods module_name y
  | (Some path, data) :: mods =>
      if ends_with path module_name || (strcmp path module_name =? 0) then
        let! (rc, y) := fat32_init_from_memory (Some data) (zlen data) y in
        if rc =? 0 then Ret (0, y) else Ret (-1, y)
      else fat32_init_from_module mods module_name y
  end.

Definition has_sub (path : list Z) (needle : string) : bool :=
  match strstr path (str needle) with Some _ => true | None => false end.
Definition is_image (path : list Z) : bool := ends_with path (str ".img") || ends_with path (str ".bin").

(** [snprintf(mounted_module_name, 160, "%s", path)] *)
Definition record_name (path : list Z) (y : Y) : res Y :=
  let! (_, t) := vsnprintf 160 (str "%s") [AStr path] in Ret (Sys (set_name (vol y) t) (vfs y)).

(** Drive 1: the first module that mounts, of those that look like an image. *)
Fixpoint mount_drive1 (mods : list BootModule) (y : Y) : res Y :=
  match mods with
  | [] => Ret y
  | (path, data) :: mods =>
      let named := match path with Some p => is_image p || has_sub p "rootfs" | None => false end in
      if negb (named || (512 <=? zlen data)) then mount_drive1 mods y
      else
        let! (rc, y) := fat32_init_from_memory (Some data) (zlen data) y in
        if rc =? 0 then match path with Some p => record_name p y | None => Ret y end
        else mount_drive1 mods y
  end.

Fixpoint mount_modules (mods : list BootModule) (y : Y) : res (bool * Y) :=
  match mods with
  | [] => Ret (false, y)
  | (None, _) :: mods => mount_modules mods y
  | (Some path, data) :: mods =>
      if is_image path || has_sub path "rootfs" || has_sub path "ata_master" then
        let! (rc, y) := fat32_init_from_memory (Some data) (zlen data) y in
        if rc =? 0 then let! y := record_name path y in Ret (true, y) else mount_modules mods y
      else mount_modules mods y
  end.

Definition fat32_mount_all_letter_modules (mods : option (list BootModule)) (y : Y) : res Y :=
  if fat32_ready (vol y) then Ret y
  else
    let! (ok, y) := mount_modules (default [] mods) y in
    if ok : bool then Ret y else let! (_, y) := fat32_init_from_ata y in Ret y.

Fixpoint mount_fallback (mods : list BootModule) (y : Y) : res (Z * Y) :=
  match mods with
  | [] => Ret (-1, y)
  | (path, data) :: mods =>
      let want := match path with
                  | Some p => has_sub p "rootfs" || has_sub p ".img" || has_sub p ".iso"
                  | None => true
                  end in
      if want then
        let! (rc, y) := fat32_init_from_memory (Some data) (zlen data) y in
        if rc =? 0 then Ret (0, y) else mount_fallback mods y
      else mount_fallback mods y
  end.
Definition fat32_mount_ata_master (mods : option (list BootModule)) (y : Y) : res (Z * Y) :=
  let! (rc, y) := fat32_init_from_ata y in
  if rc =? 0 then Ret (0, y) else mount_fallback (default [] mods) y.
Definition fat32_mount_ata_slave (y : Y) : res (Z * Y) := fat32_init_from_ata y.

(** ** Mount reports *)

(** [snprintf] into a buffer of [n] bytes. *)
Definition line (n : Z) (fmt : string) (args : list Arg) : res (list Z) :=
  let! (_, t) := vsnprintf n (str fmt) args in Ret t.

Definition mount_line (n : Z) (g : Fat) : res (list Z) :=
  if mounted_drive g =? 1 then
    match mounted_module_name g with
    | [] => line n "FAT32 mount: [1: rootfs]" []
    | name => line n "FAT32 mount: [1: module -> %s]" [AStr name]
    end
  else if mounted_drive g =? 0 then line n "FAT32 mount: [0: ATA master]" []
  else line n "FAT32 mount: [no mount]" [].

Fixpoint module_lines (i : Z) (mods : list BootModule) : res (list (list Z)) :=
  match mods with
  | [] => Ret []
  | (path, data) :: mods =>
      let! l := match path with
                | Some p => line 192 "module[%u]: %s (%u bytes)" [AInt i; AStr p; AInt (zlen data)]
                | None => line 192 "module[%u]: <unnamed> (%u bytes)" [AInt i; AInt (zlen data)]
                end in
      let! ls := module_lines (i + 1) mods in Ret (l :: ls)
  end.
Definition fat32_list_mounts (mods : option (list BootModule)) (g : Fat) : res (list (list Z)) :=
  let! l := mount_line 64 g in let! ls := module_lines 0 (default [] mods) in Ret (l :: ls).
Definition fat32_get_summary (g : Fat) : res (list (list Z)) := let! l := mount_line 128 g in Ret [l].

(** ** Listing *)

Fixpoint list_walk (n : nat) (g : Fat) (p : list Z) (cluster : Z) (d : D) : res (option Z * D) :=
  match p with
  | [] => Ret (Some cluster, d)
  | _ =>
      match n with
      | O => Diverges
      | S n =>
          let '(comp, p) := next_comp p in
          let! (r, d) := dir_search g (visit_list_sub (fat_toupper <$> comp)) cluster d in
          match r with
          | None => Ret (None, d)
          | Some c => list_walk n g p c d
          end
      end
  end.

Definition drive_prefix (p : list Z) : bool := match p with _ :: c :: _ => c =? 58 | _ => false end.

(** Result, the names handed to the callback, and the state. *)
Definition fat32_list_dir (mods : option (list BootModule)) (path : option (list Z)) (y : Y)
  : res (Z * list (list Z) * Y) :=
  if negb (fat32_ready (vol y)) then Ret (-1, [], y)
  else
    let p := default [] path in
    let requested := match p with
                     | c :: _ => if drive_prefix p && (48 <=? c) && (c <=? 57) then c - 48
                                 else mounted_drive (vol y)
                     | [] => mounted_drive (vol y)
                     end in
    let! y :=
      if requested =? mounted_drive (vol y) then Ret y
      else if requested =? 0 then let! (_, y) := fat32_init_from_ata y in Ret y
      else if requested =? 1 then mount_drive1 (default [] mods) y
      else Ret y in
    let g := vol y in
    let p := skip_slash (if drive_prefix p then drop 2 p else p) in
    let! (r, s) := on_dev (list_walk (length p) g p (root_dir_cluster g)) (fs (vfs y)) in
    let y := Sys g (set_fs (vfs y) s) in
    match r with
    | None => Ret (-1, [], y)
    | Some cluster =>
        if cluster <? 2 then Ret (-1, [], y)
        else if (bytes_per_sector g =? 0) || (4096 <? bytes_per_sector g) then Ret (-1, [], y)
        else
          let! (rc, names, s) :=
            on_dev (chain_walk g true (λ names, (-1, names)) (λ names, (0, names)) (each_entry g visit_names) cluster []) s in
          Ret (rc, names, Sys g (set_fs (vfs y) s))
    end.
End ops.

(** * Formatting a FAT32 volume (kernel/filesystem/fat32.cpp, fat32_format_ata_impl)

    The layout computed from the device's size and the sectors written, in order.  The
    sector count is what [ata_get_sector_count] returned. *)


Definition FMT_RSVD : Z := 32.
Definition FMT_NUMFATS : Z := 2.

(** [for (iter = 0; iter < 32; ++iter)]: the table size, [None] when nothing is left. *)
Fixpoint fat_size_loop (n : nat) (TotSec32 FATSz : Z) : option Z :=
  match n with
  | O => Some FATSz
  | S n =>
      let data_sectors := u32 (TotSec32 - FMT_RSVD - FMT_NUMFATS * FATSz) in
      if i32 data_sectors <=? 0 then None
      else
        let clusters := data_sectors in
        let needed := u32 (clusters * 4 + 512 - 1) `div` 512 in
        if needed =? FATSz then Some FATSz else fat_size_loop n TotSec32 needed
  end.

Definition zero_sector : list Z := replicate 512 0.

Definition le4_stores (i v : Z) : list (Z * Z) :=
  [(i, byte_of v 0); (i + 1, byte_of v 8); (i + 2, byte_of v 16); (i + 3, byte_of v 24)].

(** The OEM name loop copies seven characters. *)
Definition boot_stores (TotSec32 FATSz : Z) : list (Z * Z) :=
  [(0, 0xEB); (1, 0x58); (2, 0x90)] ++ seq_stores 3 (take 7 (str "HanaCore"))
  ++ [(11, byte_of 512 0); (12, byte_of 512 8); (13, 1); (14, byte_of FMT_RSVD 0); (15, byte_of FMT_RSVD 8);
      (16, FMT_NUMFATS); (21, 0xF8)]
  ++ le4_stores 32 TotSec32 ++ le4_stores 36 FATSz
  ++ [(44, 2); (48, 1); (50, 6); (64, 0x80); (66, 0x29); (67, 0x12); (68, 0x34); (69, 0x56); (70, 0x78)]
  ++ seq_stores 71 (str "NO NAME    ") ++ seq_stores 82 (str "FAT32   ")
  ++ [(510, 0x55); (511, 0xAA)].
Definition boot_sector (TotSec32 FATSz : Z) : list Z := poke zero_sector (boot_stores TotSec32 FATSz).

Definition fsinfo_sector : list Z :=
  poke zero_sector
    ([(0, 0x52); (1, 0x52); (2, 0x61); (3, 0x41); (484, 0x72); (485, 0x72); (486, 0x41); (487, 0x61)]
     ++ seq_stores 488 (replicate 8 0xFF) ++ [(508, 0x55); (509, 0xAA)]).

(** The first sector of each table: entries 0, 1 and 2. *)
Definition fat_sector0 : list Z :=
  poke zero_sector (seq_stores 0 (le_bytes 4 0x0FFFFFF8 ++ le_bytes 4 0xFFFFFFFF ++ le_bytes 4 0x0FFFFFFF)).

Section ops.
Context {D : Type} `{BlockDev D}.

(** A write whose failure ends the formatting. *)
Definition fmt_write (lba : Z) (b : list Z) (d : D) : res (D + (Z * D)) :=
  let '(rc, d) := ata_write_sector lba b d in
  if negb (rc =? 0) then Ret (inr (-1, d)) else Ret (inl d).

Definition fmt_fats (FATSz : Z) (d : D) : res (D + (Z * D)) :=
  for_loop (range 0 FMT_NUMFATS 1) (λ f,
    for_loop (range 0 FATSz 1) (λ si,
      fmt_write (u32 (FMT_RSVD + f * FATSz + si)) (if si =? 0 then fat_sector0 else zero_sector))) d.

Definition fat32_format_ata_impl (total_sectors : Z) (d : D) : res (Z * D) :=
  if total_sectors <=? 0 then Ret (-1, d)
  else
    let TotSec32 := u32 total_sectors in
    match fat_size_loop 32 TotSec32 1 with
    | None => Ret (-1, d)
    | Some FATSz =>
        let cluster_begin := u32 (FMT_RSVD + FMT_NUMFATS * FATSz) in
        let! x :=
          exit_bind (fmt_write 0 (boot_sector TotSec32 FATSz) d) (λ d,
          exit_bind (fmt_write 1 fsinfo_sector d) (λ d,
          exit_bind (for_loop (range 2 FMT_RSVD 1) (λ s, fmt_write s zero_sector) d) (λ d,
          exit_bind (fmt_fats FATSz d) (λ d,
            for_loop (range 0 1 1) (λ s, fmt_write (u32 (cluster_begin + s)) zero_sector) d)))) in
        match x with inl d => Ret (0, d) | inr r => Ret r end
    end.
Definition fat32_format_ata_master (total_sectors : Z) (d : D) : res (Z * D) := fat32_format_ata_impl total_sectors d.
End ops.
