(* ===== verification/FatRoundtrip.v ===== *)
(** * Writing a file and reading it back

    [fat32_write_file] of a new 8.3 name in the root directory, followed by
    [fat32_get_file_alloc] of the same path, returns the bytes written; the clusters in use
    before keep their contents and their links. *)
From S2P Require Import Prelude Loop CString HeapSpec BlockDev HanaFs Vfs LibC Fat FatTable FatChain FatDir FatName FatFile FatSearch FatMount.

Section read.
Context {D : Type} `{BlockDevSpec D} `{!ReliableDev D} (g : Fat) (Hg : vol_ok g).
Implicit Types d : D.

(** ** Reading a chain *)

Lemma visit_data_ok len d ls : ∀ acc, zlen acc < len → len ≤ zlen acc + 512 * zlen ls →
  visit_lbas (visit_data g len) d ls acc = Ret (inr (len, take (Z.to_nat len) (acc ++ contents d ls))).
Proof.
  unfold visit_lbas. induction ls as [|l ls IH]; intros acc Ha Hl.
  { change (zlen (@nil Z)) with 0 in Hl. lia. }
  rewrite zlen_cons in Hl. cbn [for_loop]. unfold visit_data at 1. rewrite (v_bps _ Hg).
  pose proof (zlen_nonneg acc). set (rem := len - zlen acc).
  assert (Hsec : zlen (sector d l) = 512) by apply zlen_sector.
  rewrite contents_cons. destruct (Z.ltb_spec rem 512) as [Hlt|Hge].
  - rewrite bytes_at_slice by lia. cbn [rbind].
    assert (zlen (acc ++ slice (sector d l) (Z.to_nat 0) (Z.to_nat rem)) = len) as Hz.
    { rewrite zlen_app. unfold zlen at 2. rewrite length_slice by (unfold zlen in *; lia). lia. }
    rewrite Hz, (proj2 (Z.leb_le len len)) by lia. cbn. do 3 f_equal.
    rewrite (take_app_ge acc) by (unfold zlen in *; lia). f_equal. unfold slice. change (Z.to_nat 0) with 0%nat. rewrite drop_0.
    rewrite take_app_le by (unfold zlen in *; lia). f_equal. unfold zlen in *. lia.
  - rewrite bytes_at_slice by lia. cbn [rbind].
    assert (slice (sector d l) (Z.to_nat 0) (Z.to_nat 512) = sector d l) as ->.
    { unfold slice. change (Z.to_nat 0) with 0%nat. rewrite drop_0. apply take_ge. rewrite sector_size. done. }
    rewrite zlen_app, Hsec. destruct (Z.leb_spec len (zlen acc + 512)) as [Hle|Hgt]; cbn.
    + replace (zlen acc + 512) with len by lia. do 3 f_equal. symmetry. rewrite app_assoc, take_app_le.
      * apply take_ge. rewrite length_app, sector_size. unfold zlen in *. lia.
      * rewrite length_app, sector_size. unfold zlen in *. lia.
    + fold (visit_lbas (visit_data g len) d ls (acc ++ sector d l)). unfold visit_lbas. rewrite IH.
      * by rewrite <- app_assoc.
      * rewrite zlen_app. lia.
      * rewrite zlen_app. lia.
Qed.

Lemma zlen_chain_lbas l : zlen (chain_lbas g l) = zlen l * sectors_per_cluster g.
Proof.
  pose proof (v_spc _ Hg). induction l as [|c l IH]; [done|]. rewrite chain_lbas_cons, zlen_app, zlen_cons, IH.
  unfold cluster_lbas, zlen at 1. rewrite length_fmap, length_range by lia. lia.
Qed.

Lemma cluster_text_ok c : 0 ≤ c < 2 ^ 31 → atoi (cluster_text c) = Ret c.
Proof.
  intros Hc. unfold atoi, cluster_text. pose proof (strtol_text 32 c []) as Ht. unfold rev_digits in Ht.
  rewrite app_nil_r in Ht. rewrite Ht; [|lia|cbn; lia|lia|done]. cbn [rbind]. by rewrite i32_small by lia.
Qed.

(** The first [len] bytes of a chain that is long enough. *)
Lemma fat32_read_file_ok c l len d : chain g (fat_val g d) (c :: l) → NoDup (c :: l) →
  0 < len ≤ 512 * zlen (chain_lbas g (c :: l)) →
  ∃ d', same d d' ∧ fat32_read_file g (cluster_text c) len d
    = Ret (len, take (Z.to_nat len) (contents d (chain_lbas g (c :: l))), d').
Proof.
  intros Hch Hnd Hl. pose proof Hch as [Hc _]%chain_cons. pose proof (v_entries _ Hg) as He. unfold BAD in He.
  unfold fat32_read_file. rewrite (v_ready _ Hg), (proj2 (Z.eqb_neq len 0)) by lia. cbn [negb orb].
  rewrite cluster_text_ok by lia. cbn [rbind]. rewrite u32_small, (proj2 (Z.ltb_ge c 2)) by lia.
  pose proof (v_spc _ Hg). rewrite (v_bps _ Hg), (proj2 (Z.eqb_neq (sectors_per_cluster g) 0)) by lia.
  change (512 =? 0) with false. change (4096 <? 512) with false. cbn [orb].
  destruct (chain_walk_ok g Hg true (λ acc, (-1, acc)) (λ acc, (zlen acc, acc)) (visit_data g len) c l [] d
    (inr (len, take (Z.to_nat len) ([] ++ contents d (chain_lbas g (c :: l)))))) as (d' & Hs & Hw); [done|done| |].
  - apply visit_data_ok; change (zlen (@nil Z)) with 0; lia.
  - exists d'. split; [done|]. exact Hw.
Qed.

(** ** The new directory entry *)

Section dir.
Context (base ext : list Z) (Hn : name83 base ext) (root : Z) (lr : list Z).
Context (pre post : list (Z * Z)) (lba off : Z).
Notation name := (full_name base ext).

Lemma remove_absent d : root_dir_cluster g = root → dir_ok g d name (root :: lr) pre lba off post →
  ∃ d', same d d' ∧ remove_dir_entry_by_path g (47 :: name) true d = Ret (-1, d').
Proof.
  intros Hr Hd. destruct (search_remove g Hg d name root lr pre post lba off Hd) as (d' & Hs & Hx).
  exists d'. split; [done|]. unfold remove_dir_entry_by_path. rewrite (skip_slash_name _ _ Hn).
  destruct (full_name_cons _ _ Hn) as (c & r & E). rewrite E. cbn [length parent_walk]. rewrite <- E.
  rewrite (next_comp_name _ _ Hn). cbn [rbind fmap option_fmap option_map]. rewrite Hr, Hx. done.
Qed.

Lemma parent_of_name d : root_dir_cluster g = root →
  get_parent_cluster_and_name g (47 :: name) d = Ret (Some (root, name), d).
Proof.
  intros Hr. unfold get_parent_cluster_and_name. rewrite (skip_slash_name _ _ Hn).
  destruct (full_name_cons _ _ Hn) as (c & r & E). rewrite E. cbn [length parent_walk]. rewrite <- E.
  rewrite (next_comp_name _ _ Hn), Hr. done.
Qed.

(** The sector image with the new entry. *)
Definition entry_image (fc sz : Z) (b : list Z) : list Z := poke b (entry_stores off (name11 base ext) 0x20 fc sz).

Lemma write_dir_entry_ok d fc sz : 2 ≤ root → dir_ok g d name (root :: lr) pre lba off post →
  ∃ d', write_dir_entry g root (name11 base ext) 0x20 fc sz d = Ret (0, d')
    ∧ ∀ l, sector d' l = if l =? lba then entry_image fc sz (sector d lba) else sector d l.
Proof.
  intros Hr Hd. destruct (search_free g Hg d name root lr pre post lba off Hd) as (d1 & Hs & Hx).
  assert (0 ≤ off ≤ 480) as Ho.
  { destruct (proj1 (elem_of_dir_slots g _ lba off) (slot_in g Hg d name root lr pre post lba off Hd)) as [_ Hof].
    by apply slot_off_bound. }
  assert (Hst : stores_in 512 (entry_stores off (name11 base ext) 0x20 fc sz)).
  { rewrite entry_stores_shift. unfold shift, stores_in. apply Forall_fmap.
    eapply Forall_impl; [apply (entry_stores_in (name11 base ext) 0x20 fc sz)|].
    - by apply length_name11.
    - by apply name11_bytes.
    - unfold is_byte. lia.
    - intros [i v] [Hi Hv]. cbn. split; [lia|done]. }
  destruct (ata_write_ok lba (entry_image fc sz (sector d lba)) d1) as (d2 & Hw & Hd2).
  { unfold entry_image. by rewrite length_poke, sector_size. }
  { eapply poke_bytes; [exact Hst|apply sector_bytes]. }
  exists d2. split; [|intros l; rewrite Hd2; destruct (l =? lba); [done|apply Hs]].
  unfold write_dir_entry. rewrite (proj2 (Z.ltb_ge root 2)) by lia. rewrite Hx. cbn [rbind].
  rewrite stores_buffer by (rewrite sector_size; done || lia). cbn [rbind].
  rewrite put_buffer by (by rewrite length_poke, sector_size). unfold entry_image in Hw. rewrite Hw. done.
Qed.

(** The entry at another position is not touched. *)
Lemma entry_image_other fc sz b off' : 0 ≤ off → 0 ≤ off' → off' ≠ off → off `mod` 32 = 0 → off' `mod` 32 = 0 → 
  slice (entry_image fc sz b) (Z.to_nat off') 32 = slice b (Z.to_nat off') 32.
Proof.
  intros Ho Ho' Hne [q Hq]%Z.mod_divide [q' Hq']%Z.mod_divide; [|lia..]. apply slice_poke_ne. intros j v Hin.
  rewrite entry_stores_shift in Hin. apply list_elem_of_fmap in Hin as ([i w] & [= -> ->] & Hin).
  assert (Hst : stores_in 32 (entry_stores 0 (name11 base ext) 0x20 fc sz)).
  { apply entry_stores_in; [by apply length_name11|by apply name11_bytes|unfold is_byte; lia]. }
  unfold stores_in in Hst. rewrite Forall_forall in Hst. specialize (Hst _ Hin). cbn in Hst. lia.
Qed.

(** The open search passes the old entries and finds the new one. *)
Lemma search_new d d' fc sz : dir_ok g d name (root :: lr) pre lba off post →
  0 ≤ fc < 2 ^ 32 → 0 ≤ sz < 2 ^ 32 →
  chain g (fat_val g d') (root :: lr) →
  (∀ l, l ∈ chain_lbas g (root :: lr) → sector d' l = if l =? lba then entry_image fc sz (sector d lba) else sector d l) →
  ∃ d'', same d' d'' ∧ dir_search g (visit_file (upper name)) root d' = Ret (Some (false, fc, sz), d'').
Proof.
  intros Hd Hfc Hsz Hch Hsec. pose proof Hd as [_ Hnd Hsl Hpre Hfree Habs].
  pose proof (slot_in g Hg d name root lr pre post lba off Hd) as Hin.
  pose proof Hin as [Hl Ho]%elem_of_dir_slots. pose proof (slot_off_bound off Ho) as Hob.
  pose proof Ho as [_ Hmod]%elem_of_range; [|lia]. rewrite Z.sub_0_r in Hmod.
  apply (dir_search_ok g Hg _ root lr d' (inr (Some (false, fc, sz)))); [done|done|]. rewrite Hsl. apply for_loop_exit.
  - intros [l o] Hp. cbn [fst snd]. pose proof (pre_in g Hg d name root lr pre post lba off Hd _ Hp) as Hpin.
    pose proof Hpin as [Hlin Hoin]%elem_of_dir_slots. pose proof (slot_off_bound o Hoin) as Hoo.
    pose proof Hoin as [_ Hm']%elem_of_range; [|lia]. rewrite Z.sub_0_r in Hm'.
    rewrite Forall_forall in Hpre, Habs. specialize (Hpre _ Hp). specialize (Habs _ Hpin Hpre).
    assert (slice (sector d' l) (Z.to_nat o) 32 = slot_entry d (l, o)) as He.
    { rewrite Hsec by done. unfold slot_entry. cbn [fst snd]. destruct (Z.eqb_spec l lba) as [->|]; [|done].
      apply entry_image_other; [lia|lia| |done|done]. intros ->.
      destruct Hpre as (c & Hc & Hc0 & Hc5). destruct Hfree as [Hf|Hf]; rewrite Hf in Hc; naive_solver. }
    apply visit_file_skip; [lia|rewrite zlen_sector; lia|by rewrite He|by rewrite He].
  - cbn [fst snd]. rewrite visit_file_entry by (rewrite ?zlen_sector; lia). rewrite Hsec, Z.eqb_refl by done.
    assert (slice (entry_image fc sz (sector d lba)) (Z.to_nat off) 32
            = new_entry (slot_entry d (lba, off)) (name11 base ext) 0x20 fc sz) as ->.
    { unfold entry_image. rewrite entry_stores_shift. rewrite <- (Z2Nat.id off) at 1 by lia.
      apply slice_poke_shift; [rewrite sector_size; lia|].
      apply entry_stores_in; [by apply length_name11|by apply name11_bytes|unfold is_byte; lia]. }
    apply visit_new; [done| |done|done]. unfold slot_entry. apply length_slice. cbn. rewrite sector_size. lia.
Qed.
End dir.
End read.

(** ** The write *)

Section write.
Context {D : Type} `{BlockDevSpec D} `{!ReliableDev D} (g : Fat) (Hg : vol_ok g).
Context (base ext : list Z) (Hn : name83 base ext) (lr : list Z) (pre post : list (Z * Z)) (lba off : Z).
Notation name := (full_name base ext).
Notation root := (root_dir_cluster g).
Implicit Types d : D.

(** The state after the write: [l] holds the data, the directory its entry. *)
Record file_written (l data : list Z) (d d' : D) : Prop := {
  fw_chain : chain g (fat_val g d') l;
  fw_nodup : NoDup l;
  fw_data : take (length data) (contents d' (chain_lbas g l)) = data;
  fw_table c : 0 ≤ c < entries g → c ∉ l → fat_val g d' c = fat_val g d c;
  fw_dir x : x ∈ chain_lbas g (root :: lr) →
    sector d' x = if x =? lba then entry_image base ext off (default 0 (head l)) (zlen data) (sector d lba) else sector d x;
  fw_frame x : ¬ in_table g x → x ∉ chain_lbas g l → x ≠ lba → sector d' x = sector d x
}.

(** Used clusters are not among the free ones. *)
Lemma used_not_free d c n : fat_val g d c ≠ 0 → c ∉ take n (free_list g (fat_val g d)).
Proof. intros Hc (i & Hin%list_elem_of_lookup_2 & _)%elem_of_take. by apply list_elem_of_filter in Hin as [Hz _]. Qed.

(** A sector of a used cluster is neither table nor data of the new file. *)
Lemma used_sector d l0 l x : chain g (fat_val g d) l0 → Forall (λ c, fat_val g d c = 0) l → x ∈ chain_lbas g l0 →
  ¬ in_table g x ∧ x ∉ chain_lbas g l.
Proof.
  intros Hch Hl (c & Hc & Hx)%elem_of_chain_lbas. pose proof (chain_bounds _ _ _ Hch) as Hb. rewrite Forall_forall in Hb, Hl.
  specialize (Hb c Hc). cbn in Hb. split; [apply (cluster_lbas_not_table g Hg c); [lia|done]|].
  intros (c' & Hc' & Hx')%elem_of_chain_lbas. rewrite <- (cluster_lbas_disjoint g c c' x Hx Hx') in Hc'.
  apply (chain_nonzero _ _ _ c Hch Hc). by apply Hl.
Qed.

Lemma fat_val_same_list d d' l : same d d' → Forall (λ c, fat_val g d c = 0) l → Forall (λ c, fat_val g d' c = 0) l.
Proof. intros Hs Hl. eapply Forall_impl; [exact Hl|]. intros c Hc. cbn. by rewrite (fat_val_same g d d'). Qed.

Lemma fat32_write_file_ok data d :
  dir_ok g d name (root :: lr) pre lba off post → data ≠ [] → Forall is_byte data → zlen data < 2 ^ 32 →
  (clusters_for g (length data) ≤ length (free_list g (fat_val g d)))%nat →
  ∃ d', fat32_write_file g (47 :: name) (Some data) (zlen data) d = Ret (0, d')
    ∧ file_written (take (clusters_for g (length data)) (free_list g (fat_val g d))) data d d'.
Proof.
  intros Hd Hne Hb Hlen Hfree.
  destruct (remove_absent g Hg base ext Hn root lr pre post lba off d eq_refl Hd) as (d1 & Hs1 & Hrm).
  assert (HF : free_list g (fat_val g d1) = free_list g (fat_val g d)).
  { apply filter_ext_in. intros x _. by rewrite (fat_val_same g d d1). }
  destruct (write_clusters_ok g Hg data d1 Hne Hb) as (c & r & d2 & El & Hwh & [Wc Wn Wd Wt Wf]); [by rewrite HF|].
  rewrite HF in El, Wc, Wn, Wd, Wt, Wf. cbn [app] in Wc, Wn, Wt.
  set (l := take (clusters_for g (length data)) (free_list g (fat_val g d))) in *.
  assert (Hl0 : Forall (λ x, fat_val g d x = 0) l).
  { apply Forall_forall. intros x (i & Hx%list_elem_of_lookup_2 & _)%elem_of_take. by apply list_elem_of_filter in Hx as [Hx _]. }
  pose proof (do_chain _ _ _ _ _ _ _ _ Hd) as Hch.
  pose proof (chain_bounds _ _ _ Hch) as Hbd. rewrite Forall_forall in Hbd.
  assert (Hdir : ∀ x, x ∈ chain_lbas g (root :: lr) → sector d2 x = sector d x).
  { intros x Hx. destruct (used_sector d _ l x Hch Hl0 Hx) as [Hx1 Hx2]. by rewrite Wf, Hs1. }
  assert (Hd2 : dir_ok g d2 name (root :: lr) pre lba off post).
  { apply (dir_ok_ext g Hg d d2); [|exact Hdir|exact Hd]. intros x Hx. specialize (Hbd x Hx). cbn in Hbd.
    rewrite Wt; [by apply fat_val_same|lia|]. apply used_not_free. by apply (chain_nonzero _ _ _ _ Hch). }
  assert (2 ≤ root) by (apply chain_cons in Hch as [? _]; lia).
  destruct (write_dir_entry_ok g Hg base ext Hn root lr pre post lba off d2 c (zlen data)) as (d3 & Hwd & Hd3); [done|done|].
  assert (Hlba : lba ∈ chain_lbas g (root :: lr)).
  { by destruct (proj1 (elem_of_dir_slots g _ lba off) (slot_in g Hg d name root lr pre post lba off Hd)). }
  destruct (used_sector d _ l lba Hch Hl0 Hlba) as [Hlt Hll].
  assert (Htab : ∀ x, 0 ≤ x < entries g → fat_val g d3 x = fat_val g d2 x).
  { intros x Hx. apply (fat_val_table g Hg); [|done]. intros k Hk. rewrite Hd3.
    destruct (Z.eqb_spec k lba) as [->|]; done. }
  exists d3. split.
  - unfold fat32_write_file. rewrite (v_ready _ Hg). cbn [negb]. rewrite Hrm. cbn [rbind].
    rewrite (parent_of_name g base ext Hn root d1 eq_refl). cbn [rbind]. rewrite (format_short_name_ok _ _ Hn).
    assert (0 < zlen data) by (destruct data; [done|rewrite zlen_cons; pose proof (zlen_nonneg data); lia]).
    rewrite (proj2 (Z.eqb_neq (zlen data) 0)) by lia. cbn [from_option id]. rewrite Hwh. cbn [rbind].
    rewrite u32_small by lia. rewrite Hwd. done.
  - pose proof (Wc ltac:(rewrite El; done)) as Hcl. pose proof (chain_bounds _ _ _ Hcl) as Hbl. rewrite Forall_forall in Hbl. split.
    + eapply fat_chain_ext; [|exact Hcl]. intros x Hx. specialize (Hbl x Hx). cbn in Hbl. apply Htab. lia.
    + done.
    + rewrite <- Wd at 2. f_equal. apply contents_ext. intros k Hk. rewrite Hd3. destruct (Z.eqb_spec k lba) as [->|]; done.
    + intros x Hx Hni. rewrite Htab, Wt by done. by apply fat_val_same.
    + intros x Hx. rewrite Hd3, El. cbn [head from_option id]. rewrite (Hdir lba Hlba). destruct (x =? lba); [done|by apply Hdir].
    + intros x Hx Hni Hxl. rewrite Hd3, (proj2 (Z.eqb_neq x lba)), Wf, Hs1 by done. done.
Qed.
End write.

(** ** The read *)

Section roundtrip.
Context {H D : Type} `{AllocatorSpec H} `{BlockDevSpec D} `{!ReliableDev D}.

Lemma zlen_bytes_bound (g : Fat) (l data : list Z) (d : D) :
  vol_ok g → take (length data) (contents d (chain_lbas g l)) = data → zlen data ≤ 512 * zlen (chain_lbas g l).
Proof.
  intros Hg Ht. apply (f_equal length) in Ht. rewrite length_take, length_contents in Ht by done. unfold zlen. lia.
Qed.

Lemma get_file_ok (g : Fat) (s : HanaFS H D) base ext lr pre post lba off data l d0 r L :
  vol_ok g → name83 base ext → dir_ok g d0 (full_name base ext) (root_dir_cluster g :: lr) pre lba off post →
  Forall (λ c, fat_val g d0 c = 0) l → data ≠ [] → zlen data < 2 ^ 32 →
  file_written g base ext lr lba off l data d0 (disk s) → alloc_inv r (heap s) L → cost (zlen data) ≤ r →
  ∃ buf cap s', fat32_get_file_alloc g (47 :: full_name base ext) s = Ret (Some (buf, data, zlen data), s')
    ∧ L !! buf = None ∧ zlen data ≤ cap ∧ alloc_inv (r - cost (zlen data)) (heap s') (<[buf := cap]> L)
    ∧ same (disk s) (disk s').
Proof.
  intros Hg Hn Hd Hl0 Hne Hlen [Wc Wn Wd Wt Wdir Wf] Hinv Hcost.
  destruct l as [|c l]; [done|]. cbn [head from_option id] in Wdir.
  pose proof Wc as [Hc _]%chain_cons. pose proof (v_entries _ Hg) as He. unfold BAD in He.
  assert (0 < zlen data) as Hpos by (destruct data; [done|rewrite zlen_cons; pose proof (zlen_nonneg data); lia]).
  pose proof (do_chain _ _ _ _ _ _ _ _ Hd) as Hch. pose proof (chain_bounds _ _ _ Hch) as Hbd. rewrite Forall_forall in Hbd, Hl0.
  destruct (search_new g Hg base ext Hn (root_dir_cluster g) lr pre post lba off d0 (disk s) c (zlen data) Hd) as (d1 & Hs1 & Hx);
    [lia|lia| |exact Wdir|].
  { eapply fat_chain_ext; [|exact Hch]. intros x Hx. pose proof (Hbd x Hx) as Hxb. cbn in Hxb. apply Wt; [lia|].
    intros Hin. apply (chain_nonzero _ _ _ _ Hch Hx). by apply Hl0. }
  destruct (amalloc_spec r (heap s) L (zlen data) Hinv) as (p & cap & h' & Ha & Hp & Hpl & Hcap & Hinv'); [lia|done|].
  destruct (fat32_read_file_ok g Hg c l (zlen data) d1) as (d2 & Hs2 & Hr).
  { eapply fat_chain_ext; [|exact Wc]. intros x _. by apply fat_val_same. }
  { done. }
  { split; [done|]. by eapply zlen_bytes_bound. }
  assert (Hdata : take (Z.to_nat (zlen data)) (contents d1 (chain_lbas g (c :: l))) = data).
  { rewrite (contents_ext (disk s) d1) by (intros; apply Hs1). unfold zlen. by rewrite Nat2Z.id. }
  rewrite Hdata in Hr.
  exists p, cap, (set_disk (set_heap (set_disk s d1) h') d2). split_and!; [|done|done|done|by etrans].
  unfold fat32_get_file_alloc. rewrite (v_ready _ Hg). cbn [negb]. rewrite (skip_slash_name _ _ Hn).
  destruct (full_name_cons _ _ Hn) as (x & t & E). rewrite E. cbn [length file_walk]. rewrite <- E.
  rewrite (next_comp_name _ _ Hn). unfold on_dev at 1. fold (upper (full_name base ext)). rewrite Hx. cbn [rbind].
  unfold read_found. rewrite (proj2 (Z.eqb_neq (zlen data) 0)) by lia. unfold HanaFs.kmalloc. cbn [heap set_disk].
  rewrite Ha. rewrite (proj2 (Z.eqb_neq p 0)) by done. unfold on_dev. cbn [disk set_heap set_disk]. rewrite Hr. cbn [rbind].
  rewrite (proj2 (Z.ltb_ge (zlen data) 0)) by lia. done.
Qed.

End roundtrip.
