(* ===== verification/FatTree.v ===== *)
(** * Opening a file by its path

    A directory is the list of its 32-byte entries; looking up a name takes the first entry in
    use that answers to it.  [opens] follows a path through directories of any depth, and
    [fat32_open_exact] shows that [fat32_get_file_alloc] returns what it finds. *)
From S2P Require Import Prelude Loop CString HeapSpec BlockDev HanaFs Vfs LibC Fat FatTable FatChain FatDir FatName FatFile FatSearch FatMount FatRoundtrip.

(** ** Directory entries *)

Definition byte_at (e : list Z) (k : nat) : Z := default 0 (e !! k).
Definition cluster_of (e : list Z) : Z := le_val (byte_at e <$> [26; 27; 20; 21]%nat).
Definition size_of (e : list Z) : Z := le_val (byte_at e <$> [28; 29; 30; 31]%nat).
Definition is_directory (e : list Z) : bool := Z.testbit (attr_of e) 4.
(** A volume label or a part of a long name. *)
Definition hidden (e : list Z) : bool := Z.testbit (attr_of e) 3.
(** A component without a dot stands for every extension. *)
Definition answers (comp e : list Z) : Prop :=
  (if bool_decide (46 ∈ comp) then name_of cut_spaces e else before_dot (name_of cut_spaces e)) = comp.
#[export] Instance answers_dec comp e : Decision (answers comp e).
Proof. unfold answers. apply _. Defined.

(** The directory ends at the first entry that was never used. *)
Fixpoint dir_lookup (comp : list Z) (es : list (list Z)) : option (bool * Z * Z) :=
  match es with
  | [] => None
  | e :: es =>
      if decide (head e = Some 0) then None
      else if decide (head e ≠ Some 0xE5 ∧ hidden e = false ∧ answers comp e)
           then Some (is_directory e, cluster_of e, size_of e)
           else dir_lookup comp es
  end.

Lemma land_bit z k : 0 ≤ k → (Z.land z (2 ^ k) =? 0) = negb (Z.testbit z k).
Proof.
  intros Hk. destruct (Z.testbit z k) eqn:E; cbn [negb].
  - apply Z.eqb_neq. intros H0. apply (f_equal (λ x, Z.testbit x k)) in H0.
    by rewrite Z.land_spec, E, Z.pow2_bits_true, Z.bits_0 in H0 by done.
  - apply Z.eqb_eq, Z.bits_inj'. intros i Hi. rewrite Z.land_spec, Z.bits_0.
    destruct (Z.eq_dec i k) as [->|Hne]; [by rewrite E|]. rewrite Z.pow2_bits_false by done. apply andb_false_r.
Qed.

Section entry.
Context (e : list Z) (He : length e = 32%nat) (Hb : Forall is_byte e).

Lemma bget_byte k : 0 ≤ k < 32 → bget e k = Ret (byte_at e (Z.to_nat k)).
Proof.
  intros Hk. apply bget_Ret. split; [lia|]. unfold byte_at.
  destruct (e !! Z.to_nat k) eqn:E; [done|]. apply lookup_ge_None in E. lia.
Qed.
Lemma byte_at_byte k : is_byte (byte_at e k).
Proof.
  unfold byte_at. destruct (e !! k) eqn:E; cbn; [|done]. by eapply Forall_lookup_1 in E.
Qed.

Lemma first_cluster_of : first_cluster e 0 = Ret (cluster_of e).
Proof.
  unfold first_cluster, cluster_of. rewrite !bget_byte by lia. cbn [rbind].
  pose proof (byte_at_byte 26). pose proof (byte_at_byte 27). pose proof (byte_at_byte 20). pose proof (byte_at_byte 21).
  unfold is_byte in *. cbn [fmap list_fmap le_val]. change (Z.to_nat (0 + 20)) with 20%nat. change (Z.to_nat (0 + 21)) with 21%nat.
  change (Z.to_nat (0 + 26)) with 26%nat. change (Z.to_nat (0 + 27)) with 27%nat.
  rewrite !(lor_shiftl_add _ _ 8) by lia. rewrite u32_small by (rewrite Z.shiftl_mul_pow2 by lia; lia).
  rewrite Z.lor_comm, lor_shiftl_add by lia. f_equal. lia.
Qed.
Lemma entry_size_of : entry_size e 0 = Ret (size_of e).
Proof.
  unfold entry_size, size_of. rewrite !bget_byte by lia. cbn [rbind].
  pose proof (byte_at_byte 28). pose proof (byte_at_byte 29). pose proof (byte_at_byte 30). pose proof (byte_at_byte 31).
  unfold is_byte in *. cbn [fmap list_fmap le_val]. change (Z.to_nat (0 + 28)) with 28%nat. change (Z.to_nat (0 + 29)) with 29%nat.
  change (Z.to_nat (0 + 30)) with 30%nat. change (Z.to_nat (0 + 31)) with 31%nat.
  rewrite (lor_shiftl_add _ _ 8), (lor_shiftl_add _ _ 16), (lor_shiftl_add _ _ 24) by lia. f_equal. lia.
Qed.

(** One round of the search. *)
Lemma visit_file_is comp lba :
  visit_file comp lba e 0 tt =
    Ret (if decide (head e = Some 0) then inr None
         else if decide (head e ≠ Some 0xE5 ∧ hidden e = false ∧ answers comp e)
              then inr (Some (is_directory e, cluster_of e, size_of e)) else inl tt).
Proof.
  unfold visit_file, visit_used. destruct (head e) as [c|] eqn:Eh; [|by destruct e].
  rewrite (bget_head _ _ Eh). cbn [rbind]. destruct (Z.eqb_spec c 0) as [->|H0]; [by rewrite decide_True|].
  rewrite (decide_False (P := Some c = Some 0)) by congruence.
  destruct (Z.eqb_spec c 0xE5) as [->|H5]; [by rewrite decide_False by naive_solver|].
  change (0 + 11) with 11. rewrite (bget_attr e He). cbn [rbind]. change 8 with (2 ^ 3). rewrite land_bit by lia. rewrite negb_involutive. fold (hidden e).
  destruct (hidden e) eqn:Hh; [by rewrite decide_False by naive_solver|].
  destruct (Z.eqb_spec (Z.land (attr_of e) 15) 15) as [H15|_].
  { apply (f_equal (λ x, Z.testbit x 3)) in H15. rewrite Z.land_spec in H15. unfold hidden in Hh. by rewrite Hh in H15. }
  rewrite (short_name_of _ e He). cbn [rbind]. case_bool_decide as Ha; cbn [negb].
  - rewrite first_cluster_of, entry_size_of. cbn [rbind]. change 16 with (2 ^ 4). rewrite land_bit, negb_involutive by lia.
    rewrite decide_True; [done|]. split_and!; [congruence|done|exact Ha].
  - rewrite decide_False; [done|]. intros (_ & _ & Hn). exact (Ha Hn).
Qed.
End entry.

(** ** Directories and files on the volume *)

(** What a path leads to: nothing, a file without a readable chain, or the bytes of a file
    whose directory entry gives [size]. *)
Inductive found := Missing | Unreadable (size : Z) | Bytes (size : Z) (data : list Z).

Section tree.
Context {D : Type} `{BlockDevSpec D} `{!ReliableDev D} (g : Fat).
Implicit Types d : D.

Definition on_chain (d : D) (c : Z) (l : list Z) : Prop := chain g (fat_val g d) (c :: l) ∧ NoDup (c :: l).
Definition directory (d : D) (c : Z) (es : list (list Z)) : Prop :=
  ∃ l, on_chain d c l ∧ es = slot_entry d <$> dir_slots g (c :: l).
Definition buffer_size (n : Z) : Z := if n =? 0 then 1 else n.

(** The file at the end of a path: its first cluster and size. *)
Definition file_at (d : D) (c n : Z) (f : found) : Prop :=
  (c < 2 ∧ f = Unreadable (buffer_size n)) ∨
  ∃ l, on_chain d c l ∧
       f = Bytes (buffer_size n) (take (Z.to_nat (buffer_size n)) (contents d (chain_lbas g (c :: l)))).

Inductive opens (d : D) : Z → list Z → found → Prop :=
| opens_missing c es p comp rest :
    directory d c es → next_comp p = (comp, rest) → dir_lookup (upper comp) es = None →
    opens d c p Missing
| opens_directory c es p comp c' n :
    directory d c es → next_comp p = (comp, []) → dir_lookup (upper comp) es = Some (true, c', n) →
    opens d c p Missing
| opens_file c es p comp c' n f :
    directory d c es → next_comp p = (comp, []) → dir_lookup (upper comp) es = Some (false, c', n) →
    file_at d c' n f → opens d c p f
| opens_below_file c es p comp rest c' n :
    directory d c es → next_comp p = (comp, rest) → rest ≠ [] →
    dir_lookup (upper comp) es = Some (false, c', n) → opens d c p Missing
| opens_below c es p comp rest c' n f :
    directory d c es → next_comp p = (comp, rest) → rest ≠ [] →
    dir_lookup (upper comp) es = Some (true, c', n) → opens d c' rest f → opens d c p f.

(** From the root; a leading slash is optional. *)
Definition opens_path (d : D) (p : list Z) (f : found) : Prop :=
  if decide (skip_slash p = []) then f = Missing else opens d (root_dir_cluster g) (skip_slash p) f.

(** The sectors of the volume: the tables and the clusters. *)
Definition volume_end : Z := cluster_begin_lba g + (entries g - 2) * sectors_per_cluster g.
Definition agree (d d' : D) : Prop := ∀ l, fat_begin_lba g ≤ l < volume_end → sector d' l = sector d l.

Context (Hg : vol_ok g).

Lemma entry_of_slot d l p : p ∈ dir_slots g l →
  0 ≤ p.2 ∧ p.2 + 32 ≤ zlen (sector d p.1) ∧ length (slot_entry d p) = 32%nat ∧ Forall is_byte (slot_entry d p).
Proof.
  destruct p as [lba off]. intros [_ Ho]%elem_of_dir_slots. apply slot_off_bound in Ho. rewrite zlen_sector. cbn [fst snd].
  split_and!; [lia|lia| |].
  - apply length_slice. cbn [fst snd]. rewrite sector_size. lia.
  - apply slice_bytes, sector_bytes.
Qed.

(** The search loop over the slots of a directory computes the look-up. *)
Lemma search_is_lookup d comp ps : (∀ p, p ∈ ps → ∃ l, p ∈ dir_slots g l) →
  ∃ x, for_loop ps (λ p, visit_file comp p.1 (sector d p.1) p.2) tt = Ret x
    ∧ match x with inl _ => None | inr r => r end = dir_lookup comp (slot_entry d <$> ps).
Proof.
  induction ps as [|p ps IH]; intros Hps; [by eexists|].
  destruct (Hps p) as [l Hp]; [by left|]. destruct (entry_of_slot d l p Hp) as (H1 & H2 & H3 & H4).
  rewrite fmap_cons. cbn [for_loop dir_lookup]. rewrite (visit_file_entry _ _ H1 H2). fold (slot_entry d p).
  rewrite (visit_file_is _ H3 H4). repeat case_decide; cbn [exit_bind rbind].
  1,2: by eexists.
  apply IH. intros q Hq. apply Hps. by right.
Qed.

Lemma dir_search_is d c es comp : directory d c es →
  ∃ d', same d d' ∧ dir_search g (visit_file comp) c d = Ret (dir_lookup comp es, d').
Proof.
  intros (l & [Hch Hnd] & ->).
  destruct (search_is_lookup d comp (dir_slots g (c :: l))) as (x & Hx & <-); [eauto|].
  by apply (dir_search_ok g Hg (visit_file comp) c l d x).
Qed.

Lemma dir_lookup_bounds d c es comp b c' n : directory d c es → dir_lookup comp es = Some (b, c', n) →
  0 ≤ c' ∧ 0 ≤ n < 2 ^ 32.
Proof.
  intros (l & _ & ->). generalize (dir_slots g (c :: l)) (entry_of_slot d (c :: l)). intros ps Hps.
  induction ps as [|p ps IH]; [done|]. rewrite fmap_cons. cbn [dir_lookup]. repeat case_decide; [done| |].
  - intros [= _ <- <-]. destruct (Hps p ltac:(left)) as (_ & _ & Hl & Hb).
    pose proof (λ k, byte_at_byte (slot_entry d p) Hb k) as Hk. split.
    + apply le_val_bound. repeat constructor; apply Hk.
    + pose proof (le_val_bound (byte_at (slot_entry d p) <$> [28; 29; 30; 31]%nat)) as Hv. apply Hv. repeat constructor; apply Hk.
  - apply IH. intros q Hq. apply Hps. by right.
Qed.

(** The tree depends on the sectors of the volume only. *)
Section agree.
Context (d d' : D) (Ha : agree d d').

Lemma chain_lba_in c l x : on_chain d c l → x ∈ chain_lbas g (c :: l) → fat_begin_lba g ≤ x < volume_end.
Proof.
  intros [Hch _] (k & Hk & Hx)%elem_of_chain_lbas. pose proof (chain_bounds _ _ _ Hch) as Hb. rewrite Forall_forall in Hb.
  specialize (Hb k Hk). cbn in Hb. apply elem_of_cluster_lbas in Hx as (j & Hj & ->). unfold data_lba, volume_end.
  pose proof (v_layout _ Hg). pose proof (v_nfats _ Hg). pose proof (v_fatsz _ Hg). nia.
Qed.

Lemma fat_val_agree c : 0 ≤ c < entries g → fat_val g d' c = fat_val g d c.
Proof.
  intros Hc. apply (fat_val_table g Hg); [|done]. intros l Hl. apply Ha. unfold in_table, volume_end in *.
  pose proof (v_spc _ Hg). pose proof (v_fatsz _ Hg). unfold entries. nia.
Qed.

Lemma on_chain_agree c l : on_chain d c l → on_chain d' c l.
Proof.
  intros [Hch Hnd]. split; [|done]. eapply fat_chain_ext; [|exact Hch]. intros x Hx.
  pose proof (chain_bounds _ _ _ Hch) as Hb. rewrite Forall_forall in Hb. specialize (Hb x Hx). cbn in Hb. apply fat_val_agree. lia.
Qed.

Lemma directory_agree c es : directory d c es → directory d' c es.
Proof.
  intros (l & Hch & ->). exists l. split; [by apply on_chain_agree|]. apply list_fmap_ext. intros i [lba off] Hp.
  apply list_elem_of_lookup_2, elem_of_dir_slots in Hp as [Hp _]. unfold slot_entry. cbn [fst snd].
  by rewrite (Ha lba (chain_lba_in c l lba Hch Hp)).
Qed.

Lemma file_agree c n f : file_at d c n f → file_at d' c n f.
Proof.
  intros [Hf|(l & Hch & ->)]; [by left|]. right. exists l. split; [by apply on_chain_agree|]. do 2 f_equal.
  symmetry. apply contents_ext. intros x Hx. apply Ha. by apply (chain_lba_in c l).
Qed.
End agree.

Lemma opens_agree d d' c p f : agree d d' → opens d c p f → opens d' c p f.
Proof.
  intros Ha. pose proof (directory_agree d d' Ha). pose proof (file_agree d d' Ha).
  induction 1; eauto using opens.
Qed.
Lemma opens_path_agree d d' p f : agree d d' → opens_path d p f → opens_path d' p f.
Proof. unfold opens_path. intros Ha. case_decide; [done|]. by apply opens_agree. Qed.
Lemma same_agree d d' : same d d' → agree d d'.
Proof. intros Hs l _. apply Hs. Qed.
End tree.

(** ** What the open returns *)

(** The buffer of a file that was found; a file that cannot be read gives its buffer back. *)
Definition handed {H D} `{Allocator H} (f : found) (s : HanaFS H D) : option file_buf * HanaFS H D :=
  match f with
  | Missing => (None, s)
  | Unreadable n => let '(b, s) := HanaFs.kmalloc n s in (None, if b =? 0 then s else HanaFs.kfree b s)
  | Bytes n data =>
      let '(b, s) := HanaFs.kmalloc n s in (if b =? 0 then None else Some (b, data, zlen data), s)
  end.

Lemma take_comp_length n p : length p = (length (take_comp n p).1 + length (take_comp n p).2)%nat.
Proof.
  revert p. induction n as [|n IH]; intros [|c p]; try done. cbn [take_comp]. destruct (c =? 47); [done|].
  specialize (IH p). destruct (take_comp n p) as [x r]. cbn in *. lia.
Qed.

Lemma next_comp_shorter p comp rest : p ≠ [] → next_comp p = (comp, rest) → (length rest < length p)%nat.
Proof.
  intros Hp. unfold next_comp. pose proof (take_comp_length 63 p) as Hl. destruct (take_comp 63 p) as [x r] eqn:E. cbn [fst snd] in Hl.
  intros [= <- <-]. assert (Hs : (length (skip_slash r) ≤ length r)%nat) by (destruct r as [|c r]; cbn; [done|destruct (c =? 47); cbn; lia]).
  destruct x as [|c x]; [|cbn in Hl; lia]. cbn in Hl. destruct p as [|c p]; [done|].
  cbn [take_comp] in E. destruct (Z.eqb_spec c 47) as [->|Hc].
  - injection E as <-. cbn. lia.
  - by case_match.
Qed.

Section opening.
Context {H D : Type} `{AllocatorSpec H} `{BlockDevSpec D} `{!ReliableDev D} (g : Fat) (Hg : vol_ok g).
Implicit Types d : D.

Lemma visit_data_all len d ls : ∀ acc, zlen acc + 512 * zlen ls < len →
  visit_lbas (visit_data g len) d ls acc = Ret (inl (acc ++ contents d ls)).
Proof.
  unfold visit_lbas. induction ls as [|l ls IH]; intros acc Hl; [cbn; by rewrite app_nil_r|].
  rewrite zlen_cons in Hl. cbn [for_loop]. unfold visit_data at 1. rewrite (v_bps _ Hg).
  assert (Hsec : zlen (sector d l) = 512) by apply zlen_sector. pose proof (zlen_nonneg ls).
  rewrite (proj2 (Z.ltb_ge (len - zlen acc) 512)) by lia. rewrite bytes_at_slice by lia. cbn [rbind].
  assert (slice (sector d l) (Z.to_nat 0) (Z.to_nat 512) = sector d l) as ->.
  { unfold slice. change (Z.to_nat 0) with 0%nat. rewrite drop_0. apply take_ge. rewrite sector_size. done. }
  rewrite zlen_app, Hsec, (proj2 (Z.leb_gt len (zlen acc + 512))) by lia. cbn [exit_bind rbind].
  rewrite IH by (rewrite zlen_app; lia). by rewrite contents_cons, <- app_assoc.
Qed.

(** Reading the chain that starts at [c] into a buffer of [n] bytes. *)
Lemma read_chain c l n d : on_chain g d c l → 0 < n →
  ∃ d', same d d' ∧ fat32_read_file g (cluster_text c) n d =
    Ret (zlen (take (Z.to_nat n) (contents d (chain_lbas g (c :: l)))), take (Z.to_nat n) (contents d (chain_lbas g (c :: l))), d').
Proof.
  intros [Hch Hnd] Hn. set (X := contents d (chain_lbas g (c :: l))).
  assert (HX : zlen X = 512 * zlen (chain_lbas g (c :: l))) by (unfold X, zlen; rewrite length_contents; lia).
  destruct (Z_le_gt_dec n (512 * zlen (chain_lbas g (c :: l)))) as [Hle|Hgt].
  - destruct (fat32_read_file_ok g Hg c l n d Hch Hnd ltac:(lia)) as (d' & Hs & Hr). exists d'. split; [done|]. rewrite Hr. fold X.
    do 3 f_equal. unfold zlen in *. rewrite length_take. lia.
  - pose proof Hch as [Hc _]%chain_cons. pose proof (v_entries _ Hg) as He. unfold BAD in He.
    unfold fat32_read_file. rewrite (v_ready _ Hg), (proj2 (Z.eqb_neq n 0)) by lia. cbn [negb orb].
    rewrite cluster_text_ok by lia. cbn [rbind]. rewrite u32_small, (proj2 (Z.ltb_ge c 2)) by lia.
    pose proof (v_spc _ Hg). rewrite (v_bps _ Hg), (proj2 (Z.eqb_neq (sectors_per_cluster g) 0)) by lia.
    change (512 =? 0) with false. change (4096 <? 512) with false. cbn [orb].
    destruct (chain_walk_ok g Hg true (λ acc, (-1, acc)) (λ acc, (zlen acc, acc)) (visit_data g n) c l [] d (inl ([] ++ X)))
      as (d' & Hs & Hw); [done|done|by apply visit_data_all; change (zlen (@nil Z)) with 0; lia|].
    exists d'. split; [done|]. rewrite Hw. rewrite (take_ge X) by (unfold zlen in *; lia). done.
Qed.

Lemma read_found_is c n f (s : HanaFS H D) : 0 ≤ c < 2 ^ 31 → 0 ≤ n → file_at g (disk s) c n f →
  ∃ d', same (disk s) d' ∧ read_found g c n s = Ret (handed f (set_disk s d')).
Proof.
  intros Hc Hn Hf. unfold read_found. fold (buffer_size n).
  assert (Hb : 0 < buffer_size n) by (unfold buffer_size; destruct (Z.eqb_spec n 0); lia).
  destruct Hf as [[Hlt ->]|(l & Hch & ->)]; unfold handed, HanaFs.kmalloc; cbn [heap set_disk].
  - destruct (amalloc (buffer_size n) (heap s)) as [b h] eqn:Ea.
    exists (disk s). split; [done|]. destruct (b =? 0); [done|]. unfold on_dev, fat32_read_file.
    rewrite (v_ready _ Hg), (proj2 (Z.eqb_neq (buffer_size n) 0)) by lia. cbn [negb orb].
    rewrite cluster_text_ok by lia. cbn [rbind]. rewrite u32_small, (proj2 (Z.ltb_lt c 2)) by lia. done.
  - destruct (amalloc (buffer_size n) (heap s)) as [b h] eqn:Ea.
    destruct (read_chain c l (buffer_size n) (disk s) Hch Hb) as (d' & Hs & Hr).
    destruct (b =? 0) eqn:Eb; [by exists (disk s)|]. exists d'. split; [done|].
    unfold on_dev. cbn [disk set_heap]. rewrite Hr. cbn [rbind]. by rewrite (proj2 (Z.ltb_ge _ 0)) by apply zlen_nonneg.
Qed.

Lemma file_walk_opens d c p f : opens g d c p f → p ≠ [] → ∀ n (s : HanaFS H D), (length p ≤ n)%nat → same d (disk s) →
  ∃ d', same (disk s) d' ∧ file_walk n g p c s = Ret (handed f (set_disk s d')).
Proof.
  assert (Hstep : ∀ c es p comp rest n (s : HanaFS H D), directory g d c es → next_comp p = (comp, rest) → same d (disk s) →
    ∃ d1, same (disk s) d1 ∧ file_walk (S n) g p c s =
      match dir_lookup (upper comp) es with
      | None => Ret (None, set_disk s d1)
      | Some (is_dir, c', size) =>
          match rest with
          | [] => if is_dir then Ret (None, set_disk s d1) else read_found g c' size (set_disk s d1)
          | _ => if is_dir then file_walk n g rest c' (set_disk s d1) else Ret (None, set_disk s d1)
          end
      end).
  { intros c0 es p0 comp rest n s Hd Hp Hs.
    destruct (dir_search_is g Hg (disk s) c0 es (upper comp)) as (d1 & Hs1 & E); [by eapply directory_agree, Hd; [|apply same_agree]|].
    exists d1. split; [done|]. cbn [file_walk]. rewrite Hp. unfold on_dev at 1. fold (upper comp). rewrite E. cbn [rbind].
    by destruct (dir_lookup (upper comp) es) as [[[[] c'] k]|]. }
  induction 1 as [c es p comp rest Hd Hp Hl|c es p comp c' k Hd Hp Hl|c es p comp c' k f Hd Hp Hl Hf
                 |c es p comp rest c' k Hd Hp Hr Hl|c es p comp rest c' k f Hd Hp Hr Hl Ho IH];
    intros Hne n s Hn Hs; (destruct n as [|n]; [destruct p; [done|cbn in Hn; lia]|]);
    destruct (Hstep _ _ _ _ _ n s Hd Hp Hs) as (d1 & Hs1 & ->); rewrite Hl.
  - by exists d1.
  - by exists d1.
  - destruct (dir_lookup_bounds g d c es _ _ _ _ Hd Hl) as [Hc Hk].
    assert (Hf1 : file_at g d1 c' k f) by (by eapply file_agree, Hf; [|apply same_agree; etrans]).
    destruct (read_found_is c' k f (set_disk s d1)) as (d2 & Hs2 & ->); [|lia|done|by exists d2; split; [etrans|]].
    destruct Hf as [[? _]|(l & [Hch _] & _)]; [lia|]. apply chain_cons in Hch as [? _].
    pose proof (v_entries _ Hg) as He. unfold BAD in He. lia.
  - exists d1. split; [done|]. by destruct rest.
  - destruct rest as [|x q]; [done|].
    destruct (IH Hr n (set_disk s d1)) as (d2 & Hs2 & E); [|by etrans|by rewrite E; exists d2; split; [etrans|]].
    apply next_comp_shorter in Hp; [lia|done].
Qed.

(** Opening a path hands over what [opens_path] finds. *)
Lemma get_file_opens p f (s : HanaFS H D) : opens_path g (disk s) p f →
  ∃ d', same (disk s) d' ∧ fat32_get_file_alloc g p s = Ret (handed f (set_disk s d')).
Proof.
  unfold opens_path, fat32_get_file_alloc. rewrite (v_ready _ Hg). cbn [negb]. case_decide as Hp.
  - intros ->. rewrite Hp. exists (disk s). split; [done|]. by destruct s.
  - intros Ho. destruct (skip_slash p) as [|x q] eqn:E; [done|]. by apply (file_walk_opens (disk s) _ _ _ Ho).
Qed.

(** The heap room an open takes. *)
Definition found_cost (f : found) : Z :=
  match f with Missing => 0 | Unreadable n | Bytes n _ => cost n end.

Lemma opens_size d c p f : opens g d c p f →
  match f with Missing => True | Unreadable n | Bytes n _ => 0 < n < 2 ^ 32 end.
Proof.
  assert (Hb : ∀ n, 0 ≤ n < 2 ^ 32 → 0 < buffer_size n < 2 ^ 32)
    by (intros n Hn; unfold buffer_size; destruct (Z.eqb_spec n 0); lia).
  induction 1 as [| |c es p comp c' k f Hd Hp Hl Hf| |]; try done.
  destruct (dir_lookup_bounds g d c es _ _ _ _ Hd Hl) as [_ Hk]. destruct Hf as [[_ ->]|(l & _ & ->)]; by apply Hb.
Qed.
Lemma opens_path_size d p f : opens_path g d p f →
  match f with Missing => True | Unreadable n | Bytes n _ => 0 < n < 2 ^ 32 end.
Proof. unfold opens_path. case_decide; [by intros ->|]. apply opens_size. Qed.
End opening.

(** C10. Opening a file on a mounted FAT32 volume, by a path through directories of any depth,
    returns in a fresh heap block the bytes that the directory entries and the allocation table
    lead to, as many as the entry says and the chain has; a path that leads nowhere, to a
    directory or below a file gives NULL.  The device and the other allocations are untouched,
    and a buffer that could not be filled is given back. *)
Theorem fat32_open_exact {H D} `{AllocatorSpec H} `{BlockDevSpec D} `{!ReliableDev D} g p f (s : HanaFS H D) r L :
  vol_ok g → opens_path g (disk s) p f → alloc_inv r (heap s) L → found_cost f ≤ r →
  ∃ out s', fat32_get_file_alloc g p s = Ret (out, s') ∧ same (disk s) (disk s') ∧
    match f with
    | Bytes n data => ∃ buf cap, out = Some (buf, data, zlen data) ∧ L !! buf = None ∧ n ≤ cap ∧
                                 alloc_inv (r - cost n) (heap s') (<[buf := cap]> L)
    | Unreadable n => out = None ∧ alloc_inv (r - cost n) (heap s') L
    | Missing => out = None ∧ heap s' = heap s
    end.
Proof.
  intros Hg Ho Hi Hr. destruct (get_file_opens g Hg p f s Ho) as (d' & Hs & ->). apply opens_path_size in Ho.
  destruct f as [|n|n data]; cbn [found_cost] in Hr; unfold handed, HanaFs.kmalloc; cbn [heap set_disk].
  - by eexists _, _.
  - destruct (amalloc_spec r (heap s) L n Hi) as (b & cap & h & -> & Hb & Hl & Hc & Hi'); [lia|done|].
    rewrite (proj2 (Z.eqb_neq b 0)) by done. eexists _, _. split_and!; [done|done|done|].
    rewrite <- (delete_insert_id L b cap) by done. cbn [heap HanaFs.kfree set_heap]. eapply afree_spec; [exact Hi'|apply lookup_insert_eq].
  - destruct (amalloc_spec r (heap s) L n Hi) as (b & cap & h & -> & Hb & Hl & Hc & Hi'); [lia|done|].
    rewrite (proj2 (Z.eqb_neq b 0)) by done. eexists _, _. split_and!; [done|done|]. by exists b, cap.
Qed.
