(* ===== verification/FatFresh.v ===== *)
(** * A freshly formatted volume

    [fat32_format_ata_impl] lays out an empty volume: mounting it gives a valid geometry, a
    root directory without entries, and every cluster but the root's free. *)
From S2P Require Import Prelude Loop CString HeapSpec BlockDev HanaFs Vfs LibC Fat FatTable FatChain FatDir FatName FatFile FatSearch FatMount FatRoundtrip.

(** ** The boot sector *)

Lemma read_boot N F : 0 ≤ F < 2 ^ 32 →
  ∃ b, read_bpb (boot_sector N F) = Ret b ∧ BytsPerSec b = 512 ∧ SecPerClus b = 1 ∧ RsvdSecCnt b = 32
       ∧ NumFATs b = 2 ∧ FATSz32 b = F ∧ RootClus b = 2.
Proof.
  intros HF. assert (Hsum : le_val [byte_of F 0; byte_of F 8; byte_of F 16; byte_of F 24] = F).
  { pose proof (bytes_sum F HF). cbn [le_val]. lia. }
  destruct (read_bpb (boot_sector N F)) as [b| |] eqn:E.
  - exists b. split; [done|]. rewrite <- Hsum. lazy -[byte_of le_val] in E. injection E as <-.
    split_and!; reflexivity.
  - lazy -[byte_of le_val] in E. discriminate E.
  - lazy -[byte_of le_val] in E. discriminate E.
Qed.

Lemma boot_sector_ok N F : length (boot_sector N F) = 512%nat ∧ Forall is_byte (boot_sector N F).
Proof.
  split; [unfold boot_sector; by rewrite length_poke|].
  apply (poke_bytes 512); [|apply Forall_replicate; unfold is_byte; lia].
  unfold boot_stores, stores_in, le4_stores.
  repeat first [apply Forall_app; split | apply Forall_cons; split | apply Forall_nil_2
    | apply seq_stores_in; [lia|done|apply (bool_decide_unpack _); reflexivity] | split; [lia|apply byte_of_byte]
    | split; [lia|unfold is_byte; lia]
    | split; [lia|split; vm_compute; congruence]].
Qed.

(** ** The sectors written *)

Definition image_ok (b : list Z) : Prop := length b = 512%nat ∧ Forall is_byte b.

Lemma zero_sector_ok : image_ok zero_sector.
Proof. split; [done|]. apply Forall_replicate. unfold is_byte. lia. Qed.
Lemma fsinfo_sector_ok : image_ok fsinfo_sector.
Proof. split; [done|]. apply (bool_decide_unpack _). vm_compute. done. Qed.
Lemma fat_sector0_ok : image_ok fat_sector0.
Proof. split; [done|]. apply (bool_decide_unpack _). vm_compute. done. Qed.

Section writes.
Context {D : Type} `{BlockDevSpec D} `{!ReliableDev D}.
Implicit Types d : D.

Lemma fmt_write_ok lba b d : image_ok b →
  ∃ d', fmt_write lba b d = Ret (inl d') ∧ ∀ l, sector d' l = if l =? lba then b else sector d l.
Proof.
  intros [Hl Hb]. destruct (ata_write_ok lba b d Hl Hb) as (d' & Hw & Hd). exists d'. split; [|done].
  unfold fmt_write. by rewrite Hw.
Qed.

(** A loop that writes every sector of a list of different sectors once. *)
Lemma fmt_loop_ok {I} (lba : I → Z) (img : I → list Z) is' : ∀ d, NoDup (lba <$> is') → Forall (λ i, image_ok (img i)) is' →
  ∃ d', for_loop is' (λ i, fmt_write (lba i) (img i)) d = Ret (inl d')
    ∧ (∀ i, i ∈ is' → sector d' (lba i) = img i) ∧ (∀ l, l ∉ lba <$> is' → sector d' l = sector d l).
Proof.
  induction is' as [|i js IH]; intros d Hnd Hok.
  { exists d. split_and!; [done|by intros i ?%elem_of_nil|done]. }
  rewrite fmap_cons in Hnd. apply NoDup_cons in Hnd as [Hni Hnd]. apply Forall_cons in Hok as [Hi Hok].
  destruct (fmt_write_ok (lba i) (img i) d Hi) as (d1 & Hw & Hd1).
  destruct (IH d1 Hnd Hok) as (d2 & Hf & Hin & Hout). exists d2. split_and!.
  - cbn [for_loop]. rewrite Hw. done.
  - intros j [->|Hj]%elem_of_cons; [|by apply Hin]. rewrite Hout, Hd1, Z.eqb_refl by done. done.
  - intros l Hl. rewrite fmap_cons in Hl. apply not_elem_of_cons in Hl as [Hl1 Hl2].
    rewrite Hout, Hd1, (proj2 (Z.eqb_neq _ _)) by done. done.
Qed.

(** Copy and sector number of the table sectors, in the order they are written. *)
Definition fat_positions (F : Z) : list (Z * Z) := range 0 FMT_NUMFATS 1 ≫= λ f, (λ si, (f, si)) <$> range 0 F 1.
Definition fat_lba (F : Z) (p : Z * Z) : Z := FMT_RSVD + p.1 * F + p.2.
Definition fat_image (p : Z * Z) : list Z := if p.2 =? 0 then fat_sector0 else zero_sector.

Lemma elem_of_fat_positions F f si : (f, si) ∈ fat_positions F ↔ 0 ≤ f < 2 ∧ 0 ≤ si < F.
Proof.
  unfold fat_positions. rewrite list_elem_of_bind. split.
  - intros (x & (y & E & Hy)%list_elem_of_fmap & Hx). injection E as -> ->.
    apply elem_of_range in Hx as [Hx _]; [|lia]. apply elem_of_range in Hy as [Hy _]; [|lia]. done.
  - intros [Hf Hs]. exists f. split; [|apply elem_of_range; [lia|]; rewrite Z.mod_1_r; unfold FMT_NUMFATS; lia].
    apply list_elem_of_fmap. exists si. split; [done|]. apply elem_of_range; [lia|]. rewrite Z.mod_1_r. lia.
Qed.

Lemma fat_lba_nodup F : NoDup (fat_lba F <$> fat_positions F).
Proof.
  apply NoDup_fmap_2_strong.
  - intros [f s] [f' s'] [Hf Hs]%elem_of_fat_positions [Hf' Hs']%elem_of_fat_positions. unfold fat_lba. cbn.
    intros E. assert (f = f') as -> by nia. f_equal. lia.
  - unfold fat_positions. apply NoDup_bind.
    + intros f f' [x y] _ _ (z & E & _)%list_elem_of_fmap (z' & E' & _)%list_elem_of_fmap. congruence.
    + intros f _. apply NoDup_fmap_2; [intros x y E; congruence|]. apply range_nodup. lia.
    + apply range_nodup. lia.
Qed.

Lemma fmt_fats_ok F d : 0 < F → FMT_RSVD + 2 * F < 2 ^ 32 →
  ∃ d', fmt_fats F d = Ret (inl d') ∧ (∀ p, p ∈ fat_positions F → sector d' (fat_lba F p) = fat_image p)
    ∧ (∀ l, l ∉ fat_lba F <$> fat_positions F → sector d' l = sector d l).
Proof.
  intros HF Hb. destruct (fmt_loop_ok (fat_lba F) fat_image (fat_positions F) d) as (d' & Hl & Hin & Hout).
  { apply fat_lba_nodup. }
  { apply Forall_forall. intros p _. unfold fat_image. destruct (p.2 =? 0); [apply fat_sector0_ok|apply zero_sector_ok]. }
  exists d'. split; [|done]. rewrite <- Hl. unfold fmt_fats, fat_positions.
  rewrite (for_loop_nested (λ _, range 0 F 1) (range 0 FMT_NUMFATS 1)
    (λ f si, fmt_write (u32 (FMT_RSVD + f * F + si)) (if si =? 0 then fat_sector0 else zero_sector))).
  apply for_loop_ext. intros [f si] t [Hf Hs]%elem_of_fat_positions. cbn [fst snd]. unfold fat_image, fat_lba. cbn [fst snd].
  rewrite u32_small; [done|]. unfold FMT_RSVD in *. nia.
Qed.

(** The layout of the formatted device. *)
Record formatted (N F : Z) (d : D) : Prop := {
  fm_boot : sector d 0 = boot_sector N F;
  fm_info : sector d 1 = fsinfo_sector;
  fm_table f si : 0 ≤ f < 2 → 0 ≤ si < F → sector d (32 + f * F + si) = fat_image (f, si);
  fm_root : sector d (32 + 2 * F) = zero_sector
}.

Lemma format_writes N F d : 0 < N → N < 2 ^ 31 → fat_size_loop 32 N 1 = Some F → 0 < F → 32 + 2 * F < 2 ^ 32 →
  ∃ d', fat32_format_ata_impl N d = Ret (0, d') ∧ formatted N F d'.
Proof.
  intros HN HN' HF HF0 Hb.
  destruct (fmt_write_ok 0 (boot_sector N F) d (boot_sector_ok N F)) as (d1 & Hw1 & Hd1).
  destruct (fmt_write_ok 1 fsinfo_sector d1 fsinfo_sector_ok) as (d2 & Hw2 & Hd2).
  destruct (fmt_loop_ok (λ s, s) (λ _, zero_sector) (range 2 FMT_RSVD 1) d2) as (d3 & Hw3 & _ & Hd3).
  { rewrite list_fmap_id. apply range_nodup. lia. }
  { apply Forall_forall. intros s _. apply zero_sector_ok. }
  rewrite list_fmap_id in Hd3.
  destruct (fmt_fats_ok F d3 HF0) as (d4 & Hw4 & Hin4 & Hd4); [unfold FMT_RSVD; lia|].
  destruct (fmt_write_ok (u32 (u32 (FMT_RSVD + FMT_NUMFATS * F) + 0)) zero_sector d4 zero_sector_ok) as (d5 & Hw5 & Hd5).
  assert (Hlba : u32 (u32 (FMT_RSVD + FMT_NUMFATS * F) + 0) = 32 + 2 * F).
  { unfold FMT_RSVD, FMT_NUMFATS. rewrite (u32_small (32 + 2 * F)), Z.add_0_r by lia. apply u32_small. lia. }
  assert (Hnt : ∀ l, l < 32 → l ∉ fat_lba F <$> fat_positions F).
  { intros l Hl ([f si] & -> & [Hf Hs]%elem_of_fat_positions)%list_elem_of_fmap. unfold fat_lba, FMT_RSVD in Hl. cbn in Hl. nia. }
  assert (Hnr : ∀ l, l < 2 → l ∉ range 2 FMT_RSVD 1) by (intros l Hl [? _]%elem_of_range; lia).
  exists d5. split.
  - unfold fat32_format_ata_impl. rewrite (proj2 (Z.leb_gt N 0)), (u32_small N) by lia. rewrite HF.
    rewrite Hw1. cbn [exit_bind rbind]. rewrite Hw2. cbn [exit_bind rbind]. rewrite Hw3. cbn [exit_bind rbind].
    rewrite Hw4. cbn [exit_bind rbind]. change (range 0 1 1) with [0]. cbn [for_loop]. rewrite Hw5. done.
  - rewrite Hlba in Hd5. split.
    + rewrite Hd5, (proj2 (Z.eqb_neq 0 _)) by lia. rewrite Hd4, Hd3, Hd2, Hd1 by (apply Hnt || apply Hnr; lia). done.
    + rewrite Hd5, (proj2 (Z.eqb_neq 1 _)) by lia. rewrite Hd4, Hd3, Hd2 by (apply Hnt || apply Hnr; lia). done.
    + intros f si Hf Hs. rewrite Hd5, (proj2 (Z.eqb_neq _ _)) by nia. apply (Hin4 (f, si)). by apply elem_of_fat_positions.
    + rewrite Hd5, Z.eqb_refl. done.
Qed.
End writes.

(** ** The size of the table *)

Lemma fat_size_ok n N : 36 ≤ N ≤ 2 ^ 27 → ∀ F0, 1 ≤ F0 ≤ (N * 4 + 511) `div` 512 →
  ∃ F, fat_size_loop n N F0 = Some F ∧ 1 ≤ F ≤ (N * 4 + 511) `div` 512.
Proof.
  intros HN. induction n as [|n IH]; intros F0 HF0; [by exists F0|]. cbn [fat_size_loop]. unfold FMT_RSVD, FMT_NUMFATS.
  set (B := (N * 4 + 511) `div` 512) in *.
  assert (512 * B ≤ N * 4 + 511) by (apply Z.mul_div_le; lia).
  rewrite u32_small by lia. rewrite i32_small by lia. rewrite (proj2 (Z.leb_gt _ 0)) by lia.
  set (k := N - 32 - 2 * F0). rewrite u32_small by (subst k; lia).
  destruct (Z.eqb_spec ((k * 4 + 512 - 1) `div` 512) F0); [by exists F0|]. apply IH. split.
  - apply Z.div_le_lower_bound; subst k; lia.
  - apply Z.div_le_mono; subst k; lia.
Qed.

(** ** The mounted volume *)

Lemma slice_replicate n k m : (k + m ≤ n)%nat → slice (replicate n 0) k m = replicate m 0.
Proof. intros. unfold slice. rewrite drop_replicate, take_replicate. f_equal. lia. Qed.

Lemma le_val_zeros n : le_val (replicate n 0) = 0.
Proof. induction n as [|n IH]; [done|]. cbn [replicate le_val]. lia. Qed.

(** Entries of the first table sector. *)
Lemma fat_sector0_entries :
  Forall (λ c, Z.land (le_val (slice fat_sector0 (Z.to_nat (4 * c)) 4)) LAST = if c =? 2 then LAST else 0) (seqZ 2 126).
Proof. apply (bool_decide_unpack _). vm_compute. done. Qed.

Section mounted.
Context {H D : Type} `{AllocatorSpec H} `{BlockDevSpec D} `{!ReliableDev D}.
Implicit Types d : D.

(** The geometry a formatted boot sector describes. *)
Record fresh (F : Z) (g : Fat) : Prop := {
  fr_ok : vol_ok g;
  fr_fatsz : FATSz32 (bpb g) = F;
  fr_begin : fat_begin_lba g = 32;
  fr_data : cluster_begin_lba g = 32 + 2 * F;
  fr_spc : sectors_per_cluster g = 1;
  fr_root : root_dir_cluster g = 2
}.

Lemma mount_formatted N F (y : FatSys H D) : 1 ≤ F → F * 128 ≤ BAD → mounted_drive (vol y) ≠ 1 →
  formatted N F (disk (fs (vfs y))) →
  ∃ y', fat32_init_from_ata y = Ret (0, y') ∧ fresh F (vol y') ∧ same (disk (fs (vfs y))) (disk (fs (vfs y')))
    ∧ heap (fs (vfs y')) = heap (fs (vfs y)).
Proof.
  intros HF Hb Hm Hfm. unfold BAD in Hb. destruct (read_boot N F ltac:(lia)) as (b & Hrb & B1 & B2 & B3 & B4 & B5 & B6).
  destruct (ata_read_ok 0 (disk (fs (vfs y)))) as (d' & Hr & Hs).
  set (g := vol y). set (g1 := set_geometry g b).
  exists (Sys (set_mounted g1 0 (mounted_module_name g1) (module_image g1) (module_image_size g1)) (set_fs (vfs y) (set_disk (fs (vfs y)) d'))).
  split_and!; [| |done|done].
  - unfold fat32_init_from_ata, fat32_read_sector. fold g.
    assert (Hx : ∀ img : option (list Z), (match img with
      | Some im => if (mounted_drive g =? 1) && (0 <? module_image_size g) && (0 <? bytes_per_sector g)
                   then let off := 0 * bytes_per_sector g in
                        if u64 (off + bytes_per_sector g) <=? module_image_size g
                        then if 512 <? bytes_per_sector g then UB
                             else let! b0 := bytes_at im off (bytes_per_sector g) in Ret (0, b0, disk (fs (vfs y)))
                        else Ret (-1, [], disk (fs (vfs y)))
                   else Ret (ata_read_sector 0 (disk (fs (vfs y))))
      | None => Ret (ata_read_sector 0 (disk (fs (vfs y)))) end) = Ret (0, boot_sector N F, d')).
    { intros img. rewrite (proj2 (Z.eqb_neq (mounted_drive g) 1)) by done. cbn [andb]. rewrite Hr, (fm_boot _ _ _ Hfm). by destruct img. }
    rewrite Hx. cbn [rbind]. change (negb (0 =? 0)) with false. cbn iota. rewrite Hrb. cbn [rbind]. fold g1.
    unfold geometry_ok. subst g1. cbn [bytes_per_sector sectors_per_cluster set_geometry]. rewrite B1, B2. done.
  - split; [|by cbn|by cbn|cbn|by cbn|by cbn].
    + assert (Hcb : u32 (RsvdSecCnt b + NumFATs b * FATSz32 b) = 32 + 2 * F) by (rewrite B3, B4, B5; apply u32_small; lia).
      split; unfold entries, BAD; cbn [vol fat32_ready mounted_drive bytes_per_sector sectors_per_cluster bpb fat_begin_lba
        cluster_begin_lba set_mounted set_geometry g1]; rewrite ?Hcb, ?B1, ?B2, ?B3, ?B4, ?B5; (reflexivity || lia).
    + rewrite B3, B4, B5. apply u32_small. lia.
Qed.

Lemma fresh_table N F g d c : fresh F g → formatted N F d → 2 ≤ c < entries g → fat_val g d c = if c =? 2 then LAST else 0.
Proof.
  intros [Hg Hz Hb _ _ _] Hfm Hc. unfold fat_val. rewrite Hb. unfold entries in Hc. rewrite Hz in Hc.
  pose proof (Z.mod_pos_bound c 128 ltac:(lia)). pose proof (Z.div_mod c 128 ltac:(lia)).
  assert (0 ≤ c `div` 128 < F) by (split; [apply Z.div_pos; lia|apply Z.div_lt_upper_bound; lia]).
  replace (32 + c `div` 128) with (32 + 0 * F + c `div` 128) by lia. rewrite (fm_table _ _ _ Hfm 0) by lia.
  unfold fat_image. cbn [snd]. destruct (Z.eqb_spec (c `div` 128) 0) as [Hq|Hq].
  - pose proof fat_sector0_entries as Hs. rewrite Forall_forall in Hs.
    assert (c `mod` 128 = c) as -> by lia. apply Hs. apply elem_of_seqZ. lia.
  - unfold zero_sector. rewrite slice_replicate, le_val_zeros by lia. rewrite (proj2 (Z.eqb_neq c 2)) by lia. done.
Qed.

Lemma fresh_free N F g d : fresh F g → formatted N F d → free_list g (fat_val g d) = seqZ 3 (entries g - 3).
Proof.
  intros Hf Hfm. assert (128 ≤ entries g).
  { destruct Hf as [Hg _ _ _ _ _]. pose proof (v_fatsz _ Hg). unfold entries. lia. }
  unfold free_list. rewrite seqZ_cons by lia. rewrite filter_cons_False.
  - replace (Z.succ 2) with 3 by lia. replace (Z.pred (entries g - 2)) with (entries g - 3) by lia.
    assert (∀ L : list Z, Forall (λ c, fat_val g d c = 0) L → filter (λ c, fat_val g d c = 0) L = L) as Hall.
    { induction 1 as [|x L Hx _ IH]; [done|]. by rewrite filter_cons_True, IH. }
    apply Hall, Forall_forall. intros c Hc%elem_of_seqZ. rewrite (fresh_table N F g d c) by (done || lia).
    by rewrite (proj2 (Z.eqb_neq c 2)) by lia.
  - rewrite (fresh_table N F g d 2) by (done || lia). done.
Qed.

Lemma fresh_slots F g : fresh F g → dir_slots g [2] = (λ off, (32 + 2 * F, off)) <$> range 0 512 32.
Proof.
  intros [_ _ _ Hd Hs _]. unfold dir_slots, chain_lbas. cbn [mbind list_bind]. rewrite app_nil_r.
  unfold cluster_lbas. rewrite Hs. change (range 0 1 1) with [0]. cbn [fmap list_fmap mbind list_bind].
  rewrite app_nil_r. unfold data_lba. rewrite Hd.
  apply list_fmap_ext. intros _ x _. f_equal. lia.
Qed.

Lemma fresh_dir N F g d name : fresh F g → formatted N F d →
  dir_ok g d name [2] [] (32 + 2 * F) 0 ((λ off, (32 + 2 * F, off)) <$> range 32 512 32).
Proof.
  intros Hf Hfm. pose proof (fresh_slots F g Hf) as Hsl.
  assert (128 ≤ entries g) by (pose proof (v_fatsz _ (fr_ok _ _ Hf)); unfold entries; lia).
  assert (He : ∀ off, off ∈ range 0 512 32 → slot_entry d (32 + 2 * F, off) = replicate 32 0).
  { intros off Ho%slot_off_bound. unfold slot_entry. cbn [fst snd]. rewrite (fm_root _ _ _ Hfm).
    unfold zero_sector. apply slice_replicate. lia. }
  split.
  - cbn [chain]. rewrite (fresh_table N F g d 2) by (done || lia). split; [lia|done].
  - apply NoDup_singleton.
  - rewrite Hsl. done.
  - constructor.
  - left. rewrite He; [done|]. by apply elem_of_range.
  - rewrite Hsl. apply Forall_forall. intros p (off & -> & Ho)%list_elem_of_fmap. rewrite He by done.
    intros (c & Hc & Hnz & _). cbn in Hc. congruence.
Qed.
End mounted.

Section theorem.
Context {H D : Type} `{AllocatorSpec H} `{BlockDevSpec D} `{!ReliableDev D}.

Lemma formatted_same N F (d d' : D) : same d d' → formatted N F d → formatted N F d'.
Proof. intros Hs [F1 F2 F3 F4]. split; intros; rewrite Hs; auto. Qed.

Lemma list_fresh N F (y : FatSys H D) : fresh F (vol y) → formatted N F (disk (fs (vfs y))) →
  ∃ y', fat32_list_dir None (Some [47]) y = Ret (0, [], y').
Proof.
  intros Hf Hfm. set (g := vol y) in *. set (d := disk (fs (vfs y))) in *.
  pose proof (fr_ok _ _ Hf) as Hg. pose proof (fresh_dir N F g d [] Hf Hfm) as [Hch Hnd _ _ _ _].
  destruct (chain_walk_ok g Hg true (λ names, (-1, names)) (λ names, (0, names)) (each_entry g visit_names) 2 [] [] d (inr (0, [])))
    as (d' & Hs & Hw); [done|done| |].
  { unfold visit_lbas, chain_lbas. cbn [mbind list_bind]. rewrite app_nil_r. unfold cluster_lbas. rewrite (fr_spc _ _ Hf).
    change (range 0 1 1) with [0]. cbn [fmap list_fmap for_loop]. unfold data_lba. rewrite (fr_data _ _ Hf).
    replace (32 + 2 * F + (2 - 2) * sectors_per_cluster g + 0) with (32 + 2 * F) by lia.
    rewrite (fm_root _ _ _ Hfm). unfold each_entry. rewrite (v_bps _ Hg). done. }
  eexists. unfold fat32_list_dir. fold g. rewrite (v_ready _ Hg). cbn [negb default from_option id drive_prefix andb].
  rewrite Z.eqb_refl. cbn [rbind]. fold g. cbn [skip_slash Z.eqb Pos.eqb length list_walk on_dev rbind].
  unfold on_dev at 1. cbn [list_walk rbind]. fold d. rewrite (fr_root _ _ Hf). change (2 <? 2) with false. cbn iota.
  rewrite (v_bps _ Hg). change ((512 =? 0) || (4096 <? 512)) with false. cbn iota.
  unfold on_dev. cbn [disk set_disk]. rewrite Hw. cbn [rbind]. reflexivity.
Qed.

(** C23. Formatting: a device of 36 to 2^27 sectors is formatted successfully, and mounting it
    then succeeds with a valid geometry: the root directory is cluster 2 and lists no file,
    every other cluster the table can name is free, and the heap is untouched. *)
Theorem format_mounts_empty (N : Z) (d : D) (HN : 36 ≤ N ≤ 2 ^ 27) :
  ∃ d', fat32_format_ata_impl N d = Ret (0, d') ∧
    ∀ y : FatSys H D, disk (fs (vfs y)) = d' → mounted_drive (vol y) ≠ 1 →
      ∃ y', fat32_init_from_ata y = Ret (0, y') ∧ vol_ok (vol y') ∧ root_dir_cluster (vol y') = 2
        ∧ free_list (vol y') (fat_val (vol y') (disk (fs (vfs y')))) = seqZ 3 (entries (vol y') - 3)
        ∧ (∃ y'', fat32_list_dir None (Some [47]) y' = Ret (0, [], y''))
        ∧ heap (fs (vfs y')) = heap (fs (vfs y)).
Proof.
  destruct (fat_size_ok 32 N HN 1) as (F & HF & HFb); [split; [lia|apply Z.div_le_lower_bound; lia]|].
  assert (512 * ((N * 4 + 511) `div` 512) ≤ N * 4 + 511) by (apply Z.mul_div_le; lia).
  destruct (format_writes N F d) as (d' & Hw & Hfm); [lia|lia|done|lia|lia|]. exists d'. split; [done|].
  intros y Hd Hm. rewrite <- Hd in Hfm.
  destruct (mount_formatted N F y ltac:(lia) ltac:(unfold BAD; lia) Hm Hfm) as (y' & Hi & Hf & Hs & Hh).
  pose proof (formatted_same _ _ _ _ Hs Hfm) as Hfm'.
  exists y'. split_and!; [done|apply (fr_ok _ _ Hf)|apply (fr_root _ _ Hf)|by eapply fresh_free|by eapply list_fresh|done].
Qed.
End theorem.

(** ** Concrete runs: a device of 200 sectors. *)

Definition no_bpb : BPB_FAT32 := Bpb [] [] 0 0 0 0 0 0 0 0 0 0 0 0 0 0 0 0 0 0 [] 0 0 0 0 [] [].
Definition boot_fat : Fat := FatState false no_bpb 0 0 0 0 0 (-1) [] None 0.
Definition sys_on (d : Disk) : FatSys Heap.Heap Disk := Sys boot_fat (VfsState (FsState h0 d [] false false) []).

Lemma format_mounts_empty_witness :
  ∃ d', fat32_format_ata_impl 200 (∅ : Disk) = Ret (0, d') ∧
    ∃ y', fat32_init_from_ata (sys_on d') = Ret (0, y') ∧ root_dir_cluster (vol y') = 2
      ∧ ∃ y'', fat32_list_dir (H0 := heap_allocator bi0) None (Some [47]) y' = Ret (0, [], y'').
Proof.
  destruct (format_mounts_empty (H0 := heap_allocator bi0) 200 (∅ : Disk)) as (d' & Hf & Hm); [lia|].
  exists d'. split; [exact Hf|]. destruct (Hm (sys_on d') eq_refl) as (y' & Hi & _ & Hr & _ & Hl & _); [done|].
  exists y'. split; [exact Hi|]. split; [exact Hr|exact Hl].
Defined.


(** * FAT32 on concrete devices

    Witnesses of the table theorems, and behaviours the code shows on small volumes. *)


(** A formatted and mounted device of 200 sectors. *)
Lemma small_volume : ∃ (g : Fat) (d : Disk), fresh 2 g ∧ formatted 200 2 d.
Proof.
  destruct (format_writes 200 2 (∅ : Disk)) as (d & Hf & Hfm); [lia|lia|reflexivity|lia|lia|].
  destruct (mount_formatted 200 2 (sys_on d)) as (y & Hi & Hfr & Hs & Hh); [lia|done|done|done|].
  exists (vol y), d. split; [exact Hfr|exact Hfm].
Qed.

Lemma alloc_cluster_lowest_witness :
  ∃ (g : Fat) (d : Disk) c d', vol_ok g ∧ alloc_cluster g d = Ret (c, d') ∧ c ≠ 0 ∧ fat_val g d' c = LAST.
Proof.
  destruct small_volume as (g & d & Hfr & Hfm). pose proof (fr_ok _ _ Hfr) as Hg.
  assert (entries g = 256) as He by (unfold entries; rewrite (fr_fatsz _ _ Hfr); done).
  destruct (alloc_cluster_lowest g Hg d) as (c & d' & Ha & [(-> & Hnone & _)|(Hc & _ & _ & Hv & _)]).
  - destruct (Hnone 3); [lia|]. rewrite (fresh_table 200 2) by (done || lia). done.
  - exists g, d, c, d'. split_and!; [exact Hg|exact Ha|lia|]. rewrite Hv, Z.eqb_refl by lia. done.
Defined.

Lemma free_cluster_chain_clears_witness :
  ∃ (g : Fat) (d : Disk) d', vol_ok g ∧ fat_val g d 2 = LAST ∧ free_cluster_chain g 2 d = Ret d' ∧ fat_val g d' 2 = 0.
Proof.
  destruct small_volume as (g & d & Hfr & Hfm). pose proof (fr_ok _ _ Hfr) as Hg.
  assert (entries g = 256) as He by (unfold entries; rewrite (fr_fatsz _ _ Hfr); done).
  assert (fat_val g d 2 = LAST) as H2 by (rewrite (fresh_table 200 2) by (done || lia); done).
  destruct (free_cluster_chain_clears g Hg d 2 []) as (d' & Hf & Hv & _).
  - cbn [chain]. rewrite H2. split; [lia|done].
  - apply NoDup_singleton.
  - exists g, d, d'. split_and!; [exact Hg|exact H2|exact Hf|]. rewrite Hv by lia. by rewrite bool_decide_true by left.
Defined.

(** ** Behaviours *)

Definition run {A} (k : Fat → HanaFS Heap.Heap Disk → res A) : res A :=
  let! (_, d) := fat32_format_ata_impl 200 (∅ : Disk) in
  let! (_, y) := fat32_init_from_ata (sys_on d) in k (vol y) (fs (vfs y)).
Definition open_file (g : Fat) (p : string) (s : HanaFS Heap.Heap Disk) : res (option (list Z)) :=
  let! (r, _) := fat32_get_file_alloc (H0 := heap_allocator bi0) g (str p) s in Ret ((λ f, f.1.2) <$> r).

(** A name whose extension is shorter than three characters cannot be opened: the padding
    stays in the extension that is compared. *)
Example short_extension_lost :
  run (λ g s, let! (rc, d) := fat32_write_file g (str "/main.c") (Some [1; 2; 3]) 3 (disk s) in
              let! r := open_file g "/main.c" (set_disk s d) in Ret (rc, r)) = Ret (0, None).
Proof. vm_compute. reflexivity. Qed.

(** The removal compares only the characters of the given name: [/a] removes [/abc.txt]. *)
Example unlink_removes_prefix_match :
  run (λ g s, let! (rc1, d) := fat32_write_file g (str "/abc.txt") (Some [1; 2; 3]) 3 (disk s) in
              let! (rc2, d) := fat32_unlink g (str "/a") d in
              let! r := open_file g "/abc.txt" (set_disk s d) in Ret (rc1, rc2, r)) = Ret (0, 0, None).
Proof. vm_compute. reflexivity. Qed.

(** Writing [/a.txt] first removes [/a.txt~], which begins with it. *)
Example write_removes_prefix_match :
  run (λ g s, let! (_, d) := fat32_write_file g (str "/abc") (Some [1; 2; 3]) 3 (disk s) in
              let! (_, d) := fat32_write_file g (str "/ab") (Some [4]) 1 d in
              let! r1 := open_file g "/abc" (set_disk s d) in
              let! r2 := open_file g "/ab" (set_disk s d) in Ret (r1, r2)) = Ret (None, Some [4]).
Proof. vm_compute. reflexivity. Qed.

(** An empty file exists but cannot be opened. *)
Example fat_empty_unreadable :
  run (λ g s, let! (rc, d) := fat32_write_file g (str "/empty") (Some []) 0 (disk s) in
              let! r := open_file g "/empty" (set_disk s d) in Ret (rc, r)) = Ret (0, None).
Proof. vm_compute. reflexivity. Qed.

(** The path [/] reaches the comparison with a component that was never filled in. *)
Example unlink_root_undefined :
  run (λ g s, let! (_, d) := fat32_create_file g (str "/x") (disk s) in
              let! (rc, _) := fat32_unlink g (str "/") d in Ret rc) = UB.
Proof. vm_compute. reflexivity. Qed.

(** The allocator does not look at the volume's size: on 100 sectors, with 34 used by the
    layout, the table has room for clusters beyond the end. *)
Example clusters_beyond_device :
  (let! (_, d) := fat32_format_ata_impl 100 (∅ : Disk) in
   let! (_, y) := fat32_init_from_ata (sys_on d) in
   Ret (TotSec32 (bpb (vol y)), data_lba (vol y) (entries (vol y) - 1) 0)) = Ret (100, 159).
Proof. vm_compute. reflexivity. Qed.

(** ** A volume mounted from a module: reads come from the image, writes go to the device. *)

Definition image_200 : list Z :=
  match fat32_format_ata_impl 200 (∅ : Disk) with
  | Ret (_, d) => seqZ 0 100 ≫= disk_sector d
  | _ => []
  end.
Example module_writes_lost :
  (let! (rc, y) := fat32_init_from_memory (H0 := heap_allocator bi0) (Some image_200) (zlen image_200) (sys_on ∅) in
   let! (rc1, d) := fat32_create_file (vol y) (str "/new.txt") (disk (fs (vfs y))) in
   let y := Sys (vol y) (set_fs (vfs y) (set_disk (fs (vfs y)) d)) in
   let! (_, names, y) := fat32_list_dir (H0 := heap_allocator bi0) None (Some (str "/")) y in
   Ret (rc, rc1, names, bool_decide (disk_sector d 36 = zero_sector))) = Ret (0, 0, [], false).
Proof. vm_compute. reflexivity. Qed.

(** A failed mount leaves the new geometry in place of the mounted volume's. *)
Example failed_mount_clobbers_geometry :
  run (λ g s,
    let! (rc, y) := fat32_init_from_memory (H0 := heap_allocator bi0) (Some (replicate 512 0)) 512 (Sys g (VfsState s [])) in
    Ret (rc, fat32_ready (vol y), bytes_per_sector (vol y))) = Ret (-1, true, 0).
Proof. vm_compute. reflexivity. Qed.

(** ** A table entry that names itself

    [list_dir] and [read_file] test for it; the look-ups do not. *)
Definition looped : res (Fat * Disk) :=
  run (λ g s, let! (_, d) := write_fat_entry g 2 2 (disk s) in
              let '(_, d) := ata_write_sector 36 (replicate 512 65) d in Ret (g, d)).

(** Reads leave a [Disk] as it is. *)
Lemma disk_read_id g cap lba (d : Disk) rc b d' : fat32_read_sector g cap lba d = Ret (rc, b, d') → d' = d.
Proof. unfold fat32_read_sector. intros Hr. repeat case_match; inv_ret; try done; cbn in *; simplify_eq; done. Qed.

Lemma disk_entry_id g c (d : Disk) v d' : read_fat_entry g c d = Ret (v, d') → d' = d.
Proof.
  unfold read_fat_entry. intros Hr. repeat case_match; inv_ret; try done.
  apply disk_read_id in E. subst. case_match; inv_ret; done.
Qed.

Lemma disk_walk_id {A R} g self err stop (visit : Z → list Z → A → res (A + R)) c a (d : Disk) c' a' d' :
  chain_step g self err stop visit (c, a, d) = Ret (inl (c', a', d')) → d' = d.
Proof.
  unfold chain_step. intros Hr. destruct (negb (in_chain c)); [done|].
  assert (Hl : ∀ l a d a' d', for_loop l (chain_sector g err visit c) (a, d) = Ret (inl (a', d')) → d' = d).
  { clear. induction l as [|s l IH]; intros a d a' d' Hf; [by injection Hf|]. cbn [for_loop] in Hf.
    unfold exit_bind in Hf. apply rbind_Ret in Hf as ([[a1 d1]|r] & Hs & Hf); [|done]. apply IH in Hf. subst.
    unfold chain_sector in Hs. apply rbind_Ret in Hs as ([[rc b] d2] & Hrd & Hs). apply disk_read_id in Hrd. subst.
    destruct (negb (rc =? 0)); [done|]. apply rbind_Ret in Hs as ([x|x] & _ & Hs); [by injection Hs|done]. }
  apply rbind_Ret in Hr as ([[a1 d1]|r] & Hf & Hr); [|done]. apply Hl in Hf. subst.
  apply rbind_Ret in Hr as ([n d2] & Hn & Hr). apply disk_entry_id in Hn. subst.
  destruct (_ || _ || _ || _); [done|]. by injection Hr.
Qed.

Example self_loop_hangs :
  (let! (g, d) := looped in let! (_, _) := dir_search g (visit_sub true (str "x")) 2 d in Ret tt) = Diverges.
Proof.
  assert (Hs : (let! (g, d) := looped in
    let! x := chain_step g false (λ _, None) (λ _, None) (each_entry g (visit_sub true (str "x"))) (2, tt, d) in
    Ret (match x with inl (c, _, _) => c | inr _ => 0 end)) = Ret 2) by (vm_compute; reflexivity).
  destruct looped as [[g d]| |]; [|done..]. cbn [rbind] in *.
  apply rbind_Ret in Hs as ([[[c []] d']|r] & Hst & Hc); [|done]. injection Hc as ->.
  unfold dir_search, chain_walk. rewrite while_stuck; [done|]. rewrite Hst. by rewrite (disk_walk_id _ _ _ _ _ _ _ _ _ _ _ Hst).
Qed.
