(* ===== verification/Commands.v ===== *)
(** * The built-in shell (kernel/shell/commands.cpp, shell.cpp)

    The commands over the kernel state, the accounts and the FAT32 driver's globals, and the
    loop that reads, parses and dispatches lines.  What is printed goes to the terminal's
    screen.  Boot modules are given with their path and image; running a loaded program is a
    parameter. *)
From S2P Require Import Prelude CString HeapSpec Tty BlockDev HanaFs Vfs Sched Syscalls Users Shell LibC Fat FatMount.

Record Session (H D : Type) := SessionState {
  kern : Kernel H D; accounts : Users.Users; fat : Fat; cwd : list Z; keys : list Z
}.
Arguments SessionState {H D} _ _ _ _ _.
Arguments kern {H D} _.
Arguments accounts {H D} _.
Arguments fat {H D} _.
Arguments cwd {H D} _.
Arguments keys {H D} _.

Section commands.
Context {H D : Type} `{Allocator H} `{BlockDev D} `{FatFs H D} `{Loader H}.
Context (task_trampoline user_mode_entry_trampoline : Z).
(** The boot modules, the running of a kernel-mode entry point, __DATE__ and __TIME__. *)
Context (modules : option (list BootModule)) (run_entry : Z → Kernel H D → Kernel H D) (date time : list Z).
Notation S := (Session H D).

Definition with_kern (k : Kernel H D) (s : S) : S := SessionState k (accounts s) (fat s) (cwd s) (keys s).
Definition with_accounts (u : Users.Users) (s : S) : S := SessionState (kern s) u (fat s) (cwd s) (keys s).
Definition with_keys (l : list Z) (s : S) : S := SessionState (kern s) (accounts s) (fat s) (cwd s) l.
Definition prints (l : list (list Z)) (s : S) : S :=
  with_kern (set_ktty (kern s) (foldl print (ktty (kern s)) l)) s.
Definition nl : list Z := [10].

Definition cmd_help (s : S) : res (Z * S) :=
  Ret (0, prints [nl ++ str "=== Available Commands ===" ++ nl;
    str "help              - Show this help message" ++ nl; str "exit              - Exit the shell" ++ nl;
    str "logout            - Exit the shell" ++ nl; str "clear             - Clear the screen" ++ nl;
    str "echo <text>       - Echo text to screen" ++ nl; str "whoami            - Display current user info" ++ nl;
    str "pwd               - Print working directory" ++ nl; str "cd <path>         - Change directory (stub)" ++ nl;
    str "ls [path]         - List directory contents" ++ nl; str "lsblk            - List block devices and mounts" ++ nl;
    str "version           - Show system version" ++ nl; nl] s).

Definition cmd_echo (args : list Z) (s : S) : res (Z * S) :=
  Ret (0, prints (match args with [] => [nl] | _ => [args; nl] end) s).

Definition cmd_whoami (s : S) : res (Z * S) :=
  let uid := get_current_uid (accounts s) in
  let gid := get_current_gid (accounts s) in
  let! username := get_username_by_uid uid (accounts s) in
  let! uidstr := line 16 "%u" [AInt uid] in
  let! gidstr := line 16 "%u" [AInt gid] in
  Ret (0, prints [username; str " (uid="; uidstr; str ", gid="; gidstr; str ")" ++ nl] s).

Definition cmd_version (s : S) : res (Z * S) :=
  Ret (0, prints [str "HanaCore vI dont remmeber lmao "; date; str " "; time; nl] s).
Definition cmd_pwd (s : S) : res (Z * S) := Ret (0, prints [str "/" ++ nl] s).
Definition cmd_cd (args : list Z) (s : S) : res (Z * S) :=
  match args with
  | [] => Ret (1, prints [str "cd: missing argument" ++ nl] s)
  | _ => Ret (1, prints [str "cd: directory changing not yet implemented" ++ nl] s)
  end.
Definition cmd_clear (s : S) : res (Z * S) := Ret (0, prints [27 :: str "[2J"; 27 :: str "[H"] s).

(** ** External commands *)

(** The part of a path after its last slash. *)
Fixpoint after_slash (p name : list Z) : list Z :=
  match p with
  | [] => name
  | c :: p => after_slash p (if c =? 47 then p else name)
  end.
Definition file_name (p : list Z) : list Z := after_slash p p.

(** The first module of that name, if any. *)
Fixpoint find_module (cmdname : list Z) (mods : list BootModule) : option (list Z) :=
  match mods with
  | [] => None
  | (None, _) :: mods => find_module cmdname mods
  | (Some path, image) :: mods => if strcmp (file_name path) cmdname =? 0 then Some image else find_module cmdname mods
  end.

Definition load_image (image : list Z) (n : Z) (s : S) : res (Z * S) :=
  let! (entry, h) := elf_load image n (kheap (kern s)) in Ret (entry, with_kern (set_kheap (kern s) h) s).
Definition free_buf (p : Z) (s : S) : S := with_kern (set_kheap (kern s) (afree p (kheap (kern s)))) s.
Definition start_task (entry stack : Z) (s : S) : res (Z * S) :=
  let! (pid, h, t) := create_user_task task_trampoline user_mode_entry_trampoline entry stack (kheap (kern s)) (ksched (kern s)) in
  Ret (pid, with_kern (set_ksched (set_kheap (kern s) h) t) s).
Definition fetch (path : list Z) (s : S) : res (option file_buf * S) :=
  let! (o, v) := vfs_get_file_alloc (Some path) (kvfs (kern s)) in Ret (o, with_kern (set_kvfs (kern s) v) s).

Definition run_file (binpath : list Z) (p : Z) (bytes : list Z) (n : Z) (s : S) : res (Z * S) :=
  let! (entry, s) := load_image bytes n s in
  let s := free_buf p s in
  if entry =? 0 then Ret (1, prints [str "Failed to load ELF from "; binpath; nl] s)
  else
    let! (pid, s) := start_task entry (16 * 1024) s in
    if pid =? 0 then Ret (1, prints [str "Failed to create user task for "; binpath; nl] s)
    else let! (_, tmp) := vsnprintf 32 (str "Started pid=%d" ++ nl) [AInt pid] in Ret (0, prints [tmp] s).

Definition cmd_exec_external (cmdname : list Z) (s : S) : res (Z * S) :=
  match cmdname with
  | [] => Ret (-1, s)
  | _ =>
      match find_module cmdname (default [] modules) with
      | Some image =>
          let! (entry, s) := load_image image (zlen image) s in
          if negb (entry =? 0) then Ret (0, with_kern (run_entry entry (kern s)) s)
          else Ret (1, prints [str "Failed to load ELF: "; cmdname; nl] s)
      | None =>
          let! binpath := line 256 "/bin/%s" [AStr cmdname] in
          let! (o, s) := fetch binpath s in
          match o with
          | Some (p, bytes, n) =>
              if 0 <? n then run_file binpath p bytes n s
              else Ret (127, prints [str "Command not found: "; cmdname; nl] (free_buf p s))
          | None => Ret (127, prints [str "Command not found: "; cmdname; nl] s)
          end
      end
  end.

(** ** Listings *)

Definition cmd_ls (args : list Z) (s : S) : res (Z * S) :=
  let path := match args with [] => str "/" | _ => args end in
  let! (rc, names, v) := vfs_list_dir (Some path) (kvfs (kern s)) in
  let s := prints (names ≫= λ n, [n; nl]) (with_kern (set_kvfs (kern s) v) s) in
  if negb (rc =? 0) then
    let! tmp := line 16 "%d" [AInt rc] in
    Ret (1, prints [str "Cannot list directory: "; path; str " (rc="; tmp; str ")" ++ nl] s)
  else Ret (0, match names with [] => prints [str "(empty directory)" ++ nl] s | _ => s end).

(** The collector keeps 64 lines of at most 127 characters. *)
Definition lsblk_collect_cb (col : list (list Z)) (l : list Z) : list (list Z) :=
  if 64 <=? zlen col then col else col ++ [take 127 l].

Definition cmd_lsblk (s : S) : res (Z * S) :=
  let s := prints [str "=== lsblk ===" ++ nl; str "-- VFS mounts --" ++ nl] s in
  let col := foldl lsblk_collect_cb [] (vfs_list_mounts (kvfs (kern s))).2 in
  let s := prints [str "-- FAT32 summary --" ++ nl] s in
  let! col :=
    if fat32_ready (fat s) then let! l := fat32_get_summary (fat s) in Ret (foldl lsblk_collect_cb col l)
    else Ret (if zlen col <? 64 then col ++ [str "(FAT32 not initialized)"] else col) in
  Ret (0, prints (col ≫= λ l, [l; nl]) s).

(** ** The command loop *)

Definition prompt (s : S) : res S :=
  let! username := get_username_by_uid (get_current_uid (accounts s)) (accounts s) in
  Ret (prints [username; str ":"; cwd s; str "$ "] s).

Definition is_cmd (cmd : list Z) (name : string) : bool := strcmp cmd (str name) =? 0.

(** [None]: the shell is left. *)
Definition dispatch (cmd args : list Z) (s : S) : res (option Z * S) :=
  if is_cmd cmd "exit" || is_cmd cmd "logout" then Ret (None, prints [str "Exiting shell..." ++ nl] s)
  else
    let! (ret, s) :=
      if is_cmd cmd "help" then cmd_help s
      else if is_cmd cmd "echo" then cmd_echo args s
      else if is_cmd cmd "whoami" then cmd_whoami s
      else if is_cmd cmd "version" then cmd_version s
      else if is_cmd cmd "pwd" then cmd_pwd s
      else if is_cmd cmd "cd" then cmd_cd args s
      else if is_cmd cmd "clear" then cmd_clear s
      else if is_cmd cmd "ls" then cmd_ls args s
      else if is_cmd cmd "lsblk" then cmd_lsblk s
      else cmd_exec_external cmd s in
    Ret (Some ret, s).

(** One line: the buffers are written before they are read. *)
Definition shell_line (s : S) : res (option Z * S) :=
  let! s := prompt s in
  let! (buf, out, rest) := read_line (keys s) 512 (replicate 512 0) in
  let s := prints out (with_keys rest s) in
  match cstr buf with
  | [] => Ret (Some 0, s)
  | l =>
      let! (cmd, args) := parse l (replicate 128 0) 128 (replicate 384 0) 384 in
      dispatch (cstr cmd) (cstr args) s
  end.

Fixpoint shell_loop (n : nat) (s : S) : res S :=
  match n with
  | O => Diverges
  | Datatypes.S n =>
      let! (r, s) := shell_line s in
      match r with None => Ret s | Some _ => shell_loop n s end
  end.

(** Each line takes a key, so the keys bound the rounds. *)
Definition builtin_shell_main (s : S) : res S :=
  let s := prints [nl ++ str "╔════════════════════════════════════════╗" ++ nl;
                   str "║     HanaCore          Shell v1.0       ║" ++ nl;
                   str "╚════════════════════════════════════════╝" ++ nl ++ nl;
                   str "Type 'help' for available commands." ++ nl ++ nl] s in
  shell_loop (Datatypes.S (length (keys s))) s.
End commands.
