(* ===== verification/Login.v ===== *)
(** * The log-in loop (kernel/userland/login.cpp)

    Name and password are read from the keyboard, checked against the accounts, and the user's
    shell is started; three failures halt the machine. *)
From S2P Require Import Prelude CString Bump Heap HeapSpec Tty BlockDev HanaFs Vfs VfsSpec Sched Syscalls Pipes Users Shell LibC Fat FatDir FatMount FatFresh Commands.

(** What [login_main] ends with. *)
Inductive ending := Halted.

Section login.
Context {H D : Type} `{Allocator H} `{BlockDev D} `{FatFs H D} `{Loader H}.
Context (task_trampoline user_mode_entry_trampoline : Z).
Context (modules : option (list BootModule)) (run_entry : Z → Kernel H D → Kernel H D) (date time : list Z).
(** What other tasks do while the log-in waits, and the number of switches it waits for. *)
Context (others : H → Sched → H * Sched) (fuel : nat).
Notation S := (Session H D).

(** The reader's echo goes through [tty_write]. *)
Fixpoint tty_writes (l : list (list Z)) (t : Tty) : res Tty :=
  match l with [] => Ret t | x :: l => let! t := tty_write t x in tty_writes l t end.
Definition read_input (reader : list Z → Z → list Z → res (list Z * list (list Z) * list Z)) (size : Z) (s : S) : res (list Z * S) :=
  let! (buf, out, rest) := reader (keys s) size (replicate (Z.to_nat size) 0) in
  let! t := tty_writes out (ktty (kern s)) in
  Ret (cstr buf, with_keys rest (with_kern (set_ktty (kern s) t) s)).

(** ** Finding the shell *)

Definition to_upper (p : list Z) : list Z := (λ c, if (97 <=? c) && (c <=? 122) then c - 97 + 65 else c) <$> p.

(** A buffer that counts as found, and the address to free. *)
Definition found (o : option file_buf) : option (Z * list Z * Z) :=
  match o with Some (p, bytes, n) => if 0 <? n then Some (p, bytes, n) else None | None => None end.

(** The first module whose path ends in the shell's file name. *)
Fixpoint shell_module (name : list Z) (mods : list BootModule) : option (list Z) :=
  match mods with
  | [] => None
  | (None, _) :: mods => shell_module name mods
  | (Some path, image) :: mods => if ends_with path name then Some image else shell_module name mods
  end.

(** The image, its size, and the buffer to free if it came from the VFS. *)
Definition find_shell (sh : list Z) (s : S) : res (option (list Z * Z * option Z) * S) :=
  let! (o, s) := fetch sh s in
  match found o with
  | Some (p, bytes, n) => Ret (Some (bytes, n, Some p), s)
  | None =>
      let! (o, s) := if bool_decide (head sh = Some 47) then fetch (to_upper (take 255 sh)) s else Ret (None, s) in
      match found o with
      | Some (p, bytes, n) => Ret (Some (bytes, n, Some p), s)
      | None =>
          match modules with
          | Some mods =>
              match shell_module (file_name sh) mods with
              | Some image => Ret (if 0 <? zlen image then Some (image, zlen image, None) else None, s)
              | None => Ret (None, s)
              end
          | None => Ret (None, s)
          end
      end
  end.

Definition free_shell (p : option Z) (s : S) : S := match p with Some p => free_buf p s | None => s end.

Definition launch_shell (u : User) (s : S) : res S :=
  let s := prints [nl ++ str "Welcome to HanaCore!" ++ nl; str "Type 'help' for available commands." ++ nl ++ nl] s in
  let! (o, s) := find_shell (shell u) s in
  match o with
  | Some (bytes, n, p) =>
      let! (entry, s) := load_image bytes n s in
      if negb (entry =? 0) then
        let! (pid, s) := start_task task_trampoline user_mode_entry_trampoline entry (64 * 1024) s in
        if pid =? 0 then Ret (prints [str "Failed to create user shell task." ++ nl] s)
        else
          let s := free_shell p s in
          let! (h, t) := wait_task fuel others pid (kheap (kern s)) (ksched (kern s)) in
          Ret (with_kern (set_ksched (set_kheap (kern s) h) t) s)
      else Ret (free_shell p (prints [str "Failed to load shell binary." ++ nl] s))
  | None =>
      builtin_shell_main task_trampoline user_mode_entry_trampoline modules run_entry date time
        (prints [str "Shell not found." ++ nl; str "Using built-in shell." ++ nl ++ nl] s)
  end.

(** ** The loop *)

Definition max_attempts : Z := 3.

(** One round: the number of failures after it, or the halt. *)
Definition login_attempt (failed : Z) (s : S) : res ((Z * S) + (ending * S)) :=
  let! (username, s) := read_input read_line 64 (prints [str "login: "] s) in
  let! (password, s) := read_input read_password 128 (prints [str "Password: "] s) in
  let! ok := authenticate_user (Some username) (Some password) (accounts s) in
  if ok : bool then
    let! o := get_user_by_name (Some username) (accounts s) in
    match o with
    | Some u =>
        let! s := launch_shell u (with_accounts (set_current_user (uid u) (ugid u) (accounts s)) s) in Ret (inl (failed, s))
    | None => Ret (inl (failed, s))
    end
  else if failed + 1 <? max_attempts then Ret (inl (failed + 1, prints [str "Login failed. Try again." ++ nl ++ nl] s))
  else Ret (inr (Halted, prints [str "Maximum login attempts exceeded. System halting." ++ nl] s)).

Fixpoint login_loop (n : nat) (failed : Z) (s : S) : res (ending * S) :=
  match n with
  | O => Diverges
  | Datatypes.S n =>
      let! x := login_attempt failed s in
      match x with inl (failed, s) => login_loop n failed s | inr r => Ret r end
  end.

Definition banner : list Z :=
  nl ++ str "  ╔═══════════════════════════════════════╗" ++ nl ++ str "  ║        HanaCore Operating System      ║" ++ nl
  ++ str "  ║           Login Interface             ║" ++ nl ++ str "  ╚═══════════════════════════════════════╝" ++ nl ++ nl.

(** Every round takes keys, so the keys bound the rounds. *)
Definition login_main (s : S) : res (ending * S) :=
  let s := with_accounts (init_users (accounts s)) s in
  let s := with_kern (set_ktty (kern s) (tty_init (ktty (kern s)))) s in
  let s := prints [banner] s in
  login_loop (Datatypes.S (length (keys s))) 0 s.

(** ** Room in the terminals' histories *)

Definition tty_room (n : Z) (t : Tty) : Prop := ∃ logs, vts_ok t logs ∧ Forall (λ log, zlen log + n < 2 ^ 32) logs.

Lemma tty_room_le n m t : m ≤ n → tty_room n t → tty_room m t.
Proof. intros Hm (logs & Hok & Hl). exists logs. split; [done|]. eapply Forall_impl; [exact Hl|]. cbn. lia. Qed.
Lemma tty_room_print n t x : tty_room n t → tty_room n (print t x).
Proof. intros (logs & Hok & Hl). exists logs. split; [by apply vts_ok_screen|done]. Qed.
Lemma tty_room_prints n l : ∀ t, tty_room n t → tty_room n (foldl print t l).
Proof. induction l as [|x l IH]; intros t Ht; [done|]. cbn. by apply IH, tty_room_print. Qed.

Lemma tty_write_room n t x : 0 ≤ n → tty_room (zlen x + n) t → ∃ t', tty_write t x = Ret t' ∧ tty_room n t'.
Proof.
  intros Hn (logs & Hok & Hl). pose proof (vo_active _ _ Hok) as Ha. pose proof (zlen_nonneg x).
  destruct (lookup_lt_is_Some_2 logs (Z.to_nat (active_vt t))) as [log Hlog].
  { rewrite (vo_logs _ _ Hok). unfold TTY_NUM_VT in Ha. lia. }
  pose proof (Forall_lookup_1 _ _ _ _ Hl Hlog) as Hroom. cbn in Hroom.
  destruct (vt_puts_spec x t logs (active_vt t) log) as (t' & Hw & Hok' & _); [done..|lia|].
  unfold tty_write, vt_append. rewrite Hw. cbn [rbind]. eexists. split; [done|]. apply tty_room_print. eexists. split; [done|].
  apply Forall_insert; [|rewrite zlen_app; lia]. eapply Forall_impl; [exact Hl|]. cbn. lia.
Qed.

Lemma tty_writes_room n l : ∀ t, 0 ≤ n → tty_room (zlen (mjoin l) + n) t → ∃ t', tty_writes l t = Ret t' ∧ tty_room n t'.
Proof.
  induction l as [|x l IH]; intros t Hn Ht; [by exists t|].
  change (mjoin (x :: l)) with (x ++ mjoin l) in Ht. rewrite zlen_app, <- Z.add_assoc in Ht. pose proof (zlen_nonneg (mjoin l)).
  destruct (tty_write_room (zlen (mjoin l) + n) t x) as (t1 & Hw & Ht1); [lia|done|].
  cbn [tty_writes]. rewrite Hw. cbn [rbind]. by apply IH.
Qed.

(** ** Typing a line *)

(** Keys typed before Enter, and the line they make. *)
Definition typed (size : Z) (ks : list Z) : Prop := Forall (λ c, c ≠ 10 ∧ c ≠ 13) ks ∧ stays_short (size - 1) [] ks.
Notation edited := (foldl edit_key []).

(** [s] with other terminals and keys. *)
Definition at_prompt (t : Tty) (rest : list Z) (s : S) : S := with_keys rest (with_kern (set_ktty (kern s) t) s).

Lemma read_input_ok (password : bool) size ks rest n (s : S) :
  0 < size → typed size ks → keys s = ks ++ 10 :: rest → 0 ≤ n → tty_room (3 * zlen ks + 1 + n) (ktty (kern s)) →
  ∃ t', tty_room n t' ∧ read_input (if password then read_password else read_line) size s = Ret (edited ks, at_prompt t' rest s).
Proof.
  intros Hsz [Hk Hs] Hkeys Hn Ht. set (echo := if password then λ _, 42 else id).
  assert (Hecho : ∀ c, 32 ≤ c < 127 → echo c ≠ 8) by (unfold echo; destruct password; cbn; lia).
  destruct (read_result echo Hecho ks size (replicate (Z.to_nat size) 0) 10 rest) as (buf & shown & Hr & _ & Hc & _ & Hl);
    [by left|done|done|unfold zlen; rewrite length_replicate; lia|].
  assert (Hrd : (if password then read_password else read_line) (keys s) size (replicate (Z.to_nat size) 0) = Ret (buf, shown ++ [[10]], rest)).
  { rewrite Hkeys. unfold echo in Hr. by destruct password. }
  unfold read_input. rewrite Hrd. cbn [rbind].
  destruct (tty_writes_room n (shown ++ [[10]]) (ktty (kern s))) as (t' & -> & Ht'); [done| |].
  - eapply tty_room_le; [|exact Ht]. unfold zlen. rewrite join_app, length_app. cbn. lia.
  - exists t'. split; [done|]. cbn [rbind]. by rewrite Hc.
Qed.

Lemma edited_cstr ks : cstr_ok (edited ks).
Proof. eapply Forall_impl; [by apply edited_printable|]. unfold cchar. cbn. lia. Qed.

(** ** One attempt *)

Definition attempt_keys (a : list Z * list Z) : list Z := a.1 ++ 10 :: a.2 ++ [10].
Definition attempt_typed (a : list Z * list Z) : Prop := typed 64 a.1 ∧ typed 128 a.2.
Definition accepted (a : list Z * list Z) : Prop :=
  edited a.1 = str "root" ∧ edited a.2 = str "root" ∨ edited a.1 = str "guest" ∧ edited a.2 = str "guest".

Lemma attempt_reads a rest n u0 failed (s : S) :
  attempt_typed a → keys s = attempt_keys a ++ rest → accounts s = init_users u0 →
  0 ≤ n → tty_room (3 * zlen (attempt_keys a) + n) (ktty (kern s)) →
  ∃ t', tty_room n t' ∧
    login_attempt failed s =
      if bool_decide (accepted a) then
        let! o := get_user_by_name (Some (edited a.1)) (accounts s) in
        match o with
        | Some u => let! s' := launch_shell u (with_accounts (set_current_user (uid u) (ugid u) (accounts s)) (at_prompt t' rest s)) in Ret (inl (failed, s'))
        | None => Ret (inl (failed, at_prompt t' rest s))
        end
      else if failed + 1 <? max_attempts then Ret (inl (failed + 1, prints [str "Login failed. Try again." ++ nl ++ nl] (at_prompt t' rest s)))
      else Ret (inr (Halted, prints [str "Maximum login attempts exceeded. System halting." ++ nl] (at_prompt t' rest s))).
Proof.
  intros [Ht1' Ht2'] Hk Hu Hn Ht. unfold attempt_keys in *. rewrite <- app_assoc in Hk. cbn [app] in Hk. rewrite <- app_assoc in Hk. cbn [app] in Hk.
  rewrite !zlen_app, zlen_cons, zlen_app in Ht. change (zlen [10]) with 1 in Ht.
  pose proof (zlen_nonneg a.1). pose proof (zlen_nonneg a.2). unfold login_attempt.
  destruct (read_input_ok false 64 a.1 (a.2 ++ 10 :: rest) (3 * zlen a.2 + 1 + n) (prints [str "login: "] s)) as (t1 & Ht1 & Hr1);
    [lia|done|exact Hk|lia|apply tty_room_print; eapply tty_room_le; [|exact Ht]; lia|].
  cbn [foldl prints] in Hr1. rewrite Hr1. cbn [rbind].
  set (s1 := prints [str "Password: "] _).
  destruct (read_input_ok true 128 a.2 rest n s1) as (t2 & Ht2 & Hr2); [lia|done|done|done|by apply tty_room_print|].
  rewrite Hr2. cbn [rbind]. exists t2. split; [done|].
  change (accounts (at_prompt t2 rest s1)) with (accounts s). change (at_prompt t2 rest s1) with (at_prompt t2 rest s).
  rewrite Hu. rewrite (proj1 (authenticate_accepts u0 _ _ (edited_cstr a.1) (edited_cstr a.2))). cbn [rbind].
  by unfold accepted.
Qed.

(** Nothing but the terminals and the keys differs. *)
Definition untouched (s s' : S) : Prop :=
  kvfs (kern s') = kvfs (kern s) ∧ ksched (kern s') = ksched (kern s) ∧ kpipes (kern s') = kpipes (kern s) ∧
  umem (kern s') = umem (kern s) ∧ accounts s' = accounts s ∧ fat s' = fat s.

(** A run of rejected attempts. *)
Lemma reject_run u0 as_ rest : ∀ n failed (s : S),
  0 ≤ failed → failed + zlen as_ = max_attempts → as_ ≠ [] → (length as_ ≤ n)%nat →
  Forall (λ a, attempt_typed a ∧ ¬ accepted a) as_ → keys s = (as_ ≫= attempt_keys) ++ rest → accounts s = init_users u0 →
  tty_room (3 * zlen (as_ ≫= attempt_keys)) (ktty (kern s)) →
  ∃ s', login_loop n failed s = Ret (Halted, s') ∧ keys s' = rest ∧ untouched s s'.
Proof.
  induction as_ as [|a as_ IH]; intros n failed s Hf Hc Hne Hn Ha Hk Hu Ht; [done|]. destruct n as [|n]; cbn [length] in Hn; [lia|].
  apply Forall_cons in Ha as [[Hty Hna] Ha]. change ((a :: as_) ≫= attempt_keys) with (attempt_keys a ++ (as_ ≫= attempt_keys)) in Hk, Ht.
  rewrite <- app_assoc in Hk. rewrite zlen_app, Z.mul_add_distr_l in Ht. rewrite zlen_cons in Hc. pose proof (zlen_nonneg (as_ ≫= attempt_keys)).
  destruct (attempt_reads a ((as_ ≫= attempt_keys) ++ rest) (3 * zlen (as_ ≫= attempt_keys)) u0 failed s) as (t' & Ht' & Hr); [done..|lia|done|].
  cbn [login_loop]. rewrite Hr, bool_decide_eq_false_2 by done. unfold max_attempts in *.
  destruct as_ as [|b as_].
  - rewrite zlen_nil in Hc. rewrite (proj2 (Z.ltb_ge (failed + 1) 3)) by lia. cbn [rbind]. eexists. split; [reflexivity|]. done.
  - rewrite zlen_cons in Hc. pose proof (zlen_nonneg as_). rewrite (proj2 (Z.ltb_lt (failed + 1) 3)) by lia. cbn [rbind].
    destruct (IH n (failed + 1) (prints [str "Login failed. Try again." ++ nl ++ nl] (at_prompt t' (((b :: as_) ≫= attempt_keys) ++ rest) s)))
      as (s' & -> & Hk' & Hu'); [lia|rewrite zlen_cons; lia|done|lia|done|done|done|by apply tty_room_print|].
    exists s'. split; [done|]. split; [done|]. exact Hu'.
Qed.

(** Three rejected attempts and the halt. *)
Lemma login_rejects (s : S) a1 a2 a3 rest
    (Ha : Forall (λ a, attempt_typed a ∧ ¬ accepted a) [a1; a2; a3])
    (Hk : keys s = attempt_keys a1 ++ attempt_keys a2 ++ attempt_keys a3 ++ rest)
    (Ht : tty_room (3 * zlen (keys s)) (ktty (kern s))) :
  ∃ s', login_main s = Ret (Halted, s') ∧ keys s' = rest ∧
        untouched (with_accounts (init_users (accounts s)) s) s'.
Proof.
  unfold login_main. set (s1 := prints [banner] _). pose proof (zlen_nonneg rest).
  destruct (reject_run (accounts s) [a1; a2; a3] rest (Datatypes.S (length (keys s1))) 0 s1) as (s' & Hr & Hk' & Hu'); try done.
  - cbn [length]. change (keys s1) with (keys s). rewrite Hk. unfold attempt_keys. rewrite !length_app. cbn [length]. lia.
  - change (keys s1) with (keys s). rewrite Hk. cbn. by rewrite app_nil_r, <- !app_assoc.
  - change (ktty (kern s1)) with (print (tty_init (ktty (kern s))) banner). apply tty_room_print. eapply tty_room_le.
    2:{ destruct Ht as (logs & [] & Hl). exists logs. split; [by split|exact Hl]. }
    rewrite Hk. cbn. rewrite app_nil_r. rewrite !zlen_app. lia.
  - exists s'. split; [exact Hr|]. split; [done|]. exact Hu'.
Qed.

(** C29. Locking out: three attempts at the log-in prompt, none of them root/root or
    guest/guest, halt the machine after exactly those keys: no task is created, and the file
    systems, the descriptors and the current user are as before. *)
Theorem login_locks_out (s : S) a1 a2 a3 rest
    (Ha : Forall (λ a, attempt_typed a ∧ ¬ accepted a) [a1; a2; a3])
    (Hk : keys s = attempt_keys a1 ++ attempt_keys a2 ++ attempt_keys a3 ++ rest)
    (Ht : tty_room (3 * zlen (keys s)) (ktty (kern s))) :
  ∃ s', login_main s = Ret (Halted, s') ∧ keys s' = rest ∧
        untouched (with_accounts (init_users (accounts s)) s) s'.
Proof. by apply (login_rejects s a1 a2 a3 rest). Qed.

End login.

(** * Sessions at the prompt

    The log-in theorems on a booted machine, a session evaluated from the log-in to the halt,
    and a key sequence that a full buffer cuts. *)


Definition session (ks : list Z) : Session Heap Disk := SessionState k0 users0 boot_fat (str "/") ks.
Definition enter (l : string) : list Z := str l ++ [10].

Definition main (ks : list Z) : res (ending * Session Heap Disk) :=
  login_main (H0 := heap_allocator bi0) (H3 := heap_loader bi0) 0 0 None (λ _ k, k) [] [] (λ h s, (h, s)) 10 (session ks).

Lemma boot_room n : n < 2 ^ 32 → tty_room n tty_boot.
Proof. intros Hn. exists (replicate 12 []). split; [apply tty_boot_ok|]. apply Forall_replicate. rewrite zlen_nil. lia. Qed.

Definition wrong : list Z * list Z := (str "root", str "toor").
Lemma wrong_rejected : attempt_typed wrong ∧ ¬ accepted wrong.
Proof.
  split; [split; (split; [by apply (bool_decide_unpack _)|by vm_compute])|]. unfold accepted. vm_compute. naive_solver.
Qed.

Lemma login_locks_out_witness :
  ∃ s', main (attempt_keys wrong ++ attempt_keys wrong ++ attempt_keys wrong ++ [65]) = Ret (Halted, s') ∧ keys s' = [65].
Proof.
  destruct (login_locks_out (H0 := heap_allocator bi0) (H3 := heap_loader bi0) 0 0 None (λ _ k, k) [] [] (λ h s, (h, s)) 10
    (session (attempt_keys wrong ++ attempt_keys wrong ++ attempt_keys wrong ++ [65])) wrong wrong wrong [65]) as (s' & Hr & Hk & _).
  - by repeat (apply Forall_cons; split; [exact wrong_rejected|]).
  - reflexivity.
  - apply boot_room. by vm_compute.
  - exists s'. unfold main. split; [exact Hr|exact Hk].
Defined.

Definition as_guest : list Z * list Z := (str "guset" ++ [8; 8; 8] ++ str "est", str "guest").


(** guest logs in, gets the built-in shell, runs two commands and leaves; then three failures
    halt the machine.  The screen shows the output of the commands. *)
Definition shown (x : list Z) (s : Session Heap Disk) : bool :=
  existsb (λ c, match c with Put y => bool_decide (y = x) | _ => false end) (screen (ktty (kern s))).
Lemma guest_session :
  match main (enter "guest" ++ enter "guest" ++ enter "  echo hi" ++ enter "whoami" ++ enter "exit"
              ++ attempt_keys wrong ++ attempt_keys wrong ++ attempt_keys wrong) with
  | Ret (Halted, s) => shown (str "hi") s && shown (str "1000") s && (current_uid (accounts s) =? 1000)
  | _ => false
  end = true.
Proof. vm_compute. reflexivity. Qed.

(** A name that fills the buffer ends without Enter: the keys after it are taken as the
    password. *)
Lemma long_name_spills :
  match read_line (replicate 63 97 ++ enter "secret") 64 (replicate 64 0) with
  | Ret (_, _, rest) => rest = enter "secret"
  | _ => False
  end.
Proof. by vm_compute. Qed.
