(* ===== verification/Ext3.v ===== *)
(** * The ext3 reader (kernel/filesystem/ext3.cpp)

    A read-only view of an image in memory.  A pointer into the image is its offset; an inode
    is the 96 bytes copied from the inode table.  Directory walks go through one routine whose
    visitor either goes on with a state or leaves with a result. *)
From S2P Require Import Prelude Loop CString HeapSpec Fat.

Record Ext3 := Ext3State {
  ext3_image : option (list Z); ext3_image_size : Z;
  s_magic : Z; s_log_block_size : Z; block_size : Z
}.

Definition EXT3_MAGIC : Z := 0xEF53.
Definition sizeof_superblock : Z := 60.
Definition sizeof_inode : Z := 96.

(** [1024 << log] on [int], read as [uint32_t]. *)
Definition block_shift (log : Z) : res Z := if 32 <=? log then UB else Ret (u32 (Z.shiftl 1024 log)).

(** The [memcpy] of the superblock; the two fields in use. *)
Definition read_superblock (img : option (list Z)) : res (Z * Z) :=
  let! img := of_opt img in
  let! sb := bytes_at img 1024 sizeof_superblock in
  let! m := load 2 sb 56 in let! l := load 4 sb 24 in Ret (m, l).

Definition set_image (img : option (list Z)) (size : Z) (s : Ext3) : res Ext3 :=
  if size <? 2048 then Ret (Ext3State img size (s_magic s) (s_log_block_size s) (block_size s))
  else
    let! (m, l) := read_superblock img in
    let! bs := if m =? EXT3_MAGIC then block_shift l else Ret 1024 in
    Ret (Ext3State img size m l bs).

Definition ext3_block_size (s : Ext3) : Z := block_size s.

Definition ext3_init (s : Ext3) : res (Z * Ext3) :=
  match ext3_image s with
  | None => Ret (-1, s)
  | Some img =>
      if ext3_image_size s <? 2048 then Ret (-1, s)
      else
        let! (m, l) := read_superblock (Some img) in
        let s := Ext3State (Some img) (ext3_image_size s) m l (block_size s) in
        if negb (m =? EXT3_MAGIC) then Ret (-1, s)
        else let! bs := block_shift l in Ret (0, Ext3State (Some img) (ext3_image_size s) m l bs)
  end.
Definition ext3_mount (drive : Z) (s : Ext3) : res (Z * Ext3) :=
  let! (rc, s) := ext3_init s in Ret (if rc =? 0 then 0 else -1, s).

(** The product is a [uint32_t]. *)
Definition ext3_read_block (n : Z) (s : Ext3) : option Z :=
  match ext3_image s with
  | None => None
  | Some _ =>
      if n =? 0 then None
      else
        let offset := u32 (n * block_size s) in
        if ext3_image_size s <? u64 (offset + block_size s) then None else Some offset
  end.

Definition read_inode (idx : Z) (s : Ext3) : res (option (list Z)) :=
  match ext3_image s with
  | None => Ret None
  | Some img =>
      match ext3_read_block (if block_size s =? 1024 then 2 else 1) s with
      | None => Ret None
      | Some gd =>
          let! inode_table := load 4 img (gd + 8) in
          let per := block_size s `div` sizeof_inode in
          if per =? 0 then UB
          else
            match ext3_read_block (u32 (inode_table + u32 (idx - 1) `div` per)) s with
            | None => Ret None
            | Some block =>
                let! ino := bytes_at img (block + u32 (idx - 1) `mod` per * sizeof_inode) sizeof_inode in
                Ret (Some ino)
            end
      end
  end.

Definition i_size (ino : list Z) : res Z := load 4 ino 4.
Definition i_block (ino : list Z) (i : Z) : res Z := load 4 ino (36 + 4 * i).

(** ** Directories *)

Section walk.
Context {A R : Type} (visit : Z → list Z → A → res (A + R)).

(** One round of [while (off < block_size)] on the block at [block]. *)
Definition dirent_step (img : list Z) (bs block : Z) '(off, a) : res ((Z * A) + (A + R)) :=
  if negb (off <? bs) then Ret (inr (inl a))
  else
    let e := block + off in
    let! inode := load 4 img e in
    let! x :=
      if inode =? 0 then Ret (inl a)
      else
        let! name_len := load 1 img (e + 6) in
        if (0 <? name_len) && (name_len <? 255) then
          let! name := bytes_at img (e + 8) name_len in visit inode (cstr name) a
        else Ret (inl a) in
    match x with
    | inr r => Ret (inr (inr r))
    | inl a =>
        let! rec_len := load 2 img (e + 4) in
        if rec_len =? 0 then Ret (inr (inl a)) else Ret (inl (off + rec_len, a))
    end.

Definition dir_block (img : list Z) (bs block : Z) (a : A) : res (A + R) := while (dirent_step img bs block) (0, a).

(** The twelve direct blocks of a directory. *)
Definition dir_blocks (s : Ext3) (img ino : list Z) (a : A) : res (A + R) :=
  for_loop (range 0 12 1) (λ i a,
    let! b := i_block ino i in
    if b =? 0 then Ret (inl a)
    else match ext3_read_block b s with
         | None => Ret (inl a)
         | Some block => dir_block img (block_size s) block a
         end) a.
End walk.

(** [NAME] in /bin: the inode of the first entry of that name. *)
Definition visit_name (s : Ext3) (fname : list Z) (inode : Z) (name : list Z) (_ : unit) : res (unit + option (list Z)) :=
  if strcmp name fname =? 0 then let! ino := read_inode inode s in Ret (inr ino) else Ret (inl tt).

Definition visit_bin (s : Ext3) (img fname : list Z) (inode : Z) (name : list Z) (_ : unit) : res (unit + option (list Z)) :=
  if strcmp name (str "bin") =? 0 then
    let! o := read_inode inode s in
    match o with
    | None => Ret (inr None)
    | Some bin => dir_blocks (visit_name s fname) s img bin tt
    end
  else Ret (inl tt).

Definition find_inode_by_path (path : option (list Z)) (s : Ext3) : res (option (list Z)) :=
  match path with
  | None => Ret None
  | Some path =>
      if strcmp path (str "/") =? 0 then read_inode 2 s
      else if strncmp path (str "/bin/") 5 =? 0 then
        let! o := read_inode 2 s in
        match o, ext3_image s with
        | Some root, Some img =>
            let! x := dir_blocks (visit_bin s img (drop 5 path)) s img root tt in
            Ret (match x with inr r => r | inl _ => None end)
        | _, _ => Ret None
        end
      else Ret None
  end.

(** ** Files *)

(** The copy of one direct block into the allocation at [p]; its bytes are uninitialised at
    first.  A copy to NULL is undefined. *)
Definition copy_block (s : Ext3) (img ino : list Z) (p size : Z) (i : Z) '(copied, buf)
  : res ((Z * list (option Z)) + list (option Z)) :=
  if negb (copied <? size) then Ret (inr buf)
  else
    let! b := i_block ino i in
    if b =? 0 then Ret (inl (copied, buf))
    else
      match ext3_read_block b s with
      | None => Ret (inr buf)
      | Some block =>
          let to_copy := if size <? copied + block_size s then size - copied else block_size s in
          let! bytes := bytes_at img block to_copy in
          if p =? 0 then UB
          else Ret (inl (copied + to_copy,
                    take (Z.to_nat copied) buf ++ (Some <$> bytes) ++ drop (Z.to_nat (copied + to_copy)) buf))
      end.

Section files.
Context {H : Type} `{Allocator H}.

(** The buffer with its contents, and [*out_len]. *)
Definition ext3_get_file_alloc (path : option (list Z)) (s : Ext3) (h : H)
  : res (option (Z * list (option Z)) * Z * H) :=
  let! o := find_inode_by_path path s in
  match o, ext3_image s with
  | Some ino, Some img =>
      let! size := i_size ino in
      if size =? 0 then Ret (None, size, h)
      else
        let '(p, h) := amalloc size h in
        let! x := for_loop (range 0 12 1) (copy_block s img ino p size) (0, replicate (Z.to_nat size) None) in
        let buf := match x with inl (_, buf) => buf | inr buf => buf end in
        Ret (Some (p, buf), size, h)
  | _, _ => Ret (None, 0, h)
  end.
End files.

Definition ext3_list_dir (path : option (list Z)) (s : Ext3) : res (Z * list (list Z)) :=
  let! o := find_inode_by_path path s in
  match o, ext3_image s with
  | Some ino, Some img =>
      let! x := dir_blocks (R := Empty_set) (λ _ name out, Ret (inl (out ++ [name]))) s img ino [] in
      match x with inl out => Ret (0, out) | inr r => match r with end end
  | _, _ => Ret (-1, [])
  end.
