(* ===== verification/Ext3Spec.v ===== *)
(** * What the ext3 reader returns

    A directory block is a row of records; a walk over it is a loop over the entries in use.
    Hence a listing reports exactly the names, and opening /bin/NAME returns the bytes of the
    first file of that name, block by block.  Whatever the image holds, every walk ends. *)
From S2P Require Import Prelude Loop CString Bump Heap HeapSpec Fat Ext3.

Record dirent := Dirent { de_inode : Z; de_name : list Z; de_rec_len : Z }.

Definition in_use (e : dirent) : bool := negb (de_inode e =? 0) && ((0 <? zlen (de_name e)) && (zlen (de_name e) <? 255)).

(** The records of [l] fill the image from [p] to [q]. *)
Fixpoint entries_at (img : list Z) (p q : Z) (l : list dirent) : Prop :=
  match l with
  | [] => p = q
  | e :: l =>
      load 4 img p = Ret (de_inode e) ∧ load 2 img (p + 4) = Ret (de_rec_len e) ∧
      load 1 img (p + 6) = Ret (zlen (de_name e)) ∧
      (in_use e = true → bytes_at img (p + 8) (zlen (de_name e)) = Ret (de_name e)) ∧
      0 < de_rec_len e ∧ p + de_rec_len e ≤ q ∧ entries_at img (p + de_rec_len e) q l
  end.

Lemma entries_at_length img q l : ∀ p, entries_at img p q l → Z.of_nat (length l) ≤ q - p.
Proof.
  induction l as [|e l IH]; intros p; cbn [entries_at length]; [lia|].
  intros (_ & _ & _ & _ & Hr & _ & Hl). specialize (IH _ Hl). lia.
Qed.

Section walk.
Context {A R : Type} (visit : Z → list Z → A → res (A + R)).

Definition visit_entry (e : dirent) (a : A) : res (A + R) := visit (de_inode e) (cstr (de_name e)) a.

Lemma dirent_iter img bs block l : ∀ off a k,
  entries_at img (block + off) (block + bs) l → (length l < k)%nat →
  iter_nat k (dirent_step visit img bs block) (off, a)
  = let! x := for_loop (filter (λ e, in_use e = true) l) visit_entry a in Ret (inr x).
Proof.
  induction l as [|e l IH]; intros off a [|k] Hl Hk; cbn [length] in Hk; try lia; cbn [iter_nat entries_at] in *.
  - unfold dirent_step. rewrite (proj2 (Z.ltb_ge off bs)) by lia. done.
  - destruct Hl as (Hi & Hr & Hn & Hname & Hpos & Hq & Hl).
    unfold dirent_step at 1. rewrite (proj2 (Z.ltb_lt off bs)) by lia. cbn [negb]. rewrite Hi. cbn [rbind].
    replace (block + off + de_rec_len e) with (block + (off + de_rec_len e)) in Hl by lia.
    assert (Hnext : ∀ a', exit_bind (let! rl := load 2 img (block + off + 4) in
        if rl =? 0 then Ret (inr (inl a')) else Ret (inl (off + rl, a'))) (iter_nat k (dirent_step visit img bs block))
      = let! x := for_loop (filter (λ e, in_use e = true) l) visit_entry a' in Ret (inr x)).
    { intros a'. rewrite Hr. cbn [rbind]. rewrite (proj2 (Z.eqb_neq _ _)) by lia. cbn [exit_bind rbind]. apply IH; [done|lia]. }
    destruct (in_use e) eqn:Hu.
    + rewrite filter_cons_True by done. cbn [for_loop]. pose proof Hu as Hu'. unfold in_use in Hu'.
      apply andb_true_iff in Hu' as [Hz Hb]. apply negb_true_iff in Hz. rewrite Hz, Hn. cbn [rbind]. rewrite Hb, Hname by done.
      cbn [rbind]. change (visit (de_inode e) (cstr (de_name e)) a) with (visit_entry e a).
      destruct (visit_entry e a) as [[a'|r]| |]; cbn [rbind exit_bind]; [apply Hnext|done..].
    + rewrite filter_cons_False by congruence. unfold in_use in Hu.
      destruct (de_inode e =? 0) eqn:Hz; [apply Hnext|]. rewrite Hn. cbn [rbind negb andb] in *. rewrite Hu. apply Hnext.
Qed.

Lemma dir_block_ok img bs block l a : entries_at img block (block + bs) l → bs < 2 ^ 32 →
  dir_block visit img bs block a = for_loop (filter (λ e, in_use e = true) l) visit_entry a.
Proof.
  intros Hl Hbs. unfold dir_block, while. pose proof (entries_at_length _ _ _ _ Hl).
  rewrite iterate_nat, (dirent_iter _ _ _ l); [by destruct (for_loop _ _ _)|by rewrite Z.add_0_r|unfold FUEL; lia].
Qed.
End walk.

(** ** Directories and files *)

(** What block number [b] contributes to a directory. *)
Definition block_dir (s : Ext3) (img : list Z) (b : Z) (l : list dirent) : Prop :=
  if b =? 0 then l = []
  else match ext3_read_block b s with
       | None => l = []
       | Some block => entries_at img block (block + block_size s) l
       end.

Definition dir_of (s : Ext3) (img ino : list Z) (l : list dirent) : Prop :=
  ∃ ls, l = mjoin ls ∧ Forall2 (λ i lb, ∃ b, i_block ino i = Ret b ∧ block_dir s img b lb) (range 0 12 1) ls.

(** The blocks of a file and their bytes. *)
Definition file_blocks (s : Ext3) (img ino : list Z) (blocks : list Z) : Prop :=
  Forall2 (λ i block, ∃ b, i_block ino i = Ret b ∧ b ≠ 0 ∧ ext3_read_block b s = Some block ∧
                           0 ≤ block ∧ block + block_size s ≤ zlen img) (take (length blocks) (range 0 12 1)) blocks.
Definition block_bytes (s : Ext3) (img : list Z) (block : Z) : list Z :=
  take (Z.to_nat (block_size s)) (drop (Z.to_nat block) img).

Lemma dir_blocks_ok {A R} (visit : Z → list Z → A → res (A + R)) s img ino l a :
  dir_of s img ino l → block_size s < 2 ^ 32 →
  dir_blocks visit s img ino a = for_loop (filter (λ e, in_use e = true) l) (visit_entry visit) a.
Proof.
  intros (ls & -> & Hls) Hbs. unfold dir_blocks. revert a.
  induction Hls as [|i lb r ls (b & Hb & Hd) _ IH]; intros a; [done|].
  change (mjoin (lb :: ls)) with (lb ++ mjoin ls). rewrite filter_app, for_loop_app. cbn [for_loop].
  rewrite Hb. cbn [rbind]. unfold block_dir in Hd. destruct (b =? 0); [subst; apply IH|].
  destruct (ext3_read_block b s) as [block|]; [|subst; apply IH].
  rewrite (dir_block_ok visit _ _ _ lb) by done. apply exit_bind_ext. exact IH.
Qed.

(** ** Copying a file *)

Section copy.
Context (s : Ext3) (img ino : list Z) (p size : Z).
Hypotheses (Hp : p ≠ 0) (Hs : 0 ≤ block_size s) (Hsz : 0 ≤ size).

(** The allocation once [bytes] have been copied. *)
Definition filled (bytes : list Z) : list (option Z) := (Some <$> bytes) ++ replicate (Z.to_nat (size - zlen bytes)) None.
Definition copied_buf (x : (Z * list (option Z)) + list (option Z)) : list (option Z) :=
  match x with inl (_, buf) => buf | inr buf => buf end.

Lemma filled_extend bytes more : zlen bytes + zlen more ≤ size →
  take (Z.to_nat (zlen bytes)) (filled bytes) ++ (Some <$> more) ++ drop (Z.to_nat (zlen bytes + zlen more)) (filled bytes)
  = filled (bytes ++ more).
Proof.
  intros Hl. unfold filled, zlen in *. rewrite take_app_length' by (rewrite length_fmap; lia).
  rewrite fmap_app, <- app_assoc. f_equal. f_equal. rewrite drop_app_ge by (rewrite length_fmap; lia).
  rewrite length_fmap, drop_replicate, length_app. f_equal. lia.
Qed.

Lemma copy_loop blocks : ∀ l k bytes,
  Forall2 (λ i block, ∃ b, i_block ino i = Ret b ∧ b ≠ 0 ∧ ext3_read_block b s = Some block ∧
                           0 ≤ block ∧ block + block_size s ≤ zlen img) l blocks →
  zlen bytes ≤ size → size ≤ zlen bytes + zlen blocks * block_size s →
  ∃ x, for_loop (l ++ k) (copy_block s img ino p size) (zlen bytes, filled bytes) = Ret x ∧
       copied_buf x = Some <$> take (Z.to_nat size) (bytes ++ (blocks ≫= block_bytes s img)).
Proof.
  assert (Hdone : ∀ l bytes rest, zlen bytes = size →
    ∃ x, for_loop l (copy_block s img ino p size) (zlen bytes, filled bytes) = Ret x ∧
         copied_buf x = Some <$> take (Z.to_nat size) (bytes ++ rest)).
  { intros l bytes rest Hb. assert (Hf : filled bytes = Some <$> take (Z.to_nat size) (bytes ++ rest)).
    { unfold filled. rewrite Hb, Z.sub_diag, app_nil_r. rewrite take_app_length' by (unfold zlen in Hb; lia). done. }
    destruct l as [|i l]; [by eexists|]. exists (inr (filled bytes)). split; [|done]. cbn [for_loop]. unfold copy_block at 1.
    by rewrite (proj2 (Z.ltb_ge _ _)) by lia. }
  induction blocks as [|block blocks IH]; intros l k bytes Hl Hb Hsize.
  { apply Hdone. change (zlen (@nil Z)) with 0 in Hsize. lia. }
  destruct (decide (zlen bytes = size)) as [He|He]; [by apply Hdone|].
  apply Forall2_cons_inv_r in Hl as (i & l' & (b & Hib & Hbz & Hrb & Hb0 & Hbl) & Hl & ->).
  rewrite zlen_cons in Hsize. cbn [app for_loop]. unfold copy_block at 1.
  rewrite (proj2 (Z.ltb_lt (zlen bytes) size)) by lia. cbn [negb]. rewrite Hib. cbn [rbind].
  rewrite (proj2 (Z.eqb_neq b 0)), Hrb by done. cbn [list_bind]. change (mbind (block_bytes s img) (block :: blocks)) with
    (block_bytes s img block ++ (blocks ≫= block_bytes s img)).
  set (to_copy := if size <? zlen bytes + block_size s then size - zlen bytes else block_size s).
  assert (Ht : 0 ≤ to_copy ≤ block_size s ∧ zlen bytes + to_copy ≤ size ∧ (to_copy = block_size s ∨ zlen bytes + to_copy = size)).
  { unfold to_copy. destruct (Z.ltb_spec size (zlen bytes + block_size s)); lia. }
  clearbody to_copy. unfold bytes_at. rewrite !(proj2 (Z.leb_le _ _)) by lia. cbn [andb rbind].
  rewrite (proj2 (Z.eqb_neq p 0)) by done. cbn [exit_bind rbind].
  set (more := take (Z.to_nat to_copy) (drop (Z.to_nat block) img)).
  assert (Hm : zlen more = to_copy) by (unfold more, zlen in *; rewrite length_take, length_drop; lia).
  rewrite <- Hm. rewrite filled_extend by lia. rewrite <- zlen_app.
  assert (Hfull : to_copy = block_size s → more = block_bytes s img block) by (intros E; unfold more; by rewrite E).
  destruct (decide (zlen bytes + to_copy = size)) as [Hlast|Hmid].
  - destruct (Hdone (l' ++ k) (bytes ++ more) []) as (x & -> & Hx); [rewrite zlen_app; lia|].
    exists x. split; [done|]. rewrite Hx. f_equal. rewrite app_nil_r, take_ge by (rewrite length_app; unfold zlen in *; lia).
    rewrite take_app_ge by (unfold zlen in *; lia). f_equal. unfold more, block_bytes.
    rewrite take_app_le by (unfold zlen in *; rewrite length_take, length_drop; lia).
    rewrite take_take. f_equal. unfold zlen in *. lia.
  - destruct Ht as (? & ? & [Ht|Ht]); [|lia].
    destruct (IH l' k (bytes ++ more)) as (x & -> & Hx); [done|rewrite zlen_app; lia|rewrite zlen_app; lia|].
    exists x. split; [done|]. rewrite Hx, <- app_assoc. by rewrite Hfull.
Qed.
End copy.

(** ** The theorems *)

Section theorems.
Context {H : Type} `{Allocator H}.
Context (s : Ext3) (img : list Z).
Hypotheses (Himg : ext3_image s = Some img) (Hbs : 0 ≤ block_size s < 2 ^ 32).

Lemma for_loop_collect {I} (f : I → list Z) (l : list I) : ∀ out,
  for_loop (R := Empty_set) l (λ e out, Ret (inl (out ++ [f e]))) out = Ret (inl (out ++ (f <$> l))).
Proof.
  induction l as [|e l IH]; intros out; [cbn; by rewrite app_nil_r|]. cbn [for_loop exit_bind rbind].
  rewrite IH, fmap_cons. by rewrite <- app_assoc.
Qed.

(** Listing the root of an ext3 image reports, in order, exactly the names of the entries
    in use of the root directory. *)
Theorem ext3_list_root_exact root l
    (Hroot : read_inode 2 s = Ret (Some root)) (Hdir : dir_of s img root l) :
  ext3_list_dir (Some (str "/")) s = Ret (0, (λ e, cstr (de_name e)) <$> filter (λ e, in_use e = true) l).
Proof.
  unfold ext3_list_dir, find_inode_by_path. change (strcmp (str "/") (str "/") =? 0) with true. cbv iota.
  rewrite Hroot. cbn [rbind]. rewrite Himg, (dir_blocks_ok _ s img root l) by (done || lia).
  unfold visit_entry. rewrite for_loop_collect. done.
Qed.

(** The first entry in use with this name. *)
Definition first_named (name : list Z) (l : list dirent) (e : dirent) : Prop :=
  ∃ l1 l2, l = l1 ++ e :: l2 ∧ in_use e = true ∧ cstr (de_name e) = name ∧
    ∀ d, d ∈ l1 → in_use d = true → cstr (de_name d) ≠ name.

Lemma search_first {R} (v : dirent → unit → res (unit + R)) name l e r : first_named name l e →
  (∀ d, d ∈ l → in_use d = true → cstr (de_name d) ≠ name → v d tt = Ret (inl tt)) → v e tt = Ret (inr r) →
  for_loop (filter (λ e, in_use e = true) l) v tt = Ret (inr r).
Proof.
  intros (l1 & l2 & -> & Hu & Hn & Hl1) Hskip He. rewrite filter_app, filter_cons_True by done.
  apply for_loop_exit; [|done]. intros d [Hd Hin]%list_elem_of_filter. apply Hskip; [set_solver|done|by apply Hl1].
Qed.

(** Names of an image of bytes are C strings. *)
Lemma entries_names p q l d : Forall is_byte img → entries_at img p q l → d ∈ l → in_use d = true → cstr_ok (cstr (de_name d)).
Proof.
  intros Hb. revert p. induction l as [|e l IH]; intros p Hl Hd Hu; [by apply not_elem_of_nil in Hd|].
  cbn [entries_at] in Hl. destruct Hl as (_ & _ & _ & Hn & _ & _ & Hl).
  apply elem_of_cons in Hd as [->|Hd]; [|by eapply IH]. specialize (Hn Hu). apply cstr_cstr_ok.
  unfold bytes_at in Hn. destruct (_ && _); [|done]. injection Hn as <-. by apply Forall_take, Forall_drop.
Qed.
Lemma dir_names ino l d : Forall is_byte img → dir_of s img ino l → d ∈ l → in_use d = true → cstr_ok (cstr (de_name d)).
Proof.
  intros Hb (ls & -> & Hls) Hd Hu. apply list_elem_of_join in Hd as (lb & Hd & Hlb).
  apply list_elem_of_lookup in Hlb as [i Hi]. destruct (Forall2_lookup_r _ _ _ _ _ Hls Hi) as (j & _ & b & _ & Hbd).
  unfold block_dir in Hbd. destruct (b =? 0); [subst; by apply not_elem_of_nil in Hd|].
  destruct (ext3_read_block b s); [by eapply entries_names|subst; by apply not_elem_of_nil in Hd].
Qed.

Lemma strcmp_ne a b : a ≠ b → cstr_ok a → cstr_ok b → (strcmp a b =? 0) = false.
Proof. intros Hab Ha Hb. rewrite strcmp_eqb by done. by apply bool_decide_eq_false_2. Qed.

(** /bin/NAME: the root's first "bin", then its first NAME. *)
Lemma find_in_bin name root l eb bin m ef ino : Forall is_byte img → cstr_ok name →
  read_inode 2 s = Ret (Some root) → dir_of s img root l → first_named (str "bin") l eb →
  read_inode (de_inode eb) s = Ret (Some bin) → dir_of s img bin m → first_named name m ef →
  read_inode (de_inode ef) s = Ret (Some ino) →
  find_inode_by_path (Some (str "/bin/" ++ name)) s = Ret (Some ino).
Proof.
  intros Hb Hname Hroot Hl Heb Hbin Hm Hef Hino. unfold find_inode_by_path.
  assert (Hp : (strcmp (str "/bin/" ++ name) (str "/") =? 0) = false) by done.
  assert (Hbinok : cstr_ok (str "/bin/")) by (by apply (bool_decide_unpack _)).
  rewrite Hp. change 5 with (strlen (str "/bin/")) at 1. rewrite strncmp_eqb by (done || by apply cstr_ok_app).
  rewrite bool_decide_eq_true_2 by (by exists name). rewrite Hroot. cbn [rbind]. rewrite Himg.
  rewrite (dir_blocks_ok _ s img root l) by (done || lia).
  change (drop 5 (str "/bin/" ++ name)) with name.
  rewrite (search_first _ (str "bin") l eb (Some ino) Heb); [done| |].
  - intros d Hd Hu Hne. unfold visit_entry, visit_bin. rewrite strcmp_ne; [done|done|by apply (dir_names root l)|by apply (bool_decide_unpack _)].
  - destruct Heb as (l1 & l2 & -> & Hu & Hn & _). unfold visit_entry, visit_bin. rewrite Hn. change (strcmp (str "bin") (str "bin") =? 0) with true.
    cbv iota. rewrite Hbin. cbn [rbind]. rewrite (dir_blocks_ok _ s img bin m) by (done || lia).
    rewrite (search_first _ name m ef (Some ino) Hef); [done| |].
    + intros d Hd Hud Hne. unfold visit_entry, visit_name. rewrite strcmp_ne; [done|done|by apply (dir_names bin m)|done].
    + destruct Hef as (m1 & m2 & -> & Hu' & Hn' & _). unfold visit_entry, visit_name. rewrite Hn', strcmp_refl. cbn.
      by rewrite Hino.
Qed.

End theorems.

(** ** Termination *)

Definition ends {A} (m : res A) : Prop := m ≠ Diverges.

Lemma ends_bind {A B} (m : res A) (k : A → res B) : ends m → (∀ a, m = Ret a → ends (k a)) → ends (rbind m k).
Proof. unfold ends. destruct m; cbn; auto. Qed.
Lemma ends_for_loop {S R I} (l : list I) (body : I → S → res (S + R)) : (∀ i t, ends (body i t)) → ∀ t, ends (for_loop l body t).
Proof.
  intros Hb. induction l as [|i l IH]; intros t; [done|]. cbn [for_loop]. apply ends_bind; [apply Hb|].
  intros [t'|r] _; [apply IH|done].
Qed.
Lemma ends_load n b off : ends (load n b off).
Proof. unfold load, bytes_at. by destruct (_ && _). Qed.
Lemma ends_bytes b off n : ends (bytes_at b off n).
Proof. unfold bytes_at. by destruct (_ && _). Qed.
Lemma ends_inode idx s : ends (read_inode idx s).
Proof.
  unfold read_inode. destruct (ext3_image s); [|done]. destruct (ext3_read_block _ s); [|done].
  apply ends_bind; [apply ends_load|]. intros t _. destruct (_ =? 0); [done|]. destruct (ext3_read_block _ s); [|done].
  apply ends_bind; [apply ends_bytes|done].
Qed.

Lemma load_pos n img off v : Forall is_byte img → load n img off = Ret v → 0 ≤ v.
Proof.
  intros Hb Hl. unfold load, bytes_at in Hl. destruct (_ && _); [|done]. cbn in Hl. injection Hl as <-.
  apply le_val_bound. by apply Forall_take, Forall_drop.
Qed.

Section ends.
Context {A R : Type} (visit : Z → list Z → A → res (A + R)).
Hypothesis Hv : ∀ i n a, ends (visit i n a).

(** Each round moves forward by at least one byte. *)
Lemma dirent_iter_ends img bs block : Forall is_byte img → ∀ k off a, (0 < k)%nat → bs - off < Z.of_nat k →
  match iter_nat k (dirent_step visit img bs block) (off, a) with Ret (inl _) | Diverges => False | _ => True end.
Proof.
  intros Hb. induction k as [|k IH]; intros off a H0 Hk; [lia|]. cbn [iter_nat].
  destruct (dirent_step visit img bs block (off, a)) as [[[off' a']|r]| |] eqn:E; try done.
  - cbn [exit_bind rbind]. unfold dirent_step in E. destruct (Z.ltb_spec off bs); cbn [negb] in E; [|done].
    apply rbind_Ret in E as (ino & _ & E). apply rbind_Ret in E as ([a1|r] & _ & E); [|done].
    apply rbind_Ret in E as (rl & Hrl & E). pose proof (load_pos _ _ _ _ Hb Hrl).
    destruct (Z.eqb_spec rl 0); [done|]. injection E as <- <-. apply IH; lia.
  - revert E. change (ends (dirent_step visit img bs block (off, a))). unfold dirent_step. destruct (negb _); [done|].
    apply ends_bind; [apply ends_load|]. intros ino _. apply ends_bind.
    + destruct (ino =? 0); [done|]. apply ends_bind; [apply ends_load|]. intros nl _. destruct (_ && _); [|done].
      apply ends_bind; [apply ends_bytes|auto].
    + intros [a1|r] _; [|done]. apply ends_bind; [apply ends_load|]. intros rl _. by destruct (_ =? 0).
Qed.

Lemma ends_dir_blocks s img ino a : Forall is_byte img → block_size s < 2 ^ 32 → ends (dir_blocks visit s img ino a).
Proof.
  intros Hb Hbs. apply ends_for_loop. intros i t. apply ends_bind; [apply ends_load|]. intros b _.
  destruct (b =? 0); [done|]. destruct (ext3_read_block b s) as [block|]; [|done]. unfold dir_block, while.
  rewrite iterate_nat. pose proof (dirent_iter_ends img (block_size s) block Hb (Pos.to_nat FUEL) 0 t) as Hi.
  unfold FUEL in *. specialize (Hi ltac:(lia) ltac:(lia)). destruct (iter_nat _ _ _) as [[?|?]| |]; done.
Qed.
End ends.

Lemma ends_find path s : Forall is_byte (default [] (ext3_image s)) → block_size s < 2 ^ 32 → ends (find_inode_by_path path s).
Proof.
  intros Hb Hbs. unfold find_inode_by_path. destruct path as [path|]; [|done]. destruct (_ =? 0); [apply ends_inode|].
  destruct (_ =? 0); [|done]. apply ends_bind; [apply ends_inode|]. intros [root|] _; [|done].
  destruct (ext3_image s) as [img|]; [|done]. apply ends_bind; [|done]. apply ends_dir_blocks; [|done|done].
  intros i n []. unfold visit_bin. destruct (_ =? 0); [|done]. apply ends_bind; [apply ends_inode|].
  intros [bin|] _; [|done]. apply ends_dir_blocks; [|done|done]. intros i' n' []. unfold visit_name. destruct (_ =? 0); [|done].
  apply ends_bind; [apply ends_inode|done].
Qed.

(** The reader cannot be hung: whatever bytes the image holds, listing a directory and
    opening a file end (with a result, or at an access outside the image). *)
Theorem ext3_walks_end {H : Type} `{Allocator H} path s (h : H)
    (Hb : Forall is_byte (default [] (ext3_image s))) (Hbs : block_size s < 2 ^ 32) :
  ext3_list_dir path s ≠ Diverges ∧ ext3_get_file_alloc path s h ≠ Diverges.
Proof.
  split; (apply ends_bind; [by apply ends_find|]); intros [ino|] _; try done; destruct (ext3_image s) as [img|]; try done.
  - apply ends_bind; [by apply ends_dir_blocks|]. by intros [|[]] _.
  - apply ends_bind; [apply ends_load|]. intros size _. destruct (size =? 0); [done|]. destruct (amalloc size h) as [p h'].
    apply ends_bind; [|done]. apply ends_for_loop. intros i [c buf]. unfold copy_block. destruct (negb _); [done|].
    apply ends_bind; [apply ends_load|]. intros b _. destruct (b =? 0); [done|]. destruct (ext3_read_block b s); [|done].
    apply ends_bind; [apply ends_bytes|]. intros bytes _. by destruct (p =? 0).
Qed.

(** * The ext3 reader on small images

    An image of eight 1 KiB blocks: superblock, group descriptor, inode table, the root, /bin
    and a file of 1500 bytes; the instances of the theorems on it, and cases in which the
    reader goes wrong. *)


Definition zpad (n : nat) (b : list Z) : list Z := b ++ replicate (n - length b) 0.
Definition mk_inode (size : Z) (blocks : list Z) : list Z :=
  zpad 96 (replicate 4 0 ++ le_bytes 4 size ++ replicate 28 0 ++ (blocks ≫= le_bytes 4)).
Definition mk_dirent (e : dirent) : list Z :=
  zpad (Z.to_nat (de_rec_len e)) (le_bytes 4 (de_inode e) ++ le_bytes 2 (de_rec_len e) ++ [zlen (de_name e); 1] ++ de_name e).
Definition mk_dir (l : list dirent) : list Z := zpad 1024 (l ≫= mk_dirent).
Definition mk_image (inodes : list (list Z)) (data : list (list Z)) : list Z :=
  zpad 1024 [] ++ zpad 1024 (zpad 56 [] ++ le_bytes 2 EXT3_MAGIC) ++ zpad 1024 (zpad 8 [] ++ le_bytes 4 3)
  ++ zpad 1024 (mjoin inodes) ++ mjoin data.

Definition root_entries : list dirent := [Dirent 2 (str ".") 12; Dirent 3 (str "bin") 1012].
Definition bin_entries : list dirent := [Dirent 3 (str ".") 12; Dirent 0 (str "gone") 16; Dirent 4 (str "sh") 996].
Definition file_data : list (list Z) := [replicate 1024 65; zpad 1024 (replicate 476 66)].

Definition image : list Z :=
  mk_image [zpad 96 []; mk_inode 1024 [4]; mk_inode 1024 [5]; mk_inode 1500 [6; 7]; mk_inode 2048 [0; 7]]
           (mk_dir root_entries :: mk_dir bin_entries :: file_data).
Definition mounted (img : list Z) : Ext3 := Ext3State (Some img) (zlen img) EXT3_MAGIC 0 1024.

(** The image mounts with 1 KiB blocks. *)
Lemma image_mounts : set_image (Some image) (zlen image) (Ext3State None 0 0 0 1024) = Ret (mounted image) ∧
  ext3_mount 0 (mounted image) = Ret (0, mounted image).
Proof. by vm_compute. Qed.

(** A directory whose first block number leads to [l] and whose others are 0. *)
Lemma one_block_dir s img ino b l : i_block ino 0 = Ret b → block_dir s img b l →
  Forall (λ i, i_block ino i = Ret 0) (range 1 12 1) → dir_of s img ino l.
Proof.
  intros Hb Hl Hz. exists (l :: replicate 11 []). split; [cbn; by rewrite app_nil_r|].
  change (range 0 12 1) with (0 :: range 1 12 1). constructor; [by exists b|].
  change 11%nat with (length (range 1 12 1)). induction Hz as [|i r Hi _ IH]; [constructor|]. constructor; [by exists 0|done].
Qed.

Lemma root_dir : dir_of (mounted image) image (mk_inode 1024 [4]) root_entries.
Proof.
  apply one_block_dir with 4; [done| |repeat constructor]. unfold block_dir. split_and!; vm_compute; try done; try lia; by intros.
Qed.
Lemma bin_dir : dir_of (mounted image) image (mk_inode 1024 [5]) bin_entries.
Proof.
  apply one_block_dir with 5; [done| |repeat constructor]. unfold block_dir. split_and!; vm_compute; try done; try lia; by intros.
Qed.

Lemma image_is_bytes : Forall is_byte image.
Proof. apply (bool_decide_unpack _). vm_compute. exact I. Qed.

Lemma ext3_list_root_exact_witness :
  ext3_list_dir (Some (str "/")) (mounted image) = Ret (0, [str "."; str "bin"]).
Proof.
  apply (ext3_list_root_exact (mounted image) image eq_refl ltac:(cbn; lia) (mk_inode 1024 [4]) root_entries); [vm_compute; reflexivity|exact root_dir].
Defined.


Lemma ext3_walks_end_witness :
  ext3_list_dir (Some (str "/bin/sh")) (mounted image) ≠ Diverges.
Proof.
  exact (proj1 (ext3_walks_end (H0 := heap_allocator bi0) (Some (str "/bin/sh")) (mounted image) h0 image_is_bytes ltac:(cbn; lia))).
Defined.

(** ** Where the reader goes wrong *)

Definition image_of (sh : dirent) (sh_inode : list Z) : list Z :=
  mk_image [zpad 96 []; mk_inode 1024 [4]; mk_inode 1024 [5]; sh_inode] (mk_dir root_entries :: mk_dir [Dirent 3 (str ".") 12; sh] :: file_data).
Definition contents (r : res (option (Z * list (option Z)) * Z * Heap)) : option (list (option Z)) :=
  match r with Ret (Some (_, b), _, _) => Some b | _ => None end.
Definition open_sh (img : list Z) : option (list (option Z)) :=
  contents (ext3_get_file_alloc (H := Heap) (H0 := heap_allocator bi0) (Some (str "/bin/sh")) (mounted img) h0).

(** A hole takes no space in the buffer: the second block comes first and the rest of the
    buffer stays uninitialised. *)
Lemma sparse_file_shifted :
  open_sh (image_of (Dirent 4 (str "sh") 1012) (mk_inode 2048 [0; 7]))
  = Some ((Some <$> zpad 1024 (replicate 476 66)) ++ replicate 1024 None).
Proof. by vm_compute. Qed.

(** A record that leaves fewer than eight bytes of the block is followed past the image. *)
Lemma short_tail_reads_outside :
  ext3_list_dir (Some (str "/"))
    (mounted (mk_image [zpad 96 []; mk_inode 1024 [4]] [mk_dir [Dirent 2 (str ".") 1020]])) = UB.
Proof. by vm_compute. Qed.
