(* ===== verification/Floppy.v ===== *)
(** * The floppy driver (kernel/filesystem/floppy.cpp)

    A FAT12 image is copied into the heap and mounted at the root; its root directory can be
    listed, and reading "/" returns the whole image.  A pointer into the image is an offset. *)
From S2P Require Import Prelude Loop CString HeapSpec BlockDev HanaFs Vfs Fat.

(** [floppy_data] with the bytes behind it. *)
Record Floppy := FloppyState { floppy_data : Z; floppy_bytes : list Z; floppy_size : Z }.

Section driver.
Context {H D : Type} `{Allocator H} `{BlockDev D} `{FatFs H D}.

Definition floppy_init_from_memory (data : option (list Z)) (size : Z) (f : Floppy) (v : Vfs H D)
  : res (Z * Floppy * Vfs H D) :=
  match data with
  | None => Ret (-1, f, v)
  | Some data =>
      if size =? 0 then Ret (-1, f, v)
      else
        let '(p, s) := HanaFs.kmalloc size (fs v) in
        let v := set_fs v s in
        if p =? 0 then Ret (-1, FloppyState 0 [] (floppy_size f), v)
        else
          let! bytes := bytes_at data 0 size in
          Ret (0, FloppyState p bytes size, vfs_register_mount (Some (str "floppy")) (Some (str "/")) v)
  end.

Definition floppy_get_file_alloc (path : option (list Z)) (f : Floppy) (s : HanaFS H D)
  : option (Z * list Z * Z) * HanaFS H D :=
  match path with
  | None => (None, s)
  | Some path =>
      if floppy_data f =? 0 then (None, s)
      else if strcmp path (str "/") =? 0 then
        let '(p, s) := HanaFs.kmalloc (floppy_size f) s in
        (if p =? 0 then None else Some (p, floppy_bytes f, floppy_size f), s)
      else (None, s)
  end.
End driver.

(** ** The root directory *)

(** [n] characters of a name: up to a blank, without the unprintable ones. *)
Fixpoint name_chars (n : nat) (b : list Z) (off : Z) : res (list Z) :=
  match n with
  | O => Ret []
  | S n =>
      let! c := bget b off in
      if c =? 32 then Ret []
      else
        let! r := name_chars n b (off + 1) in
        Ret (if (32 <=? c) && (c <? 127) then c :: r else r)
  end.

Definition entry_name (b : list Z) (e : Z) : res (list Z) :=
  let! base := name_chars 8 b e in
  let! attr := bget b (e + 11) in
  let! x := bget b (e + 8) in
  if (Z.land attr 0x10 =? 0) && negb (x =? 32) then
    let! ext := name_chars 3 b (e + 8) in Ret (base ++ 46 :: ext)
  else Ret base.

(** One round of the entry loop; leaving it is the [break]. *)
Definition list_entry (b : list Z) (root : Z) (i : Z) (out : list (list Z)) : res (list (list Z) + list (list Z)) :=
  let e := root + i * 32 in
  let! first := bget b e in
  if first =? 0 then Ret (inr out)
  else if first =? 0xE5 then Ret (inl out)
  else
    let! attr := bget b (e + 11) in
    if negb (Z.land attr 0x08 =? 0) then Ret (inl out)
    else let! name := entry_name b e in Ret (inl (if 0 <? zlen name then out ++ [name] else out)).

Definition floppy_list_dir (path : option (list Z)) (f : Floppy) : res (Z * list (list Z)) :=
  if floppy_data f =? 0 then Ret (-1, [])
  else
    match path with
    | None => Ret (-1, [])
    | Some path =>
        if negb (strcmp path (str "/") =? 0) then Ret (-1, [])
        else
          let b := floppy_bytes f in
          let! bytes_per_sector := load 2 b 11 in
          let! _ := bget b 13 in
          let! reserved := load 2 b 14 in
          let! num_fats := bget b 16 in
          let! root_entries := load 2 b 17 in
          let! fat_size := load 2 b 22 in
          if (bytes_per_sector =? 0) || (4096 <? bytes_per_sector) then Ret (-1, [])
          else
            let root_dir_offset := u32 ((reserved + num_fats * fat_size) * bytes_per_sector) in
            if floppy_size f <? u32 (root_dir_offset + root_entries * 32) then Ret (-1, [])
            else
              let! x := for_loop (range 0 root_entries 1) (list_entry b root_dir_offset) [] in
              Ret (0, match x with inl out => out | inr out => out end)
    end.

(** ** Listing *)

(** What an entry of the directory is: a name in its 8 + 3 characters, or one that is skipped
    (deleted, or a volume label). *)
Inductive slot :=
| Named (base ext : list Z) (attr : Z) (tail : list Z)
| Skipped (bytes : list Z).

Definition blanks (n : nat) (s : list Z) : list Z := s ++ replicate (n - length s) 32.
Definition slot_bytes (x : slot) : list Z :=
  match x with
  | Named base ext attr tail => blanks 8 base ++ blanks 3 ext ++ [attr] ++ tail
  | Skipped bytes => bytes
  end.
Definition printable (c : Z) : Prop := 32 < c < 127.
Definition slot_ok (x : slot) : Prop :=
  match x with
  | Named base ext attr tail =>
      Forall printable base ∧ Forall printable ext ∧ (0 < length base ≤ 8)%nat ∧ (length ext ≤ 3)%nat ∧
      length tail = 20%nat ∧ Z.land attr 0x08 = 0 ∧ (Z.land attr 0x10 ≠ 0 → ext = [])
  | Skipped bytes =>
      length bytes = 32%nat ∧
      ∃ first attr, bytes !! 0%nat = Some first ∧ bytes !! 11%nat = Some attr ∧ first ≠ 0 ∧ (first = 0xE5 ∨ Z.land attr 0x08 ≠ 0)
  end.
Definition slot_name (x : slot) : option (list Z) :=
  match x with
  | Named base ext _ _ => Some (match ext with [] => base | _ => base ++ 46 :: ext end)
  | Skipped _ => None
  end.

Lemma blanks_length n s : (length s ≤ n)%nat → length (blanks n s) = n.
Proof. intros Hs. unfold blanks. rewrite length_app, length_replicate. lia. Qed.
Lemma slot_length x : slot_ok x → length (slot_bytes x) = 32%nat.
Proof.
  destruct x as [base ext attr tail|bytes]; cbn [slot_ok slot_bytes]; [|by intros [? _]].
  intros (_ & _ & Hb & He & Ht & _). rewrite !length_app, !blanks_length by lia. cbn. lia.
Qed.

(** Characters at a position of the image. *)
Lemma bget_mid pre b post i : 0 ≤ i < zlen b → bget (pre ++ b ++ post) (zlen pre + i) = bget b i.
Proof.
  intros Hi. unfold bget. rewrite !zlen_app. pose proof (zlen_nonneg pre). pose proof (zlen_nonneg post).
  rewrite !(proj2 (Z.leb_le _ _)), !(proj2 (Z.ltb_lt _ _)) by lia. cbn [andb]. f_equal. unfold zlen in *.
  rewrite lookup_app_r by lia. rewrite lookup_app_l by lia. f_equal. lia.
Qed.

Lemma name_chars_ok n s : Forall printable s → ∀ b off, (length s ≤ n)%nat →
  (∀ i, (i < n)%nat → bget b (off + Z.of_nat i) = of_opt (blanks n s !! i)) → name_chars n b off = Ret s.
Proof.
  intros Hs. revert n. induction Hs as [|c s Hc Hs IH]; intros n b off Hl Hb.
  - destruct n as [|n]; [done|]. cbn [name_chars]. specialize (Hb 0%nat ltac:(lia)). rewrite Z.add_0_r in Hb. by rewrite Hb.
  - destruct n as [|n]; cbn [length] in Hl; [lia|]. cbn [name_chars]. pose proof (Hb 0%nat ltac:(lia)) as H0.
    rewrite Z.add_0_r in H0. rewrite H0. cbn [of_opt rbind blanks app lookup list_lookup]. unfold printable in Hc.
    rewrite (proj2 (Z.eqb_neq c 32)) by lia. rewrite (IH n b (off + 1)); [|lia|].
    + cbn [rbind]. by rewrite (proj2 (Z.leb_le 32 c)), (proj2 (Z.ltb_lt c 127)) by lia.
    + intros i Hi. specialize (Hb (S i) ltac:(lia)). replace (off + 1 + Z.of_nat i) with (off + Z.of_nat (S i)) by lia. by rewrite Hb.
Qed.

(** An entry that occupies 32 bytes of the image at [e]. *)
Lemma list_entry_ok b root i out x : slot_ok x →
  (∀ j, (j < 32)%nat → bget b (root + i * 32 + Z.of_nat j) = of_opt (slot_bytes x !! j)) →
  list_entry b root i out = Ret (inl (match slot_name x with Some n => out ++ [n] | None => out end)).
Proof.
  intros Hx Hb. unfold list_entry. set (e := root + i * 32) in *.
  pose proof (Hb 0%nat ltac:(lia)) as H0. rewrite Z.add_0_r in H0. rewrite H0.
  pose proof (Hb 11%nat ltac:(lia)) as H11. change (Z.of_nat 11) with 11 in H11.
  destruct x as [base ext attr tail|bytes]; cbn [slot_ok slot_bytes slot_name] in *.
  - destruct Hx as (Hp & Hpe & Hlb & Hle & Ht & Ha & Hd).
    assert (Hattr : bget b (e + 11) = Ret attr).
    { rewrite H11. rewrite lookup_app_r, blanks_length by (rewrite ?blanks_length; lia).
      rewrite lookup_app_r, blanks_length by (rewrite ?blanks_length; lia). done. }
    destruct base as [|c base]; cbn [length] in Hlb; [lia|]. cbn [blanks app lookup list_lookup of_opt rbind].
    assert (Hc : 32 < c < 127) by (by apply Forall_cons in Hp as [? _]).
    rewrite !(proj2 (Z.eqb_neq _ _)), Hattr by lia. cbn [rbind]. rewrite Ha. cbn [Z.eqb negb].
    unfold entry_name. rewrite (name_chars_ok 8 (c :: base) Hp); [|cbn; lia|].
    2:{ intros j Hj. rewrite Hb by lia. rewrite lookup_app_l by (rewrite blanks_length; cbn [length]; lia). done. }
    assert (H8 : ∀ j, (j < 3)%nat → bget b (e + 8 + Z.of_nat j) = of_opt (blanks 3 ext !! j)).
    { intros j Hj. replace (e + 8 + Z.of_nat j) with (e + Z.of_nat (8 + j)) by lia. rewrite Hb by lia.
      rewrite lookup_app_r, blanks_length by (rewrite ?blanks_length; cbn [length]; lia).
      rewrite lookup_app_l by (rewrite blanks_length; lia). do 2 f_equal. lia. }
    cbn [rbind]. rewrite Hattr. cbn [rbind]. pose proof (H8 0%nat ltac:(lia)) as H80. rewrite Z.add_0_r in H80. rewrite H80.
    destruct ext as [|x ext].
    + cbn. destruct (_ =? 0); done.
    + cbn [blanks app lookup list_lookup of_opt rbind]. assert (Hxc : 32 < x) by (apply Forall_cons in Hpe as [Hx _]; unfold printable in Hx; lia).
      rewrite (proj2 (Z.eqb_neq x 32)) by lia.
      assert (Z.land attr 16 = 0) as -> by (destruct (decide (Z.land attr 16 = 0)); [done|]; by discriminate Hd).
      cbn [Z.eqb negb andb]. rewrite (name_chars_ok 3 (x :: ext) Hpe); [|done|exact H8]. cbn [rbind].
      rewrite (proj2 (Z.ltb_lt 0 _)); [done|]. unfold zlen. cbn. lia.
  - destruct Hx as (Hl & first & attr & -> & Ha & Hf & Hs). rewrite Ha in H11. cbn [of_opt rbind].
    rewrite (proj2 (Z.eqb_neq first 0)) by done. destruct (Z.eqb_spec first 229); [done|]. rewrite H11. cbn [of_opt rbind].
    destruct Hs as [?|Hs]; [done|]. by rewrite (proj2 (Z.eqb_neq _ _) Hs).
Qed.

Lemma range_cons a b : a < b → range a b 1 = a :: range (a + 1) b 1.
Proof.
  intros Hab. unfold range. rewrite !Z.div_1_r. replace (Z.to_nat (b - a + 1 - 1)) with (S (Z.to_nat (b - (a + 1) + 1 - 1))) by lia.
  rewrite <- cons_seq, fmap_cons. f_equal; [lia|]. rewrite <- fmap_S_seq, <- list_fmap_compose. apply list_fmap_ext. intros i x _. cbn. lia.
Qed.

(** A run of slots, then a free one or the end of the directory. *)
Lemma list_slots b root slots : Forall slot_ok slots → ∀ k out,
  (∀ i j x, slots !! i = Some x → (j < 32)%nat → bget b (root + (k + Z.of_nat i) * 32 + Z.of_nat j) = of_opt (slot_bytes x !! j)) →
  for_loop (range k (k + zlen slots) 1) (list_entry b root) out = Ret (inl (out ++ omap slot_name slots)).
Proof.
  induction 1 as [|x slots Hx _ IH]; intros k out Hb.
  - rewrite zlen_nil, Z.add_0_r. unfold range. replace ((k - k + 1 - 1) `div` 1) with 0 by (rewrite Z.div_1_r; lia). cbn. by rewrite app_nil_r.
  - rewrite zlen_cons. pose proof (zlen_nonneg slots). rewrite range_cons by lia. cbn [for_loop].
    rewrite (list_entry_ok _ _ _ _ x Hx); [|intros j Hj; rewrite <- (Hb 0%nat j x eq_refl Hj); f_equal; lia].
    cbn [exit_bind rbind]. replace (k + (1 + zlen slots)) with (k + 1 + zlen slots) by lia. rewrite IH.
    + rewrite omap_step. destruct (slot_name x); [by rewrite <- app_assoc|done].
    + intros i j y Hi Hj. rewrite <- (Hb (S i) j y Hi Hj). f_equal. lia.
Qed.

Lemma bytes_at_bget b off n l j : bytes_at b off n = Ret l → (Z.of_nat j < n) → bget b (off + Z.of_nat j) = of_opt (l !! j).
Proof.
  unfold bytes_at. destruct (0 <=? off) eqn:H1, (0 <=? n) eqn:H2, (off + n <=? zlen b) eqn:H3; cbn [andb]; try done.
  intros [= <-] Hj. unfold bget. rewrite (proj2 (Z.leb_le _ _)), (proj2 (Z.ltb_lt _ _)) by lia. cbn [andb].
  rewrite lookup_take_lt, lookup_drop by lia. do 2 f_equal. lia.
Qed.

(** The fields of the boot sector and the root directory of an image. *)
Record geometry := Geometry { g_bps : Z; g_reserved : Z; g_fats : Z; g_entries : Z; g_fat_size : Z }.
Definition root_offset (g : geometry) : Z := (g_reserved g + g_fats g * g_fat_size g) * g_bps g.
Record has_root (b : list Z) (g : geometry) (slots : list slot) : Prop := {
  hr_bps : load 2 b 11 = Ret (g_bps g); hr_bps_ok : 0 < g_bps g ≤ 4096;
  hr_spc : ∃ c, bget b 13 = Ret c;
  hr_reserved : load 2 b 14 = Ret (g_reserved g); hr_fats : bget b 16 = Ret (g_fats g);
  hr_entries : load 2 b 17 = Ret (g_entries g); hr_fat_size : load 2 b 22 = Ret (g_fat_size g);
  hr_fits : 0 ≤ root_offset g ∧ root_offset g + g_entries g * 32 ≤ zlen b < 2 ^ 32;
  hr_slots : ∀ i x, slots !! i = Some x → slot_ok x ∧ bytes_at b (root_offset g + 32 * Z.of_nat i) 32 = Ret (slot_bytes x);
  hr_count : zlen slots ≤ g_entries g;
  hr_end : zlen slots < g_entries g → bget b (root_offset g + 32 * zlen slots) = Ret 0
}.

(** Listing a floppy: for an image whose root directory holds the given entries up to its
    first free one, the listing reports, in order, the names (base, and a dot with the
    extension if there is one) of exactly the entries that are neither deleted nor volume
    labels; any other path is refused. *)
Theorem floppy_list_exact f g slots path
    (Hd : floppy_data f ≠ 0) (Hs : floppy_size f = zlen (floppy_bytes f)) (Hr : has_root (floppy_bytes f) g slots)
    (Hp : cstr_ok path) :
  floppy_list_dir (Some path) f = if bool_decide (path = str "/") then Ret (0, omap slot_name slots) else Ret (-1, []).
Proof.
  unfold floppy_list_dir. rewrite (proj2 (Z.eqb_neq _ _) Hd), strcmp_eqb by (done || by apply (bool_decide_unpack _)).
  case_bool_decide; [|done]. cbn [negb]. destruct Hr as [H1 H1' [c H2] H3 H4 H5 H6 [H7 H7'] H8 H9 H10].
  rewrite H1, H2, H3, H4, H5, H6. cbn [rbind]. rewrite (proj2 (Z.eqb_neq _ 0)), (proj2 (Z.ltb_ge 4096 _)) by lia. cbn [orb].
  fold (root_offset g). pose proof (zlen_nonneg slots). rewrite (u32_small (root_offset g)), u32_small by lia.
  rewrite (proj2 (Z.ltb_ge _ _)) by lia.
  assert (Hslots : for_loop (range 0 (zlen slots) 1) (list_entry (floppy_bytes f) (root_offset g)) [] = Ret (inl (omap slot_name slots))).
  { apply (list_slots _ _ _ (proj2 (Forall_lookup _ _) (λ i x Hi, proj1 (H8 i x Hi))) 0).
    intros i j x Hi Hj. rewrite <- (bytes_at_bget _ _ _ _ _ (proj2 (H8 i x Hi))) by lia. f_equal. lia. }
  destruct (decide (zlen slots = g_entries g)) as [He|He]; [by rewrite <- He, Hslots|].
  rewrite (range_split 0 _ 1 (zlen slots)) by (lia || (apply elem_of_range; [lia|]; split; [lia|apply Z.mod_1_r])).
  rewrite for_loop_app, Hslots. cbn [exit_bind rbind for_loop]. unfold list_entry at 1.
  replace (root_offset g + zlen slots * 32) with (root_offset g + 32 * zlen slots) by lia. by rewrite H10 by lia.
Qed.

(** ** A small image *)

Definition small_floppy : list Z :=
  replicate 11 0 ++ [32; 0; 1; 1; 0; 0; 4; 0] ++ replicate 13 0 ++
  slot_bytes (Named (str "README") (str "TXT") 0x20 (replicate 20 0)) ++ slot_bytes (Skipped (0xE5 :: replicate 31 65)) ++
  slot_bytes (Named (str "BIN") [] 0x10 (replicate 20 0)) ++ replicate 32 0.
Definition small_slots : list slot :=
  [Named (str "README") (str "TXT") 0x20 (replicate 20 0); Skipped (0xE5 :: replicate 31 65); Named (str "BIN") [] 0x10 (replicate 20 0)].

Lemma small_has_root : has_root small_floppy (Geometry 32 1 0 4 0) small_slots.
Proof.
  split; try by vm_compute.
  - by exists 1.
  - intros [|[|[|i]]] x Hx; cbn in Hx; try done; injection Hx as <-; (split; [|by vm_compute]); cbn [slot_ok].
    + split_and!; [by apply (bool_decide_unpack _)..|cbn; lia|cbn; lia|done|done|done].
    + split; [done|]. exists 0xE5, 65. by split_and!; [..|left].
    + split_and!; [by apply (bool_decide_unpack _)..|cbn; lia|cbn; lia|done|done|done].
Qed.

Lemma floppy_list_exact_witness :
  floppy_list_dir (Some (str "/")) (FloppyState 4096 small_floppy (zlen small_floppy)) = Ret (0, [str "README.TXT"; str "BIN"]).
Proof.
  exact (floppy_list_exact (FloppyState 4096 small_floppy (zlen small_floppy)) (Geometry 32 1 0 4 0) small_slots (str "/")
    ltac:(done) eq_refl small_has_root ltac:(by apply (bool_decide_unpack _))).
Defined.

(** The bound is a 32-bit sum: a directory at 2^32 - 4096 with 128 entries passes the check,
    and the first entry is read outside the image. *)
Lemma root_offset_wraps :
  floppy_list_dir (Some (str "/"))
    (FloppyState 4096 (replicate 11 0 ++ [0; 16; 1; 15; 0; 16; 128; 0; 0; 0; 0; 255; 255] ++ replicate 100 0) 124) = UB.
Proof. by vm_compute. Qed.
