(* ===== verification/VfsUnion.v ===== *)
(** * HanaFS and FAT32 behind the VFS

    The FAT32 and floppy drivers as the [FatFs] the VFS dispatches to.  Their globals sit
    beside the device both file systems share.  For paths that no mount covers the VFS is a
    union: writes go to HanaFS, reads look in HanaFS, then among the fixed texts of procfs and
    devfs, then on the FAT32 volume.  [vfs_union_refines] proves it for runs of calls in which
    HanaFS saves its image to the same device. *)
From S2P Require Import Prelude Loop CString Heap HeapSpec HanaPath BlockDev HanaFs HanaInv HanaImage HanaOps HanaRefine HanaFrame Vfs VfsSpec LibC Fat FatTable FatChain FatDir FatName FatFile FatSearch FatMount FatRoundtrip FatTree FatFresh Floppy.

(** ** The drivers *)

(** The device with the globals of fat32.cpp and floppy.cpp. *)
Record FatDev (D : Type) := FatDevState { dev : D; fvol : Fat; floppy : Floppy }.
Arguments FatDevState {D} _ _ _.
Arguments dev {D} _.
Arguments fvol {D} _.
Arguments floppy {D} _.
Definition set_dev {D} (x : FatDev D) (d : D) : FatDev D := FatDevState d (fvol x) (floppy x).

#[export] Instance fat_dev {D} `{BlockDev D} : BlockDev (FatDev D) := {
  ata_read_sector lba x := let '(rc, b, d) := ata_read_sector lba (dev x) in (rc, b, set_dev x d);
  ata_write_sector lba b x := let '(rc, d) := ata_write_sector lba b (dev x) in (rc, set_dev x d)
}.
#[export] Instance fat_dev_spec {D} `{BlockDevSpec D} : BlockDevSpec (FatDev D).
Proof.
  refine {| sector x := sector (dev x) |}.
  - intros x. apply sector_size.
  - intros x. apply sector_bytes.
  - intros lba x b x'. cbn. destruct (ata_read_sector lba (dev x)) as [[rc b0] d] eqn:E. intros [= -> -> <-].
    exact (read_ok _ _ _ _ E).
  - intros lba b x x' Hl Hb. cbn. destruct (ata_write_sector lba b (dev x)) as [rc d] eqn:E. intros [= -> <-].
    exact (write_ok _ _ _ _ Hl Hb E).
Defined.
#[export] Instance fat_dev_reliable {D} `{BlockDev D} `{!ReliableDev D} : ReliableDev (FatDev D).
Proof.
  split.
  - intros lba x. destruct (read_succeeds lba (dev x)) as (b & d & E). cbn. rewrite E. eauto.
  - intros lba b x Hl Hb. destruct (write_succeeds lba b (dev x) Hl Hb) as (d & E). cbn. rewrite E. eauto.
Defined.

Section driver.
Context {H D : Type} `{Allocator H} `{BlockDev D}.

(** The state the drivers work on, and back. *)
Definition lower (s : HanaFS H (FatDev D)) : HanaFS H D :=
  FsState (heap s) (dev (disk s)) (g_head s) (g_loaded_from_ata s) (g_hanafs_persist_enabled s).
Definition raise (x : FatDev D) (g : Fat) (s : HanaFS H D) : HanaFS H (FatDev D) :=
  FsState (heap s) (FatDevState (disk s) g (floppy x)) (g_head s) (g_loaded_from_ata s) (g_hanafs_persist_enabled s).

Definition on_fat {A} (f : Fat → HanaFS H D → res (A * HanaFS H D)) (s : HanaFS H (FatDev D)) : res (A * HanaFS H (FatDev D)) :=
  let! (a, t) := f (fvol (disk s)) (lower s) in Ret (a, raise (disk s) (fvol (disk s)) t).

Definition fat_list (mods : option (list BootModule)) (p : list Z) (v : Vfs H (FatDev D)) : res (Z * list (list Z) * Vfs H (FatDev D)) :=
  let x := disk (fs v) in
  let! (rc, names, y) := FatMount.fat32_list_dir mods (Some p) (Sys (fvol x) (VfsState (lower (fs v)) (mounts v))) in
  Ret (rc, names, VfsState (raise x (vol y) (fs (vfs y))) (mounts (vfs y))).

Definition fat_driver (mods : option (list BootModule)) : FatFs H (FatDev D) := {|
  Vfs.fat32_list_dir := fat_list mods;
  Vfs.fat32_create_file p := on_fat (λ g, on_dev (FatDir.fat32_create_file g p));
  Vfs.fat32_unlink p := on_fat (λ g, on_dev (FatDir.fat32_unlink g p));
  Vfs.fat32_make_dir p := on_fat (λ g, on_dev (FatDir.fat32_make_dir g p));
  Vfs.fat32_write_file p buf n := on_fat (λ g, on_dev (FatDir.fat32_write_file g p buf n));
  Vfs.fat32_get_file_alloc p := on_fat (λ g, FatMount.fat32_get_file_alloc g p);
  Vfs.floppy_list_dir p s := let! (rc, names) := Floppy.floppy_list_dir (Some p) (floppy (disk s)) in Ret (rc, names, s)
|}.
End driver.

(** ** The fixed texts *)

Definition proc_texts : gmap (list Z) (list Z) :=
  list_to_map [(str "/proc/cpuinfo", cpuinfo); (str "cpuinfo", cpuinfo); (str "/proc/meminfo", meminfo);
               (str "meminfo", meminfo); (str "/proc/self", self_info); (str "self", self_info)].
Definition dev_texts : gmap (list Z) (list Z) :=
  list_to_map ((λ p, (str p, str "console" ++ [10])) <$> ["console"; "/console"; "dev/console"]%string).

Section texts.
Context {H D : Type} `{Allocator H}.
Implicit Types s : HanaFS H D.

Lemma procfs_texts p s : cstr_ok p →
  procfs_get_file_alloc p s = match proc_texts !! p with Some t => alloc_str t s | None => (None, s) end.
Proof.
  intros Hp. unfold procfs_get_file_alloc. rewrite !strcmp_eqb by (done || by apply (bool_decide_unpack _)).
  unfold proc_texts. repeat (case_bool_decide; [subst; reflexivity|]). cbn [orb].
  rewrite not_elem_of_list_to_map_1; [done|]. cbn. rewrite !not_elem_of_cons. pose proof (not_elem_of_nil p). tauto.
Qed.

Lemma dev_texts_spec p : dev_texts !! p =
  if decide (p = str "console" ∨ p = str "/console" ∨ p = str "dev/console") then Some (str "console" ++ [10]) else None.
Proof.
  case_decide as Hp.
  - destruct Hp as [->|[->| ->]]; reflexivity.
  - apply not_elem_of_list_to_map_1. cbn. rewrite !not_elem_of_cons. pose proof (not_elem_of_nil p). tauto.
Qed.

(** The path with one leading slash removed, unless it names the directory. *)
Lemma devfs_strip p (q := match p with 47 :: r => if strncmp p (str "/dev/") 5 =? 0 then p else match r with [] => p | _ => r end | _ => p end) :
  cstr_ok p → q = p ∧ (∀ r, p = 47 :: r → r = [] ∨ str "/dev/" `prefix_of` p)
              ∨ ¬ str "/dev/" `prefix_of` p ∧ p = 47 :: q.
Proof.
  intros Hp. destruct (decide (head p = Some 47)) as [Hh|Hh].
  - destruct p as [|c r]; [done|]. injection Hh as ->. unfold q.
    pose proof (strncmp_eqb (47 :: r) (str "/dev/") Hp ltac:(by apply (bool_decide_unpack _))) as E. change (strlen (str "/dev/")) with 5 in E.
    rewrite E. case_bool_decide; [left; naive_solver|]. destruct r; [left; naive_solver|by right].
  - left. split; [|intros r ->; done]. unfold q. destruct p as [|c r]; [done|]. by repeat (case_match; try done).
Qed.

Lemma devfs_texts p s : cstr_ok p →
  devfs_get_file_alloc p s = match dev_texts !! p with Some t => alloc_str t s | None => (None, s) end.
Proof.
  intros Hp. unfold devfs_get_file_alloc. rewrite dev_texts_spec.
  pose proof (devfs_strip p Hp) as Hq. cbn zeta in Hq. set (q := match p with 47 :: r => _ | _ => p end) in *. clearbody q.
  assert (Hok : cstr_ok q) by (destruct Hq as [[-> _]|[_ ->]]; [done|by apply Forall_cons in Hp as [_ ?]]).
  pose proof (strncmp_eqb q (str "dev/") Hok ltac:(by apply (bool_decide_unpack _))) as E. change (strlen (str "dev/")) with 4 in E. rewrite E.
  assert (Hnull : ∀ t, cstr_ok t →
    (if strcmp t (str "null") =? 0 then (None, s) else if strcmp t (str "console") =? 0 then alloc_str (str "console" ++ [10]) s else (None, s))
    = if decide (t = str "console") then alloc_str (str "console" ++ [10]) s else (None, s)).
  { intros t Ht. rewrite !strcmp_eqb by (done || by apply (bool_decide_unpack _)).
    repeat case_bool_decide; subst; case_decide; done. }
  case_bool_decide as Hd.
  - destruct Hd as [t ->]. change (drop 4 (str "dev/" ++ t)) with t. rewrite Hnull by (by apply Forall_app in Hok as [_ ?]).
    destruct Hq as [[<- _]|[Hn ->]]; [|by destruct Hn; exists t].
    destruct (decide (t = str "console")) as [->|Ht]; [reflexivity|]. rewrite decide_False; [done|].
    intros [E'|[E'|E']]; try discriminate E'. apply Ht. by apply (app_inv_head (str "dev/")).
  - rewrite Hnull by done. destruct Hq as [[-> Hs]|[Hn ->]].
    + destruct (decide (p = str "console")) as [->|Hc]; [reflexivity|]. rewrite decide_False; [done|]. intros [E'|[E'|E']]; [done| |].
      * destruct (Hs _ E') as [|[t Ht]]; [done|]. rewrite E' in Ht. discriminate Ht.
      * apply Hd. exists (str "console"). exact E'.
    + destruct (decide (q = str "console")) as [->|Hc]; [reflexivity|]. rewrite decide_False; [done|].
      intros [E'|[E'|E']]; try discriminate E'. apply Hc. by injection E'.
Qed.
End texts.

(** ** The abstract union *)

(** What a caller of the VFS gets to see of a file: a file without bytes counts as missing. *)
Definition visible (b : option (list Z)) : option (list Z) := match b with Some (_ :: _) => b | _ => None end.
Definition fat_bytes (f : found) : option (list Z) := match f with Bytes _ data => Some data | _ => None end.

(** [F p] is what the volume has under a path. *)
Definition uread (m : AFs) (F : list Z → found) (p : list Z) : option (list Z) :=
  visible (match m !! key_of p with Some (File b) => Some b | _ => None end)
  ∪ (visible (proc_texts !! p) ∪ (visible (dev_texts !! p) ∪ visible (fat_bytes (F p)))).

Definition ucall (F : list Z → found) (m : AFs) (c : call) : answer * AFs :=
  match c with Read p => (Content (uread m F p), m) | _ => acall m c end.
Fixpoint urun (F : list Z → found) (m : AFs) (cs : list call) : list answer :=
  match cs with
  | [] => []
  | c :: cs => let '(a, m') := ucall F m c in a :: urun F m' cs
  end.

(** Heap room of a call, and that a run has it. *)
Definition uroom (F : list Z → found) (m : AFs) (c : call) : Z :=
  match c with Read p => room (map_size m) c + 300 + found_cost (F p) | _ => room (map_size m) c end.
Fixpoint ufits (F : list Z → found) (r : Z) (m : AFs) (cs : list call) : Prop :=
  match cs with
  | [] => True
  | c :: cs =>
      uroom F m c ≤ r ∧ map_size m + grow c < 2 ^ 31 ∧ Z.of_nat (size m) + 1 < 2 ^ 31 ∧
      map_size (ucall F m c).2 < 2 ^ 31 ∧ ufits F (r - uroom F m c) (ucall F m c).2 cs
  end.

Section union.
Context {H D : Type} `{AllocatorSpec H} `{BlockDevSpec D} `{!ReliableDev D} (mods : option (list BootModule)).
Notation St := (HanaFS H (FatDev D)).
Notation V := (Vfs H (FatDev D)).
#[local] Hint Extern 0 (FatFs _ _) => exact (fat_driver mods) : typeclass_instances.

(** The calls through the VFS; the reader copies what it gets and frees it.  The VFS has no
    [stat]. *)
Definition vcall (v : V) (c : call) : res (answer * V) :=
  let rc m := let! (z, v) := m in Ret (Rc z, v) in
  match c with
  | Write p b => rc (vfs_write_file (Some p) (Some b) (zlen b) v)
  | Create p => rc (vfs_create_file (Some p) v)
  | Read p =>
      let! (r, v) := vfs_get_file_alloc (Some p) v in
      match r with
      | Some (b, bytes, n) => Ret (Content (Some (take (Z.to_nat n) bytes)), set_fs v (HanaFs.kfree b (fs v)))
      | None => Ret (Content None, v)
      end
  | Unlink p => rc (vfs_unlink (Some p) v)
  | Mkdir p => rc (vfs_make_dir (Some p) v)
  | Rmdir p => rc (vfs_remove_dir (Some p) v)
  | StatOf _ => UB
  end.
Fixpoint vrun (v : V) (cs : list call) : res (list answer) :=
  match cs with
  | [] => Ret []
  | c :: cs => let! (a, v) := vcall v c in let! r := vrun v cs in Ret (a :: r)
  end.

(** What HanaFS leaves of the device. *)
Definition kept (x x' : FatDev D) : Prop :=
  fvol x' = fvol x ∧ ∀ l, l < HANAFS_PERSIST_LBA → sector (dev x') l = sector (dev x) l.
#[local] Instance kept_preorder : PreOrder kept.
Proof. split; [done|]. intros x y z [E1 H1'] [E2 H2']. split; [congruence|]. intros l Hl. by rewrite H2', H1'. Qed.

Lemma written_kept (x x' : FatDev D) : HanaFrame.written (λ l, HANAFS_PERSIST_LBA ≤ l) x x' → kept x x'.
Proof.
  induction 1 as [x|x y z (lba & b & Ha & Hl & Hb & ->) _ IH]; [done|]. etrans; [|exact IH].
  destruct (ata_write_ok lba b (dev x) Hl Hb) as (d & E & Hd). cbn. rewrite E. cbn. split; [done|].
  intros l Hlt. cbn. rewrite Hd, (proj2 (Z.eqb_neq l lba)); [done|lia].
Qed.

Lemma small_area (s : St) r X : fs_inv r X s → map_size (fs_abs s) < 2 ^ 31 → area (λ l, HANAFS_PERSIST_LBA ≤ l) s.
Proof.
  intros Hi Hm i H0' Hi'. rewrite (map_size_records _ _ _ Hi) in Hi'. unfold HANAFS_PERSIST_LBA. rewrite u32_small by lia. lia.
Qed.

(** The calls that go to HanaFS. *)
Definition to_hanafs (c : call) : bool := match c with Read _ | StatOf _ => false | _ => true end.

Lemma vcall_hanafs v c : find_mount (call_path c) (mounts v) = None → to_hanafs c = true →
  vcall v c = (let! (a, s) := ccall (fs v) c in Ret (a, set_fs v s)).
Proof.
  intros Hm Hc.
  assert (Hb : ∀ f : list Z → St → res (Z * St), ∀ o,
    (let! (z, w) := vfs_dispatch (call_path c) v f o in Ret (Rc z, w))
    = (let! (a, s) := (let! (z, s) := f (call_path c) (fs v) in Ret (Rc z, s)) in Ret (a, set_fs v s))).
  { intros f o. unfold vfs_dispatch. rewrite Hm. by destruct (f (call_path c) (fs v)) as [[]| |]. }
  destruct c; try done; apply Hb.
Qed.

Lemma ccall_kept (s : St) c a s' r X : to_hanafs c = true → ccall s c = Ret (a, s') → fs_inv r X s' →
  map_size (fs_abs s') < 2 ^ 31 → kept (disk s) (disk s').
Proof.
  intros Hc Hs Hi Hm. pose proof (small_area s' r X Hi Hm) as Ha. pose proof (fi_entries _ _ _ Hi) as He.
  apply written_kept. destruct c; try done; unfold ccall, hanafs_create_file in Hs; apply rbind_Ret in Hs as ([z s1] & Hs & [= <- <-]).
  - by eapply write_file_frame.
  - by eapply write_file_frame.
  - by eapply unlink_frame.
  - by eapply make_dir_frame.
  - by eapply remove_dir_frame.
Qed.

(** ** Reading *)

(** A read step from [s] ended in [s'] with [out], which holds [want]; [r] bytes of room and
    the allocations [X] are left. *)
Definition gives (r : Z) (X : list Z) (s : St) (want : option (list Z)) (out : option file_buf) (s' : St) : Prop :=
  fs_abs s' = fs_abs s ∧ kept (disk s) (disk s') ∧
  match out with
  | Some (b, bytes, n) => want = Some (take (Z.to_nat n) bytes) ∧ n = zlen (take (Z.to_nat n) bytes) ∧ fs_inv r (b :: X) s'
  | None => want = None ∧ fs_inv r X s'
  end.

Lemma gives_le r r' X s w out s' : r' ≤ r → gives r X s w out s' → gives r' X s w out s'.
Proof.
  intros Hr (Ha & Hk & Ho). split_and!; [done|done|]. destruct out as [[[b bytes] n]|]; [destruct Ho as (Hw & Hn & Hi)|destruct Ho as [-> Hi]].
  - split_and!; [done|done|by eapply fs_inv_le].
  - split; [done|by eapply fs_inv_le].
Qed.

Lemma nonempty_gives r X s w out s1 : gives r X s w out s1 →
  gives r X s (visible w) (nonempty out s1).1 (nonempty out s1).2.
Proof.
  intros (Ha & Hk & Ho). destruct out as [[[b bytes] n]|]; cbn [nonempty]; [|destruct Ho as [-> Hi]; by split_and!].
  destruct Ho as (-> & Hn & Hi). destruct (Z.ltb_spec 0 n) as [Hlt|Hge].
  - split_and!; [done|done|]. cbn [fst]. split_and!; [|done|done]. destruct (take (Z.to_nat n) bytes); [|done]. change (zlen (@nil Z)) with 0 in Hn. lia.
  - split_and!; [done|done|]. cbn [fst snd]. split; [|by apply kfree_step].
    destruct (take (Z.to_nat n) bytes) as [|c l]; [done|]. rewrite zlen_cons in Hn. pose proof (zlen_nonneg l). lia.
Qed.

Lemma hanafs_gives r X (s : St) p : fs_inv r X s → cstr_ok p → zlen p ≤ 500 → room (map_size (fs_abs s)) (Read p) ≤ r →
  ∃ out s', hanafs_get_file_alloc (Some p) s = Ret (out, s') ∧
    gives (r - room (map_size (fs_abs s)) (Read p)) X s (match fs_abs s !! key_of p with Some (File b) => Some b | _ => None end) out s'.
Proof.
  intros Hi Hp Hl Hr. cbn [room] in *. destruct (call_path_arg (Read p)) as (drv & pb & Ha); [by split_and!|]. cbn [call_path] in Ha.
  pose proof (get_file_spec r X s p drv pb _ Hi Ha) as Hg. pose proof (zlen_nonneg p).
  assert (0 ≤ map_size (fs_abs s)) by (rewrite <- (map_size_records _ _ _ Hi); apply zlen_nonneg).
  assert (Hk : ∀ out s', hanafs_get_file_alloc (Some p) s = Ret (out, s') → kept (disk s) (disk s')).
  { intros out s' He. apply written_kept. by eapply get_file_frame. }
  destruct (fs_abs s !! key_of p) as [[|b]|] eqn:E.
  1,3: destruct Hg as (s' & He & Hm & Hi'); [lia|]; exists None, s'; rewrite He; split; [done|];
       split_and!; [done|by eapply Hk|done|eapply fs_inv_le; [|exact Hi']; lia].
  pose proof (map_size_elem _ _ _ E). destruct Hg as (buf & s' & He & _ & Hm & Hi'); [lia|lia|].
  eexists _, s'. rewrite He. split; [done|]. split; [done|]. split; [by eapply Hk|].
  assert (Ht : take (Z.to_nat (zlen b)) (if decide (b = []) then [0] else b) = b).
  { case_decide as Hb; [by subst|]. unfold zlen. by rewrite Nat2Z.id, firstn_all. }
  rewrite Ht. split_and!; [done|done|]. eapply fs_inv_le; [|exact Hi']. lia.
Qed.

Lemma text_gives r X (s : St) (t : option (list Z)) : fs_inv r X s → (∀ x, t = Some x → zlen x ≤ 60) → 150 ≤ r →
  let o := match t with Some t => alloc_str t s | None => (None, s) end in gives (r - 150) X s t o.1 o.2.
Proof.
  intros Hi Ht Hr. destruct t as [t|]; cbn zeta; [|split; [done|]; split; [done|]; split; [done|]; eapply fs_inv_le; [|exact Hi]; lia].
  specialize (Ht t eq_refl). pose proof (zlen_nonneg t). unfold alloc_str, strlen. fold (zlen t).
  destruct (kmalloc_step r X s (zlen t + 1) Hi) as (b & h & -> & Hb & Hi'); [lia|unfold cost; lia|].
  rewrite (proj2 (Z.eqb_neq b 0)) by done. split; [done|]. split; [done|]. cbn [fst].
  assert (Htk : take (Z.to_nat (zlen t)) (t ++ [0]) = t) by (unfold zlen; rewrite Nat2Z.id; apply take_app_length).
  rewrite Htk. split_and!; [done|done|]. eapply fs_inv_le; [|exact Hi']. unfold cost. lia.
Qed.

Lemma proc_gives r X (s : St) p : fs_inv r X s → 150 ≤ r →
  ∃ o s', match proc_texts !! p with Some t => alloc_str t s | None => (None, s) end = (o, s') ∧ gives (r - 150) X s (proc_texts !! p) o s'.
Proof.
  intros Hi Hr. pose proof (text_gives r X s (proc_texts !! p) Hi) as G. cbn zeta in G.
  destruct (match proc_texts !! p with Some t => alloc_str t s | None => (None, s) end) as [o s'].
  exists o, s'. split; [done|]. apply G; [|done]. intros x Hx. apply elem_of_list_to_map_2 in Hx. cbn in Hx.
  rewrite !elem_of_cons, elem_of_nil in Hx. destruct_or? Hx; try done; by injection Hx as _ ->.
Qed.
Lemma dev_gives r X (s : St) p : fs_inv r X s → 150 ≤ r →
  ∃ o s', match dev_texts !! p with Some t => alloc_str t s | None => (None, s) end = (o, s') ∧ gives (r - 150) X s (dev_texts !! p) o s'.
Proof.
  intros Hi Hr. pose proof (text_gives r X s (dev_texts !! p) Hi) as G. cbn zeta in G.
  destruct (match dev_texts !! p with Some t => alloc_str t s | None => (None, s) end) as [o s'].
  exists o, s'. split; [done|]. apply G; [|done]. rewrite dev_texts_spec. case_decide; [|done]. by intros x [= <-].
Qed.

Lemma fat_gives r X (s : St) p f : vol_ok (fvol (disk s)) → opens_path (fvol (disk s)) (dev (disk s)) p f → fs_inv r X s → found_cost f ≤ r →
  ∃ out s', Vfs.fat32_get_file_alloc p s = Ret (out, s') ∧ gives (r - found_cost f) X s (fat_bytes f) out s'.
Proof.
  intros Hg Ho Hi Hr. destruct (get_file_opens (fvol (disk s)) Hg p f (lower s) Ho) as (d' & Hs & E).
  apply opens_path_size in Ho. cbn [Vfs.fat32_get_file_alloc fat_driver]. unfold on_fat. rewrite E. cbn [rbind].
  assert (Hk : kept (disk s) (set_dev (disk s) d')) by (split; [done|intros l _; apply Hs]).
  destruct f as [|n|n data]; cbn [found_cost fat_bytes] in *; unfold handed, HanaFs.kmalloc; cbn [heap set_disk lower].
  - eexists _, _. split; [done|]. split; [done|]. split; [exact Hk|]. split; [done|]. rewrite Z.sub_0_r.
    eapply fs_inv_same, Hi. by split_and!.
  - destruct (kmalloc_step r X s n Hi) as (b & h & Em & Hb & Hi'); [lia|done|]. unfold HanaFs.kmalloc in Em.
    destruct (amalloc n (heap s)) as [b' h'] eqn:Ea. injection Em as -> Eh. rewrite (proj2 (Z.eqb_neq b 0)) by done.
    eexists _, _. split; [done|]. split; [done|]. split; [exact Hk|]. split; [done|].
    apply kfree_step in Hi'. eapply fs_inv_same, Hi'. split_and!; [|done|done]. cbn in *. congruence.
  - destruct (kmalloc_step r X s n Hi) as (b & h & Em & Hb & Hi'); [lia|done|]. unfold HanaFs.kmalloc in Em.
    destruct (amalloc n (heap s)) as [b' h'] eqn:Ea. injection Em as -> Eh. rewrite (proj2 (Z.eqb_neq b 0)) by done.
    eexists _, _. split; [done|]. split; [done|]. split; [exact Hk|]. cbn [fst].
    assert (Ht : take (Z.to_nat (zlen data)) data = data) by (unfold zlen; by rewrite Nat2Z.id, firstn_all).
    rewrite Ht. split_and!; [done|done|]. eapply fs_inv_same, Hi'. split_and!; [|done|done]. cbn in *. congruence.
Qed.

(** One source of the look-up: it answers, or the next one is asked. *)
Lemma source_gives {A} r X (s s1 : St) w out (k : St → res A) (y : option file_buf → St → A) : gives r X s w out s1 →
  ∃ out' s2, gives r X s (visible w) out' s2 ∧
    (let '(o, t) := nonempty out s1 in if bool_decide (is_Some o) then Ret (y o t) else k t)
    = match out' with Some _ => Ret (y out' s2) | None => k s2 end.
Proof.
  intros Hg%nonempty_gives. destruct (nonempty out s1) as [o t]. exists o, t. split; [done|]. by destruct o.
Qed.

Lemma gives_inv r X s w s' : gives r X s w None s' → fs_inv r X s' ∧ fs_abs s' = fs_abs s ∧ kept (disk s) (disk s').
Proof. by intros (? & ? & _ & ?). Qed.

Lemma gives_stop r r' X s w o q s' : r' ≤ r → gives r X s w (Some q) s' → gives r' X s (w ∪ o) (Some q) s'.
Proof. destruct q as [[b bytes] n]. intros Hr (? & ? & -> & ? & ?). split_and!; [done|done|by destruct o|done|by eapply fs_inv_le]. Qed.

(** All the sources say no, or the first one that does not is taken. *)
Lemma gives_next r r' X s w s1 w' out s2 : gives r X s w None s1 → gives r' X s1 w' out s2 → gives r' X s (w ∪ w') out s2.
Proof.
  intros (Ha & Hk & -> & _) (Ha' & Hk' & Ho). rewrite (left_id_L None (∪) w'). split; [congruence|]. split; [by etrans|done].
Qed.

Lemma fallback_gives (F : list Z → found) r (v : V) p (X := mp_addr <$> mounts v) : fs_inv r X (fs v) → cstr_ok p → zlen p ≤ 500 →
  vol_ok (fvol (disk (fs v))) → volume_end (fvol (disk (fs v))) ≤ HANAFS_PERSIST_LBA →
  opens_path (fvol (disk (fs v))) (dev (disk (fs v))) p (F p) → uroom F (fs_abs (fs v)) (Read p) ≤ r →
  ∃ out s', get_file_fallback p v = Ret (out, set_fs v s') ∧
    gives (r - uroom F (fs_abs (fs v)) (Read p)) X (fs v) (uread (fs_abs (fs v)) F p) out s'.
Proof.
  intros Hi Hp Hl Hg He Ho Hr. cbn [uroom] in *. unfold get_file_fallback, uread.
  assert (Hc : 0 ≤ found_cost (F p)).
  { apply opens_path_size in Ho. destruct (F p); cbn [found_cost]; unfold cost; lia. }
  destruct (hanafs_gives r X (fs v) p Hi Hp Hl ltac:(lia)) as (o0 & s0 & -> & G0). cbn [rbind].
  set (r0 := r - room (map_size (fs_abs (fs v))) (Read p)) in *.
  edestruct (source_gives (A := option file_buf * V)) as (o1 & s1 & G1 & E1); [exact G0|]. rewrite E1. clear E1 G0 s0 o0.
  destruct o1 as [q|]; [exists (Some q), s1; split; [done|eapply gives_stop; [|exact G1]; lia]|].
  destruct (gives_inv _ _ _ _ _ G1) as (I1 & A1 & K1). rewrite procfs_texts by done.
  destruct (proc_gives r0 X s1 p I1 ltac:(lia)) as (o2 & s2 & -> & G2).
  edestruct (source_gives (A := option file_buf * V)) as (o3 & s3 & G3 & E3); [exact G2|]. rewrite E3. clear E3 G2 s2 o2.
  destruct o3 as [q|].
  { exists (Some q), s3. split; [done|]. eapply gives_next; [exact G1|]. eapply gives_stop; [|exact G3]. lia. }
  destruct (gives_inv _ _ _ _ _ G3) as (I3 & A3 & K3).
  destruct (dev_gives (r0 - 150) X s3 p I3 ltac:(lia)) as (o4 & s4 & E4 & G4). rewrite devfs_texts, E4 by done.
  edestruct (source_gives (A := option file_buf * V)) as (o5 & s5 & G5 & E5); [exact G4|]. rewrite E5. clear E5 E4 G4 s4 o4.
  destruct o5 as [q|].
  { exists (Some q), s5. split; [done|]. eapply gives_next; [exact G1|]. eapply gives_next; [exact G3|].
    eapply gives_stop; [|exact G5]. lia. }
  destruct (gives_inv _ _ _ _ _ G5) as (I5 & A5 & K5).
  assert (K : kept (disk (fs v)) (disk s5)) by (do 2 (etrans; [done|]); done). destruct K as [Kg Kl].
  destruct (fat_gives (r0 - 150 - 150) X s5 p (F p)) as (o6 & s6 & -> & G6); [by rewrite Kg| |done|lia|].
  { rewrite Kg. eapply opens_path_agree; [done| |exact Ho]. intros l Hl'. apply Kl. lia. }
  cbn [rbind]. apply nonempty_gives in G6. destruct (nonempty o6 s6) as [o7 s7]. cbn [fst snd] in G6.
  exists o7, s7. split; [done|]. eapply gives_next; [exact G1|]. eapply gives_next; [exact G3|]. eapply gives_next; [exact G5|].
  eapply gives_le; [|exact G6]. lia.
Qed.

(** ** Runs *)

(** The calls the refinement covers: on paths that no mount covers; [F] tells what the volume
    has under the paths that are read. *)
Definition ucall_ok (x : FatDev D) (ms : list MountEntry) (F : list Z → found) (c : call) : Prop :=
  call_ok c ∧ find_mount (call_path c) ms = None ∧
  match c with StatOf _ => False | Read p => opens_path (fvol x) (dev x) p (F p) | _ => True end.

Lemma ucall_ok_kept x x' ms F c : vol_ok (fvol x) → volume_end (fvol x) ≤ HANAFS_PERSIST_LBA → kept x x' →
  ucall_ok x ms F c → ucall_ok x' ms F c.
Proof.
  intros Hg He [Eg Hk] (Hc & Hm & Ho). split_and!; [done|done|]. destruct c; try done. rewrite Eg.
  eapply opens_path_agree; [done| |exact Ho]. intros l Hl. apply Hk. lia.
Qed.

Lemma vcall_refines F r (v : V) c : vol_ok (fvol (disk (fs v))) → volume_end (fvol (disk (fs v))) ≤ HANAFS_PERSIST_LBA →
  fs_inv r (mp_addr <$> mounts v) (fs v) → ucall_ok (disk (fs v)) (mounts v) F c → uroom F (fs_abs (fs v)) c ≤ r →
  map_size (fs_abs (fs v)) + grow c < 2 ^ 31 → Z.of_nat (size (fs_abs (fs v))) + 1 < 2 ^ 31 →
  map_size (ucall F (fs_abs (fs v)) c).2 < 2 ^ 31 →
  ∃ v', vcall v c = Ret ((ucall F (fs_abs (fs v)) c).1, v') ∧ fs_abs (fs v') = (ucall F (fs_abs (fs v)) c).2 ∧
        mounts v' = mounts v ∧ kept (disk (fs v)) (disk (fs v')) ∧
        fs_inv (r - uroom F (fs_abs (fs v)) c) (mp_addr <$> mounts v) (fs v').
Proof.
  intros Hg He Hi (Hok & Hm & Ho) Hr Hgr Hn Hsz. destruct (to_hanafs c) eqn:Ec.
  - assert (Hu : ucall F (fs_abs (fs v)) c = acall (fs_abs (fs v)) c) by (by destruct c).
    assert (Hur : uroom F (fs_abs (fs v)) c = room (map_size (fs_abs (fs v))) c) by (by destruct c).
    rewrite Hu, Hur in *. destruct (hana_call_refines r _ (fs v) c Hi Hok Hr Hgr Hn) as (s' & Hc & Ha & Hi').
    rewrite vcall_hanafs, Hc by done. exists (set_fs v s'). split_and!; [done|done|done| |done].
    apply (ccall_kept (fs v) c _ s' _ _ Ec Hc Hi'). by rewrite Ha.
  - destruct c; try done. destruct Hok as (Hp & Hl & _). cbn [call_path] in *.
    destruct (fallback_gives F r v p Hi Hp Hl Hg He Ho Hr) as (out & s' & Ef & Ha & Hk & Hout).
    unfold vcall, vfs_get_file_alloc. rewrite Hm, Ef. cbn [rbind ucall fst snd]. destruct out as [[[b bytes] n]|].
    + destruct Hout as (-> & _ & Hi'). eexists. split_and!; [done|done|done|done|]. by apply kfree_step.
    + destruct Hout as (-> & Hi'). by eexists.
Qed.

Lemma union_runs F cs : ∀ r (v : V), vol_ok (fvol (disk (fs v))) → volume_end (fvol (disk (fs v))) ≤ HANAFS_PERSIST_LBA →
  fs_inv r (mp_addr <$> mounts v) (fs v) → Forall (ucall_ok (disk (fs v)) (mounts v) F) cs → ufits F r (fs_abs (fs v)) cs →
  vrun v cs = Ret (urun F (fs_abs (fs v)) cs).
Proof.
  induction cs as [|c cs IH]; intros r v Hg He Hi Hok Hf; [done|].
  apply Forall_cons in Hok as [Hc Hok]. destruct Hf as (Hr & Hgr & Hn & Hsz & Hf).
  destruct (vcall_refines F r v c Hg He Hi Hc Hr Hgr Hn Hsz) as (v' & E & Ha & Hm & Hk & Hi').
  cbn [vrun urun]. rewrite E. destruct (ucall F (fs_abs (fs v)) c) as [a m]. cbn [rbind fst snd] in *. subst m.
  pose proof (proj1 Hk) as Eg. rewrite <- Hm in Hi'. rewrite (IH _ v' ltac:(by rewrite Eg) ltac:(by rewrite Eg) Hi'); [done| |done].
  rewrite Hm. eapply Forall_impl; [exact Hok|]. intros c'. by apply ucall_ok_kept.
Qed.

End union.

(** ** A machine with a volume *)

(** A device of 200 sectors, formatted, with a file in the root and one in a directory. *)
Definition demo_volume : res (Fat * Disk) :=
  run (λ g s, let! (r1, d) := FatDir.fat32_write_file g (str "/readme.txt") (Some (str "fat")) 3 (disk s) in
              let! (r2, d) := FatDir.fat32_make_dir g (str "/docs") d in
              let! (r3, d) := FatDir.fat32_write_file g (str "/docs/plan.txt") (Some (replicate 700 7)) 700 d in
              if (r1 =? 0) && (r2 =? 0) && (r3 =? 0) then Ret (g, d) else UB).
Definition demo_fat : Fat := match demo_volume with Ret (g, _) => g | _ => boot_fat end.
Definition demo_disk : Disk := match demo_volume with Ret (_, d) => d | _ => ∅ end.
Definition demo_found (p : list Z) : found :=
  if decide (p = str "/readme.txt") then Bytes 3 (str "fat")
  else if decide (p = str "/docs/plan.txt") then Bytes 700 (replicate 700 7) else Missing.

Lemma demo_vol_ok : vol_ok demo_fat ∧ volume_end demo_fat ≤ HANAFS_PERSIST_LBA.
Proof. split; [split|]; vm_compute; (reflexivity || discriminate || (split; discriminate)). Qed.

Lemma demo_chains : ∀ l, l ∈ [[2]; [3]; [4]; [5; 6]] → chain demo_fat (fat_val demo_fat demo_disk) l ∧ NoDup l.
Proof.
  intros l Hl. cbn in Hl. rewrite !elem_of_cons, elem_of_nil in Hl.
  destruct Hl as [->|[->|[->|[->|[]]]]]; (split; [vm_compute; repeat split; (reflexivity || discriminate)|by apply (bool_decide_unpack _)]).
Qed.

Lemma demo_directory c : c ∈ [2; 4] → directory demo_fat demo_disk c (slot_entry demo_disk <$> dir_slots demo_fat [c]).
Proof.
  intros Hc. exists []. split; [|done]. apply demo_chains. rewrite !elem_of_cons, elem_of_nil in Hc. rewrite !elem_of_cons.
  destruct Hc as [->|[->|[]]]; tauto.
Qed.

Lemma demo_opens p : p ∈ str <$> ["/readme.txt"; "/docs/plan.txt"; "/docs"; "/a"; "/d/b"; "cpuinfo"]%string →
  opens_path demo_fat demo_disk p (demo_found p).
Proof.
  assert (D2 := demo_directory 2 ltac:(left)). assert (D4 := demo_directory 4 ltac:(right; left)).
  intros Hp. cbn in Hp. rewrite !elem_of_cons, elem_of_nil in Hp.
  destruct Hp as [->|[->|[->|[->|[->|[->|[]]]]]]]; unfold opens_path, demo_found; rewrite decide_False by (vm_compute; discriminate).
  - rewrite decide_True by done. eapply opens_file; [exact D2|reflexivity|vm_compute; reflexivity|].
    right. exists []. split; [apply demo_chains; rewrite !elem_of_cons; tauto|vm_compute; reflexivity].
  - rewrite decide_False, decide_True by done.
    eapply opens_below; [exact D2|reflexivity|done|vm_compute; reflexivity|].
    eapply opens_file; [exact D4|reflexivity|vm_compute; reflexivity|].
    right. exists [6]. split; [apply demo_chains; rewrite !elem_of_cons; tauto|vm_compute; reflexivity].
  - rewrite !decide_False by done. eapply opens_directory; [exact D2|reflexivity|vm_compute; reflexivity].
  - rewrite !decide_False by done. eapply opens_missing; [exact D2|reflexivity|vm_compute; reflexivity].
  - rewrite !decide_False by done. eapply opens_missing; [exact D2|reflexivity|vm_compute; reflexivity].
  - rewrite !decide_False by done. eapply opens_missing; [exact D2|reflexivity|vm_compute; reflexivity].
Qed.

Definition demo_state : HanaFS Heap.Heap Disk := FsState h0 demo_disk [] false false.

Lemma fat32_open_exact_witness :
  ∃ buf s', FatMount.fat32_get_file_alloc (H0 := heap_allocator bi0) demo_fat (str "/docs/plan.txt") demo_state
    = Ret (Some (buf, replicate 700 7, 700), s').
Proof.
  destruct (fat32_open_exact (H0 := heap_allocator bi0) (H1 := heap_allocator_spec bi0) demo_fat (str "/docs/plan.txt")
              (Bytes 700 (replicate 700 7)) demo_state 262000 ∅) as (out & s' & E & _ & buf & cap & -> & _).
  - apply demo_vol_ok.
  - apply (demo_opens (str "/docs/plan.txt")). cbn. rewrite !elem_of_cons. tauto.
  - exact h0_alloc_inv.
  - vm_compute. discriminate.
  - exists buf, s'. exact E.
Defined.

Definition demo_vfs : Vfs Heap.Heap (FatDev Disk) :=
  VfsState (FsState h0 (FatDevState demo_disk demo_fat (FloppyState 0 [] 0)) [] false true) [].
Definition demo_calls : list call :=
  [Read (str "/readme.txt"); Write (str "/a") (str "ram"); Mkdir (str "/d"); Write (str "/d/b") (str "x"); Read (str "/a"); Read (str "/d/b");
   Read (str "/docs/plan.txt"); Write (str "/readme.txt") (str "new"); Read (str "/readme.txt"); Unlink (str "/readme.txt");
   Read (str "/readme.txt"); Read (str "cpuinfo"); Unlink (str "/a"); Read (str "/a")].

