(* ===== verification/Arch.v ===== *)
(** * Descriptor tables, interrupt controller, timer, system-call registers
      (kernel/arch/gdt.cpp, idt.cpp, pic.cpp, pit.cpp, syscall_init.cpp)

    The tables are lists of the packed structures the code fills in.  What the processor and
    the two chips make of the bytes they are given is written down as their manuals say:
    [seg_base] and the other fields of a descriptor, [gate_target], the initialisation
    sequence of the interrupt controller, the reload register of the timer. *)
From S2P Require Import Prelude Loop Ide.

(** ** Bits of a word *)

(** The field of [w] bits at bit [k]. *)
Definition bits (z k w : Z) : Z := z `div` 2 ^ k `mod` 2 ^ w.

Lemma bits_shift_mask z k w : 0 ≤ k → 0 ≤ w → Z.land (Z.shiftr z k) (2 ^ w - 1) = bits z k w.
Proof. intros. unfold bits. by rewrite land_ones_mod, Z.shiftr_div_pow2 by done. Qed.
Lemma bits_low z w : 0 ≤ w → Z.land z (2 ^ w - 1) = bits z 0 w.
Proof. intros. unfold bits. by rewrite land_ones_mod, Z.div_1_r by done. Qed.
Lemma bits_bound z k w : 0 ≤ w → 0 ≤ bits z k w < 2 ^ w.
Proof. intros. apply Z.mod_pos_bound. lia. Qed.
Lemma bits_join z k w v :
  0 ≤ k → 0 ≤ w → 0 ≤ v → bits z k w + bits z (k + w) v * 2 ^ w = bits z k (w + v).
Proof.
  intros. unfold bits. rewrite (Z.pow_add_r 2 k w), (Z.pow_add_r 2 w v), <- Z.div_div by lia.
  rewrite Z.rem_mul_r by lia. lia.
Qed.
Lemma bits_all z w : 0 ≤ z < 2 ^ w → bits z 0 w = z.
Proof. intros. unfold bits. by rewrite Z.div_1_r, Z.mod_small by done. Qed.
Lemma u_bits w z k v : 0 ≤ v ≤ w → wrap w (bits z k v) = bits z k v.
Proof.
  intros. apply wrap_small. pose proof (bits_bound z k v ltac:(lia)).
  pose proof (Z.pow_le_mono_r 2 v w ltac:(lia) ltac:(lia)). lia.
Qed.

(** ** Segment descriptors *)

Module Gdt.
Record gdt_entry := Gdt_entry {
  limit_low : Z; base_low : Z; base_middle : Z; access : Z; granularity : Z; base_high : Z
}.
Record gdt_ptr := Gdt_ptr { limit : Z; base : Z }.

(** [static gdt_entry gdt[6]] *)
Definition gdt0 : list gdt_entry := replicate 6 (Gdt_entry 0 0 0 0 0 0).

Definition make_entry (base limit access gran : Z) : gdt_entry :=
  Gdt_entry (u16 (Z.land limit 0xFFFF)) (u16 (Z.land base 0xFFFF))
    (u8 (Z.land (Z.shiftr base 16) 0xFF)) access
    (u8 (Z.lor (Z.land (Z.shiftr limit 16) 0x0F) (Z.land gran 0xF0)))
    (u8 (Z.land (Z.shiftr base 24) 0xFF)).
Definition set_gdt_entry (idx base limit access gran : Z) (g : list gdt_entry) : res (list gdt_entry) :=
  if (0 <=? idx) && (idx <? zlen g)
  then Ret (<[Z.to_nat idx := make_entry base limit access gran]> g) else UB.

(** The segment registers after [gdt_reload_segments]. *)
Record segments := Segments { cs : Z; ds : Z; es : Z; ss : Z; fs : Z; gs : Z }.
Definition gdt_reload_segments : segments := Segments 0x08 0x10 0x10 0x10 0x10 0x10.

(** [addr] is the address of the table; the answer is the table, the operand of [lgdt] and
    the segment registers. *)
Definition gdt_install (addr : Z) (g : list gdt_entry) : res (list gdt_entry * gdt_ptr * segments) :=
  let! g := set_gdt_entry 0 0 0 0 0 g in
  let! g := set_gdt_entry 1 0 0 0x9A 0x20 g in
  let! g := set_gdt_entry 2 0 0 0x92 0x00 g in
  let! g := set_gdt_entry 3 0 0 0xFA 0x20 g in
  let! g := set_gdt_entry 4 0 0 0xF2 0x00 g in
  Ret (g, Gdt_ptr (8 * zlen g - 1) addr, gdt_reload_segments).

(** The processor's reading of a descriptor. *)
Definition seg_base (e : gdt_entry) : Z :=
  Z.lor (Z.lor (base_low e) (Z.shiftl (base_middle e) 16)) (Z.shiftl (base_high e) 24).
Definition seg_limit (e : gdt_entry) : Z :=
  Z.lor (limit_low e) (Z.shiftl (Z.land (granularity e) 0x0F) 16).
Definition seg_flags (e : gdt_entry) : Z := Z.shiftr (granularity e) 4.
Definition present (e : gdt_entry) : bool := Z.testbit (access e) 7.
Definition dpl (e : gdt_entry) : Z := Z.land (Z.shiftr (access e) 5) 3.
Definition is_code (e : gdt_entry) : bool := Z.testbit (access e) 4 && Z.testbit (access e) 3.
Definition is_data (e : gdt_entry) : bool := Z.testbit (access e) 4 && negb (Z.testbit (access e) 3).
Definition long_mode (e : gdt_entry) : bool := Z.testbit (granularity e) 5.
Definition writable (e : gdt_entry) : bool := Z.testbit (access e) 1.

(** The descriptor a selector names: index in the bits above the third, if the table's limit
    covers it. *)
Definition select (g : list gdt_entry) (p : gdt_ptr) (sel : Z) : option gdt_entry :=
  let i := Z.shiftr sel 3 in
  if 8 * i + 7 <=? limit p then g !! Z.to_nat i else None.

Lemma seg_base_join l m h :
  0 ≤ l < 2 ^ 16 → 0 ≤ m < 2 ^ 8 →
  Z.lor (Z.lor l (Z.shiftl m 16)) (Z.shiftl h 24) = l + m * 2 ^ 16 + h * 2 ^ 24.
Proof.
  intros Hl Hm. rewrite (lor_shiftl_add l m 16) by lia. rewrite lor_shiftl_add; lia.
Qed.

(** The high half of the granularity byte is the flags, the low half bits 16 to 19 of the
    limit. *)
Lemma gran_byte a b :
  0 ≤ a < 16 → 0 ≤ b < 256 →
  u8 (Z.lor a (Z.land b 0xF0)) = a + bits b 4 4 * 16.
Proof.
  intros Ha Hb. assert (Z.land b 0xF0 = Z.shiftl (bits b 4 4) 4) as ->.
  { rewrite <- bits_shift_mask by lia. apply Z.bits_inj'. intros i Hi.
    rewrite Z.land_spec, Z.shiftl_spec by lia. change 0xF0 with (Z.shiftl (2 ^ 4 - 1) 4).
    rewrite Z.shiftl_spec by lia. destruct (Z_lt_le_dec i 4) as [Hlt|Hge].
    - rewrite (Z.testbit_neg_r (2 ^ 4 - 1)), (Z.testbit_neg_r (Z.land _ _)) by lia. apply andb_false_r.
    - rewrite Z.land_spec, Z.shiftr_spec by lia. by replace (i - 4 + 4) with i by lia. }
  rewrite lor_shiftl_add by lia. pose proof (bits_bound b 4 4 ltac:(lia)).
  rewrite u8_small by lia. lia.
Qed.

(** What [set_gdt_entry] is given is what the processor reads: base, limit, access byte and
    flags come back. *)
Lemma make_entry_decodes base limit access gran :
  0 ≤ base < 2 ^ 32 → 0 ≤ limit < 2 ^ 20 → 0 ≤ gran < 256 →
  let e := make_entry base limit access gran in
  seg_base e = base ∧ seg_limit e = limit ∧ Gdt.access e = access ∧ seg_flags e = bits gran 4 4.
Proof.
  intros Hb Hl Hg. cbn zeta. unfold make_entry.
  change 0xFFFF with (2 ^ 16 - 1). change 0xFF with (2 ^ 8 - 1). change 0x0F with (2 ^ 4 - 1).
  rewrite !bits_shift_mask, !bits_low by lia. unfold u8, u16. rewrite !u_bits by lia.
  fold (u8 (Z.lor (bits limit 16 4) (Z.land gran 0xF0))).
  pose proof (bits_bound limit 16 4 ltac:(lia)). rewrite gran_byte by lia.
  unfold seg_base, seg_limit, seg_flags. cbn [base_low base_middle base_high limit_low granularity Gdt.access].
  pose proof (bits_bound base 0 16 ltac:(lia)). pose proof (bits_bound base 16 8 ltac:(lia)).
  pose proof (bits_bound limit 0 16 ltac:(lia)). pose proof (bits_bound gran 4 4 ltac:(lia)).
  split_and!; [| |done|].
  - rewrite seg_base_join by lia.
    pose proof (bits_join base 0 16 8 ltac:(lia) ltac:(lia) ltac:(lia)) as E1.
    pose proof (bits_join base 0 24 8 ltac:(lia) ltac:(lia) ltac:(lia)) as E2.
    change (0 + 16) with 16 in E1. change (16 + 8) with 24 in E1. change (0 + 24) with 24 in E2.
    change (24 + 8) with 32 in E2. rewrite (bits_all base 32) in E2 by lia. lia.
  - change 0x0F with (2 ^ 4 - 1). rewrite land_ones_mod by lia. change (2 ^ 4) with 16.
    rewrite Z.mod_add, Z.mod_small by lia. rewrite lor_shiftl_add by lia.
    pose proof (bits_join limit 0 16 4 ltac:(lia) ltac:(lia) ltac:(lia)) as E1.
    change (0 + 16) with 16 in E1. change (16 + 4) with 20 in E1. rewrite (bits_all limit 20) in E1 by lia. lia.
  - rewrite Z.shiftr_div_pow2 by lia. change (2 ^ 4) with 16. rewrite Z.div_add, Z.div_small by lia. lia.
Qed.
End Gdt.

(** ** Interrupt gates *)

Module Idt.
Record idt_entry := Idt_entry {
  offset_low : Z; selector : Z; ist : Z; type_attr : Z; offset_mid : Z; offset_high : Z; zero : Z
}.
Record idt_ptr := Idt_ptr { limit : Z; base : Z }.

(** [static idt_entry idt[256]] *)
Definition idt0 : list idt_entry := replicate 256 (Idt_entry 0 0 0 0 0 0 0).

Definition make_gate (addr sel attr : Z) : idt_entry :=
  Idt_entry (u16 (Z.land addr 0xFFFF)) sel 0 attr
    (u16 (Z.land (Z.shiftr addr 16) 0xFFFF)) (u32 (Z.land (Z.shiftr addr 32) 0xFFFFFFFF)) 0.
Definition set_idt_entry (vec handler sel attr : Z) (t : list idt_entry) : res (list idt_entry) :=
  if (0 <=? vec) && (vec <? zlen t) then Ret (<[Z.to_nat vec := make_gate handler sel attr]> t) else UB.
Definition idt_set_handler (vec handler : Z) (t : list idt_entry) : res (list idt_entry) :=
  set_idt_entry vec handler 0x08 0x8E t.

(** [for (i = 0; i < 256; ++i)] *)
Fixpoint install_from (n : nat) (i stub : Z) (t : list idt_entry) : res (list idt_entry) :=
  match n with
  | O => Ret t
  | S n => let! t := set_idt_entry i stub 0x08 0x8E t in install_from n (i + 1) stub t
  end.
(** [stub] and [addr] are the addresses of [isr_common_stub] and of the table. *)
Definition idt_install (stub addr : Z) (t : list idt_entry) : res (list idt_entry * idt_ptr) :=
  let! t := install_from 256 0 stub t in
  Ret (t, Idt_ptr (16 * zlen t - 1) addr).

(** The processor's reading of a gate: the target, if the gate is a present interrupt gate. *)
Definition gate_target (e : idt_entry) : Z :=
  Z.lor (Z.lor (offset_low e) (Z.shiftl (offset_mid e) 16)) (Z.shiftl (offset_high e) 32).
Definition interrupt_gate (e : idt_entry) : bool :=
  Z.testbit (type_attr e) 7 && (Z.land (type_attr e) 0x1F =? 0x0E).
(** The code an interrupt on [vec] runs, with the selector it is run under. *)
Definition deliver (t : list idt_entry) (p : idt_ptr) (vec : Z) : option (Z * Z) :=
  if 16 * vec + 15 <=? limit p then
    match t !! Z.to_nat vec with
    | Some e => if interrupt_gate e then Some (selector e, gate_target e) else None
    | None => None
    end
  else None.

Lemma gate_target_make addr sel attr : 0 ≤ addr < 2 ^ 64 → gate_target (make_gate addr sel attr) = addr.
Proof.
  intros Ha. unfold gate_target, make_gate. cbn [offset_low offset_mid offset_high].
  change 0xFFFFFFFF with (2 ^ 32 - 1). change 0xFFFF with (2 ^ 16 - 1).
  rewrite !bits_shift_mask, !bits_low by lia. unfold u16, u32. rewrite !u_bits by lia.
  pose proof (bits_bound addr 0 16 ltac:(lia)). pose proof (bits_bound addr 16 16 ltac:(lia)).
  rewrite (lor_shiftl_add _ _ 16), lor_shiftl_add by lia.
  pose proof (bits_join addr 0 16 16 ltac:(lia) ltac:(lia) ltac:(lia)) as E1.
  pose proof (bits_join addr 0 32 32 ltac:(lia) ltac:(lia) ltac:(lia)) as E2.
  change (0 + 16) with 16 in E1. change (16 + 16) with 32 in E1. change (0 + 32) with 32 in E2.
  change (32 + 32) with 64 in E2. rewrite (bits_all addr 64) in E2 by lia. lia.
Qed.

Lemma set_idt_entry_Ret vec h sel attr t :
  0 ≤ vec < zlen t → set_idt_entry vec h sel attr t = Ret (<[Z.to_nat vec := make_gate h sel attr]> t).
Proof.
  intros Hv. unfold set_idt_entry. by rewrite (proj2 (Z.leb_le _ _)), (proj2 (Z.ltb_lt _ _)) by lia.
Qed.

(** Filling from index [i] on. *)
Lemma install_from_Ret n i stub t :
  zlen t = i + Z.of_nat n → 0 ≤ i →
  install_from n i stub t = Ret (take (Z.to_nat i) t ++ replicate n (make_gate stub 0x08 0x8E)).
Proof.
  revert i t. induction n as [|n IH]; intros i t Hn Hi; cbn [install_from].
  - rewrite take_ge by (unfold zlen in *; lia). by rewrite app_nil_r.
  - rewrite set_idt_entry_Ret by lia. cbn [rbind].
    rewrite IH by (unfold zlen in *; rewrite ?length_insert; lia).
    f_equal. replace (Z.to_nat (i + 1)) with (S (Z.to_nat i)) by lia.
    erewrite take_S_r by (apply list_lookup_insert_eq; unfold zlen in *; lia).
    rewrite take_insert_ge by lia. by rewrite <- app_assoc.
Qed.

Lemma idt_install_Ret stub addr t :
  zlen t = 256 → idt_install stub addr t = Ret (replicate 256 (make_gate stub 0x08 0x8E), Idt_ptr 4095 addr).
Proof. intros Ht. unfold idt_install. by rewrite install_from_Ret. Qed.

(** Registering handlers one after the other. *)
Fixpoint set_handlers (l : list (Z * Z)) (t : list idt_entry) : res (list idt_entry) :=
  match l with
  | [] => Ret t
  | (vec, handler) :: l => let! t := idt_set_handler vec handler t in set_handlers l t
  end.
(** The handler of [vec]: the last one registered for it. *)
Fixpoint handler_of (l : list (Z * Z)) (vec stub : Z) : Z :=
  match l with
  | [] => stub
  | (v, h) :: l => handler_of l vec (if v =? vec then h else stub)
  end.
Definition code_address (a : Z) : Prop := 0 ≤ a < 2 ^ 64.

(** A full table whose gates lead, under the kernel's code selector, where [f] says. *)
Definition leads (t : list idt_entry) (f : Z → Z) : Prop :=
  zlen t = 256 ∧ ∀ vec, 0 ≤ vec < 256 → t !! Z.to_nat vec = Some (make_gate (f vec) 0x08 0x8E).

Lemma leads_install stub : leads (replicate 256 (make_gate stub 0x08 0x8E)) (λ _, stub).
Proof. split; [done|]. intros v Hv. apply lookup_replicate_2. lia. Qed.
Lemma leads_set t f vec h :
  leads t f → 0 ≤ vec < 256 →
  ∃ t', idt_set_handler vec h t = Ret t' ∧ leads t' (λ v, if vec =? v then h else f v).
Proof.
  intros [Hl Ht] Hv. unfold idt_set_handler. rewrite set_idt_entry_Ret by lia. eexists; split; [done|].
  split; [unfold zlen in *; by rewrite length_insert|]. intros v Hv'.
  destruct (Z.eqb_spec vec v) as [->|Hne].
  - apply list_lookup_insert_eq. unfold zlen in Hl. lia.
  - rewrite list_lookup_insert_ne by lia. by apply Ht.
Qed.
Lemma leads_handlers l t stub :
  leads t stub → Forall (λ vh, 0 ≤ vh.1 < 256) l →
  ∃ t', set_handlers l t = Ret t' ∧ leads t' (λ v, handler_of l v (stub v)).
Proof.
  revert t stub. induction l as [|[vec h] l IH]; intros t stub Ht Hl; [by exists t|].
  apply Forall_cons in Hl as [Hv Hl]. cbn [set_handlers handler_of fst] in *.
  destruct (leads_set t stub vec h Ht Hv) as (t' & -> & Ht'). cbn [rbind].
  by apply (IH t' (λ v, if vec =? v then h else stub v)).
Qed.
Lemma deliver_leads t f addr vec :
  leads t f → 0 ≤ vec < 256 → code_address (f vec) → deliver t (Idt_ptr 4095 addr) vec = Some (0x08, f vec).
Proof.
  intros [_ Ht] Hv Ha. unfold deliver. cbn [limit]. rewrite (proj2 (Z.leb_le _ _)) by lia.
  rewrite Ht by done. by rewrite gate_target_make.
Qed.
Lemma handler_of_address l vec stub :
  code_address stub → Forall (λ vh, code_address vh.2) l → code_address (handler_of l vec stub).
Proof.
  intros Hs Hl. revert stub Hs. induction Hl as [|[v h] l Hh _ IH]; intros stub Hs; cbn; [done|].
  apply IH. by destruct (v =? vec).
Qed.
End Idt.

(** ** Interrupt controller and timer *)

Definition PIC1_CMD : Z := 0x20.
Definition PIC1_DATA : Z := 0x21.
Definition PIC2_CMD : Z := 0xA0.
Definition PIC2_DATA : Z := 0xA1.
Definition ICW1_INIT : Z := 0x11.
Definition ICW4_8086 : Z := 0x01.
Definition PIT_CHANNEL0 : Z := 0x40.
Definition PIT_COMMAND : Z := 0x43.
Definition PIT_INPUT_FREQ : Z := 1193182.
Definition PIT_VECTOR : Z := 0x20.

Section timer.
Context {B : Type} `{Bus B}.

Definition remap (b : B) : B :=
  let '(a1, b) := inb PIC1_DATA b in
  let '(a2, b) := inb PIC2_DATA b in
  let b := outb PIC1_CMD ICW1_INIT b in
  let b := outb PIC2_CMD ICW1_INIT b in
  let b := outb PIC1_DATA 0x20 b in
  let b := outb PIC2_DATA 0x28 b in
  let b := outb PIC1_DATA 0x04 b in
  let b := outb PIC2_DATA 0x02 b in
  let b := outb PIC1_DATA ICW4_8086 b in
  let b := outb PIC2_DATA ICW4_8086 b in
  let b := outb PIC1_DATA a1 b in
  outb PIC2_DATA a2 b.

Definition send_eoi (irq : Z) (b : B) : B :=
  let b := if 8 <=? irq then outb PIC2_CMD 0x20 b else b in
  outb PIC1_CMD 0x20 b.

(** [isr]: [ticks] is its static counter. *)
Definition pit_isr (ticks : Z) (b : B) : Z * B :=
  let b := send_eoi 0 b in (u64 (ticks + 1), b).

(** [init]: the divisor is cut to 16 bits. *)
Definition pit_divisor (freq : Z) : Z := u16 (PIT_INPUT_FREQ `div` freq).
Definition pit_init (freq pit_entry : Z) (b : B) (t : list Idt.idt_entry) : res (B * list Idt.idt_entry) :=
  if freq =? 0 then Ret (b, t)
  else
    let b := remap b in
    let divisor := pit_divisor freq in
    let b := outb PIT_COMMAND 0x34 b in
    let b := outb PIT_CHANNEL0 (u8 (Z.land divisor 0xFF)) b in
    let b := outb PIT_CHANNEL0 (u8 (Z.land (Z.shiftr divisor 8) 0xFF)) b in
    let! t := Idt.idt_set_handler PIT_VECTOR pit_entry t in
    Ret (b, t).
End timer.

(** ** The chips

    An 8259A interrupt controller: a command with bit 4 set starts the initialisation and
    clears the mask; the following writes to the data port are the vector base, the cascade
    wiring and the mode; afterwards the data port is the mask.  The command 0x20 ends the
    interrupt in service with the highest priority. *)
Inductive icw := Ready | Icw2 | Icw3 | Icw4.
Record Pic := PicState { vector_base : Z; cascade : Z; mask : Z; in_service : Z; expects : icw }.

(** The lowest set bit is the interrupt of highest priority. *)
Definition clear_lowest (z : Z) : Z := Z.land z (z - 1).
Definition pic_command (v : Z) (p : Pic) : Pic :=
  if Z.testbit v 4 then PicState (vector_base p) (cascade p) 0 0 Icw2
  else if v =? 0x20 then PicState (vector_base p) (cascade p) (mask p) (clear_lowest (in_service p)) (expects p)
  else p.
Definition pic_data (v : Z) (p : Pic) : Pic :=
  match expects p with
  | Ready => PicState (vector_base p) (cascade p) v (in_service p) Ready
  | Icw2 => PicState (Z.land v 0xF8) (cascade p) (mask p) (in_service p) Icw3
  | Icw3 => PicState (vector_base p) v (mask p) (in_service p) Icw4
  | Icw4 => PicState (vector_base p) (cascade p) (mask p) (in_service p) Ready
  end.

(** Channel 0 of an 8254 timer: a command that selects it with both bytes expects the low
    byte of the reload value, then the high byte. *)
Record Pit := PitState { reload : Z; mode : Z; low_byte : option Z }.
Definition pit_command (v : Z) (t : Pit) : Pit :=
  if (Z.shiftr v 6 =? 0) && (Z.land (Z.shiftr v 4) 3 =? 3) then PitState (reload t) (Z.land (Z.shiftr v 1) 7) None else t.
Definition pit_data (v : Z) (t : Pit) : Pit :=
  match low_byte t with
  | None => PitState (reload t) (mode t) (Some v)
  | Some l => PitState (l + 256 * v) (mode t) None
  end.
(** A reload value of 0 counts 65536. *)
Definition period (t : Pit) : Z := if reload t =? 0 then 65536 else reload t.

Record Chips := ChipState { pic1 : Pic; pic2 : Pic; pit : Pit }.
Definition chip_inb (port : Z) (c : Chips) : Z * Chips :=
  if port =? PIC1_DATA then (mask (pic1 c), c) else if port =? PIC2_DATA then (mask (pic2 c), c) else (0, c).
Definition chip_outb (port v : Z) (c : Chips) : Chips :=
  if port =? PIC1_CMD then ChipState (pic_command v (pic1 c)) (pic2 c) (pit c)
  else if port =? PIC1_DATA then ChipState (pic_data v (pic1 c)) (pic2 c) (pit c)
  else if port =? PIC2_CMD then ChipState (pic1 c) (pic_command v (pic2 c)) (pit c)
  else if port =? PIC2_DATA then ChipState (pic1 c) (pic_data v (pic2 c)) (pit c)
  else if port =? PIT_COMMAND then ChipState (pic1 c) (pic2 c) (pit_command v (pit c))
  else if port =? PIT_CHANNEL0 then ChipState (pic1 c) (pic2 c) (pit_data v (pit c))
  else c.
#[export] Instance chip_bus : Bus Chips := {
  inb := chip_inb; inw := λ _ c, (0, c); outb := chip_outb; outw := λ _ _ c, c
}.

(** The vector an interrupt line arrives on. *)
Definition irq_vector (c : Chips) (irq : Z) : Z :=
  if irq <? 8 then vector_base (pic1 c) + irq else vector_base (pic2 c) + (irq - 8).

Lemma remap_chips c :
  remap c = ChipState (PicState 0x20 4 (mask (pic1 c)) 0 Ready) (PicState 0x28 2 (mask (pic2 c)) 0 Ready) (pit c).
Proof. destruct c as [[] [] ?]. reflexivity. Qed.

Lemma pit_program c divisor :
  0 ≤ divisor < 2 ^ 16 →
  pit (outb PIT_CHANNEL0 (u8 (Z.land (Z.shiftr divisor 8) 0xFF))
        (outb PIT_CHANNEL0 (u8 (Z.land divisor 0xFF)) (outb PIT_COMMAND 0x34 c))) = PitState divisor 2 None.
Proof.
  intros Hd. cbn. change 255 with (2 ^ 8 - 1). rewrite bits_shift_mask, bits_low by lia.
  unfold u8. rewrite !u_bits by lia. destruct c as [? ? [r m l]]. unfold pit_command, pit_data. cbn. f_equal.
  pose proof (bits_join divisor 0 8 8 ltac:(lia) ltac:(lia) ltac:(lia)) as E.
  change (0 + 8) with 8 in E. change (8 + 8) with 16 in E. rewrite (bits_all divisor 16) in E by lia. lia.
Qed.

Lemma pit_init_chips freq entry c t f :
  0 < freq → Idt.leads t f →
  ∃ t', pit_init freq entry c t
        = Ret (ChipState (pic1 (remap c)) (pic2 (remap c)) (PitState (pit_divisor freq) 2 None), t')
    ∧ Idt.leads t' (λ v, if PIT_VECTOR =? v then entry else f v).
Proof.
  intros Hf Ht. unfold pit_init. rewrite (proj2 (Z.eqb_neq _ _)) by lia.
  destruct (Idt.leads_set t f PIT_VECTOR entry Ht ltac:(unfold PIT_VECTOR; lia)) as (t' & -> & Ht').
  exists t'. split; [|done]. cbn [rbind]. cbv zeta. f_equal. f_equal.
  pose proof (pit_program (remap c) (pit_divisor freq) (wrap_bound 16 _ ltac:(lia))) as E.
  destruct (remap c) as [p1 p2 pt]. cbn in E |- *. by rewrite E.
Qed.

(** ** Registers of the system-call instruction *)

(** [write_msr]: the two halves the instruction is given. *)
Definition write_msr (msr val : Z) (m : gmap Z Z) : gmap Z Z :=
  let lo := u32 (Z.land val 0xFFFFFFFF) in
  let hi := u32 (Z.shiftr val 32) in
  <[msr := Z.lor lo (Z.shiftl hi 32)]> m.

Definition IA32_STAR : Z := 0xC0000081.
Definition IA32_LSTAR : Z := 0xC0000082.
Definition IA32_FMASK : Z := 0xC0000084.
Definition init_syscall (syscall_entry : Z) (m : gmap Z Z) : gmap Z Z :=
  let star := Z.lor (Z.shiftl 0x08 32) (Z.shiftl 0x1B 48) in
  let m := write_msr IA32_STAR star m in
  let m := write_msr IA32_LSTAR syscall_entry m in
  write_msr IA32_FMASK 0 m.

Lemma write_msr_val msr val m : 0 ≤ val < 2 ^ 64 → write_msr msr val m = <[msr := val]> m.
Proof.
  intros Hv. unfold write_msr. f_equal. change 0xFFFFFFFF with (2 ^ 32 - 1).
  rewrite bits_low by lia. unfold u32 at 1. rewrite u_bits by lia.
  assert (0 ≤ val `div` 2 ^ 32 < 2 ^ 32) by (split; [apply Z.div_pos|apply Z.div_lt_upper_bound]; lia).
  rewrite Z.shiftr_div_pow2, u32_small by lia.
  pose proof (bits_bound val 0 32 ltac:(lia)). rewrite lor_shiftl_add by lia.
  unfold bits. rewrite Z.div_1_r. pose proof (Z.div_mod val (2 ^ 32) ltac:(lia)). lia.
Qed.

(** The selectors the processor loads from the STAR register: [syscall] takes the code
    selector from bits 32 to 47 and the stack selector after it; a 64-bit [sysret] adds 16 to
    bits 48 to 63 for the code and 8 for the stack, at privilege 3. *)
Definition syscall_cs (star : Z) : Z := Z.land (bits star 32 16) 0xFFFC.
Definition syscall_ss (star : Z) : Z := syscall_cs star + 8.
Definition sysret_cs (star : Z) : Z := Z.lor (bits star 48 16 + 16) 3.
Definition sysret_ss (star : Z) : Z := Z.lor (bits star 48 16 + 8) 3.

(** ** The tables at work *)

(** After [gdt_install], whatever the table held: the kernel's code and data selectors and
    the user selectors 0x1B and 0x23 name present flat descriptors of the right kind and
    privilege, the null selector an empty one. *)
Lemma gdt_install_Ret addr g :
  zlen g = 6 →
  ∃ g' e1 e2 e3 e4, Gdt.gdt_install addr g = Ret (g', Gdt.Gdt_ptr 47 addr, Gdt.gdt_reload_segments)
    ∧ Gdt.select g' (Gdt.Gdt_ptr 47 addr) 0x08 = Some e1 ∧ Gdt.select g' (Gdt.Gdt_ptr 47 addr) 0x10 = Some e2
    ∧ Gdt.select g' (Gdt.Gdt_ptr 47 addr) 0x1B = Some e3 ∧ Gdt.select g' (Gdt.Gdt_ptr 47 addr) 0x23 = Some e4
    ∧ Gdt.is_code e1 ∧ Gdt.present e1 ∧ Gdt.long_mode e1 ∧ Gdt.dpl e1 = 0
    ∧ Gdt.is_data e2 ∧ Gdt.present e2 ∧ Gdt.writable e2 ∧ Gdt.dpl e2 = 0
    ∧ Gdt.is_code e3 ∧ Gdt.present e3 ∧ Gdt.long_mode e3 ∧ Gdt.dpl e3 = 3
    ∧ Gdt.is_data e4 ∧ Gdt.present e4 ∧ Gdt.writable e4 ∧ Gdt.dpl e4 = 3
    ∧ Gdt.select g' (Gdt.Gdt_ptr 47 addr) 0x28 = g !! 5%nat.
Proof.
  intros Hg. destruct g as [|a0 [|a1 [|a2 [|a3 [|a4 [|a5 [|]]]]]]]; try (unfold zlen in Hg; cbn in Hg; lia).
  unfold Gdt.gdt_install. cbn [Gdt.set_gdt_entry]. unfold Gdt.set_gdt_entry, zlen.
  cbn -[Gdt.make_entry Gdt.select]. do 5 eexists. split; [reflexivity|].
  split_and!; reflexivity.
Qed.

(** After [idt_install] and any registrations, an interrupt on vector [v] runs, under the
    kernel's code selector, the last handler registered for [v], and the common stub on a
    vector without one; the table's size is what [lidt] is told. *)
Theorem interrupts_reach_handlers stub addr t l :
  zlen t = 256 → Idt.code_address stub →
  Forall (λ vh, 0 ≤ vh.1 < 256 ∧ Idt.code_address vh.2) l →
  ∃ t' p, (let! (t, p) := Idt.idt_install stub addr t in
           let! t := Idt.set_handlers l t in Ret (t, p)) = Ret (t', p)
    ∧ ∀ v, 0 ≤ v < 256 → Idt.deliver t' p v = Some (0x08, Idt.handler_of l v stub).
Proof.
  intros Ht Hs Hl. rewrite Idt.idt_install_Ret by done. cbn [rbind].
  destruct (Idt.leads_handlers l _ _ (Idt.leads_install stub)) as (t' & -> & Ht').
  { eapply Forall_impl; [exact Hl|]. by intros ? []. }
  cbn [rbind]. exists t', (Idt.Idt_ptr 4095 addr). split; [done|]. intros v Hv.
  apply (Idt.deliver_leads t' _ _ v Ht' Hv). apply Idt.handler_of_address; [done|].
  eapply Forall_impl; [exact Hl|]. by intros ? [].
Qed.

Lemma interrupts_reach_handlers_witness :
  ∃ t' p, (let! (t, p) := Idt.idt_install 0xFFFFFFFF80001000 0x5000 Idt.idt0 in
           let! t := Idt.set_handlers [(0x20, 0xFFFFFFFF80002000); (0x21, 7); (0x20, 0xFFFFFFFF80003000)] t in
           Ret (t, p)) = Ret (t', p)
    ∧ ∀ v, 0 ≤ v < 256 → Idt.deliver t' p v
        = Some (0x08, Idt.handler_of [(0x20, 0xFFFFFFFF80002000); (0x21, 7); (0x20, 0xFFFFFFFF80003000)] v 0xFFFFFFFF80001000).
Proof.
  apply interrupts_reach_handlers; [reflexivity|unfold Idt.code_address; lia|].
  unfold Idt.code_address. repeat constructor; cbn; lia.
Defined.

(** C34. Between 19 Hz and the input frequency, [idt_install] and [pit_init] make the timer
    work, in whatever state the chips were: the controllers deliver the sixteen lines on the
    vectors 0x20 to 0x2F, with the masks they had; the timer counts the input frequency over
    [freq], rounded down; line 0 reaches [pit_entry] and every other vector the stub; and the
    handler's acknowledgement clears the timer interrupt in service and counts the tick. *)
Theorem timer_interrupts_delivered freq entry stub addr c t :
  19 ≤ freq ≤ PIT_INPUT_FREQ → Idt.code_address entry → Idt.code_address stub → zlen t = 256 →
  ∃ c' t' p, (let! (t, p) := Idt.idt_install stub addr t in
              let! (c, t) := pit_init freq entry c t in Ret (c, t, p)) = Ret (c', t', p)
    ∧ (∀ irq, 0 ≤ irq < 16 → irq_vector c' irq = 0x20 + irq)
    ∧ mask (pic1 c') = mask (pic1 c) ∧ mask (pic2 c') = mask (pic2 c)
    ∧ period (pit c') * freq ≤ PIT_INPUT_FREQ < (period (pit c') + 1) * freq
    ∧ Idt.deliver t' p (irq_vector c' 0) = Some (0x08, entry)
    ∧ (∀ v, 0 ≤ v < 256 → v ≠ 0x20 → Idt.deliver t' p v = Some (0x08, stub))
    ∧ (∀ p1 n, in_service p1 = 1 → 0 ≤ n < 2 ^ 64 - 1 →
        let '(n', b) := pit_isr n (ChipState p1 (pic2 c') (pit c')) in n' = n + 1 ∧ in_service (pic1 b) = 0).
Proof.
  intros Hf He Hs Ht. rewrite Idt.idt_install_Ret by done. cbn [rbind].
  destruct (pit_init_chips freq entry c _ _ ltac:(lia) (Idt.leads_install stub)) as (t' & -> & Ht').
  cbn [rbind]. eexists _, t', _. split; [reflexivity|]. rewrite remap_chips. cbn [pic1 pic2 pit mask].
  unfold PIT_INPUT_FREQ in Hf.
  assert (Hd : pit_divisor freq = PIT_INPUT_FREQ `div` freq ∧ 1 ≤ PIT_INPUT_FREQ `div` freq).
  { unfold pit_divisor, PIT_INPUT_FREQ. split; [apply u16_small; split|].
    - apply Z.div_pos; lia.
    - apply Z.div_lt_upper_bound; lia.
    - apply Z.div_le_lower_bound; lia. }
  destruct Hd as [-> Hd]. split_and!; try done.
  - intros irq Hi. unfold irq_vector. cbn. destruct (Z.ltb_spec irq 8); lia.
  - unfold period. cbn. rewrite (proj2 (Z.eqb_neq _ _)) by lia.
    pose proof (Z.mul_div_le PIT_INPUT_FREQ freq ltac:(lia)). lia.
  - unfold period. cbn. rewrite (proj2 (Z.eqb_neq _ _)) by lia.
    pose proof (Z.mul_succ_div_gt PIT_INPUT_FREQ freq ltac:(lia)). lia.
  - apply (Idt.deliver_leads t' _ _ 0x20 Ht'); [lia|done].
  - intros v Hv Hne. rewrite (Idt.deliver_leads t' _ _ v Ht' Hv); [|by destruct (_ =? v)].
    unfold PIT_VECTOR. by rewrite (proj2 (Z.eqb_neq _ _)) by lia.
  - intros p1 n Hp Hn. cbn. rewrite Hp. split; [apply u64_small; lia|done].
Qed.

Lemma timer_interrupts_delivered_witness :
  let c := ChipState (PicState 8 0 0xB8 0 Ready) (PicState 0x70 0 0x8E 0 Icw3) (PitState 0 3 None) in
  ∃ c' t' p, (let! (t, p) := Idt.idt_install 0x1000 0x5000 Idt.idt0 in
              let! (c, t) := pit_init 100 0x2000 c t in Ret (c, t, p)) = Ret (c', t', p)
    ∧ (∀ irq, 0 ≤ irq < 16 → irq_vector c' irq = 0x20 + irq)
    ∧ mask (pic1 c') = mask (pic1 c) ∧ mask (pic2 c') = mask (pic2 c)
    ∧ period (pit c') * 100 ≤ PIT_INPUT_FREQ < (period (pit c') + 1) * 100
    ∧ Idt.deliver t' p (irq_vector c' 0) = Some (0x08, 0x2000)
    ∧ (∀ v, 0 ≤ v < 256 → v ≠ 0x20 → Idt.deliver t' p v = Some (0x08, 0x1000))
    ∧ (∀ p1 n, in_service p1 = 1 → 0 ≤ n < 2 ^ 64 - 1 →
        let '(n', b) := pit_isr n (ChipState p1 (pic2 c') (pit c')) in n' = n + 1 ∧ in_service (pic1 b) = 0).
Proof.
  apply timer_interrupts_delivered; [unfold PIT_INPUT_FREQ; lia|unfold Idt.code_address; lia|unfold Idt.code_address; lia|reflexivity].
Defined.

(** Below 19 Hz the divisor does not fit its 16 bits: asked for 18 Hz, the timer runs at
    1588 Hz; above the input frequency it runs at 18 Hz. *)
Example pit_slow_wraps :
  let c := ChipState (PicState 8 0 0 0 Ready) (PicState 0x70 0 0 0 Ready) (PitState 0 3 None) in
  (let! (c, _) := pit_init 18 0x2000 c Idt.idt0 in Ret (PIT_INPUT_FREQ `div` period (pit c))) = Ret 1588
  ∧ (let! (c, _) := pit_init 2000000 0x2000 c Idt.idt0 in Ret (PIT_INPUT_FREQ `div` period (pit c))) = Ret 18.
Proof. vm_compute. done. Qed.

(** [init_syscall] enters the kernel on its own selectors, but leaves it on code selector
    0x2B, not 0x1B: the descriptor there is never set. *)
Lemma sysret_selector_unset entry m :
  Idt.code_address entry →
  let m' := init_syscall entry m in
  m' !! IA32_LSTAR = Some entry ∧ m' !! IA32_FMASK = Some 0
  ∧ ∃ star, m' !! IA32_STAR = Some star
    ∧ syscall_cs star = 0x08 ∧ syscall_ss star = 0x10 ∧ sysret_ss star = 0x23 ∧ sysret_cs star = 0x2B
    ∧ ∀ addr, ∃ g p sg e, Gdt.gdt_install addr Gdt.gdt0 = Ret (g, p, sg)
        ∧ Gdt.select g p (sysret_cs star) = Some e ∧ Gdt.present e = false.
Proof.
  intros He. cbn zeta. unfold init_syscall. rewrite !write_msr_val by (done || vm_compute; intuition congruence).
  unfold IA32_STAR, IA32_LSTAR, IA32_FMASK. repeat split.
  - by rewrite lookup_insert_ne, lookup_insert_eq by lia.
  - by rewrite lookup_insert_eq.
  - eexists. split; [by rewrite !lookup_insert_ne, lookup_insert_eq by lia|].
    repeat split. intros addr. do 4 eexists. split; [reflexivity|]. split; reflexivity.
Qed.
