(* ===== verification/Pci.v ===== *)
(** * PCI configuration space (kernel/drivers/pci.cpp)

    The 32-bit ports are the interface [ConfigPorts].  [PciHost] says what a host bridge does
    with them: the address written to CF8 selects the register read from CFC. *)
From S2P Require Import Prelude Loop Arch.

Class ConfigPorts (B : Type) := {
  inl_port : Z → B → Z * B;
  outl_port : Z → Z → B → B
}.

Section driver.
Context {B : Type} `{ConfigPorts B}.

Definition pci_cfg_read32 (bus slot func offset : Z) (b : B) : Z * B :=
  let addr := u32 (Z.lor (Z.lor (Z.lor (Z.lor 0x80000000 (u32 (Z.shiftl bus 16)))
                (u32 (Z.shiftl slot 11))) (u32 (Z.shiftl func 8))) (Z.land offset 0xFC)) in
  let b := outl_port 0xCF8 addr b in
  inl_port 0xCFC b.

(** A call of the callback: bus, slot, function, vendor and device. *)
Definition device : Type := Z * Z * Z * Z * Z.

(** The loop over the functions of a slot, from function [8 - n] on. *)
Fixpoint scan_funcs (n : nat) (bus slot func : Z) (b : B) : list device * B :=
  match n with
  | O => ([], b)
  | S n =>
      let '(d, b) := pci_cfg_read32 bus slot func 0x00 b in
      let vendor := u16 (Z.land d 0xFFFF) in
      if vendor =? 0xFFFF then
        if func =? 0 then ([], b) else scan_funcs n bus slot (func + 1) b
      else
        let device := u16 (Z.land (Z.shiftr d 16) 0xFFFF) in
        let '(l, b) := scan_funcs n bus slot (func + 1) b in
        ((bus, slot, func, vendor, device) :: l, b)
  end.
Fixpoint scan_slots (n : nat) (bus slot : Z) (b : B) : list device * B :=
  match n with
  | O => ([], b)
  | S n =>
      let '(l, b) := scan_funcs 8 bus slot 0 b in
      let '(k, b) := scan_slots n bus (slot + 1) b in
      (l ++ k, b)
  end.
(** [for (bus = 0; bus < 1; ++bus)] *)
Definition pci_enumerate (b : B) : list device * B := scan_slots 32 0 0 b.
End driver.

(** A host bridge: its configuration registers by bus, slot, function and register number. *)
Class PciHost (B : Type) `{ConfigPorts B} := {
  config : B → Z → Z → Z → Z → Z;
  config_outl b p v : config (outl_port p v b) = config b;
  config_inl b p : config (inl_port p b).2 = config b;
  config_read b addr :
    Z.testbit addr 31 = true →
    (inl_port 0xCFC (outl_port 0xCF8 addr b)).1
    = config b (bits addr 16 8) (bits addr 11 5) (bits addr 8 3) (bits addr 2 6)
}.

Section host.
Context {B : Type} `{PciHost B}.

(** The address as a sum of its fields. *)
Lemma cfg_address bus slot func off :
  0 ≤ bus < 256 → 0 ≤ slot < 32 → 0 ≤ func < 8 → 0 ≤ off < 256 →
  u32 (Z.lor (Z.lor (Z.lor (Z.lor 0x80000000 (u32 (Z.shiftl bus 16)))
       (u32 (Z.shiftl slot 11))) (u32 (Z.shiftl func 8))) (Z.land off 0xFC))
  = off `div` 4 * 4 + func * 2 ^ 8 + slot * 2 ^ 11 + bus * 2 ^ 16 + 2 ^ 31.
Proof.
  intros Hb Hs Hf Ho.
  assert (Z.land off 0xFC = off `div` 4 * 4) as ->.
  { change 4 with (2 ^ 2). rewrite <- Z.shiftl_mul_pow2, <- Z.shiftr_div_pow2 by lia.
    apply Z.bits_inj'. intros i Hi. rewrite Z.land_spec, Z.shiftl_spec by lia.
    change 0xFC with (Z.shiftl (2 ^ 6 - 1) 2). rewrite Z.shiftl_spec by lia.
    destruct (Z_lt_le_dec i 2).
    - rewrite !(Z.testbit_neg_r _ (i - 2)) by lia. apply andb_false_r.
    - rewrite Z.shiftr_spec by lia. replace (i - 2 + 2) with i by lia.
      destruct (Z_lt_le_dec i 8).
      + change (2 ^ 6 - 1) with (Z.ones 6). rewrite Z.ones_spec_low by lia. apply andb_true_r.
      + replace off with (off `mod` 2 ^ 8) by (apply Z.mod_small; lia).
        rewrite Z.mod_pow2_bits_high by lia. done. }
  assert (0 ≤ off `div` 4 < 64) by (split; [apply Z.div_pos|apply Z.div_lt_upper_bound]; lia).
  rewrite !Z.shiftl_mul_pow2, (u32_small (bus * _)), (u32_small (slot * _)), (u32_small (func * _)) by lia.
  rewrite (Z.lor_comm _ (off `div` 4 * 4)), <- (Z.shiftl_mul_pow2 func), <- (Z.shiftl_mul_pow2 slot),
    <- (Z.shiftl_mul_pow2 bus) by lia.
  rewrite (Z.lor_comm _ (Z.shiftl func 8)), Z.lor_assoc, (lor_shiftl_add _ func 8) by lia.
  rewrite (Z.lor_comm _ (Z.shiftl slot 11)), Z.lor_assoc, (lor_shiftl_add _ slot 11) by lia.
  rewrite (Z.lor_comm _ (Z.shiftl bus 16)), Z.lor_assoc, (lor_shiftl_add _ bus 16) by lia.
  change 0x80000000 with (Z.shiftl 1 31). rewrite (lor_shiftl_add _ 1 31) by lia.
  rewrite !Z.shiftl_mul_pow2 by lia. rewrite u32_small by lia. lia.
Qed.

(** A field of a sum of fields. *)
Lemma bits_field lo x hi k w : 0 ≤ k → 0 ≤ w → 0 ≤ lo < 2 ^ k → 0 ≤ x < 2 ^ w →
  bits (lo + x * 2 ^ k + hi * 2 ^ (k + w)) k w = x.
Proof.
  intros Hk Hw Hlo Hx. unfold bits. rewrite Z.pow_add_r by done.
  replace (lo + x * 2 ^ k + hi * (2 ^ k * 2 ^ w)) with (lo + (x + hi * 2 ^ w) * 2 ^ k) by lia.
  rewrite Z.div_add, (Z.div_small lo), Z.add_0_l, Z.mod_add, Z.mod_small by lia. done.
Qed.

Ltac field lo x hi k w :=
  etransitivity; [|apply (bits_field lo x hi k w); lia]; f_equal; lia.

Lemma cfg_read_config bus slot func off (b : B) :
  0 ≤ bus < 256 → 0 ≤ slot < 32 → 0 ≤ func < 8 → 0 ≤ off < 256 →
  (pci_cfg_read32 bus slot func off b).1 = config b bus slot func (off `div` 4)
  ∧ config (pci_cfg_read32 bus slot func off b).2 = config b.
Proof.
  intros Hb Hs Hf Ho. unfold pci_cfg_read32. rewrite cfg_address by done.
  split; [|by rewrite config_inl, config_outl].
  assert (0 ≤ off `div` 4 < 64) by (split; [apply Z.div_pos|apply Z.div_lt_upper_bound]; lia).
  set (q := off `div` 4) in *. set (addr := q * 4 + _ + _ + _ + _) in *.
  rewrite config_read.
  2:{ rewrite Z.testbit_true by lia.
      replace addr with ((q * 4 + func * 2 ^ 8 + slot * 2 ^ 11 + bus * 2 ^ 16) + 1 * 2 ^ 31) by (unfold addr; lia).
      by rewrite Z.div_add, Z.div_small by lia. }
  assert (bits addr 16 8 = bus ∧ bits addr 11 5 = slot ∧ bits addr 8 3 = func ∧ bits addr 2 6 = q) as (-> & -> & -> & ->); [|done].
  split_and!.
  - field (q * 4 + func * 2 ^ 8 + slot * 2 ^ 11) bus (2 ^ 7) 16 8.
  - field (q * 4 + func * 2 ^ 8) slot (bus + 2 ^ 15) 11 5.
  - field (q * 4) func (slot + bus * 2 ^ 5 + 2 ^ 20) 8 3.
  - field 0 q (func + slot * 2 ^ 3 + bus * 2 ^ 8 + 2 ^ 23) 2 6.
Qed.
(** ** What enumeration reports *)

Definition vendor_of (cfg : Z → Z → Z → Z → Z) (bus slot func : Z) : Z := bits (cfg bus slot func 0) 0 16.
Definition device_of (cfg : Z → Z → Z → Z → Z) (bus slot func : Z) : Z := bits (cfg bus slot func 0) 16 16.
Definition occupied (cfg : Z → Z → Z → Z → Z) (bus slot func : Z) : Prop := vendor_of cfg bus slot func ≠ 0xFFFF.
Global Instance occupied_dec cfg bus slot func : Decision (occupied cfg bus slot func) := _.
(** The functions of a slot, if function 0 is there. *)
Definition slot_devices (cfg : Z → Z → Z → Z → Z) (bus slot : Z) : list device :=
  if decide (occupied cfg bus slot 0) then
    (λ func, (bus, slot, func, vendor_of cfg bus slot func, device_of cfg bus slot func))
      <$> filter (occupied cfg bus slot) (seqZ 0 8)
  else [].

Lemma read_vendor bus slot func (b : B) :
  0 ≤ bus < 256 → 0 ≤ slot < 32 → 0 ≤ func < 8 →
  u16 (Z.land (pci_cfg_read32 bus slot func 0 b).1 0xFFFF) = vendor_of (config b) bus slot func
  ∧ u16 (Z.land (Z.shiftr (pci_cfg_read32 bus slot func 0 b).1 16) 0xFFFF) = device_of (config b) bus slot func.
Proof.
  intros. rewrite (proj1 (cfg_read_config bus slot func 0 b ltac:(lia) ltac:(lia) ltac:(lia) ltac:(lia))).
  change 0xFFFF with (2 ^ 16 - 1). rewrite bits_shift_mask, bits_low by lia. unfold u16.
  rewrite !u_bits by lia. done.
Qed.

Lemma scan_funcs_exact n bus slot func (b : B) :
  0 ≤ bus < 256 → 0 ≤ slot < 32 → 0 ≤ func → func + Z.of_nat n = 8 →
  (scan_funcs n bus slot func b).1
    = (if decide (func = 0 ∧ ¬ occupied (config b) bus slot 0) then []
       else (λ f, (bus, slot, f, vendor_of (config b) bus slot f, device_of (config b) bus slot f))
              <$> filter (occupied (config b) bus slot) (seqZ func (Z.of_nat n)))
  ∧ config (scan_funcs n bus slot func b).2 = config b.
Proof.
  intros Hb Hs. revert func b. induction n as [|n IH]; intros func b Hf Hn.
  { cbn. split; [|done]. by destruct (decide _). }
  rewrite seqZ_cons by lia. replace (Z.pred (Z.of_nat (S n))) with (Z.of_nat n) by lia.
  destruct (read_vendor bus slot func b ltac:(lia) ltac:(lia) ltac:(lia)) as [Hv Hd].
  destruct (cfg_read_config bus slot func 0 b ltac:(lia) ltac:(lia) ltac:(lia) ltac:(lia)) as [_ Hc].
  cbn [scan_funcs]. destruct (pci_cfg_read32 bus slot func 0 b) as [d b'] eqn:E. cbn [fst snd] in *.
  rewrite Hv, Hd. specialize (IH (func + 1) b' ltac:(lia) ltac:(lia)) as [IH1 IH2]. rewrite Hc in IH1, IH2.
  rewrite (decide_False (P := func + 1 = 0 ∧ _)) in IH1 by lia. change (func + 1) with (Z.succ func) in *.
  rewrite filter_cons. destruct (Z.eqb_spec (vendor_of (config b) bus slot func) 0xFFFF) as [He|He].
  - destruct (decide (occupied (config b) bus slot func)) as [Ho|_]; [done|].
    destruct (Z.eqb_spec func 0) as [->|Hne].
    + cbn [fst snd]. rewrite decide_True by (unfold occupied; tauto). done.
    + rewrite decide_False by lia. done.
  - destruct (decide (occupied (config b) bus slot func)) as [_|Ho]; [|done].
    rewrite decide_False by (intros [-> Ho]; by apply Ho).
    destruct (scan_funcs n bus slot (Z.succ func) b') as [l b'']. cbn [fst snd] in *. by subst l.
Qed.

Lemma scan_slots_exact n slot (b : B) :
  0 ≤ slot → slot + Z.of_nat n = 32 →
  (scan_slots n 0 slot b).1 = seqZ slot (Z.of_nat n) ≫= slot_devices (config b) 0
  ∧ config (scan_slots n 0 slot b).2 = config b.
Proof.
  revert slot b. induction n as [|n IH]; intros slot b Hs Hn; [done|].
  rewrite seqZ_cons by lia. replace (Z.pred (Z.of_nat (S n))) with (Z.of_nat n) by lia.
  cbn [scan_slots mbind list_bind].
  destruct (scan_funcs_exact 8 0 slot 0 b ltac:(lia) ltac:(lia) ltac:(lia) ltac:(lia)) as [H1 H2].
  destruct (scan_funcs 8 0 slot 0 b) as [l b']. cbn [fst snd] in *.
  specialize (IH (slot + 1) b' ltac:(lia) ltac:(lia)) as [IH1 IH2].
  destruct (scan_slots n 0 (slot + 1) b') as [k b'']. cbn [fst snd] in *.
  rewrite IH2, H2. split; [|done]. f_equal; [|by rewrite IH1, H2].
  rewrite H1. unfold slot_devices. destruct (decide (occupied (config b) 0 slot 0)).
  - by rewrite decide_False by tauto.
  - by rewrite decide_True by tauto.
Qed.
End host.

(** On any host bridge, [pci_enumerate] calls back once for every function that answers in
    a slot of bus 0 whose function 0 answers, in the order of slot and function, with the
    vendor and device of its first configuration register. *)
Theorem pci_enumerate_exact {B} `{PciHost B} (b : B) :
  (pci_enumerate b).1 = seqZ 0 32 ≫= slot_devices (config b) 0.
Proof. apply (scan_slots_exact 32 0 b); lia. Qed.

(** A bridge with two devices, the second with a hole between its functions, and one whose
    function 0 is missing. *)
Record Bridge := BridgeState { latch : Z }.
Definition bridge_config (bus slot func reg : Z) : Z :=
  if (bus =? 0) && (reg =? 0) then
    if (slot =? 0) && (func =? 0) then 0x12378086
    else if (slot =? 1) && ((func =? 0) || (func =? 3)) then 0x70008086 + func * 2 ^ 16
    else if (slot =? 5) && (func =? 2) then 0x11112222
    else 0xFFFFFFFF
  else 0.
#[export] Instance bridge_ports : ConfigPorts Bridge := {
  outl_port p v b := if p =? 0xCF8 then BridgeState v else b;
  inl_port p b := (if p =? 0xCFC then bridge_config (bits (latch b) 16 8) (bits (latch b) 11 5) (bits (latch b) 8 3) (bits (latch b) 2 6)
                   else 0xFFFFFFFF, b)
}.
#[export] Instance bridge_host : PciHost Bridge.
Proof. by refine {| config _ := bridge_config |}. Defined.

Example pci_enumerate_bridge :
  (pci_enumerate (BridgeState 0)).1 = [(0, 0, 0, 0x8086, 0x1237); (0, 1, 0, 0x8086, 0x7000); (0, 1, 3, 0x8086, 0x7003)].
Proof. vm_compute. reflexivity. Qed.

(** The interface's hypotheses hold of the bridge. *)
Lemma pci_enumerate_exact_witness :
  (pci_enumerate (BridgeState 0)).1 = seqZ 0 32 ≫= slot_devices bridge_config 0.
Proof. exact (pci_enumerate_exact (BridgeState 0)). Defined.
