(* ===== verification/Mouse.v ===== *)
(** * The PS/2 mouse (kernel/drivers/mouse.cpp)

    The driver polls the controller through the class [Bus] of port instructions.  [Script] is
    a controller given by the values of the successive reads, which records what is written to
    it: it can answer anything, so what is proved of every script holds of every device. *)
From S2P Require Import Prelude Loop CString BlockDev Ide.

Definition PS2_DATA : Z := 0x60.
Definition PS2_STATUS : Z := 0x64.

Record Mouse := MouseState { pkt : list Z; pkt_idx : Z }.
(** The statics at boot. *)
Definition mouse_boot : Mouse := MouseState [0; 0; 0] 0.

Section driver.
Context {B : Type} `{Bus B}.

(** [while (timeout-- > 0)] *)
Fixpoint wait_input_clear (timeout : nat) (b : B) : bool * B :=
  match timeout with
  | O => (false, b)
  | S timeout =>
      let '(s, b) := inb PS2_STATUS b in
      if Z.land s 0x02 =? 0 then (true, b) else wait_input_clear timeout (io_wait b)
  end.

Fixpoint read_ack (timeout : nat) (b : B) : bool * B :=
  match timeout with
  | O => (false, b)
  | S timeout =>
      let '(s, b) := inb PS2_STATUS b in
      if negb (Z.land s 1 =? 0) then
        let '(v, b) := inb PS2_DATA b in
        if v =? 0xFA then (true, b) else read_ack timeout (io_wait b)
      else read_ack timeout (io_wait b)
  end.

(** The first loop of [mouse_init]: at most 32 pending bytes. *)
Fixpoint drain_pending (n : nat) (b : B) : B :=
  match n with
  | O => b
  | S n =>
      let '(s, b) := inb PS2_STATUS b in
      if negb (Z.land s 1 =? 0) then let '(_, b) := inb PS2_DATA b in drain_pending n b else b
  end.

(** The port is written and a delay follows. *)
Definition command (port v : Z) (b : B) : B := io_wait (outb port v b).

(** The second half: bytes for the mouse itself.  A busy controller is reported and the byte
    sent all the same. *)
Definition send_mouse (v : Z) (busy1 busy2 : string) (b : B) : list (list Z) * B :=
  let '(ok, b) := wait_input_clear 500 b in
  let m1 := if ok : bool then [] else [str busy1 ++ [10]] in
  let b := command PS2_STATUS 0xD4 b in
  let '(ok, b) := wait_input_clear 500 b in
  let m2 := if ok : bool then [] else [str busy2 ++ [10]] in
  (m1 ++ m2, command PS2_DATA v b).

(** The lines printed, the driver's state and the controller. *)
Definition mouse_init (m : Mouse) (b : B) : list (list Z) * Mouse * B :=
  let b := drain_pending 32 b in
  let '(ok, b) := wait_input_clear 500 b in
  if negb ok then ([str "mouse: controller busy" ++ [10]], m, b)
  else
    let b := command PS2_STATUS 0xA8 b in
    let '(ok, b) := wait_input_clear 500 b in
    if negb ok then ([str "mouse: cannot read cmd byte" ++ [10]], m, b)
    else
      let b := command PS2_STATUS 0x20 b in
      let '(s, b) := inb PS2_STATUS b in
      let m0 := if Z.land s 1 =? 0 then [str "mouse: no cmd byte" ++ [10]] else [] in
      let '(cmd, b) := inb PS2_DATA b in
      let cmd := Z.lor cmd 0x02 in
      let '(ok, b) := wait_input_clear 500 b in
      if negb ok then (m0 ++ [str "mouse: cannot write cmd byte" ++ [10]], m, b)
      else
        let b := command PS2_STATUS 0x60 b in
        let '(ok, b) := wait_input_clear 500 b in
        if negb ok then (m0 ++ [str "mouse: cmd write busy" ++ [10]], m, b)
        else
          let b := command PS2_DATA cmd b in
          let '(m1, b) := send_mouse 0xF6 "mouse: device busy before D4" "mouse: device busy before F6" b in
          let '(_, b) := read_ack 200 b in
          let '(m2, b) := send_mouse 0xF4 "mouse: device busy before enable" "mouse: device busy before F4" b in
          let '(ack, b) := read_ack 500 b in
          let m3 := [if ack : bool then str "mouse: enabled" ++ [10] else str "mouse: enabled (no ack)" ++ [10]] in
          (m0 ++ m1 ++ m2 ++ m3, MouseState (pkt m) 0, b).

(** A movement and the buttons, if a packet is complete. *)
Definition report : Type := Z * Z * Z.
Definition mouse_poll_delta (m : Mouse) (b : B) : res (option report * Mouse * B) :=
  let '(s, b) := inb PS2_STATUS b in
  if Z.land s 1 =? 0 then Ret (None, m, b)
  else
    let '(v, b) := inb PS2_DATA b in
    if (pkt_idx m =? 0) && (Z.land v 0x08 =? 0) then Ret (None, m, b)
    else
      let! p := bset (pkt m) (pkt_idx m) v in
      let i := pkt_idx m + 1 in
      if i <? 3 then Ret (None, MouseState p i, b)
      else
        let! b0 := bget p 0 in
        let! b1 := bget p 1 in
        let! b2 := bget p 2 in
        Ret (Some (i8 b1, i8 b2, Z.land b0 0x07), MouseState p 0, b).

(** Polling [n] times, and the reports. *)
Fixpoint poll_reports (n : nat) (m : Mouse) (b : B) : res (list report * Mouse * B) :=
  match n with
  | O => Ret ([], m, b)
  | S n =>
      let! (r, m, b) := mouse_poll_delta m b in
      let! (rs, m, b) := poll_reports n m b in
      Ret (option_list r ++ rs, m, b)
  end.
End driver.

(** ** A scripted controller *)

Record Script := ScriptState { reads : list Z; written : list (Z * Z) }.
Definition script_in (s : Script) : Z * Script :=
  match reads s with
  | [] => (0, s)
  | v :: l => (v, ScriptState l (written s))
  end.
#[export] Instance script_bus : Bus Script := {
  inb _ s := script_in s; inw _ s := script_in s;
  outb p v s := ScriptState (reads s) (written s ++ [(p, v)]);
  outw p v s := ScriptState (reads s) (written s ++ [(p, v)])
}.
(** The writes without the delays on port 0x80. *)
Definition sent (s : Script) : list (Z * Z) := filter (λ pv, pv.1 ≠ 0x80) (written s).

Lemma sent_io_wait s : sent (io_wait s) = sent s.
Proof. unfold sent, io_wait. cbn. rewrite filter_app. cbn. by rewrite app_nil_r. Qed.
Lemma sent_command p v s : p ≠ 0x80 → sent (command p v s) = sent s ++ [(p, v)].
Proof.
  intros Hp. unfold command. rewrite sent_io_wait. unfold sent. cbn. rewrite filter_app. cbn.
  by rewrite decide_True.
Qed.
Lemma sent_inb p s v s' : inb p s = (v, s') → sent s' = sent s.
Proof. cbn. unfold script_in. destruct (reads s); intros [= <- <-]; done. Qed.
Lemma sent_wait n s ok s' : wait_input_clear n s = (ok, s') → sent s' = sent s.
Proof.
  revert s. induction n as [|n IH]; intros s; cbn [wait_input_clear]; [by intros [= <- <-]|].
  destruct (inb PS2_STATUS s) as [v s1] eqn:E. apply sent_inb in E. destruct (_ =? 0); [by intros [= <- <-]|].
  intros Hw. rewrite (IH _ Hw). by rewrite sent_io_wait.
Qed.
Lemma sent_ack n s ok s' : read_ack n s = (ok, s') → sent s' = sent s.
Proof.
  revert s. induction n as [|n IH]; intros s; cbn [read_ack]; [by intros [= <- <-]|].
  destruct (inb PS2_STATUS s) as [v s1] eqn:E. apply sent_inb in E. destruct (negb _).
  - destruct (inb PS2_DATA s1) as [d s2] eqn:E2. apply sent_inb in E2. destruct (d =? _).
    + intros [= <- <-]. congruence.
    + intros Hw. rewrite (IH _ Hw), sent_io_wait. congruence.
  - intros Hw. rewrite (IH _ Hw), sent_io_wait. congruence.
Qed.
Lemma sent_drain n s : sent (drain_pending n s) = sent s.
Proof.
  revert s. induction n as [|n IH]; intros s; cbn [drain_pending]; [done|].
  destruct (inb PS2_STATUS s) as [v s1] eqn:E. apply sent_inb in E. destruct (negb _); [|done].
  destruct (inb PS2_DATA s1) as [d s2] eqn:E2. apply sent_inb in E2. rewrite IH. congruence.
Qed.
Lemma sent_send_mouse v m1 m2 s l s' :
  send_mouse v m1 m2 s = (l, s') → sent s' = sent s ++ [(PS2_STATUS, 0xD4); (PS2_DATA, v)].
Proof.
  unfold send_mouse. destruct (wait_input_clear 500 s) as [ok s1] eqn:E1. apply sent_wait in E1.
  destruct (wait_input_clear 500 _) as [ok' s2] eqn:E2. apply sent_wait in E2.
  intros Hs. apply (f_equal snd) in Hs. cbn [snd] in Hs. subst s'. rewrite sent_command by done. rewrite E2, sent_command by done. by rewrite E1, <- app_assoc.
Qed.

(** The bytes [mouse_init] has for the controller, given the command byte it was told. *)
Definition init_bytes (cmd : Z) : list (Z * Z) :=
  [(PS2_STATUS, 0xA8); (PS2_STATUS, 0x20); (PS2_STATUS, 0x60); (PS2_DATA, Z.lor cmd 0x02);
   (PS2_STATUS, 0xD4); (PS2_DATA, 0xF6); (PS2_STATUS, 0xD4); (PS2_DATA, 0xF4)].

(** A run of [mouse_init]: the first [k] bytes of the sequence are sent; the last message tells
    whether all were. *)
Definition enabled (msg : list Z) : bool :=
  bool_decide (msg = str "mouse: enabled" ++ [10]) || bool_decide (msg = str "mouse: enabled (no ack)" ++ [10]).
Definition init_run (m : Mouse) (s : Script) (out : list (list Z) * Mouse * Script) (k : nat) (cmd : Z) : Prop :=
  let '(msgs, m', s') := out in
  sent s' = sent s ++ take k (init_bytes cmd)
  ∧ (k = 8%nat → pkt_idx m' = 0) ∧ (k ≠ 8%nat → m' = m)
  ∧ ∃ msg, last msgs = Some msg ∧ (enabled msg = true ↔ k = 8%nat).

Lemma init_abort m s b pre msg k cmd :
  sent b = sent s ++ take k (init_bytes cmd) → k ≠ 8%nat → enabled msg = false →
  ∃ k cmd, init_run m s (pre ++ [msg], m, b) k cmd.
Proof.
  intros Hb Hk Hm. exists k, cmd. split; [done|]. split; [done|]. split; [done|].
  exists msg. rewrite last_snoc, Hm. split; [done|]. by split.
Qed.

(** Whatever the controller answers, [mouse_init] returns, and what it has written, delays
    aside, is a prefix of the set-up sequence with the interrupt bit set in a command byte;
    the last message says whether the sequence was completed, and only then is the packet
    buffer reset. *)
Theorem mouse_init_sends m s : ∃ k cmd, init_run m s (mouse_init m s) k cmd.
Proof.
  unfold mouse_init. pose proof (sent_drain 32 s) as E0. set (b0 := drain_pending 32 s) in *. clearbody b0.
  destruct (wait_input_clear 500 b0) as [ok1 b1] eqn:E1. apply sent_wait in E1. rewrite E0 in E1.
  destruct ok1; cbn [negb].
  2:{ apply (init_abort m s b1 [] _ 0 0); [by rewrite app_nil_r|done|done]. }
  pose proof (sent_command PS2_STATUS 0xA8 b1 ltac:(done)) as C1. rewrite E1 in C1.
  set (c1 := command PS2_STATUS 0xA8 b1) in *. clearbody c1.
  destruct (wait_input_clear 500 c1) as [ok2 b2] eqn:E2. apply sent_wait in E2. rewrite C1 in E2.
  destruct ok2; cbn [negb]; [|by apply (init_abort m s b2 [] _ 1 0)].
  pose proof (sent_command PS2_STATUS 0x20 b2 ltac:(done)) as C2. rewrite E2, <- app_assoc in C2.
  set (c2 := command PS2_STATUS 0x20 b2) in *. clearbody c2.
  destruct (inb PS2_STATUS c2) as [st b3] eqn:E3. apply sent_inb in E3.
  destruct (inb PS2_DATA b3) as [cmd b4] eqn:E4. apply sent_inb in E4. rewrite E3, C2 in E4.
  set (m0 := if Z.land st 1 =? 0 then _ else _). clearbody m0.
  destruct (wait_input_clear 500 b4) as [ok5 b5] eqn:E5. apply sent_wait in E5. rewrite E4 in E5.
  destruct ok5; cbn [negb]; [|by apply (init_abort m s b5 m0 _ 2 0)].
  pose proof (sent_command PS2_STATUS 0x60 b5 ltac:(done)) as C5. rewrite E5, <- app_assoc in C5.
  set (c5 := command PS2_STATUS 0x60 b5) in *. clearbody c5.
  destruct (wait_input_clear 500 c5) as [ok6 b6] eqn:E6. apply sent_wait in E6. rewrite C5 in E6.
  destruct ok6; cbn [negb]; [|by apply (init_abort m s b6 m0 _ 3 0)].
  pose proof (sent_command PS2_DATA (Z.lor cmd 2) b6 ltac:(done)) as C6. rewrite E6, <- app_assoc in C6.
  set (c6 := command PS2_DATA (Z.lor cmd 2) b6) in *. clearbody c6.
  destruct (send_mouse 0xF6 _ _ c6) as [m1 b7] eqn:E7. apply sent_send_mouse in E7. rewrite C6, <- app_assoc in E7.
  destruct (read_ack 200 b7) as [a1 b8] eqn:E8. apply sent_ack in E8. rewrite E7 in E8.
  destruct (send_mouse 0xF4 _ _ b8) as [m2 b9] eqn:E9. apply sent_send_mouse in E9. rewrite E8, <- app_assoc in E9.
  destruct (read_ack 500 b9) as [ack b10] eqn:E10. apply sent_ack in E10. rewrite E9 in E10.
  exists 8%nat, cmd. split; [exact E10|]. split; [done|]. split; [done|].
  exists (if ack : bool then str "mouse: enabled" ++ [10] else str "mouse: enabled (no ack)" ++ [10]).
  rewrite !app_assoc, last_snoc. split; [done|]. by destruct ack.
Qed.

(** A controller that is always ready and whose command byte is 0x45; it acknowledges both
    commands of the mouse. *)
Example mouse_init_ready :
  let s := ScriptState [0; 0; 0; 1; 0x45; 0; 0; 0; 0; 1; 0xFA; 0; 0; 1; 0xFA] [] in
  let '(msgs, m, s) := mouse_init (MouseState [9; 9; 9] 2) s in
  msgs = [str "mouse: enabled" ++ [10]] ∧ m = MouseState [9; 9; 9] 0 ∧ sent s = init_bytes 0x45.
Proof. vm_compute. done. Qed.

(** ** Packets *)

(** What one poll meets: a status byte, and the data byte behind it if bit 0 is set. *)
Definition answer : Type := Z * Z.
Definition full (a : answer) : bool := negb (Z.land a.1 1 =? 0).
Definition answer_reads (l : list answer) : list Z := l ≫= λ a, if full a then [a.1; a.2] else [a.1].
(** The data bytes that arrive. *)
Definition arriving (l : list answer) : list Z := l ≫= λ a, if full a then [a.2] else [].

(** The three bytes a mouse sends for a movement: the buttons, bit 3 and the two signs, then
    the movements in two's complement. *)
Definition packet (r : report) : list Z :=
  let '(dx, dy, btn) := r in
  [btn + 8 + (if dx <? 0 then 16 else 0) + (if dy <? 0 then 32 else 0); u8 dx; u8 dy].
Definition report_ok (r : report) : Prop :=
  let '(dx, dy, btn) := r in -128 ≤ dx < 128 ∧ -128 ≤ dy < 128 ∧ 0 ≤ btn < 8.
Global Instance report_ok_dec r : Decision (report_ok r).
Proof. destruct r as [[dx dy] btn]. unfold report_ok. apply _. Defined.
(** A byte that cannot start a packet. *)
Definition stray (v : Z) : Prop := Z.land v 0x08 = 0.

(** A byte given to the packet buffer. *)
Definition feed (v : Z) (m : Mouse) : res (option report * Mouse) :=
  if (pkt_idx m =? 0) && (Z.land v 0x08 =? 0) then Ret (None, m)
  else
    let! p := bset (pkt m) (pkt_idx m) v in
    let i := pkt_idx m + 1 in
    if i <? 3 then Ret (None, MouseState p i)
    else
      let! b0 := bget p 0 in
      let! b1 := bget p 1 in
      let! b2 := bget p 2 in
      Ret (Some (i8 b1, i8 b2, Z.land b0 0x07), MouseState p 0).
Fixpoint feed_all (l : list Z) (m : Mouse) : res (list report * Mouse) :=
  match l with
  | [] => Ret ([], m)
  | v :: l =>
      let! (r, m) := feed v m in
      let! (rs, m) := feed_all l m in
      Ret (option_list r ++ rs, m)
  end.

Lemma feed_all_app l k m :
  feed_all (l ++ k) m = (let! (r, m) := feed_all l m in let! (rs, m) := feed_all k m in Ret (r ++ rs, m)).
Proof.
  revert m. induction l as [|v l IH]; intros m; cbn [app feed_all].
  - cbn [rbind]. by destruct (feed_all k m) as [[rs m']| |].
  - destruct (feed v m) as [[r m']| |]; [|done|done]. cbn [rbind]. rewrite IH.
    destruct (feed_all l m') as [[rs m'']| |]; [|done|done]. cbn [rbind].
    destruct (feed_all k m'') as [[rs' m3]| |]; [|done|done]. cbn [rbind]. by rewrite app_assoc.
Qed.

(** Polling is feeding the bytes that arrive. *)
Lemma poll_reports_feed l m rest w :
  poll_reports (length l) m (ScriptState (answer_reads l ++ rest) w)
  = (let! (rs, m) := feed_all (arriving l) m in Ret (rs, m, ScriptState rest w)).
Proof.
  revert m. induction l as [|[st v] l IH]; intros m; [done|].
  change (answer_reads ((st, v) :: l)) with ((if full (st, v) then [st; v] else [st]) ++ answer_reads l).
  change (arriving ((st, v) :: l)) with ((if full (st, v) then [v] else []) ++ arriving l).
  cbn [length poll_reports]. unfold mouse_poll_delta, full. cbn [fst snd].
  destruct (Z.land st 1 =? 0) eqn:E; cbn [negb app].
  - cbn [inb script_bus script_in reads]. rewrite E. cbn [rbind]. rewrite IH. by destruct (feed_all (arriving l) m) as [[rs m']| |].
  - cbn [inb script_bus script_in reads written]. rewrite E. cbn [feed_all]. unfold feed.
    destruct ((pkt_idx m =? 0) && (Z.land v 8 =? 0)).
    + cbn [rbind]. rewrite IH. by destruct (feed_all (arriving l) m) as [[rs m']| |].
    + destruct (bset (pkt m) (pkt_idx m) v) as [p| |]; [|done|done]. cbn [rbind].
      destruct (pkt_idx m + 1 <? 3).
      * cbn [rbind]. rewrite IH. by destruct (feed_all (arriving l) _) as [[rs m']| |].
      * destruct (bget p 0) as [b0| |]; [|done|done]. destruct (bget p 1) as [b1| |]; [|done|done].
        destruct (bget p 2) as [b2| |]; [|done|done]. cbn [rbind]. rewrite IH.
        by destruct (feed_all (arriving l) _) as [[rs m']| |].
Qed.

Lemma feed_strays l m : pkt_idx m = 0 → Forall stray l → feed_all l m = Ret ([], m).
Proof.
  intros Hm Hl. induction Hl as [|v l Hv _ IH]; [done|]. cbn [feed_all]. unfold feed.
  rewrite Hm, Hv. cbn. by rewrite IH.
Qed.

Lemma i8_u8 z : -128 ≤ z < 128 → i8 (u8 z) = z.
Proof.
  intros Hz. unfold i8, sgn, u8, wrap. rewrite Zmod_mod. change (2 ^ 8) with 256. change (2 ^ (8 - 1)) with 128.
  destruct (Z_lt_le_dec z 0).
  - rewrite <- (Z_mod_plus_full z 1 256), Z.mod_small by lia. rewrite (proj2 (Z.ltb_ge _ _)); lia.
  - rewrite Z.mod_small by lia. rewrite (proj2 (Z.ltb_lt _ _)); lia.
Qed.

(** The header byte keeps the buttons and has bit 3 set. *)
Lemma header_byte btn (a b : bool) :
  0 ≤ btn < 8 →
  let h := btn + 8 + (if a then 16 else 0) + (if b then 32 else 0) in Z.land h 0x07 = btn ∧ Z.land h 0x08 ≠ 0.
Proof.
  intros Hb. assert (btn ∈ [0; 1; 2; 3; 4; 5; 6; 7]) as Hin.
  { repeat (rewrite elem_of_cons || rewrite elem_of_nil). lia. }
  repeat (apply elem_of_cons in Hin as [->|Hin]; [by destruct a, b|]). by apply not_elem_of_nil in Hin.
Qed.

Lemma feed_packet r m :
  pkt_idx m = 0 → length (pkt m) = 3%nat → report_ok r →
  feed_all (packet r) m = Ret ([r], MouseState (packet r) 0).
Proof.
  destruct r as [[dx dy] btn]. intros Hm Hl (Hx & Hy & Hb).
  destruct (header_byte btn (dx <? 0) (dy <? 0) Hb) as [H7 H8].
  unfold packet. set (h := btn + 8 + _ + _) in *. clearbody h. destruct m as [p i]. cbn in Hm, Hl. subst i.
  destruct p as [|a [|b [|c [|]]]]; try done. apply Z.eqb_neq in H8.
  assert (F0 : feed h (MouseState [a; b; c] 0) = Ret (None, MouseState [h; b; c] 1)).
  { unfold feed. cbn [pkt_idx]. by rewrite H8. }
  assert (F1 : ∀ x, feed x (MouseState [h; b; c] 1) = Ret (None, MouseState [h; x; c] 2)) by done.
  assert (F2 : ∀ x y, feed y (MouseState [h; x; c] 2) = Ret (Some (i8 x, i8 y, Z.land h 7), MouseState [h; x; y] 0)) by done.
  cbn [feed_all]. rewrite F0. cbn [rbind]. rewrite F1. cbn [rbind]. rewrite F2. cbn [rbind option_list app].
  by rewrite H7, !i8_u8.
Qed.

(** C21. Movements survive the wire.  However the packets of a list of movements (each within a
    signed byte, with any of the three buttons) arrive, spread over polls that find nothing and
    with stray bytes between them, polling reports exactly these movements, in order. *)
Theorem mouse_reports_movements moves answers rest w m :
  pkt_idx m = 0 → length (pkt m) = 3%nat →
  Forall (λ sm, Forall stray sm.1 ∧ report_ok sm.2) moves →
  arriving answers = moves ≫= (λ sm : list Z * report, sm.1 ++ packet sm.2) →
  ∃ m', poll_reports (length answers) m (ScriptState (answer_reads answers ++ rest) w)
        = Ret (moves.*2, m', ScriptState rest w) ∧ pkt_idx m' = 0.
Proof.
  intros Hm Hl Hmv Harr. rewrite poll_reports_feed, Harr. clear Harr.
  enough (∃ m', feed_all (moves ≫= (λ sm, sm.1 ++ packet sm.2)) m = Ret (moves.*2, m') ∧ pkt_idx m' = 0)
    as (m' & -> & Hm'); [by exists m'|].
  revert m Hm Hl. induction Hmv as [|[st r] moves [Hst Hr] _ IH]; intros m Hm Hl; [by exists m|].
  rewrite bind_cons. cbn [fst snd fmap list_fmap] in *. rewrite !feed_all_app, feed_strays by done. cbn [rbind].
  rewrite feed_packet by done. cbn [rbind].
  destruct (IH (MouseState (packet r) 0) eq_refl) as (m' & E & Hm'); [by destruct r as [[? ?] ?]|].
  rewrite E. by exists m'.
Qed.

Lemma mouse_reports_movements_witness :
  let answers := [(0, 0); (1, 0x02); (0x21, 0x19); (0, 0); (1, 0xFB); (1, 7); (0x1D, 0x0B); (1, 0); (1, 0x7F)] in
  ∃ m', poll_reports (length answers) mouse_boot (ScriptState (answer_reads answers ++ [5]) [])
        = Ret ([(-5, 7, 1); (0, 127, 3)], m', ScriptState [5] []) ∧ pkt_idx m' = 0.
Proof.
  apply (mouse_reports_movements [([0x02], (-5, 7, 1)); ([], (0, 127, 3))]); [done|done| |done].
  repeat constructor; cbn; lia.
Defined.

(** The movements on the wire have nine bits, the ninth in the header: a movement of 200 to the
    right is reported as one of 56 to the left. *)
Example mouse_fast_movement_flips :
  (let! (rs, _, _) := poll_reports 3 mouse_boot (ScriptState (answer_reads [(1, 8); (1, 200); (1, 0)]) []) in Ret rs)
  = Ret [(-56, 0, 0)].
Proof. vm_compute. reflexivity. Qed.

(** A byte of the keyboard is taken for the mouse's: polling the mouse while a key code waits
    removes it from the controller, here the code of 'q'. *)
Example mouse_poll_takes_key :
  mouse_poll_delta mouse_boot (ScriptState [1; 0x10; 0; 0] []) = Ret (None, mouse_boot, ScriptState [0; 0] []).
Proof. vm_compute. reflexivity. Qed.
