(* ===== verification/Framebuffer.v ===== *)
(** * The framebuffer (kernel/drivers/framebuffer.cpp, fun.cpp)

    The driver's statics are [Fb]; the memory behind its pointer is [Vram], a block of
    [vsize] bytes: a store outside it is undefined.  Colours and coordinates keep their
    widths; the line routine computes with 32-bit floats (SpecFloat, 24 bits of precision,
    exponents up to 128). *)
From S2P Require Import Prelude Loop.
From Stdlib Require Import SpecFloat.

(** ** Video memory *)

Record Vram := VramState { vsize : Z; cells : gmap Z Z }.
Definition vget (v : Vram) (i : Z) : Z := default 0 (cells v !! i).
Definition vset (v : Vram) (i b : Z) : res Vram :=
  if (0 <=? i) && (i <? vsize v) then Ret (VramState (vsize v) (<[i := b]> (cells v))) else UB.
Fixpoint store_bytes (v : Vram) (off : Z) (bs : list Z) : res Vram :=
  match bs with
  | [] => Ret v
  | b :: bs => let! v := vset v off b in store_bytes v (off + 1) bs
  end.
Fixpoint read_bytes (v : Vram) (off : Z) (n : nat) : list Z :=
  match n with
  | O => []
  | S n => vget v off :: read_bytes v (off + 1) n
  end.

(** ** State *)

(** [struct limine_framebuffer], the fields that are read. *)
Record limine_framebuffer := LimineFb {
  address : Z; width : Z; height : Z; pitch : Z; bpp : Z;
  red_mask_size : Z; red_mask_shift : Z; green_mask_size : Z; green_mask_shift : Z;
  blue_mask_size : Z; blue_mask_shift : Z
}.

Record Fb := FbState {
  fb_global : option limine_framebuffer;
  fb_width : Z; fb_height : Z; fb_pitch : Z;
  fb_virt : Z
}.
Definition fb_boot : Fb := FbState None 0 0 0 0.
Record Display := DisplayState { dev : Fb; vram : Vram }.
Definition set_vram (d : Display) (v : Vram) : Display := DisplayState (dev d) v.

(** [resp] is Limine's answer to the framebuffer request, [hhdm] the direct-map offset. *)
Definition framebuffer_init (resp : option (list limine_framebuffer)) (hhdm : option Z) (f : Fb) : bool * Fb :=
  match resp with
  | None | Some [] => (false, f)
  | Some (g :: _) =>
      match hhdm with
      | None => (false, FbState (Some g) (width g) (height g) (pitch g) 0)
      | Some off =>
          let virt := if off <=? address g then address g else u64 (off + address g) in
          (true, FbState (Some g) (width g) (height g) (pitch g) virt)
      end
  end.

Definition framebuffer_available (f : Fb) : bool := bool_decide (is_Some (fb_global f)).
Definition framebuffer_get_width (f : Fb) : Z := u32 (fb_width f).
Definition framebuffer_get_height (f : Fb) : Z := u32 (fb_height f).
Definition framebuffer_rgb (r g b : Z) : Z := Z.lor (Z.lor (Z.shiftl r 16) (Z.shiftl g 8)) b.
Definition framebuffer_rgba (r g b a : Z) : Z :=
  Z.lor (Z.lor (Z.lor (Z.shiftl r 16) (Z.shiftl g 8)) b) (u32 (Z.shiftl a 24)).

(** ** Drawing *)

(** The byte loop below 32 bits per pixel. *)
Fixpoint put_low (n : nat) (i off color : Z) (v : Vram) : res Vram :=
  match n with
  | O => Ret v
  | S n => let! v := vset v (off + i) (u8 (Z.land (Z.shiftr color (8 * i)) 0xFF)) in put_low n (i + 1) off color v
  end.

Definition framebuffer_put_pixel (x y color : Z) (d : Display) : res Display :=
  let f := dev d in
  match fb_global f with
  | None => Ret d
  | Some g =>
      if (u32 (fb_width f) <=? x) || (u32 (fb_height f) <=? y) then Ret d
      else if fb_virt f =? 0 then Ret d
      else
        let bytes_per_pixel := bpp g `div` 8 in
        let pixel_offset := u64 (y * fb_pitch f + x * bytes_per_pixel) in
        let! v := if 4 <=? bytes_per_pixel then store_bytes (vram d) pixel_offset (le_bytes 4 color)
                  else put_low (Z.to_nat bytes_per_pixel) 0 pixel_offset color (vram d) in
        Ret (set_vram d v)
  end.

(** A loop without exit. *)
Fixpoint each {A S} (l : list A) (body : A → S → res S) (s : S) : res S :=
  match l with
  | [] => Ret s
  | a :: l => let! s := body a s in each l body s
  end.

Definition framebuffer_draw_rect (x y w h color : Z) (d : Display) : res Display :=
  each (seqZ 0 h) (λ py, each (seqZ 0 w) (λ px, framebuffer_put_pixel (u32 (x + px)) (u32 (y + py)) color)) d.

(** [int] arithmetic. *)
Definition int (z : Z) : res Z := if (- 2 ^ 31 <=? z) && (z <? 2 ^ 31) then Ret z else UB.

(** The test both routines make before a pixel is put. *)
Definition put_clipped (px py color : Z) (d : Display) : res Display :=
  if (0 <=? px) && (px <? i32 (fb_width (dev d))) && (0 <=? py) && (py <? i32 (fb_height (dev d)))
  then framebuffer_put_pixel (u32 px) (u32 py) color d else Ret d.

Definition circle_point (cx cy r color y x : Z) (d : Display) : res Display :=
  let! xx := int (x * x) in
  let! yy := int (y * y) in
  let! dist_sq := int (xx + yy) in
  let! r_sq := int (r * r) in
  if dist_sq <=? r_sq then
    let! px := int (i32 cx + x) in
    let! py := int (i32 cy + y) in
    put_clipped px py color d
  else Ret d.
Definition framebuffer_draw_filled_circle (cx cy radius color : Z) (d : Display) : res Display :=
  let r := i32 radius in
  let! _ := int (- r) in
  each (seqZ (- r) (2 * r + 1)) (λ y, each (seqZ (- r) (2 * r + 1)) (λ x, circle_point cx cy r color y x)) d.

(** 32-bit floats. *)
Definition f32_of_int (z : Z) : spec_float := binary_normalize 24 128 z 0 false.
Definition f32_add : spec_float → spec_float → spec_float := SFadd 24 128.
Definition f32_div : spec_float → spec_float → spec_float := SFdiv 24 128.
Definition f32_half : spec_float := SFdiv 24 128 (f32_of_int 1) (f32_of_int 2).
(** The conversion to [int] truncates; a value that does not fit is undefined. *)
Definition f32_to_int (f : spec_float) : res Z :=
  match f with
  | S754_zero _ => Ret 0
  | S754_finite s m e =>
      let a := if 0 <=? e then Z.shiftl (Zpos m) e else Z.shiftr (Zpos m) (- e) in
      int (if s then - a else a)
  | _ => UB
  end.

Fixpoint line_loop (n : nat) (x y dx dy : spec_float) (color : Z) (d : Display) : res Display :=
  match n with
  | O => Ret d
  | S n =>
      let! px := f32_to_int (f32_add x f32_half) in
      let! py := f32_to_int (f32_add y f32_half) in
      let! d := put_clipped px py color d in
      line_loop n (f32_add x dx) (f32_add y dy) dx dy color d
  end.
Definition framebuffer_draw_line (x1 y1 x2 y2 color : Z) (d : Display) : res Display :=
  let! dx := int (x2 - x1) in
  let! dy := int (y2 - y1) in
  let steps := if dy <? dx then dx else dy in
  let! steps := if steps <? 0 then int (- steps) else Ret steps in
  if steps =? 0 then framebuffer_put_pixel (u32 x1) (u32 y1) color d
  else
    let x_increment := f32_div (f32_of_int dx) (f32_of_int steps) in
    let y_increment := f32_div (f32_of_int dy) (f32_of_int steps) in
    line_loop (Z.to_nat (steps + 1)) (f32_of_int x1) (f32_of_int y1) x_increment y_increment color d.

(** [color >> (8 * b)]: a shift by the width or more is undefined. *)
Definition color_byte (color b : Z) : res Z := if 8 * b <? 32 then Ret (u8 (Z.land (Z.shiftr color (8 * b)) 0xFF)) else UB.
Definition framebuffer_clear (color : Z) (d : Display) : res Display :=
  let f := dev d in
  match fb_global f with
  | None => Ret d
  | Some g =>
      if fb_virt f =? 0 then Ret d
      else
        let bpp_bytes := bpp g `div` 8 in
        let! v :=
          if (4 <=? bpp_bytes) && (fb_pitch f `mod` 4 =? 0) then
            let pixel_count := u64 (fb_pitch f `div` 4 * fb_height f) in
            each (seqZ 0 pixel_count) (λ i v, store_bytes v (4 * i) (le_bytes 4 color)) (vram d)
          else
            each (seqZ 0 (fb_height f)) (λ y,
              each (seqZ 0 (fb_width f)) (λ x,
                each (seqZ 0 bpp_bytes) (λ b v,
                  let! c := color_byte color b in
                  vset v (u64 (u64 (y * fb_pitch f) + x * bpp_bytes) + b) c))) (vram d) in
        Ret (set_vram d v)
  end.

(** fun.cpp *)
Definition lol (d : Display) : res Display :=
  let w := framebuffer_get_width (dev d) in
  let h := framebuffer_get_height (dev d) in
  let! d := framebuffer_draw_filled_circle (w `div` 2) (h `div` 2) 100 (framebuffer_rgb 255 0 0) d in
  let! d := framebuffer_draw_filled_circle (w `div` 4) (h `div` 4) 50 (framebuffer_rgb 0 255 0) d in
  let! d := framebuffer_draw_filled_circle (u32 (3 * w) `div` 4) (h `div` 4) 50 (framebuffer_rgb 0 0 255) d in
  framebuffer_draw_filled_circle (w `div` 4) (u32 (3 * h) `div` 4) 50 (framebuffer_rgb 255 255 0) d.
