(* ===== verification/FbSpec.v ===== *)
(** * What the framebuffer routines draw

    A display in working order is a picture: a colour for every position.  [draws] says that a
    routine coloured exactly a set of positions, and touched nothing else of the video
    memory. *)
From S2P Require Import Prelude Loop Framebuffer.
From Stdlib Require Import SpecFloat.

(** ** Stores *)

Lemma vset_Ret v i b : 0 ≤ i < vsize v → vset v i b = Ret (VramState (vsize v) (<[i := b]> (cells v))).
Proof. intros Hi. unfold vset. by rewrite (proj2 (Z.leb_le _ _)), (proj2 (Z.ltb_lt _ _)) by lia. Qed.

Lemma vget_insert s c i j b : vget (VramState s (<[i := b]> c)) j = if i =? j then b else vget (VramState s c) j.
Proof.
  unfold vget. cbn. destruct (Z.eqb_spec i j) as [->|Hne]; [by rewrite lookup_insert_eq|by rewrite lookup_insert_ne].
Qed.

Lemma length_read_bytes v off n : length (read_bytes v off n) = n.
Proof. revert off. induction n as [|n IH]; intros off; cbn; [done|by rewrite IH]. Qed.

Lemma read_bytes_ext v v' off n :
  (∀ i, off ≤ i < off + Z.of_nat n → vget v' i = vget v i) → read_bytes v' off n = read_bytes v off n.
Proof.
  revert off. induction n as [|n IH]; intros off Hi; [done|]. cbn [read_bytes].
  rewrite (Hi off) by lia. f_equal. apply IH. intros i Hi'. apply Hi. lia.
Qed.

Lemma store_bytes_Ret bs : ∀ v off, 0 ≤ off → off + zlen bs ≤ vsize v →
  ∃ v', store_bytes v off bs = Ret v' ∧ vsize v' = vsize v ∧ read_bytes v' off (length bs) = bs
    ∧ ∀ i, i < off ∨ off + zlen bs ≤ i → vget v' i = vget v i.
Proof.
  induction bs as [|b bs IH]; intros v off Ho Hs; [by exists v|]. rewrite zlen_cons in *.
  pose proof (zlen_nonneg bs). cbn [store_bytes]. rewrite vset_Ret by lia. cbn [rbind].
  destruct (IH (VramState (vsize v) (<[off := b]> (cells v))) (off + 1)) as (v' & -> & Hv & Hr & Hx); [lia|cbn; lia|].
  exists v'. split_and!; [done|done| |].
  - cbn [length read_bytes]. rewrite Hr, Hx by lia. by rewrite vget_insert, Z.eqb_refl.
  - intros i Hi. rewrite Hx by lia. rewrite vget_insert, (proj2 (Z.eqb_neq _ _)) by lia. by destruct v.
Qed.

Lemma shiftr_byte c i : 0 ≤ i → u8 (Z.land (Z.shiftr c i) 0xFF) = c `div` 2 ^ i `mod` 256.
Proof.
  intros Hi. change 0xFF with (2 ^ 8 - 1). rewrite land_ones_mod, Z.shiftr_div_pow2 by lia.
  unfold u8, wrap. by rewrite Zmod_mod.
Qed.

(** The byte loop stores the low bytes of the colour. *)
Lemma put_low_store n : ∀ i off c v, 0 ≤ i →
  put_low n i off c v = store_bytes v (off + i) (le_bytes n (c `div` 2 ^ (8 * i))).
Proof.
  induction n as [|n IH]; intros i off c v Hi; [done|]. cbn [put_low le_bytes store_bytes].
  rewrite shiftr_byte by lia. destruct (vset v (off + i) _) as [v'| |]; [|done|done]. cbn [rbind].
  rewrite IH by lia. replace (off + (i + 1)) with (off + i + 1) by lia. do 2 f_equal.
  replace (8 * (i + 1)) with (8 * i + 8) by lia. rewrite Z.pow_add_r, <- Z.div_div by lia. done.
Qed.

(** ** Pictures *)

(** Bytes per pixel, and how many of them a pixel's colour takes. *)
Definition depth (d : Display) : Z := match fb_global (dev d) with Some g => bpp g `div` 8 | None => 0 end.
Definition color_bytes (d : Display) : nat := Z.to_nat (Z.min 4 (depth d)).
Definition pixel_off (d : Display) (x y : Z) : Z := y * fb_pitch (dev d) + x * depth d.
Definition on_screen (d : Display) (x y : Z) : Prop := 0 ≤ x < fb_width (dev d) ∧ 0 ≤ y < fb_height (dev d).
Global Instance on_screen_dec d x y : Decision (on_screen d x y) := _.
Definition pixel (d : Display) (x y : Z) : Z := le_val (read_bytes (vram d) (pixel_off d x y) (color_bytes d)).
(** A colour as the display keeps it. *)
Definition shade (d : Display) (c : Z) : Z := c `mod` 2 ^ (8 * Z.of_nat (color_bytes d)).

(** A display in working order: the rows lie in the memory, the pixels of a row in the row. *)
Record display_ok (d : Display) : Prop := {
  do_dev : is_Some (fb_global (dev d));
  do_virt : fb_virt (dev d) ≠ 0;
  do_depth : 0 < depth d;
  do_width : 0 ≤ fb_width (dev d) < 2 ^ 31;
  do_height : 0 ≤ fb_height (dev d) < 2 ^ 31;
  do_row : fb_width (dev d) * depth d ≤ fb_pitch (dev d);
  do_size : fb_pitch (dev d) * fb_height (dev d) ≤ vsize (vram d) < 2 ^ 63
}.

(** An address that belongs to a pixel. *)
Definition in_pixel (d : Display) (i : Z) : Prop :=
  ∃ x y, on_screen d x y ∧ pixel_off d x y ≤ i < pixel_off d x y + Z.of_nat (color_bytes d).

(** [d'] is [d] with the positions [P] coloured [c]. *)
Record draws (d : Display) (P : Z → Z → Prop) (c : Z) (d' : Display) : Prop := {
  dr_dev : dev d' = dev d;
  dr_size : vsize (vram d') = vsize (vram d);
  dr_in x y : on_screen d x y → P x y → pixel d' x y = shade d c;
  dr_out x y : on_screen d x y → ¬ P x y → pixel d' x y = pixel d x y;
  dr_frame i : ¬ in_pixel d i → vget (vram d') i = vget (vram d) i
}.

Lemma draws_none d c P : (∀ x y, on_screen d x y → ¬ P x y) → draws d P c d.
Proof. intros HP. split; try done. intros x y Hs Hp. by apply HP in Hp. Qed.

Lemma same_dev d d' :
  dev d' = dev d → vsize (vram d') = vsize (vram d) →
  (∀ x y, on_screen d' x y ↔ on_screen d x y) ∧ (∀ c, shade d' c = shade d c) ∧ (∀ i, in_pixel d' i ↔ in_pixel d i)
  ∧ (display_ok d → display_ok d').
Proof.
  intros Hd Hs. unfold on_screen, shade, in_pixel, on_screen, pixel_off, color_bytes, depth. rewrite Hd.
  split_and!; try done. intros []. split; unfold depth in *; rewrite ?Hd, ?Hs; done.
Qed.

Lemma draws_ext d P Q c d' : (∀ x y, on_screen d x y → P x y ↔ Q x y) → draws d P c d' → draws d Q c d'.
Proof.
  intros Hpq []. split; try done.
  - intros x y Hs Hq. apply dr_in0; [done|]. by apply Hpq.
  - intros x y Hs Hq. apply dr_out0; [done|]. by rewrite Hpq.
Qed.

Lemma draws_trans d d1 d2 P Q c :
  (∀ x y, Decision (Q x y)) →
  draws d P c d1 → draws d1 Q c d2 → draws d (λ x y, P x y ∨ Q x y) c d2.
Proof.
  intros HQ H1 H2. pose proof (same_dev d d1 (dr_dev _ _ _ _ H1) (dr_size _ _ _ _ H1)) as (Hon & Hsh & Hin & _).
  destruct H1, H2. split; try congruence.
  - intros x y Hs Hpq. rewrite <- Hsh. destruct (HQ x y) as [Hq|Hq].
    + apply dr_in1; [by apply Hon|done].
    + rewrite dr_out1 by (by apply Hon || done). rewrite Hsh. apply dr_in0; tauto.
  - intros x y Hs Hn. rewrite dr_out1 by (by apply Hon || tauto). apply dr_out0; tauto.
  - intros i Hi. rewrite dr_frame1 by (by rewrite Hin). by apply dr_frame0.
Qed.

(** ** One pixel *)

(** The bytes of two pixels do not overlap. *)
Lemma pixel_disjoint d x y x' y' :
  display_ok d → on_screen d x y → on_screen d x' y' → (x, y) ≠ (x', y') →
  pixel_off d x y + depth d ≤ pixel_off d x' y' ∨ pixel_off d x' y' + depth d ≤ pixel_off d x y.
Proof.
  intros [_ _ Hd _ _ Hr _] [Hx Hy] [Hx' Hy'] Hne. unfold pixel_off.
  set (w := fb_width (dev d)) in *. set (p := fb_pitch (dev d)) in *. set (D := depth d) in *.
  assert (0 ≤ w * D) by nia. assert (∀ a, a < w → a * D + D ≤ w * D) as Hrow by (intros; nia).
  pose proof (Hrow x ltac:(lia)). pose proof (Hrow x' ltac:(lia)). assert (0 ≤ x * D) by nia. assert (0 ≤ x' * D) by nia.
  destruct (Z.lt_trichotomy y y') as [Hlt|[->|Hgt]].
  - left. assert ((y + 1) * p ≤ y' * p) by nia. lia.
  - destruct (Z.lt_trichotomy x x') as [Hlt|[->|Hgt]]; [left; nia|done|right; nia].
  - right. assert ((y' + 1) * p ≤ y * p) by nia. lia.
Qed.

Lemma pixel_in_memory d x y :
  display_ok d → on_screen d x y → 0 ≤ pixel_off d x y ∧ pixel_off d x y + depth d ≤ vsize (vram d).
Proof.
  intros [_ _ Hd _ _ Hr Hs] [Hx Hy]. unfold pixel_off.
  set (w := fb_width (dev d)) in *. set (p := fb_pitch (dev d)) in *. set (D := depth d) in *.
  assert (0 ≤ w * D) by nia. assert (x * D + D ≤ w * D) by nia. assert (0 ≤ x * D) by nia.
  assert (0 ≤ y * p) by nia. assert (y * p + p ≤ p * fb_height (dev d)) by nia. lia.
Qed.

Lemma put_pixel_draws x y c d :
  display_ok d → 0 ≤ x → 0 ≤ y →
  ∃ d', framebuffer_put_pixel x y c d = Ret d' ∧ draws d (λ x' y', x' = x ∧ y' = y) c d'.
Proof.
  intros Hok Hx Hy. unfold framebuffer_put_pixel. destruct (do_dev _ Hok) as [g Hg].
  pose proof (do_width _ Hok) as Hw. pose proof (do_height _ Hok) as Hh. rewrite Hg, !u32_small by lia.
  destruct ((fb_width (dev d) <=? x) || (fb_height (dev d) <=? y)) eqn:E.
  { exists d. split; [done|]. apply draws_none. intros x' y' [Hx' Hy'] [-> ->].
    apply orb_true_iff in E as [E|E]; bool_to_prop; lia. }
  bool_to_prop. rewrite (proj2 (Z.eqb_neq (fb_virt _) 0)) by apply Hok.
  assert (Hs : on_screen d x y) by (split; lia). destruct (pixel_in_memory d x y Hok Hs) as [Hl Hr].
  pose proof (do_size _ Hok) as Hsz. pose proof (do_depth _ Hok) as Hd.
  assert (Hdep : depth d = bpp g `div` 8) by (unfold depth; by rewrite Hg). rewrite <- Hdep.
  fold (pixel_off d x y). rewrite u64_small by lia.
  assert (∃ v', (if 4 <=? depth d then store_bytes (vram d) (pixel_off d x y) (le_bytes 4 c)
      else put_low (Z.to_nat (depth d)) 0 (pixel_off d x y) c (vram d)) = Ret v' ∧ vsize v' = vsize (vram d)
      ∧ read_bytes v' (pixel_off d x y) (color_bytes d) = le_bytes (color_bytes d) c
      ∧ ∀ i, i < pixel_off d x y ∨ pixel_off d x y + Z.of_nat (color_bytes d) ≤ i → vget v' i = vget (vram d) i)
    as (v' & -> & Hsize & Hrd & Hfr).
  { unfold color_bytes. destruct (Z.leb_spec 4 (depth d)) as [H4|H4].
    - rewrite Z.min_l by lia. destruct (store_bytes_Ret (le_bytes 4 c) (vram d) (pixel_off d x y)) as (v' & E & ? & ? & Hf);
        [lia|rewrite zlen_le_bytes; lia|]. exists v'. rewrite zlen_le_bytes in Hf. split_and!; try done.
    - rewrite Z.min_r, put_low_store by lia. change (8 * 0) with 0. rewrite Z.div_1_r, Z.add_0_r.
      destruct (store_bytes_Ret (le_bytes (Z.to_nat (depth d)) c) (vram d) (pixel_off d x y)) as (v' & E & ? & Hrd & Hf);
        [lia|rewrite zlen_le_bytes; lia|]. exists v'. rewrite zlen_le_bytes in Hf. rewrite length_le_bytes in Hrd.
      split_and!; done. }
  cbn [rbind]. exists (set_vram d v'). split; [done|].
  assert (Hn : Z.of_nat (color_bytes d) ≤ depth d) by (unfold color_bytes; lia).
  split; [done|done| | |].
  - intros x' y' _ [-> ->]. unfold pixel. change (pixel_off (set_vram d v')) with (pixel_off d).
    change (color_bytes (set_vram d v')) with (color_bytes d). change (vram (set_vram d v')) with v'.
    rewrite Hrd. unfold shade. apply le_val_bytes.
  - intros x' y' Hs' Hne. unfold pixel. change (pixel_off (set_vram d v')) with (pixel_off d).
    change (color_bytes (set_vram d v')) with (color_bytes d). f_equal. apply read_bytes_ext.
    intros i Hi. apply Hfr. destruct (pixel_disjoint d x y x' y' Hok Hs Hs'); [|lia|lia].
    intros [= -> ->]. by apply Hne.
  - intros i Hi. apply Hfr. destruct (decide (i < pixel_off d x y ∨ pixel_off d x y + Z.of_nat (color_bytes d) ≤ i)); [done|].
    destruct Hi. exists x, y. split; [done|]. lia.
Qed.

(** ** Loops of pixels *)

Global Instance exists_in_dec {A} (l : list A) (P : A → Prop) : (∀ a, Decision (P a)) → Decision (∃ a, a ∈ l ∧ P a).
Proof.
  intros HP. destruct (decide (Exists P l)) as [He|Hn].
  - left. by apply Exists_exists in He.
  - right. intros Hx. apply Hn, Exists_exists, Hx.
Defined.

Lemma each_draws {A} (l : list A) body (P : A → Z → Z → Prop) c d :
  (∀ a x y, Decision (P a x y)) → display_ok d →
  (∀ a d0, a ∈ l → display_ok d0 → dev d0 = dev d → ∃ d', body a d0 = Ret d' ∧ draws d0 (P a) c d') →
  ∃ d', each l body d = Ret d' ∧ draws d (λ x y, ∃ a, a ∈ l ∧ P a x y) c d'.
Proof.
  intros HP. revert d. induction l as [|a l IH]; intros d Hok Hb; cbn [each].
  - exists d. split; [done|]. apply draws_none. intros x y _ (a & Ha & _). by apply not_elem_of_nil in Ha.
  - destruct (Hb a d ltac:(left) Hok eq_refl) as (d1 & -> & H1). cbn [rbind].
    destruct (same_dev d d1 (dr_dev _ _ _ _ H1) (dr_size _ _ _ _ H1)) as (_ & _ & _ & Hok1).
    destruct (IH d1 (Hok1 Hok)) as (d2 & -> & H2).
    { intros a' d0 Ha' Hok0 Hd0. apply Hb; [by right|done|]. by rewrite Hd0, (dr_dev _ _ _ _ H1). }
    exists d2. split; [done|]. eapply draws_ext; [|eapply (draws_trans d d1 d2 (P a)); [|exact H1|exact H2]].
    + intros x y _. setoid_rewrite elem_of_cons. naive_solver.
    + intros x y. apply _.
Qed.

Lemma elem_of_seqZ' i m n : i ∈ seqZ m n ↔ m ≤ i < m + n.
Proof. rewrite elem_of_seqZ. lia. Qed.

(** The positions [x + k], [k < w], of a 32-bit coordinate. *)
Lemma u32_span X x w :
  0 ≤ X < 2 ^ 32 → 0 ≤ x < 2 ^ 32 → 0 ≤ w < 2 ^ 32 →
  (∃ k, k ∈ seqZ 0 w ∧ X = u32 (x + k)) ↔ u32 (X - x) < w.
Proof.
  intros HX Hx Hw. split.
  - intros (k & Hk & ->). rewrite elem_of_seqZ' in Hk. unfold u32, wrap.
    rewrite Zminus_mod_idemp_l. replace (x + k - x) with k by lia. rewrite Z.mod_small; lia.
  - intros Hlt. exists (u32 (X - x)). rewrite elem_of_seqZ'. unfold u32, wrap in *.
    pose proof (Z.mod_pos_bound (X - x) (2 ^ 32) ltac:(lia)). split; [lia|].
    rewrite Zplus_mod_idemp_r. replace (x + (X - x)) with X by lia. rewrite Z.mod_small; lia.
Qed.

Lemma u32_nonneg z : 0 ≤ u32 z.
Proof. apply (wrap_bound 32). lia. Qed.

Lemma put_clipped_draws px py c d :
  display_ok d → - 2 ^ 31 ≤ px < 2 ^ 31 → - 2 ^ 31 ≤ py < 2 ^ 31 →
  ∃ d', put_clipped px py c d = Ret d' ∧ draws d (λ x y, x = px ∧ y = py) c d'.
Proof.
  intros Hok Hx Hy. unfold put_clipped. pose proof (do_width _ Hok). pose proof (do_height _ Hok).
  rewrite !i32_small by lia. destruct (_ && _) eqn:E; bool_to_prop.
  - rewrite !u32_small by lia. apply put_pixel_draws; [done|lia|lia].
  - exists d. split; [done|]. apply draws_none. intros x y [? ?] [-> ->].
    rewrite !andb_false_iff in E. destruct E as [[[E|E]|E]|E]; bool_to_prop; lia.
Qed.

Lemma int_Ret z : - 2 ^ 31 ≤ z < 2 ^ 31 → int z = Ret z.
Proof. intros Hz. unfold int. by rewrite (proj2 (Z.leb_le _ _)), (proj2 (Z.ltb_lt _ _)) by lia. Qed.

Lemma circle_point_draws cx cy r c y x d :
  display_ok d → 0 ≤ r < 2 ^ 15 → 0 ≤ cx < 2 ^ 31 - 2 ^ 15 → 0 ≤ cy < 2 ^ 31 - 2 ^ 15 → - r ≤ x ≤ r → - r ≤ y ≤ r →
  ∃ d', circle_point cx cy r c y x d = Ret d'
    ∧ draws d (λ X Y, x * x + y * y ≤ r * r ∧ X = cx + x ∧ Y = cy + y) c d'.
Proof.
  intros Hok Hr Hcx Hcy Hx Hy. unfold circle_point.
  assert (0 ≤ x * x ≤ r * r) by nia. assert (0 ≤ y * y ≤ r * r) by nia. assert (r * r < 2 ^ 30) by nia.
  rewrite !int_Ret by lia. cbn [rbind]. rewrite !int_Ret by lia. cbn [rbind].
  destruct (Z.leb_spec (x * x + y * y) (r * r)) as [Hd|Hd].
  - rewrite !i32_small, !int_Ret by lia. cbn [rbind].
    destruct (put_clipped_draws (cx + x) (cy + y) c d Hok ltac:(lia) ltac:(lia)) as (d' & -> & Hdr).
    exists d'. split; [done|]. revert Hdr. apply draws_ext. intros; tauto.
  - exists d. split; [done|]. apply draws_none. intros; lia.
Qed.

Lemma square_bound a b r : 0 ≤ r → a * a + b * b ≤ r * r → - r ≤ a ≤ r.
Proof.
  intros Hr Hs. assert (0 ≤ b * b) by nia.
  split; apply Z.nlt_ge; intros Hlt; assert ((r + 1) * (r + 1) ≤ a * a) by nia; nia.
Qed.

Lemma draw_rect_draws x y w h c d :
  display_ok d → 0 ≤ x < 2 ^ 32 → 0 ≤ y < 2 ^ 32 → 0 ≤ w < 2 ^ 32 → 0 ≤ h < 2 ^ 32 →
  ∃ d', framebuffer_draw_rect x y w h c d = Ret d'
    ∧ draws d (λ X Y, u32 (X - x) < w ∧ u32 (Y - y) < h) c d'.
Proof.
  intros Hok Hx Hy Hw Hh. unfold framebuffer_draw_rect.
  destruct (each_draws (seqZ 0 h) (λ py, each (seqZ 0 w) (λ px, framebuffer_put_pixel (u32 (x + px)) (u32 (y + py)) c))
    (λ py X Y, ∃ px, px ∈ seqZ 0 w ∧ X = u32 (x + px) ∧ Y = u32 (y + py)) c d ltac:(apply _) Hok) as (d' & -> & Hd).
  { intros py d0 _ Hok0 _. apply each_draws; [apply _|done|]. intros px d1 _ Hok1 _.
    apply put_pixel_draws; [done|apply u32_nonneg..]. }
  exists d'. split; [done|]. revert Hd. apply draws_ext. intros X Y [HX HY].
  pose proof (do_width _ Hok). pose proof (do_height _ Hok).
  rewrite <- (u32_span X x w), <- (u32_span Y y h) by lia. naive_solver.
Qed.

Lemma draw_circle_draws cx cy r c d :
  display_ok d → 0 ≤ r < 2 ^ 15 → 0 ≤ cx < 2 ^ 31 - 2 ^ 15 → 0 ≤ cy < 2 ^ 31 - 2 ^ 15 →
  ∃ d', framebuffer_draw_filled_circle cx cy r c d = Ret d'
    ∧ draws d (λ X Y, (X - cx) * (X - cx) + (Y - cy) * (Y - cy) ≤ r * r) c d'.
Proof.
  intros Hok Hr Hcx Hcy. unfold framebuffer_draw_filled_circle. rewrite i32_small, int_Ret by lia. cbn [rbind].
  destruct (each_draws (seqZ (- r) (2 * r + 1)) (λ y, each (seqZ (- r) (2 * r + 1)) (λ x, circle_point cx cy r c y x))
    (λ y X Y, ∃ x, x ∈ seqZ (- r) (2 * r + 1) ∧ x * x + y * y ≤ r * r ∧ X = cx + x ∧ Y = cy + y) c d ltac:(apply _) Hok)
    as (d' & -> & Hd).
  { intros y d0 Hy Hok0 _. rewrite elem_of_seqZ' in Hy. apply each_draws; [apply _|done|]. intros x d1 Hx Hok1 _.
    rewrite elem_of_seqZ' in Hx. apply circle_point_draws; [done|lia..]. }
  exists d'. split; [done|]. revert Hd. apply draws_ext. intros X Y _. setoid_rewrite elem_of_seqZ'. split.
  - intros (y & Hy & x & Hx & Hd & -> & ->). by replace (cx + x - cx) with x by lia; replace (cy + y - cy) with y by lia.
  - intros Hd. pose proof (square_bound (X - cx) (Y - cy) r ltac:(lia) ltac:(lia)).
    pose proof (square_bound (Y - cy) (X - cx) r ltac:(lia) ltac:(lia)).
    exists (Y - cy). split; [lia|]. exists (X - cx). split; [lia|]. split; [done|]. lia.
Qed.

(** Rectangles.  On a display in working order [framebuffer_draw_rect] returns, colours
    exactly the positions within [w] to the right and [h] below the corner (coordinates wrap
    at 32 bits, as its own do), keeps to the screen and leaves every other byte of the video
    memory as it was. *)
Theorem draw_rect_exact x y w h c d :
  display_ok d → 0 ≤ x < 2 ^ 32 → 0 ≤ y < 2 ^ 32 → 0 ≤ w < 2 ^ 32 → 0 ≤ h < 2 ^ 32 →
  ∃ d', framebuffer_draw_rect x y w h c d = Ret d'
    ∧ draws d (λ X Y, u32 (X - x) < w ∧ u32 (Y - y) < h) c d'.
Proof. apply draw_rect_draws. Qed.

(** Discs.  A radius below 2^15 and a centre away from the end of the [int] range:
    [framebuffer_draw_filled_circle] colours exactly the positions of the screen whose distance
    to the centre is at most the radius. *)
Theorem draw_filled_circle_exact cx cy r c d :
  display_ok d → 0 ≤ r < 2 ^ 15 → 0 ≤ cx < 2 ^ 31 - 2 ^ 15 → 0 ≤ cy < 2 ^ 31 - 2 ^ 15 →
  ∃ d', framebuffer_draw_filled_circle cx cy r c d = Ret d'
    ∧ draws d (λ X Y, (X - cx) * (X - cx) + (Y - cy) * (Y - cy) ≤ r * r) c d'.
Proof. apply draw_circle_draws. Qed.

(** ** Clearing *)

(** A loop on the memory as a loop on the display. *)
Lemma each_lift {A} (l : list A) (f : A → Vram → res Vram) (g : A → Display → res Display) d v :
  (∀ a v, a ∈ l → g a (set_vram d v) = (let! v' := f a v in Ret (set_vram d v'))) →
  (let! v' := each l f v in Ret (set_vram d v')) = each l g (set_vram d v).
Proof.
  revert v. induction l as [|a l IH]; intros v Hf; [done|]. cbn [each]. rewrite Hf by left.
  rewrite !rbind_assoc. destruct (f a v) as [v'| |]; [|done|done]. cbn [rbind]. apply IH.
  intros a' v'' Ha. apply Hf. by right.
Qed.

Lemma clear_pixel_store n : ∀ i off c v, 0 ≤ i → i + Z.of_nat n ≤ 4 →
  each (seqZ i (Z.of_nat n)) (λ b v, let! x := color_byte c b in vset v (off + b) x) v
  = store_bytes v (off + i) (le_bytes n (c `div` 2 ^ (8 * i))).
Proof.
  induction n as [|n IH]; intros i off c v Hi Hn; [done|]. rewrite seqZ_cons by lia.
  replace (Z.pred (Z.of_nat (S n))) with (Z.of_nat n) by lia. cbn [each le_bytes store_bytes].
  unfold color_byte at 1. rewrite (proj2 (Z.ltb_lt _ _)) by lia. cbn [rbind]. rewrite shiftr_byte by lia.
  destruct (vset v (off + i) _) as [v'| |]; [|done|done]. cbn [rbind]. change (Z.succ i) with (i + 1).
  rewrite IH by lia. replace (off + (i + 1)) with (off + i + 1) by lia. do 2 f_equal.
  replace (8 * (i + 1)) with (8 * i + 8) by lia. rewrite Z.pow_add_r, <- Z.div_div by lia. done.
Qed.

Lemma put_pixel_store x y c d v g :
  display_ok d → fb_global (dev d) = Some g → on_screen d x y → depth d ≤ 4 →
  framebuffer_put_pixel x y c (set_vram d v)
  = (let! v' := store_bytes v (pixel_off d x y) (le_bytes (Z.to_nat (depth d)) c) in Ret (set_vram d v')).
Proof.
  intros Hok Hg Hs H4. pose proof Hs as [Hx Hy]. destruct (pixel_in_memory d x y Hok Hs) as [Hl Hr].
  pose proof (do_size _ Hok) as Hsz. pose proof (do_depth _ Hok) as Hd. pose proof (do_width _ Hok) as Hw.
  pose proof (do_height _ Hok) as Hh.
  unfold framebuffer_put_pixel. cbn [dev set_vram vram]. rewrite Hg, !u32_small by lia.
  rewrite (proj2 (Z.leb_gt _ x)), (proj2 (Z.leb_gt _ y)), (proj2 (Z.eqb_neq _ 0)) by (apply Hok || lia). cbn [orb].
  assert (Hdep : bpp g `div` 8 = depth d) by (unfold depth; by rewrite Hg). rewrite Hdep.
  fold (pixel_off d x y). rewrite u64_small by lia. destruct (Z.leb_spec 4 (depth d)).
  - by replace (depth d) with 4 by lia.
  - rewrite put_low_store by lia. change (8 * 0) with 0. by rewrite Z.div_1_r, Z.add_0_r.
Qed.

(** The word loop. *)
Lemma fill_words c k : ∀ v, 4 * Z.of_nat k ≤ vsize v →
  ∃ v', each (seqZ 0 (Z.of_nat k)) (λ i v, store_bytes v (4 * i) (le_bytes 4 c)) v = Ret v' ∧ vsize v' = vsize v
    ∧ (∀ j, 0 ≤ j < Z.of_nat k → read_bytes v' (4 * j) 4 = le_bytes 4 c).
Proof.
  induction k as [|k IH]; intros v Hk; [exists v; split_and!; [done|done|lia]|].
  replace (Z.of_nat (S k)) with (Z.of_nat k + 1) by lia. rewrite seqZ_app by lia.
  destruct (IH v ltac:(lia)) as (v1 & E1 & Hs1 & Hr1).
  assert (Hea : ∀ (l m : list Z) f (v : Vram), each (l ++ m) f v = rbind (each l f v) (each m f)).
  { intros l m f. induction l as [|a l IHl]; intros v0; [done|]. cbn [app each].
    destruct (f a v0); cbn [rbind]; [apply IHl|done|done]. }
  rewrite Hea, E1. cbn [rbind]. change (seqZ (0 + Z.of_nat k) 1) with [0 + Z.of_nat k]. cbn [each].
  destruct (store_bytes_Ret (le_bytes 4 c) v1 (4 * (0 + Z.of_nat k))) as (v2 & -> & Hs2 & Hr2 & Hx2);
    [lia|rewrite zlen_le_bytes; lia|]. cbn [rbind]. exists v2. split_and!; [done|congruence|].
  intros j Hj. destruct (decide (j = Z.of_nat k)) as [->|Hne]; [exact Hr2|].
  rewrite <- (Hr1 j) by lia. apply read_bytes_ext. intros i Hi. apply Hx2. lia.
Qed.

(** On a display in working order of 8, 16, 24 or 32 bits per pixel, [framebuffer_clear]
    returns and every position of the screen has the colour. *)
Theorem clear_fills c d :
  display_ok d → depth d ≤ 4 →
  ∃ d', framebuffer_clear c d = Ret d' ∧ dev d' = dev d
    ∧ ∀ x y, on_screen d x y → pixel d' x y = shade d c.
Proof.
  intros Hok H4. destruct (do_dev _ Hok) as [g Hg]. pose proof (do_size _ Hok) as Hsz. pose proof (do_depth _ Hok) as Hd.
  pose proof (do_width _ Hok) as Hw. pose proof (do_height _ Hok) as Hh. pose proof (do_row _ Hok) as Hrow.
  assert (Hdep : bpp g `div` 8 = depth d) by (unfold depth; by rewrite Hg).
  assert (Hp : 0 ≤ fb_pitch (dev d)) by nia.
  unfold framebuffer_clear. rewrite Hg, (proj2 (Z.eqb_neq _ 0)), Hdep by apply Hok.
  destruct ((4 <=? depth d) && (fb_pitch (dev d) `mod` 4 =? 0)) eqn:E; bool_to_prop.
  - assert (depth d = 4) as Hd4 by lia. set (h := fb_height (dev d)) in *.
    set (q := fb_pitch (dev d) `div` 4) in *. assert (Hq : fb_pitch (dev d) = 4 * q) by (by apply Z_div_exact_2).
    rewrite u64_small by nia.
    destruct (fill_words c (Z.to_nat (q * h)) (vram d) ltac:(nia)) as (v' & Ev & Hsv & Hr).
    rewrite Z2Nat.id in Ev, Hr by nia. rewrite Ev. cbn [rbind]. eexists. split; [done|]. split; [done|].
    intros x y Hs. unfold pixel, shade, color_bytes. change (depth (set_vram d v')) with (depth d). rewrite Hd4.
    change (Z.to_nat (Z.min 4 4)) with 4%nat. change (vram (set_vram d v')) with v'.
    change (pixel_off (set_vram d v') x y) with (pixel_off d x y).
    assert (pixel_off d x y = 4 * (y * q + x)) as -> by (unfold pixel_off; rewrite Hd4, Hq; lia).
    rewrite Hr by (destruct Hs; nia). apply le_val_bytes.
  - clear E. set (body := λ y, each (seqZ 0 (fb_width (dev d))) (λ x, framebuffer_put_pixel x y c)).
    destruct (each_draws (seqZ 0 (fb_height (dev d))) body (λ y X Y, ∃ x, x ∈ seqZ 0 (fb_width (dev d)) ∧ X = x ∧ Y = y) c d
      ltac:(apply _) Hok) as (d' & Ed & Hdr).
    { intros y d0 Hy Hok0 _. rewrite elem_of_seqZ' in Hy. apply each_draws; [apply _|done|].
      intros x d1 Hx Hok1 _. rewrite elem_of_seqZ' in Hx. apply put_pixel_draws; [done|lia|lia]. }
    exists d'. split; [|split; [by apply Hdr|]].
    + assert (Hself : set_vram d (vram d) = d) by (by destruct d). rewrite <- Ed.
      transitivity (each (seqZ 0 (fb_height (dev d))) body (set_vram d (vram d))); [|by rewrite Hself]. apply each_lift.
      intros y v Hy. unfold body. symmetry. apply each_lift. intros x v1 Hx. rewrite elem_of_seqZ' in Hx, Hy.
      assert (Hs : on_screen d x y) by (split; lia). destruct (pixel_in_memory d x y Hok Hs).
      rewrite (put_pixel_store x y c d v1 g) by done. unfold pixel_off in *.
      rewrite (u64_small (y * _)), u64_small by nia.
      pose proof (clear_pixel_store (Z.to_nat (depth d)) 0 (y * fb_pitch (dev d) + x * depth d) c v1 ltac:(lia) ltac:(lia)) as Hc.
      rewrite Z2Nat.id in Hc by lia. rewrite Hc. change (8 * 0) with 0. by rewrite Z.div_1_r, Z.add_0_r.
    + intros x y Hs. apply (dr_in _ _ _ _ Hdr); [done|]. destruct Hs. exists y. rewrite elem_of_seqZ'.
      split; [lia|]. exists x. rewrite elem_of_seqZ'. lia.
Qed.

(** * Lines of the framebuffer

    The line routine adds 32-bit floats.  On coordinates below 2^12 the sums along the axes and
    the diagonal are exact, which is checked by evaluation for each of them; the lines are then
    what one expects, in the directions the routine supports. *)


(** ** Exact sums *)

Definition LIM : Z := 2 ^ 12.

Definition float_eqb (a b : spec_float) : bool :=
  match a, b with
  | S754_zero s, S754_zero t => Bool.eqb s t
  | S754_finite s m e, S754_finite t n f => Bool.eqb s t && (m =? n)%positive && (e =? f)
  | _, _ => false
  end.
Lemma float_eqb_eq a b : float_eqb a b = true → a = b.
Proof.
  destruct a, b; cbn; try done; intros Hb; repeat (apply andb_true_iff in Hb as [Hb ?]).
  - apply Bool.eqb_prop in Hb. by subst.
  - apply Bool.eqb_prop in Hb. subst. rewrite (proj1 (Pos.eqb_eq _ _) ltac:(eassumption)).
    by rewrite (proj1 (Z.eqb_eq _ _) ltac:(eassumption)).
Qed.
Definition ret_eqb (r : res Z) (z : Z) : bool := match r with Ret a => a =? z | _ => false end.
Lemma ret_eqb_eq r z : ret_eqb r z = true → r = Ret z.
Proof. destruct r; cbn; try done. by intros ->%Z.eqb_eq. Qed.

(** What is checked of a coordinate [k]. *)
Definition exact_at (k : Z) : bool :=
  float_eqb (f32_add (f32_of_int k) (f32_of_int 1)) (f32_of_int (k + 1))
  && float_eqb (f32_add (f32_of_int k) (f32_of_int 0)) (f32_of_int k)
  && ret_eqb (f32_to_int (f32_add (f32_of_int k) f32_half)) k
  && ((k =? 0) || float_eqb (f32_div (f32_of_int k) (f32_of_int k)) (f32_of_int 1)
                  && float_eqb (f32_div (f32_of_int 0) (f32_of_int k)) (f32_of_int 0)).

(** All coordinates from [k] on. *)
Fixpoint exact_from (n : nat) (k : Z) : bool :=
  match n with O => true | S n => exact_at k && exact_from n (k + 1) end.
Lemma exact_from_at n : ∀ k i, exact_from n k = true → k ≤ i < k + Z.of_nat n → exact_at i = true.
Proof.
  induction n as [|n IH]; intros k i Hk Hi; [lia|]. cbn [exact_from] in Hk. apply andb_true_iff in Hk as [H1 H2].
  destruct (decide (i = k)) as [->|Hne]; [done|]. apply (IH (k + 1)); [done|lia].
Qed.
Lemma exact_below : exact_from (Z.to_nat LIM) 0 = true.
Proof. vm_compute. reflexivity. Qed.

Lemma float_exact k :
  0 ≤ k < LIM →
  f32_add (f32_of_int k) (f32_of_int 1) = f32_of_int (k + 1)
  ∧ f32_add (f32_of_int k) (f32_of_int 0) = f32_of_int k
  ∧ f32_to_int (f32_add (f32_of_int k) f32_half) = Ret k
  ∧ (0 < k → f32_div (f32_of_int k) (f32_of_int k) = f32_of_int 1
             ∧ f32_div (f32_of_int 0) (f32_of_int k) = f32_of_int 0).
Proof.
  intros Hk. pose proof (exact_from_at _ 0 k exact_below) as He. rewrite Z2Nat.id in He by (unfold LIM; lia).
  specialize (He ltac:(lia)). unfold exact_at in He. rewrite !andb_true_iff, orb_true_iff, andb_true_iff in He.
  destruct He as [[[H1 H2] H3] H4]. split_and!; [by apply float_eqb_eq..|by apply ret_eqb_eq|].
  intros Hp. destruct H4 as [H4|[H4 H5]]; [apply Z.eqb_eq in H4; lia|]. split; by apply float_eqb_eq.
Qed.

(** ** The loop *)

(** The positions of a run of [n] steps of [(sx, sy)] from [(x, y)]. *)
Definition on_run (x y sx sy n : Z) (X Y : Z) : Prop := ∃ i, 0 ≤ i ≤ n ∧ X = x + i * sx ∧ Y = y + i * sy.

Definition unit_step (s : Z) : Prop := s = 0 ∨ s = 1.

Lemma step_exact k s :
  0 ≤ k < LIM → unit_step s → f32_add (f32_of_int k) (f32_of_int s) = f32_of_int (k + s).
Proof.
  intros Hk Hs. destruct (float_exact k Hk) as (H1 & H0 & _).
  destruct Hs as [->| ->]; [by rewrite Z.add_0_r|done].
Qed.

Lemma line_loop_draws n : ∀ x y sx sy c d,
  display_ok d → unit_step sx → unit_step sy → 0 ≤ x → 0 ≤ y → x + Z.of_nat n * sx < LIM → y + Z.of_nat n * sy < LIM →
  ∃ d', line_loop (S n) (f32_of_int x) (f32_of_int y) (f32_of_int sx) (f32_of_int sy) c d = Ret d'
    ∧ draws d (λ X Y, ∃ i, i ∈ seqZ 0 (Z.of_nat n + 1) ∧ X = x + i * sx ∧ Y = y + i * sy) c d'.
Proof.
  induction n as [|n IH]; intros x y sx sy c d Hok Hsx Hsy Hx Hy Hlx Hly.
  - cbn [line_loop]. unfold LIM in *.
    destruct (float_exact x ltac:(unfold LIM; lia)) as (_ & _ & -> & _).
    destruct (float_exact y ltac:(unfold LIM; lia)) as (_ & _ & -> & _). cbn [rbind].
    destruct (put_clipped_draws x y c d Hok ltac:(lia) ltac:(lia)) as (d' & -> & Hd). cbn [rbind].
    exists d'. split; [done|]. revert Hd. apply draws_ext. intros X Y _. setoid_rewrite elem_of_seqZ'. split.
    + intros [-> ->]. exists 0. lia.
    + intros (i & Hi & -> & ->). replace i with 0 by lia. lia.
  - destruct Hsx as [Hsx|Hsx], Hsy as [Hsy|Hsy]; unfold LIM in *.
    all: remember (S n) as m; cbn [line_loop].
    all: destruct (float_exact x ltac:(unfold LIM; lia)) as (_ & _ & -> & _).
    all: destruct (float_exact y ltac:(unfold LIM; lia)) as (_ & _ & -> & _); cbn [rbind].
    all: destruct (put_clipped_draws x y c d Hok ltac:(lia) ltac:(lia)) as (d1 & -> & Hd1); cbn [rbind].
    all: rewrite (step_exact x sx), (step_exact y sy) by (unfold LIM, unit_step; lia); subst m.
    all: destruct (same_dev d d1 (dr_dev _ _ _ _ Hd1) (dr_size _ _ _ _ Hd1)) as (_ & _ & _ & Hok1).
    all: destruct (IH (x + sx) (y + sy) sx sy c d1 (Hok1 Hok)) as (d2 & -> & Hd2); [unfold unit_step; lia..|].
    all: exists d2; split; [done|]; eapply draws_ext; [|eapply (draws_trans d d1 d2); [|exact Hd1|exact Hd2]]; [|intros; apply _].
    all: intros X Y _; setoid_rewrite elem_of_seqZ'; split.
    all: try (intros [[-> ->]|(i & Hi & -> & ->)]; [exists 0; lia|exists (i + 1); lia]).
    all: intros (i & Hi & HX & HY); destruct (decide (i = 0)) as [->|Hne]; [left; lia|right; exists (i - 1); lia].
Qed.


(** ** A small display *)

(** [w] by [h] pixels of 32 bits, with four bytes of padding after each row. *)
Definition small_display (w h : Z) : Display :=
  DisplayState (FbState (Some (LimineFb 0x1000 w h (4 * w + 4) 32 8 16 8 8 8 0)) w h (4 * w + 4) 0x1000)
    (VramState ((4 * w + 4) * h) ∅).
Lemma small_display_ok w h : 0 ≤ w ≤ 4096 → 0 ≤ h ≤ 4096 → display_ok (small_display w h).
Proof. intros Hw Hh. split; unfold depth; cbn; try done; try (change (32 `div` 8) with 4); nia. Qed.

(** The positions with colour 1, row by row. *)
Definition lit (d : Display) : list (Z * Z) :=
  seqZ 0 (fb_height (dev d)) ≫= λ y, (λ x, (x, y)) <$> filter (λ x, pixel d x y = 1) (seqZ 0 (fb_width (dev d))).


Lemma draw_rect_exact_witness :
  ∃ d', framebuffer_draw_rect 6 1 4 2 1 (small_display 8 8) = Ret d'
    ∧ draws (small_display 8 8) (λ X Y, u32 (X - 6) < 4 ∧ u32 (Y - 1) < 2) 1 d'.
Proof. apply draw_rect_exact; [apply small_display_ok|..]; lia. Defined.

Lemma draw_filled_circle_exact_witness :
  ∃ d', framebuffer_draw_filled_circle 1 3 2 1 (small_display 8 8) = Ret d'
    ∧ draws (small_display 8 8) (λ X Y, (X - 1) * (X - 1) + (Y - 3) * (Y - 3) ≤ 2 * 2) 1 d'.
Proof. apply draw_filled_circle_exact; [apply small_display_ok|..]; lia. Defined.

Lemma clear_fills_witness :
  ∃ d', framebuffer_clear 0x123456 (small_display 3 2) = Ret d' ∧ dev d' = dev (small_display 3 2)
    ∧ ∀ x y, on_screen (small_display 3 2) x y → pixel d' x y = shade (small_display 3 2) 0x123456.
Proof. apply clear_fills; [apply small_display_ok; lia|done]. Defined.

Example circle_lit :
  (let! d := framebuffer_draw_filled_circle 1 3 2 1 (small_display 8 8) in Ret (lit d))
  = Ret [(1, 1); (0, 2); (1, 2); (2, 2); (0, 3); (1, 3); (2, 3); (3, 3); (0, 4); (1, 4); (2, 4); (1, 5)].
Proof. vm_compute. reflexivity. Qed.

(** To the left the number of steps is that of the other axis: a horizontal line from right to
    left is its first point. *)
Theorem line_leftwards_is_a_point x1 x2 y c d :
  0 ≤ x2 < x1 → x1 < 2 ^ 31 → 0 ≤ y < 2 ^ 31 →
  framebuffer_draw_line x1 y x2 y c d = framebuffer_put_pixel x1 y c d.
Proof.
  intros Hx Hx1 Hy. unfold framebuffer_draw_line. rewrite Z.sub_diag, !int_Ret by lia. cbn [rbind].
  rewrite (proj2 (Z.ltb_ge 0 (x2 - x1))) by lia. cbn. by rewrite !u32_small by lia.
Qed.

(** Up and to the left the shorter axis counts: the line has gaps. *)
Example line_up_left_gaps :
  (let! d := framebuffer_draw_line 7 6 1 3 1 (small_display 8 8) in Ret (lit d)) = Ret [(1, 3); (3, 4); (5, 5); (7, 6)].
Proof. vm_compute. reflexivity. Qed.

(** Without a direct map the initialisation fails, and yet a framebuffer is available. *)
Example init_fails_available :
  let '(ok, f) := framebuffer_init (Some [LimineFb 0x1000 8 8 32 32 8 16 8 8 8 0]) None fb_boot in
  ok = false ∧ framebuffer_available f = true.
Proof. done. Qed.

(** [framebuffer_init] on the first framebuffer of the answer: its geometry, and a pointer in the
    direct map whether Limine's address was physical or already mapped. *)
Lemma framebuffer_init_maps g gs off f :
  0 ≤ address g → 0 ≤ off → off + address g < 2 ^ 64 →
  ∃ f', framebuffer_init (Some (g :: gs)) (Some off) f = (true, f') ∧ fb_global f' = Some g
    ∧ fb_width f' = width g ∧ fb_height f' = height g ∧ fb_pitch f' = pitch g ∧ off ≤ fb_virt f'
    ∧ (fb_virt f' = address g ∨ fb_virt f' = off + address g).
Proof.
  intros Ha Ho Hs. cbn. eexists. split; [done|]. cbn. split_and!; try done.
  - destruct (Z.leb_spec off (address g)); [lia|]. rewrite u64_small; lia.
  - destruct (Z.leb_spec off (address g)); [by left|right]. rewrite u64_small; lia.
Qed.

(** The components of a colour. *)
Lemma rgb_components r g b :
  is_byte r → is_byte g → is_byte b → framebuffer_rgb r g b = b + g * 2 ^ 8 + r * 2 ^ 16.
Proof.
  unfold is_byte. intros Hr Hg Hb. unfold framebuffer_rgb. rewrite Z.lor_comm, (Z.lor_comm (Z.shiftl r 16)), Z.lor_assoc.
  rewrite (lor_shiftl_add b g 8) by lia. rewrite lor_shiftl_add; lia.
Qed.
