(* ===== verification/Logger.v ===== *)
(** * Log lines (kernel/utils/logger.cpp)

    A line is three calls of [print]: the colour, the tag with the formatted message, the
    reset.  [print] is a parameter, because the screen driver logs too. *)
From S2P Require Import Prelude CString LibC.

Definition ansi (code : string) : list Z := 27 :: str code.
Definition ANSI_RESET : list Z := ansi "[0m".
Definition ANSI_GREEN : list Z := ansi "[32m".
Definition ANSI_RED : list Z := ansi "[31m".
Definition ANSI_CYAN : list Z := ansi "[36m".
Definition ANSI_MAGENTA : list Z := ansi "[35m".
Definition ANSI_GRAY : list Z := ansi "[90m".

Section logger.
Context {S : Type} (print : list Z → S → S).

(** [for (p = tag; *p && pos + 1 < sizeof(buf); ++p) buf[pos++] = *p] *)
Fixpoint copy_tag (tag buf : list Z) : list Z :=
  match tag with
  | [] => buf
  | c :: tag => if zlen buf + 1 <? 512 then copy_tag tag (buf ++ [c]) else buf
  end.

Definition print_colorv (color tag fmt : list Z) (args : list Arg) (s : S) : res S :=
  let buf := copy_tag tag [] in
  let buf := if zlen buf + 1 <? 512 then buf ++ [32] else buf in
  let! (written, t) := vsnprintf (512 - zlen buf) fmt args in
  if written <? 0 then Ret s
  else Ret (print (ANSI_RESET ++ [10]) (print (cstr (buf ++ t)) (print color s))).

Definition log_ok : list Z → list Arg → S → res S := print_colorv ANSI_GREEN (str "[OK]").
Definition log_fail : list Z → list Arg → S → res S := print_colorv ANSI_RED (str "[FAIL]").
Definition log_info : list Z → list Arg → S → res S := print_colorv ANSI_CYAN (str "[INFO]").
Definition log_debug : list Z → list Arg → S → res S := print_colorv ANSI_GRAY (str "[DEBUG]").

Definition log_hex64 (label : option (list Z)) (value : Z) (s : S) : res S :=
  let label := default [] label in
  let! (_, buf) := vsnprintf 64 (str "%s0x%016llX") [AStr label; AInt value] in
  Ret (print (ANSI_RESET ++ [10]) (print (cstr buf) (print ANSI_MAGENTA s))).

(** ** What a line shows *)

Lemma copy_tag_take tag buf : zlen buf ≤ 511 → copy_tag tag buf = take 511 (buf ++ tag).
Proof.
  revert buf. induction tag as [|c tag IH]; intros buf Hb; cbn [copy_tag].
  - rewrite app_nil_r. symmetry. apply take_ge. unfold zlen in Hb. lia.
  - destruct (Z.ltb_spec (zlen buf + 1) 512) as [Hlt|Hge].
    + rewrite IH by zlen_lia. by rewrite <- app_assoc.
    + rewrite take_app_le by (unfold zlen in *; lia). symmetry. apply take_ge. unfold zlen in *. lia.
Qed.

(** The line logged for a message [t] under a tag. *)
Definition log_line (tag t : list Z) : list Z := take 511 (tag ++ 32 :: t).
End logger.

(** For a short tag and a message that fits [vsnprintf]'s own buffer, logging prints the
    colour, then the tag, a space and as much of the message as fits 511 characters, then the
    reset; nothing is written outside the buffers. *)
Theorem log_prints_line {S} (print : list Z → S → S) color tag fmt args t s :
  cstr_ok tag → cstr_ok t → zlen tag < 511 → vsprintf fmt args = Ret t → zlen t < 1024 →
  print_colorv print color tag fmt args s
  = Ret (print (ANSI_RESET ++ [10]) (print (log_line tag t) (print color s))).
Proof.
  intros Htag Ht Hlt Hv Hlen. unfold print_colorv. rewrite copy_tag_take by done. cbn [app].
  rewrite take_ge by (unfold zlen in Hlt; lia). rewrite (proj2 (Z.ltb_lt _ _)) by lia.
  unfold vsnprintf. rewrite Hv. cbn [rbind]. rewrite (proj2 (Z.ltb_ge _ _)) by lia.
  pose proof (zlen_nonneg tag). pose proof (zlen_nonneg t). rewrite zlen_app. change (zlen [32]) with 1.
  rewrite (proj2 (Z.eqb_neq _ _)) by lia. cbn [rbind].
  set (n := if _ <=? _ then _ else _). assert (Hn : 0 ≤ n) by (unfold n; destruct (_ <=? _); lia).
  rewrite (proj2 (Z.ltb_ge n 0)) by lia. do 3 f_equal.
  rewrite cstr_id.
  - unfold log_line. change (tag ++ 32 :: t) with (tag ++ [32] ++ t). rewrite app_assoc.
    rewrite (take_app_ge (tag ++ [32])) by (rewrite length_app; cbn; unfold zlen in *; lia).
    f_equal. rewrite length_app. cbn [length]. unfold n. destruct (Z.leb_spec (512 - (zlen tag + 1)) (zlen t)).
    + f_equal. unfold zlen in *. lia.
    + rewrite !take_ge by (unfold zlen in *; lia). done.
  - apply Forall_app. split; [apply Forall_app; split; [done|]|by apply Forall_take].
    repeat constructor; lia.
Qed.

Lemma log_prints_line_witness :
  print_colorv (λ t l, l ++ [t]) ANSI_CYAN (str "[INFO]") (str "pid=%d of %s") [AInt 7; AStr (str "init")] []
  = Ret [ANSI_CYAN; log_line (str "[INFO]") (str "pid=7 of init"); ANSI_RESET ++ [10]].
Proof.
  apply (log_prints_line (λ t l, l ++ [t]) ANSI_CYAN _ _ _ (str "pid=7 of init") []); [by apply (bool_decide_unpack _)|by apply (bool_decide_unpack _)|done|done|done].
Defined.

(** [%016llX] is not among the conversions of [vsprintf]: [log_hex64] prints the format and
    never the value. *)
Theorem log_hex64_prints_no_value {S} (print : list Z → S → S) label value s :
  cstr_ok label → zlen label < 40 →
  log_hex64 print (Some label) value s
  = Ret (print (ANSI_RESET ++ [10]) (print (label ++ str "0x%016llX") (print ANSI_MAGENTA s))).
Proof.
  intros Hl Hlen. unfold log_hex64. change (default [] (Some label)) with label.
  assert (E : vsprintf (str "%s0x%016llX") [AStr label; AInt value] = Ret (label ++ str "0x%016llX")).
  { change (str "%s0x%016llX") with [37; 115; 48; 120; 37; 48; 49; 54; 108; 108; 88].
    unfold vsprintf. cbn. by rewrite <- !app_assoc. }
  unfold vsnprintf. rewrite E. cbn [rbind]. rewrite zlen_app. change (zlen (str "0x%016llX")) with 9.
  pose proof (zlen_nonneg label). rewrite (proj2 (Z.ltb_ge _ _)), (proj2 (Z.leb_gt _ _)) by lia. cbn [Z.eqb rbind].
  rewrite take_ge, cstr_id; [done| |].
  - apply Forall_app. split; [done|]. by apply (bool_decide_unpack _).
  - unfold zlen in *. rewrite length_app. change (length (str "0x%016llX")) with 9%nat. lia.
Qed.
