(* ===== verification/Screen.v ===== *)
(** * The screen (kernel/drivers/screen.cpp)

    Text goes to the terminal emulator once it is set up and to the debug port 0xE9 before
    that.  The emulator (flanterm) is the interface [Flanterm].  Pixels are 32-bit words of the
    video memory of Framebuffer.v. *)
From S2P Require Import Prelude Loop CString LibC Framebuffer FbSpec Logger.

Class Flanterm (T : Type) := {
  flanterm_fb_init : Z → limine_framebuffer → option T;
  flanterm_write : list Z → T → T;
  flanterm_full_refresh : T → T;
  flanterm_flush : T → T
}.

Record Screen (T : Type) := ScreenState {
  term : option T;
  debug : list Z;           (* the bytes sent to port 0xE9 *)
  fb_ptr : Z; scr_width : Z; scr_height : Z; scr_pitch : Z
}.
Arguments ScreenState {T} _ _ _ _ _ _.
Arguments term {T} _.
Arguments debug {T} _.
Arguments fb_ptr {T} _.
Arguments scr_width {T} _.
Arguments scr_height {T} _.
Arguments scr_pitch {T} _.

(** ** The debug port *)

Definition debug_puts {T} (s : list Z) (c : Screen T) : Screen T :=
  ScreenState (term c) (debug c ++ s) (fb_ptr c) (scr_width c) (scr_height c) (scr_pitch c).

Definition hex_digits : list Z := str "0123456789ABCDEF".
(** [for (i = 15; i >= 0; --i)]: the nibbles from the top. *)
Fixpoint hex_from (n : nat) (v : Z) : res (list Z) :=
  match n with
  | O => Ret []
  | S n =>
      let nib := u8 (Z.land (Z.shiftr v (Z.of_nat n * 4)) 0xF) in
      let! c := bget hex_digits nib in
      let! l := hex_from n v in
      Ret (c :: l)
  end.
Definition debug_puthex64 {T} (v : Z) (c : Screen T) : res (Screen T) :=
  let! l := hex_from 16 v in Ret (debug_puts (str "0x" ++ l) c).
Definition debug_putln_hex64 {T} (label : list Z) (v : Z) (c : Screen T) : res (Screen T) :=
  let! c := debug_puthex64 v (debug_puts label c) in Ret (debug_puts [10] c).

(** ** Text *)

Section screen.
Context {T : Type} `{Flanterm T}.

Definition print (s : list Z) (c : Screen T) : Screen T :=
  match term c with
  | None => debug_puts s (debug_puts (str "TERM_NOT_INIT:") c)
  | Some t => ScreenState (Some (flanterm_write s t)) (debug c) (fb_ptr c) (scr_width c) (scr_height c) (scr_pitch c)
  end.
Definition set_term (t : T) (c : Screen T) : Screen T :=
  ScreenState (Some t) (debug c) (fb_ptr c) (scr_width c) (scr_height c) (scr_pitch c).
Definition on_term (f : T → T) (c : Screen T) : Screen T :=
  match term c with Some t => set_term (f t) c | None => c end.

Definition hex_lines (l : list (string * Z)) (c : Screen T) : res (Screen T) :=
  each l (λ kv, debug_putln_hex64 (str kv.1) kv.2) c.

(** [resp] is Limine's answer with the addresses of the response and of the framebuffer
    structure. *)
Definition start_flanterm (resp : option (Z * list (Z * limine_framebuffer))) (hhdm : option Z) (c : Screen T) : res (Screen T) :=
  let c := debug_puts (str "=== Flanterm Initialization ===" ++ [10]) c in
  match resp with
  | None | Some (_, []) =>
      Ret (debug_puts (str "Using debug port only." ++ [10])
            (debug_puts (str "⚠ No framebuffer response from Limine - Flanterm unavailable." ++ [10]) c))
  | Some (rp, (gp, g) :: _) =>
      let c := debug_puts (str "Framebuffer found - initializing Flanterm..." ++ [10]) c in
      let! c := hex_lines
        [("limine_response_ptr: ", rp); ("framebuffer_ptr:    ", gp); ("fb->address:       ", address g);
         ("fb->width:         ", width g); ("fb->height:        ", height g); ("fb->pitch:         ", pitch g)]%string c in
      match hhdm with
      | None =>
          Ret (debug_puts (str "Flanterm will not be initialised. Using debug port only." ++ [10])
                (debug_puts (str "⚠ No HHDM provided by Limine. Avoiding unsafe physical access." ++ [10]) c))
      | Some off =>
          let virt := if off <=? address g then address g else u64 (off + address g) in
          let! c := hex_lines
            [("hhdm_offset:       ", off); ("fb_virt:           ", virt);
             ("red_mask_size:    ", red_mask_size g); ("red_mask_shift:   ", red_mask_shift g);
             ("green_mask_size:  ", green_mask_size g); ("green_mask_shift: ", green_mask_shift g);
             ("blue_mask_size:   ", blue_mask_size g); ("blue_mask_shift:  ", blue_mask_shift g)]%string c in
          match flanterm_fb_init virt g with
          | None => Ret (debug_puts (str "✗ Flanterm initialization failed. Using debug port only." ++ [10]) c)
          | Some t =>
              let c := debug_puts (str "✓ Flanterm initialization successful!" ++ [10]) (set_term t c) in
              let c := on_term flanterm_full_refresh c in
              let! c := log_ok print (str "Flanterm Terminal Ready!") [] c in
              let c := on_term flanterm_flush c in
              Ret (ScreenState (term c) (debug c) virt (width g) (height g) (pitch g))
          end
      end
  end.

Definition clear_screen (resp : option (Z * list (Z * limine_framebuffer))) (hhdm : option Z) (c : Screen T) : res (Screen T) :=
  match term c with
  | None => start_flanterm resp hhdm c
  | Some t =>
      let t := flanterm_write (27 :: str "[2J" ++ 27 :: str "[H") t in
      Ret (set_term (flanterm_flush (flanterm_full_refresh t)) c)
  end.

(** [print_fmt] *)
Definition print_fmt (fmt : list Z) (args : list Arg) (c : Screen T) : res (Screen T) :=
  let! (_, buf) := vsnprintf 512 fmt args in Ret (print (cstr buf) c).

(** ** Pixels *)

Definition put_pixel (x y color : Z) (c : Screen T) (v : Vram) : res Vram :=
  if fb_ptr c =? 0 then Ret v
  else if (x <? 0) || (y <? 0) || (scr_width c <=? x) || (scr_height c <=? y) then Ret v
  else store_bytes v (u64 (y * scr_pitch c) + 4 * x) (le_bytes 4 color).

Definition screen_fill_rect (x y w h color : Z) (c : Screen T) (v : Vram) : res Vram :=
  each (seqZ 0 h) (λ yy, each (seqZ 0 w) (λ xx v,
    let! px := int (x + xx) in
    let! py := int (y + yy) in
    put_pixel px py color c v)) v.

Definition screen_draw_rect (x y w h color : Z) (c : Screen T) (v : Vram) : res Vram :=
  let! v := each (seqZ 0 w) (λ xx v,
    let! px := int (x + xx) in
    let! v := put_pixel px y color c v in
    let! yh := int (y + h) in
    let! py := int (yh - 1) in
    put_pixel px py color c v) v in
  each (seqZ 0 h) (λ yy v,
    let! py := int (y + yy) in
    let! v := put_pixel x py color c v in
    let! xw := int (x + w) in
    let! px := int (xw - 1) in
    put_pixel px py color c v) v.
End screen.

(** ** Numbers *)

(** [reverse_str]: the swap of the two ends, [n] times from index [i]. *)
Fixpoint reverse_loop (n : nat) (i len : Z) (b : list Z) : res (list Z) :=
  match n with
  | O => Ret b
  | S n =>
      let! t := bget b i in
      let! u := bget b (len - 1 - i) in
      let! b := bset b i u in
      let! b := bset b (len - 1 - i) t in
      reverse_loop n (i + 1) len b
  end.
Definition reverse_str (b : list Z) (len : Z) : res (list Z) := reverse_loop (Z.to_nat (len `div` 2)) 0 len b.

(** [while (value > 0)]: 64 binary digits at most. *)
Fixpoint put_digits (n : nat) (ds : list Z) (value base : Z) (b : list Z) (i : Z) : res (list Z * Z) :=
  match n with
  | O => Diverges
  | S n =>
      if 0 <? value then
        if base =? 0 then UB
        else
          let! c := bget ds (value `mod` base) in
          let! b := bset b i c in
          put_digits n ds (value `div` base) base b (i + 1)
      else Ret (b, i)
  end.
(** The buffer and the length; [digits] is the string with its NUL. *)
Definition uint_to_str (value : Z) (b : list Z) (base : Z) (uppercase : bool) : res (list Z * Z) :=
  let ds := (if uppercase then str "0123456789ABCDEF" else str "0123456789abcdef") ++ [0] in
  let! (b, i) := if value =? 0 then let! b := bset b 0 48 in Ret (b, 1) else Ret (b, 0) in
  let! (b, i) := put_digits 65 ds value (u64 base) b i in
  let! b := reverse_str b i in
  let! b := bset b i 0 in
  Ret (b, i).
