(* ===== verification/ScreenSpec.v ===== *)
(** * What the screen driver shows *)
From S2P Require Import Prelude Loop CString LibC Framebuffer FbSpec Logger Screen.

(** ** Rectangles *)

Section pixels.
Context {T : Type} `{Flanterm T}.

(** The cached geometry as a display of 32 bits per pixel. *)
Definition view (c : Screen T) (v : Vram) : Display :=
  DisplayState (FbState (Some (LimineFb (fb_ptr c) (scr_width c) (scr_height c) (scr_pitch c) 32 0 0 0 0 0 0))
    (scr_width c) (scr_height c) (scr_pitch c) (fb_ptr c)) v.

(** The screen's pixels are the framebuffer's. *)
Lemma put_pixel_view x y color c v :
  display_ok (view c v) → - 2 ^ 31 ≤ x < 2 ^ 31 → - 2 ^ 31 ≤ y < 2 ^ 31 →
  (let! v' := put_pixel x y color c v in Ret (view c v')) = put_clipped x y color (view c v).
Proof.
  intros Hok Hx Hy. unfold put_pixel, put_clipped. pose proof (do_virt _ Hok) as Hv. cbn [view dev fb_virt] in Hv.
  pose proof (do_width _ Hok) as Hw. pose proof (do_height _ Hok) as Hh. pose proof (do_size _ Hok) as Hsz.
  cbn [view dev fb_width fb_height fb_pitch vram] in Hw, Hh, Hsz.
  rewrite (proj2 (Z.eqb_neq _ _)) by done. cbn [view dev fb_width fb_height]. rewrite !i32_small by lia.
  destruct ((x <? 0) || (y <? 0) || (scr_width c <=? x) || (scr_height c <=? y)) eqn:E.
  - cbn [rbind]. rewrite !orb_true_iff in E.
    assert ((0 <=? x) && (x <? scr_width c) && (0 <=? y) && (y <? scr_height c) = false) as ->; [|done].
    rewrite !andb_false_iff. destruct E as [[[E|E]|E]|E]; bool_to_prop; [left; left; left|left; right|left; left; right|right];
      (apply Z.leb_gt || apply Z.ltb_ge); lia.
  - bool_to_prop. rewrite (proj2 (Z.leb_le 0 x)), (proj2 (Z.leb_le 0 y)), (proj2 (Z.ltb_lt x _)), (proj2 (Z.ltb_lt y _)) by lia.
    cbn [andb]. rewrite !u32_small by lia.
    assert (Hs : on_screen (view c v) x y) by (split; cbn; lia).
    pose proof (put_pixel_store x y color (view c v) v _ Hok eq_refl Hs ltac:(done)) as Hst.
    change (set_vram (view c v) v) with (view c v) in Hst. rewrite Hst.
    change (pixel_off (view c v) x y) with (y * scr_pitch c + x * 4).
    change (le_bytes (Z.to_nat (depth (view c v))) color) with (le_bytes 4 color).
    destruct (pixel_in_memory _ x y Hok Hs) as [Hm1 Hm2]. unfold pixel_off in Hm1, Hm2. cbn [view dev fb_pitch vram] in Hm1, Hm2.
    pose proof (do_row _ Hok) as Hr. change (depth (view c v)) with 4 in *. cbn [view dev fb_width fb_pitch] in Hr.
    rewrite (u64_small (y * scr_pitch c)) by nia. by rewrite (Z.mul_comm 4 x).
Qed.

Lemma int_pixel_draws x y color c v :
  display_ok (view c v) → - 2 ^ 31 ≤ x < 2 ^ 31 → - 2 ^ 31 ≤ y < 2 ^ 31 →
  ∃ v', put_pixel x y color c v = Ret v' ∧ draws (view c v) (λ X Y, X = x ∧ Y = y) color (view c v').
Proof.
  intros Hok Hx Hy. destruct (put_clipped_draws x y color (view c v) Hok Hx Hy) as (d' & E & Hd).
  rewrite <- put_pixel_view in E by done. apply rbind_Ret in E as (v' & -> & [= <-]). by exists v'.
Qed.

(** Loops on the memory. *)
Lemma each_view {A} (l : list A) (f : A → Vram → res Vram) (P : A → Z → Z → Prop) color c v :
  (∀ a x y, Decision (P a x y)) → display_ok (view c v) →
  (∀ a v0, a ∈ l → display_ok (view c v0) → ∃ v', f a v0 = Ret v' ∧ draws (view c v0) (P a) color (view c v')) →
  ∃ v', each l f v = Ret v' ∧ draws (view c v) (λ x y, ∃ a, a ∈ l ∧ P a x y) color (view c v').
Proof.
  intros HP Hok Hf.
  destruct (each_draws l (λ a d, let! v' := f a (vram d) in Ret (view c v')) P color (view c v) HP Hok) as (d' & E & Hd).
  { intros a d0 Ha Hok0 Hd0. destruct d0 as [dv vr]. cbn [dev] in Hd0. subst dv.
    destruct (Hf a vr Ha Hok0) as (v' & E & Hdr). cbn [vram]. rewrite E. by exists (view c v'). }
  pose proof (each_lift l f (λ a d, let! v' := f a (vram d) in Ret (view c v')) (view c v) v ltac:(done)) as Hl.
  change (set_vram (view c v) v) with (view c v) in Hl. rewrite E in Hl. apply rbind_Ret in Hl as (v' & -> & [= <-]).
  by exists v'.
Qed.

(** [screen_fill_rect] colours exactly the positions of the screen in the rectangle, with
    its corner and its far side anywhere in the [int] range, and leaves every other byte of the
    video memory as it was. *)
Theorem screen_fill_rect_exact x y w h color c v :
  display_ok (view c v) → - 2 ^ 31 ≤ x → - 2 ^ 31 ≤ y → x + w ≤ 2 ^ 31 → y + h ≤ 2 ^ 31 →
  ∃ v', screen_fill_rect x y w h color c v = Ret v'
    ∧ draws (view c v) (λ X Y, x ≤ X < x + w ∧ y ≤ Y < y + h) color (view c v').
Proof.
  intros Hok Hx Hy Hw Hh. unfold screen_fill_rect.
  destruct (each_view (seqZ 0 h) (λ yy, each (seqZ 0 w) (λ xx v,
    let! px := int (x + xx) in let! py := int (y + yy) in put_pixel px py color c v))
    (λ yy X Y, ∃ xx, xx ∈ seqZ 0 w ∧ X = x + xx ∧ Y = y + yy) color c v ltac:(apply _) Hok) as (v' & -> & Hd).
  { intros yy v0 Hyy Hok0. rewrite elem_of_seqZ' in Hyy. apply each_view; [apply _|done|].
    intros xx v1 Hxx Hok1. rewrite elem_of_seqZ' in Hxx. rewrite !int_Ret by lia. cbn [rbind].
    by apply int_pixel_draws; [|lia|lia]. }
  exists v'. split; [done|]. revert Hd. apply draws_ext. intros X Y _. setoid_rewrite elem_of_seqZ'. split.
  - intros (yy & Hyy & xx & Hxx & -> & ->). lia.
  - intros [HX HY]. exists (Y - y). split; [lia|]. exists (X - x). lia.
Qed.
(** Two pixels in a row. *)
Lemma two_pixels_draw x1 y1 x2 y2 color c v :
  display_ok (view c v) → - 2 ^ 31 ≤ x1 < 2 ^ 31 → - 2 ^ 31 ≤ y1 < 2 ^ 31 → - 2 ^ 31 ≤ x2 < 2 ^ 31 → - 2 ^ 31 ≤ y2 < 2 ^ 31 →
  ∃ v', (let! v := put_pixel x1 y1 color c v in put_pixel x2 y2 color c v) = Ret v'
    ∧ draws (view c v) (λ X Y, X = x1 ∧ Y = y1 ∨ X = x2 ∧ Y = y2) color (view c v').
Proof.
  intros Hok Hx1 Hy1 Hx2 Hy2. destruct (int_pixel_draws x1 y1 color c v Hok Hx1 Hy1) as (v1 & -> & Hd1). cbn [rbind].
  destruct (same_dev _ _ (dr_dev _ _ _ _ Hd1) (dr_size _ _ _ _ Hd1)) as (_ & _ & _ & Hok1).
  destruct (int_pixel_draws x2 y2 color c v1 (Hok1 Hok) Hx2 Hy2) as (v2 & -> & Hd2). exists v2. split; [done|].
  eapply draws_trans; [|exact Hd1|exact Hd2]. intros; apply _.
Qed.

(** The outline: the positions of the rectangle on one of its four sides. *)
Theorem screen_draw_rect_exact x y w h color c v :
  display_ok (view c v) → - 2 ^ 31 ≤ x → - 2 ^ 31 ≤ y → 0 < w → 0 < h → x + w < 2 ^ 31 → y + h < 2 ^ 31 →
  ∃ v', screen_draw_rect x y w h color c v = Ret v'
    ∧ draws (view c v) (λ X Y, (x ≤ X < x + w ∧ y ≤ Y < y + h) ∧ (X = x ∨ X = x + w - 1 ∨ Y = y ∨ Y = y + h - 1))
        color (view c v').
Proof.
  intros Hok Hx Hy Hw0 Hh0 Hw Hh. unfold screen_draw_rect.
  match goal with |- context [rbind (each ?l ?f v) _] =>
    destruct (each_view l f (λ xx X Y, X = x + xx ∧ Y = y ∨ X = x + xx ∧ Y = y + h - 1) color c v ltac:(apply _) Hok)
      as (v1 & -> & Hd1) end.
  { intros xx v0 Hxx Hok0. rewrite elem_of_seqZ' in Hxx. rewrite !(int_Ret (x + xx)), !(int_Ret (y + h)) by lia. cbn [rbind].
    rewrite int_Ret by lia. cbn [rbind]. apply two_pixels_draw; [done|lia..]. }
  cbn [rbind]. destruct (same_dev _ _ (dr_dev _ _ _ _ Hd1) (dr_size _ _ _ _ Hd1)) as (_ & _ & _ & Hok1).
  match goal with |- context [each ?l ?f v1] =>
    destruct (each_view l f (λ yy X Y, X = x ∧ Y = y + yy ∨ X = x + w - 1 ∧ Y = y + yy) color c v1 ltac:(apply _) (Hok1 Hok))
      as (v2 & -> & Hd2) end.
  { intros yy v0 Hyy Hok0. rewrite elem_of_seqZ' in Hyy. rewrite !(int_Ret (y + yy)), !(int_Ret (x + w)) by lia. cbn [rbind].
    rewrite int_Ret by lia. cbn [rbind]. apply two_pixels_draw; [done|lia..]. }
  exists v2. split; [done|]. eapply draws_ext; [|eapply (draws_trans _ (view c v1)); [|exact Hd1|exact Hd2]]; [|intros; apply _].
  intros X Y _. setoid_rewrite elem_of_seqZ'. split.
  - intros [(xx & Hxx & HP)|(yy & Hyy & HP)]; destruct HP as [[-> ->]|[-> ->]]; lia.
  - intros [[HX HY] Hs]. destruct Hs as [->|[->|[->| ->]]].
    + right. exists (Y - y). lia.
    + right. exists (Y - y). lia.
    + left. exists (X - x). lia.
    + left. exists (X - x). lia.
Qed.
End pixels.

(** ** Numbers *)

Lemma hex_digit k : 0 ≤ k < 16 → bget hex_digits k = Ret (hex_upper k).
Proof.
  intros Hk. assert (k ∈ seqZ 0 16) as Hin by (apply elem_of_seqZ'; lia).
  clear Hk. revert k Hin. apply Forall_forall. cbn. repeat constructor.
Qed.
Lemma digit_hex k : 0 ≤ k < 16 → digit (hex_upper k) = Some k ∧ digit (hex_lower k) = Some k.
Proof.
  intros Hk. assert (k ∈ seqZ 0 16) as Hin by (apply elem_of_seqZ'; lia).
  clear Hk. revert k Hin. apply Forall_forall. cbn. repeat constructor.
Qed.

(** The number a text of digits denotes. *)
Definition digits_value (base : Z) (l : list Z) : option Z :=
  foldl (λ acc c, a ← acc; k ← digit c; Some (a * base + k)) (Some 0) l.

Lemma hex_from_value n v : 0 ≤ v →
  ∃ l, hex_from n v = Ret l ∧ length l = n ∧ ∀ a, foldl (λ acc c, a ← acc; k ← digit c; Some (a * 16 + k)) (Some a) l
       = Some (a * 16 ^ Z.of_nat n + v `mod` 16 ^ Z.of_nat n).
Proof.
  intros Hv. induction n as [|n (l & El & Hl & Hf)].
  - exists []. split_and!; [done|done|]. intros a. cbn [foldl]. change (16 ^ Z.of_nat 0) with 1. rewrite Z.mod_1_r. f_equal. lia.
  - cbn [hex_from]. set (q := v `div` 16 ^ Z.of_nat n).
    assert (u8 (Z.land (Z.shiftr v (Z.of_nat n * 4)) 0xF) = q `mod` 16) as ->.
    { change 0xF with (2 ^ 4 - 1). rewrite land_ones_mod, Z.shiftr_div_pow2 by lia. rewrite Z.mul_comm, Z.pow_mul_r by lia.
      change (2 ^ 4) with 16. unfold q. apply u8_small. pose proof (Z.mod_pos_bound (v `div` 16 ^ Z.of_nat n) 16). lia. }
    pose proof (Z.mod_pos_bound q 16 ltac:(lia)) as Hq. rewrite hex_digit by done. cbn [rbind]. rewrite El. cbn [rbind].
    eexists. split; [done|]. split; [cbn; by rewrite Hl|]. intros a. cbn [foldl mbind option_bind].
    rewrite (proj1 (digit_hex _ Hq)). cbn [mbind option_bind]. rewrite Hf. f_equal.
    replace (Z.of_nat (S n)) with (Z.of_nat n + 1) by lia. rewrite Z.pow_add_r by lia. change (16 ^ 1) with 16.
    rewrite Z.rem_mul_r by (try apply Z.pow_nonzero; lia). fold q. lia.
Qed.

(** [debug_puthex64] shows the number: sixteen digits after [0x] whose value it is. *)
Theorem debug_puthex64_value {T} v (c : Screen T) :
  0 ≤ v < 2 ^ 64 →
  ∃ l, debug_puthex64 v c = Ret (debug_puts (str "0x" ++ l) c) ∧ length l = 16%nat ∧ digits_value 16 l = Some v.
Proof.
  intros Hv. destruct (hex_from_value 16 v ltac:(lia)) as (l & E & Hl & Hf). exists l.
  unfold debug_puthex64. rewrite E. split_and!; [done|done|]. unfold digits_value. rewrite Hf.
  change (16 ^ Z.of_nat 16) with (2 ^ 64). rewrite Z.mod_small by lia. f_equal.
Qed.

(** *** [uint_to_str] *)

(** The swaps turn the middle of the buffer around. *)
Lemma reverse_loop_rev n : ∀ l m k rest,
  length l = length k → (length m / 2)%nat = n →
  reverse_loop n (zlen l) (zlen (l ++ m ++ k)) (l ++ m ++ k ++ rest) = Ret (l ++ reverse m ++ k ++ rest).
Proof.
  induction n as [|n IH]; intros l m k rest Hl Hn.
  - destruct m as [|a [|b m]]; [done|done|]. cbn [length] in Hn.
    change (S (S (length m))) with (2 + length m)%nat in Hn. rewrite <- (Nat.mul_1_l 2) in Hn at 1.
    rewrite Nat.div_add_l in Hn; lia.
  - destruct m as [|a m]; [done|]. destruct m as [|z m _] using rev_ind; [done|].
    assert (Hm : (length m / 2)%nat = n).
    { cbn [length] in Hn. rewrite length_app in Hn. cbn [length] in Hn.
      replace (S (length m + 1)) with (1 * 2 + length m)%nat in Hn by lia. rewrite Nat.div_add_l in Hn; lia. }
    cbn [reverse_loop]. set (len := zlen (l ++ (a :: m ++ [z]) ++ k)).
    assert (Hlen : len - 1 - zlen l = zlen (l ++ a :: m)).
    { unfold len. autorewrite with hana. unfold zlen in *. lia. }
    assert (G1 : bget (l ++ (a :: m ++ [z]) ++ k ++ rest) (zlen l) = Ret a).
    { apply bget_Ret. split; [apply zlen_nonneg|]. unfold zlen. rewrite Nat2Z.id, lookup_app_r by done. by rewrite Nat.sub_diag. }
    rewrite G1. cbn [rbind]. rewrite Hlen.
    assert (G2 : bget (l ++ (a :: m ++ [z]) ++ k ++ rest) (zlen (l ++ a :: m)) = Ret z).
    { apply bget_Ret. split; [apply zlen_nonneg|]. unfold zlen. rewrite Nat2Z.id.
      replace (l ++ (a :: m ++ [z]) ++ k ++ rest) with ((l ++ a :: m) ++ z :: k ++ rest) by (by rewrite <- !app_assoc; cbn; rewrite <- !app_assoc).
      rewrite lookup_app_r by done. by rewrite Nat.sub_diag. }
    rewrite G2. cbn [rbind].
    assert (S1 : bset (l ++ (a :: m ++ [z]) ++ k ++ rest) (zlen l) z = Ret (l ++ (z :: m ++ [z]) ++ k ++ rest)).
    { apply bset_Ret. split; [unfold zlen; rewrite length_app; cbn; lia|]. unfold zlen. rewrite Nat2Z.id.
      by rewrite insert_app_r_alt, Nat.sub_diag by done. }
    rewrite S1. cbn [rbind].
    assert (S2 : bset (l ++ (z :: m ++ [z]) ++ k ++ rest) (zlen (l ++ a :: m)) a = Ret ((l ++ [z]) ++ m ++ (a :: k) ++ rest)).
    { apply bset_Ret. split; [unfold zlen; rewrite !length_app; cbn; rewrite !length_app; cbn; lia|]. unfold zlen. rewrite Nat2Z.id.
      replace (l ++ (z :: m ++ [z]) ++ k ++ rest) with ((l ++ z :: m) ++ z :: k ++ rest) by (by rewrite <- !app_assoc; cbn; rewrite <- !app_assoc).
      rewrite insert_app_r_alt by (rewrite !length_app; done). rewrite !length_app. cbn [length]. rewrite Nat.sub_diag. cbn.
      by rewrite <- !app_assoc. }
    rewrite S2. cbn [rbind].
    replace (zlen l + 1) with (zlen (l ++ [z])) by zlen_lia.
    replace len with (zlen ((l ++ [z]) ++ m ++ a :: k)) by (unfold len; autorewrite with hana; lia).
    rewrite IH by (rewrite ?length_app; cbn; lia || done).
    rewrite reverse_cons, reverse_app. cbn. by rewrite <- !app_assoc.
Qed.

Lemma reverse_str_rev m rest : reverse_str (m ++ rest) (zlen m) = Ret (reverse m ++ rest).
Proof.
  unfold reverse_str.
  replace (Z.to_nat (zlen m `div` 2)) with (length m / 2)%nat
    by (unfold zlen; rewrite <- (Nat2Z.id (length m / 2)), Nat2Z.inj_div; done).
  pose proof (reverse_loop_rev (length m / 2) [] m [] rest eq_refl eq_refl) as E. cbn [app] in E.
  rewrite app_nil_r in E. exact E.
Qed.

(** The character of a digit in either case. *)
Definition digit_char (uppercase : bool) : Z → Z := if uppercase then hex_upper else hex_lower.
Lemma digit_string u k :
  0 ≤ k < 16 → bget ((if u : bool then str "0123456789ABCDEF" else str "0123456789abcdef") ++ [0]) k = Ret (digit_char u k).
Proof.
  intros Hk. assert (k ∈ seqZ 0 16) as Hin by (apply elem_of_seqZ'; lia).
  clear Hk. revert k Hin. apply Forall_forall. destruct u; cbn; repeat constructor.
Qed.

Lemma put_digits_Ret n u base : ∀ value l b,
  2 ≤ base ≤ 16 → 0 ≤ value < 2 ^ Z.of_nat n → (length (digits n base value (digit_char u)) ≤ length b)%nat →
  put_digits (S n) ((if u : bool then str "0123456789ABCDEF" else str "0123456789abcdef") ++ [0]) value base (l ++ b) (zlen l)
  = (let ds := digits n base value (digit_char u) in Ret (l ++ ds ++ drop (length ds) b, zlen l + zlen ds)).
Proof.
  induction n as [|n IH]; intros value l b Hb Hv Hlen.
  - assert (value = 0) as -> by (cbn in Hv; lia). cbn. change (zlen (@nil Z)) with 0. by rewrite Z.add_0_r.
  - cbn [digits] in *. remember (S n) as m eqn:Hm. cbn [put_digits]. destruct (Z.ltb_spec 0 value) as [Hp|Hp].
    + rewrite (proj2 (Z.eqb_neq base 0)) by lia.
      pose proof (Z.mod_pos_bound value base ltac:(lia)) as Hmod. rewrite digit_string by lia. cbn [rbind].
      destruct b as [|x b]; [cbn in Hlen; lia|].
      assert (S1 : bset (l ++ x :: b) (zlen l) (digit_char u (value `mod` base)) = Ret ((l ++ [digit_char u (value `mod` base)]) ++ b)).
      { apply bset_Ret. split; [unfold zlen; rewrite length_app; cbn; lia|]. unfold zlen. rewrite Nat2Z.id.
        rewrite insert_app_r_alt, Nat.sub_diag by done. by rewrite <- app_assoc. }
      rewrite S1. cbn [rbind]. subst m.
      replace (zlen l + 1) with (zlen (l ++ [digit_char u (value `mod` base)])) by zlen_lia.
      assert (0 ≤ value `div` base < 2 ^ Z.of_nat n).
      { split; [apply Z.div_pos; lia|]. apply Z.div_lt_upper_bound; [lia|].
        replace (Z.of_nat (S n)) with (Z.of_nat n + 1) in Hv by lia. rewrite Z.pow_add_r in Hv by lia. nia. }
      rewrite IH by (done || cbn in Hlen; lia). cbn zeta. cbn [length drop]. f_equal. f_equal.
      * by rewrite <- app_assoc.
      * autorewrite with hana. lia.
    + cbn. change (zlen (@nil Z)) with 0. by rewrite Z.add_0_r.
Qed.

(** Reading the digits back gives the number. *)
Lemma digits_value_back n u base : ∀ value, 2 ≤ base ≤ 16 → 0 ≤ value < 2 ^ Z.of_nat n →
  digits_value base (reverse (digits n base value (digit_char u))) = Some value.
Proof.
  unfold digits_value. induction n as [|n IH]; intros value Hb Hv.
  - assert (value = 0) as -> by (cbn in Hv; lia). done.
  - cbn [digits]. destruct (Z.ltb_spec 0 value) as [Hp|Hp]; [|assert (value = 0) as -> by lia; done].
    rewrite reverse_cons, foldl_app. rewrite IH; [|done|].
    + cbn. pose proof (Z.mod_pos_bound value base ltac:(lia)). destruct (digit_hex (value `mod` base) ltac:(lia)) as [Hu Hl].
      assert (digit (digit_char u (value `mod` base)) = Some (value `mod` base)) as -> by (by destruct u).
      cbn. f_equal. pose proof (Z.div_mod value base ltac:(lia)). lia.
    + split; [apply Z.div_pos; lia|]. apply Z.div_lt_upper_bound; [lia|].
      replace (Z.of_nat (S n)) with (Z.of_nat n + 1) in Hv by lia. rewrite Z.pow_add_r in Hv by lia. nia.
Qed.

Lemma length_digits n base value ch : (length (digits n base value ch) ≤ n)%nat.
Proof. revert value. induction n as [|n IH]; intros value; cbn; [done|]. destruct (0 <? value); cbn; [|lia]. specialize (IH (value `div` base)). lia. Qed.
Lemma digits_nonempty n base value ch : 0 < value → 0 < zlen (digits (S n) base value ch).
Proof. intros Hv. cbn [digits]. rewrite (proj2 (Z.ltb_lt _ _)) by done. unfold zlen. cbn [length]. lia. Qed.
Lemma digit_char_nonzero u k : 0 ≤ k → digit_char u k ≠ 0.
Proof. destruct u; unfold digit_char, hex_upper, hex_lower; destruct (k <? 10); lia. Qed.
Lemma digits_nonzero n base value u : 0 < base → Forall (λ c, c ≠ 0) (digits n base value (digit_char u)).
Proof.
  intros Hb. revert value. induction n as [|n IH]; intros value; cbn; [constructor|].
  destruct (0 <? value); constructor; [|apply IH]. apply digit_char_nonzero, Z.mod_pos_bound. lia.
Qed.
Lemma cstr_before_nul s rest : Forall (λ c, c ≠ 0) s → cstr (s ++ 0 :: rest) = s.
Proof. induction 1 as [|c s Hc _ IH]; cbn; [done|]. rewrite (proj2 (Z.eqb_neq c 0)) by done. by rewrite IH. Qed.

(** Numbers on the screen.  For a base of 2 to 16 and a buffer of at least 66 bytes,
    [uint_to_str] leaves a NUL-terminated text of the length it returns, made of digits in that
    base, that denotes the number. *)
Theorem uint_to_str_value value b base u :
  0 ≤ value < 2 ^ 64 → 2 ≤ base ≤ 16 → 66 ≤ zlen b →
  ∃ b', uint_to_str value b base u = Ret (b', strlen (cstr b')) ∧ zlen b' = zlen b ∧ 0 < strlen (cstr b') ≤ 64
    ∧ digits_value base (cstr b') = Some value.
Proof.
  intros Hv Hb Hlen. unfold uint_to_str. rewrite (u64_small base) by lia.
  destruct b as [|x b]; [unfold zlen in Hlen; cbn in Hlen; lia|]. rewrite zlen_cons in Hlen.
  destruct (Z.eqb_spec value 0) as [->|Hne].
  { destruct b as [|y b]; [unfold zlen in Hlen; cbn in Hlen; lia|]. pose proof (zlen_nonneg b).
    assert (S0 : bset (x :: y :: b) 0 48 = Ret (48 :: y :: b)) by (apply bset_Ret; rewrite !zlen_cons; split; [lia|done]).
    assert (S1 : bset (48 :: y :: b) 1 0 = Ret (48 :: 0 :: b)) by (apply bset_Ret; rewrite !zlen_cons; split; [lia|done]).
    rewrite S0. cbn [rbind put_digits]. change (0 <? 0) with false. cbn [rbind].
    change (reverse_str (48 :: y :: b) 1) with (Ret (48 :: y :: b)). cbn [rbind]. rewrite S1. exists (48 :: 0 :: b).
    split_and!; try done. }
  cbn [rbind]. pose proof (put_digits_Ret 64 u base value [] (x :: b) Hb Hv) as E. cbn [app] in E.
  set (ds := digits 64 base value (digit_char u)) in *.
  assert (Hds : (length ds ≤ 64)%nat) by apply length_digits.
  assert (Hnz : Forall (λ c, c ≠ 0) ds) by (apply digits_nonzero; lia).
  assert (Hval : digits_value base (reverse ds) = Some value) by (by apply digits_value_back).
  assert (Hpos : 0 < zlen ds).
  { apply (digits_nonempty 63). lia. }
  clearbody ds. change (zlen (@nil Z)) with 0 in E. rewrite E by (cbn [length]; unfold zlen in Hlen; lia). cbn zeta. cbn [rbind]. rewrite Z.add_0_l.
  rewrite reverse_str_rev. cbn [rbind].
  assert (∃ y r, drop (length ds) (x :: b) = y :: r) as (y & r & Hdr).
  { destruct (drop (length ds) (x :: b)) eqn:Hd; [|eauto]. apply (f_equal length) in Hd. rewrite length_drop in Hd.
    cbn in Hd. unfold zlen in Hlen. lia. }
  rewrite Hdr.
  assert (S1 : bset (reverse ds ++ y :: r) (zlen ds) 0 = Ret (reverse ds ++ 0 :: r)).
  { apply bset_Ret. split; [unfold zlen; rewrite length_app, length_reverse; cbn; lia|]. unfold zlen. rewrite Nat2Z.id.
    rewrite insert_app_r_alt by (by rewrite length_reverse). by rewrite length_reverse, Nat.sub_diag. }
  rewrite S1. cbn [rbind]. exists (reverse ds ++ 0 :: r).
  assert (Hc : cstr (reverse ds ++ 0 :: r) = reverse ds).
  { by apply cstr_before_nul, Forall_reverse. }
  rewrite Hc. unfold strlen. assert (Hz : zlen (reverse ds) = zlen ds) by (unfold zlen; by rewrite length_reverse).
  rewrite Hz. split_and!; [done| |done| |done].
  - apply (f_equal length) in Hdr. rewrite length_drop in Hdr. cbn in Hdr. unfold zlen in *. rewrite !length_app, length_reverse. cbn. lia.
  - unfold zlen. lia.
Qed.

Lemma uint_to_str_value_witness :
  ∃ b', uint_to_str 0xBEEF (replicate 66 7) 16 true = Ret (b', strlen (cstr b')) ∧ zlen b' = 66 ∧ 0 < strlen (cstr b') ≤ 64
    ∧ digits_value 16 (cstr b') = Some 0xBEEF.
Proof. apply (uint_to_str_value 0xBEEF (replicate 66 7) 16 true); [lia|lia|done]. Defined.

(** ** Setting the terminal up *)

Section text.
Context {T : Type} `{Flanterm T}.

Lemma debug_puts_app s t (c : Screen T) : debug_puts t (debug_puts s c) = debug_puts (s ++ t) c.
Proof. unfold debug_puts. cbn. by rewrite <- app_assoc. Qed.
Lemma debug_putln_Ret label v (c : Screen T) : 0 ≤ v < 2 ^ 64 → ∃ t, debug_putln_hex64 label v c = Ret (debug_puts t c).
Proof.
  intros Hv. unfold debug_putln_hex64. destruct (debug_puthex64_value v (debug_puts label c) Hv) as (h & -> & _).
  cbn [rbind]. rewrite !debug_puts_app. eauto.
Qed.

Lemma hex_lines_Ret l (c : Screen T) :
  Forall (λ kv, 0 ≤ kv.2 < 2 ^ 64) l → ∃ t, hex_lines l c = Ret (debug_puts t c).
Proof.
  intros Hl. revert c. induction Hl as [|[k v] l Hv _ IH]; intros c.
  { exists []. unfold hex_lines, debug_puts. cbn. rewrite app_nil_r. by destruct c. }
  unfold hex_lines in *. cbn [each fst snd] in *. destruct (debug_putln_Ret (str k) v c Hv) as [t1 ->]. cbn [rbind].
  destruct (IH (debug_puts t1 c)) as [t ->]. exists (t1 ++ t). by rewrite debug_puts_app.
Qed.

(** A screen whose terminal is up. *)
Lemma debug_puts_term s t (c : Screen T) : debug_puts s (set_term t c) = set_term t (debug_puts s c).
Proof. done. Qed.
Lemma on_set_term f t (c : Screen T) : on_term f (set_term t c) = set_term (f t) c.
Proof. done. Qed.
Lemma print_set_term s t (c : Screen T) : print s (set_term t c) = set_term (flanterm_write s t) c.
Proof. done. Qed.

Definition limine_ok (g : limine_framebuffer) : Prop :=
  Forall (λ z, 0 ≤ z < 2 ^ 64)
    [address g; width g; height g; pitch g; red_mask_size g; red_mask_shift g; green_mask_size g; green_mask_shift g;
     blue_mask_size g; blue_mask_shift g].

(** The first [clear_screen] with a framebuffer and a direct map sets the terminal up, if the
    emulator accepts the framebuffer: the terminal then holds the one log line written to it,
    the framebuffer's geometry and its mapped address are cached, and from then on [print] adds
    its text to the terminal and nothing to the debug port. *)
Theorem clear_screen_starts_terminal (c : Screen T) rp gp g gs off t0 :
  term c = None → 0 ≤ rp < 2 ^ 64 → 0 ≤ gp < 2 ^ 64 → limine_ok g → 0 ≤ off < 2 ^ 64 →
  (∀ virt, flanterm_fb_init virt g = Some t0) →
  ∃ c', clear_screen (Some (rp, (gp, g) :: gs)) (Some off) c = Ret c'
    ∧ term c' = Some (flanterm_flush (foldl (λ t s, flanterm_write s t) (flanterm_full_refresh t0)
        [ANSI_GREEN; str "[OK] Flanterm Terminal Ready!"; ANSI_RESET ++ [10]]))
    ∧ fb_ptr c' = (if off <=? address g then address g else u64 (off + address g))
    ∧ scr_width c' = width g ∧ scr_height c' = height g ∧ scr_pitch c' = pitch g
    ∧ ∀ s, debug (print s c') = debug c' ∧ term (print s c') = flanterm_write s <$> term c'.
Proof.
  intros Hc Hrp Hgp Hg Hoff Hinit. unfold clear_screen. rewrite Hc. unfold start_flanterm.
  pose proof Hg as Hl. unfold limine_ok in Hl.
  repeat match goal with H : Forall _ (_ :: _) |- _ => apply Forall_cons in H as [? H] end.
  match goal with |- context [hex_lines ?l ?s] => destruct (hex_lines_Ret l s) as [t1 ->] end; [repeat (apply Forall_cons_2; [done|]); apply Forall_nil_2|].
  cbn [rbind]. set (virt := if off <=? address g then _ else _).
  assert (0 ≤ virt < 2 ^ 64) by (unfold virt; destruct (_ <=? _); [done|apply u64_bound]).
  match goal with |- context [hex_lines ?l ?s] => destruct (hex_lines_Ret l s) as [t2 ->] end; [repeat (apply Forall_cons_2; [done|]); apply Forall_nil_2|].
  cbn [rbind]. rewrite Hinit.
  unfold log_ok. rewrite (log_prints_line print ANSI_GREEN (str "[OK]") (str "Flanterm Terminal Ready!") [] (str "Flanterm Terminal Ready!")).
  2-3: by apply (bool_decide_unpack _).
  2-4: done.
  cbn [rbind]. rewrite debug_puts_term, !on_set_term, !print_set_term, on_set_term. eexists. split; [reflexivity|].
  cbn [term set_term debug fb_ptr scr_width scr_height scr_pitch foldl]. do 5 (split; [reflexivity|]). done.
Qed.
End text.

(** A terminal that records what it is told. *)
Record TermLog := TermLogState { told : list (list Z) }.
#[export] Instance log_flanterm : Flanterm TermLog := {
  flanterm_fb_init _ _ := Some (TermLogState []);
  flanterm_write s t := TermLogState (told t ++ [s]);
  flanterm_full_refresh t := t;
  flanterm_flush t := t
}.
Definition demo_fb : limine_framebuffer := LimineFb 0xFD000000 16 8 64 32 8 16 8 8 8 0.
Definition screen_boot : Screen TermLog := ScreenState None [] 0 0 0 0.

Lemma clear_screen_starts_terminal_witness :
  ∃ c', clear_screen (Some (0x1000, [(0x2000, demo_fb)])) (Some 0xFFFF800000000000) screen_boot = Ret c'
    ∧ term c' = Some (flanterm_flush (foldl (λ t s, flanterm_write s t) (flanterm_full_refresh (TermLogState []))
        [ANSI_GREEN; str "[OK] Flanterm Terminal Ready!"; ANSI_RESET ++ [10]]))
    ∧ fb_ptr c' = (if 0xFFFF800000000000 <=? address demo_fb then address demo_fb else u64 (0xFFFF800000000000 + address demo_fb))
    ∧ scr_width c' = width demo_fb ∧ scr_height c' = height demo_fb ∧ scr_pitch c' = pitch demo_fb
    ∧ ∀ s, debug (print s c') = debug c' ∧ term (print s c') = flanterm_write s <$> term c'.
Proof.
  apply clear_screen_starts_terminal; [done|lia|lia|repeat constructor; cbn; lia|lia|done].
Defined.

(** Before that, everything printed is on the debug port, each text with its mark. *)
Example print_before_terminal :
  debug (print (str "a") (print (str "b") screen_boot)) = str "TERM_NOT_INIT:bTERM_NOT_INIT:a".
Proof. done. Qed.

(** The screen of the demonstration: 16 by 8 pixels. *)
Definition demo_screen : Screen TermLog := ScreenState (Some (TermLogState [])) [] 0x1000 16 8 64.
Lemma demo_screen_ok : display_ok (view demo_screen (VramState 512 ∅)).
Proof. by split. Qed.

Lemma screen_fill_rect_exact_witness :
  ∃ v', screen_fill_rect (-2) 3 5 9 1 demo_screen (VramState 512 ∅) = Ret v'
    ∧ draws (view demo_screen (VramState 512 ∅)) (λ X Y, -2 ≤ X < -2 + 5 ∧ 3 ≤ Y < 3 + 9) 1 (view demo_screen v').
Proof. apply screen_fill_rect_exact; [exact demo_screen_ok|lia..]. Defined.

Example screen_outline :
  (let! v := screen_draw_rect 1 1 4 3 1 demo_screen (VramState 512 ∅) in Ret (lit (view demo_screen v)))
  = Ret [(1, 1); (2, 1); (3, 1); (4, 1); (1, 2); (4, 2); (1, 3); (2, 3); (3, 3); (4, 3)].
Proof. vm_compute. reflexivity. Qed.
