(* ===== verification/KeyboardSpec.v ===== *)
(** * From scancodes to the bytes a program reads

    The keys of a PS/2 stream, the bytes each of them stands for given the modifiers held
    ([key_bytes], [mods_after]), and the theorem that polling the terminal delivers
    exactly these bytes in order, through the port protocol, the driver's tables, the
    input buffer and the virtual terminals. *)
From S2P Require Import Prelude CString Pty PtySpec Tty Keyboard.

(** ** Specification *)

(** A key event: one scancode, or one behind the E0 prefix. *)
Inductive key := Plain (sc : Z) | Ext (sc : Z).

Definition key_ok (e : key) : Prop :=
  match e with
  | Plain sc => is_byte sc ∧ sc ≠ 0xE0
  | Ext sc => is_byte sc
  end.

(** How the controller presents the event: a ready status before every data byte. *)
Definition key_ports (e : key) : list Z :=
  match e with
  | Plain sc => [1; sc]
  | Ext sc => [1; 0xE0; 1; sc]
  end.

Record mods := Mods { shift : bool; alt : bool; ctrl : bool }.

Definition mods_of (k : Kbd) : mods := Mods (shift_down k) (alt_down k) (ctrl_down k).

(** Make and break codes of the modifiers; prefixed codes do not count. *)
Definition hold (make1 make2 : Z) (e : key) (old : bool) : bool :=
  match e with
  | Plain sc =>
      if decide (sc = make1 ∨ sc = make2) then true
      else if decide (sc = make1 + 128 ∨ sc = make2 + 128) then false else old
  | Ext _ => old
  end.

Definition mods_after (m : mods) (e : key) : mods :=
  Mods (hold 0x2A 0x36 e (shift m)) (hold 0x38 0x38 e (alt m)) (hold 0x1D 0x1D e (ctrl m)).

Definition table_char (m : mods) (sc : Z) : Z :=
  let c := nth (Z.to_nat sc) (if shift m then scancode_map_shift else scancode_map) 0 in
  if ctrl m then ctrl_code c else c.

Definition key_bytes (m : mods) (e : key) : list Z :=
  match e with
  | Ext sc => match ansi_tail sc with Some tl => 27 :: tl | None => [] end
  | Plain sc =>
      if decide (128 ≤ sc ∨ sc ∈ [0x2A; 0x36; 0x38; 0x1D]) then []
      else if decide (alt m = true ∧ fn_key_vt sc ≠ -1) then []
      else match ansi_tail sc with
           | Some tl => 27 :: tl
           | None => if decide (sc < 58 ∧ table_char m sc ≠ 0) then [table_char m sc] else []
           end
  end.

(** A key without bytes is one poll that answers 0. *)
Definition key_polls (m : mods) (e : key) : list Z :=
  match key_bytes m e with [] => [0] | bs => bs end.

Fixpoint typed (m : mods) (es : list key) : list Z :=
  match es with
  | [] => []
  | e :: es => key_polls m e ++ typed (mods_after m e) es
  end.

(** ** Arithmetic of scancodes *)

Lemma testbit_7 sc : is_byte sc → Z.testbit sc 7 = (128 <=? sc).
Proof.
  unfold is_byte. intros H. destruct (Z.testbit sc 7) eqn:E.
  - apply Z.testbit_true in E; [|lia]. change (2 ^ 7) with 128 in E. symmetry. apply Z.leb_le.
    destruct (Z_lt_le_dec sc 128); [|done]. rewrite Z.div_small in E; [done|lia].
  - apply Z.testbit_false in E; [|lia]. change (2 ^ 7) with 128 in E. symmetry. apply Z.leb_gt.
    destruct (Z_lt_le_dec sc 128); [done|].
    replace sc with (sc - 128 + 1 * 128) in E by lia.
    rewrite Z.div_add, Z.div_small in E by lia. done.
Qed.

Lemma land_7F sc : 128 ≤ sc < 256 → Z.land sc 0x7F = sc - 128.
Proof.
  intros H. change 0x7F with (2 ^ 7 - 1). rewrite land_ones_mod by lia. change (2 ^ 7) with 128.
  replace sc with (sc - 128 + 1 * 128) at 1 by lia. rewrite Z_mod_plus_full, Z.mod_small; lia.
Qed.

Definition table_byte (c : Z) : bool := (0 <=? c) && (c <? 128).

Lemma table_lookup (b : bool) sc :
  0 ≤ sc < 58 →
  bget (if b then scancode_map_shift else scancode_map) sc =
    Ret (nth (Z.to_nat sc) (if b then scancode_map_shift else scancode_map) 0).
Proof.
  intros H. apply bget_Ret. split; [lia|]. rewrite nth_lookup.
  destruct (lookup_lt_is_Some_2 (if b then scancode_map_shift else scancode_map) (Z.to_nat sc))
    as [x Hx]; [destruct b; vm_compute length; lia|].
  by rewrite Hx.
Qed.

Lemma ctrl_code_byte c : table_byte c = true → table_byte (ctrl_code c) = true.
Proof.
  unfold table_byte, ctrl_code. intros H. bool_to_prop.
  assert (Hm : 0 ≤ Z.land c 0x1F < 32).
  { change 0x1F with (2 ^ 5 - 1). rewrite land_ones_mod by lia. by apply Z.mod_pos_bound. }
  repeat case_match; rewrite (proj2 (Z.leb_le _ _)), (proj2 (Z.ltb_lt _ _)) by lia; done.
Qed.

Lemma table_char_bound m sc : 0 ≤ table_char m sc < 128.
Proof.
  assert (Hb : table_byte (table_char m sc) = true).
  { unfold table_char.
    assert (Hn : ∀ l : list Z, forallb table_byte l = true → table_byte (nth (Z.to_nat sc) l 0) = true).
    { intros l Hl. destruct (Nat.lt_ge_cases (Z.to_nat sc) (length l)) as [Hlt|Hge].
      - rewrite forallb_forall in Hl. by apply Hl, nth_In.
      - by rewrite nth_overflow. }
    specialize (Hn (if shift m then scancode_map_shift else scancode_map)
                  ltac:(destruct (shift m); vm_compute; reflexivity)).
    destruct (ctrl m); [by apply ctrl_code_byte|done]. }
  unfold table_byte in Hb. bool_to_prop. lia.
Qed.

(** ** The terminal as a whole *)

(** Histories of at most [B] bytes, pending input [q], at most [w] bytes through any PTY. *)
Record term_ok (B w : Z) (t : Tty) (p : Pty) (q : list Z) : Prop := {
  to_vts : ∃ logs, vts_ok t logs ∧ Forall (λ l, cstr_ok l ∧ zlen l ≤ B) logs;
  to_input : input_repr t q;
  to_pty : ∃ a, pty_repr w p a;
  to_w : 0 ≤ w
}.

Lemma term_ok_mono B B' w w' t p q :
  B ≤ B' → w ≤ w' → term_ok B w t p q → term_ok B' w' t p q.
Proof.
  intros HB Hw [(logs & Hv & Hl) Hi (a & Ha) Hw0]. split; [|done| |lia].
  - exists logs. split; [done|]. eapply Forall_impl; [exact Hl|]. intros l [? ?]. split; [done|lia].
  - exists a. by eapply repr_mono.
Qed.

Lemma term_ok_print B w t p q c : term_ok B w t p q → term_ok B w (emit t c) p q.
Proof.
  intros [(logs & Hv & Hl) Hi Ha Hw].
  split; [|apply (input_repr_same t); [by unfold same_input|done]|done|done].
  exists logs. split; [by apply vts_ok_screen|done].
Qed.

Lemma term_ok_enqueue B w t p q s :
  term_ok B w t p q → zlen q + zlen s ≤ 256 →
  ∃ t', tty_enqueue_input t s = Ret t' ∧ term_ok B w t' p (q ++ s).
Proof.
  intros [(logs & Hv & Hl) Hi Ha Hw] Hs.
  destruct (enqueue_spec s t q Hi Hs) as (t' & He & Hi' & _ & _ & Hv').
  exists t'. split; [done|]. split; eauto.
Qed.

Lemma term_ok_switch B w t p q n :
  term_ok B w t p q → 1 ≤ n ≤ TTY_NUM_VT →
  ∃ t', tty_switch_vt t n = Ret t' ∧ term_ok (Z.max B 6) w t' p q.
Proof.
  intros Hok Hn. destruct (decide (n - 1 = active_vt t)) as [Heq|Hne].
  { exists t. split; [|eapply term_ok_mono; [| |exact Hok]; lia].
    unfold tty_switch_vt. repeat case_match; bool_to_prop; done || lia. }
  destruct Hok as [(logs & Hv & Hl) Hi Ha Hw].
  destruct (lookup_lt_is_Some_2 logs (Z.to_nat (n - 1))) as [log Hlog];
    [rewrite (vo_logs _ _ Hv); unfold TTY_NUM_VT in *; lia|].
  assert (Hl6 : Forall (λ l, cstr_ok l ∧ zlen l ≤ Z.max B 6) logs).
  { eapply Forall_impl; [exact Hl|]. intros l [? ?]. split; [done|lia]. }
  pose proof (Forall_lookup_1 _ _ _ _ Hl Hlog) as [Hc _].
  destruct (decide (log = [])) as [->|Hnil].
  - destruct (switch_empty t logs n) as (t' & He & _ & _ & Hv' & Hs); [done..|].
    exists t'. split; [done|]. split; [|by eapply input_repr_same|done|done].
    eexists. split; [done|]. apply Forall_insert; [done|]. unfold TTY_NUM_VT, vt_header in *.
    case_match; bool_to_prop.
    all: split; [repeat constructor; unfold cchar; lia|unfold zlen; simpl; lia].
  - destruct (switch_replay t logs n log) as (t' & He & _ & _ & Hv' & Hs); [done..|].
    exists t'. split; [done|]. split; [by eauto|by eapply input_repr_same|done|done].
Qed.

(** ** One key *)

(** What the driver answers for one key: the first byte, the rest pending. *)
Definition key_result (m : mods) (e : key) (rest : list Z) (B w : Z) (p : Pty)
    (r : res (Z * Kbd * Tty)) : Prop :=
  ∃ c tl k' t', r = Ret (c, k', t') ∧ key_polls m e = c :: tl ∧ (c = 0 → tl = []) ∧
    0 ≤ c < 128 ∧ ports k' = rest ∧ mods_of k' = mods_after m e ∧
    term_ok (Z.max B 6) w t' p tl.

Lemma term_ok_weaken B w t p q : term_ok B w t p q → term_ok (Z.max B 6) w t p q.
Proof. apply term_ok_mono; lia. Qed.

Lemma ext_key k t p sc rest B w :
  is_byte sc → ports k = rest → term_ok B w t p [] →
  key_result (mods_of k) (Ext sc) rest B w p
    (match ansi_tail sc with
     | Some tl => let! t := tty_enqueue_input t tl in Ret (0x1B, k, t)
     | None => let! t := print_scancode t 0xE0 in
               let! t := print_scancode t sc in Ret (0, k, t)
     end).
Proof.
  intros Hb Hp Hok. unfold key_result, key_polls. cbn [key_bytes mods_after hold].
  destruct (ansi_tail sc) as [tl|] eqn:Ha.
  - destruct (ansi_tail_short sc tl Ha) as [Hl _].
    destruct (term_ok_enqueue B w t p [] tl Hok) as (t' & -> & Hok'); [rewrite zlen_nil; lia|].
    cbn [rbind]. exists 27, tl, k, t'. split_and!; [done..|lia|lia|done|done|by apply term_ok_weaken].
  - destruct (print_scancode_spec t 0xE0) as [s1 ->]; [lia|]. cbn [rbind].
    destruct (print_scancode_spec (print t s1) sc) as [s2 ->]; [unfold is_byte in *; lia|].
    cbn [rbind]. eexists 0, [], k, _. split_and!; [done..|lia|lia|done|done|].
    by apply term_ok_weaken, term_ok_print, term_ok_print.
Qed.

Lemma not_modifier sc :
  sc ∉ [0x2A; 0x36; 0x38; 0x1D] → sc ≠ 0x2A ∧ sc ≠ 0x36 ∧ sc ≠ 0x38 ∧ sc ≠ 0x1D.
Proof. rewrite !not_elem_of_cons. tauto. Qed.

Lemma hold_release a b sc old :
  128 ≤ sc → a < 128 → b < 128 →
  hold a b (Plain sc) old = if (sc - 128 =? a) || (sc - 128 =? b) then false else old.
Proof.
  intros Hs Ha Hb. unfold hold. rewrite decide_False by lia.
  case_decide; destruct (Z.eqb_spec (sc - 128) a), (Z.eqb_spec (sc - 128) b); simpl; done || lia.
Qed.

Lemma key_release_spec k t p sc rest B w :
  128 ≤ sc < 256 → ports k = rest → term_ok B w t p [] →
  key_result (mods_of k) (Plain sc) rest B w p (Ret (0, key_release k sc, t)).
Proof.
  intros Hb Hp Hok. exists 0, [], (key_release k sc), t. unfold key_polls. cbn [key_bytes].
  rewrite decide_True by (left; lia). split_and!; [done..|lia|lia| | |by apply term_ok_weaken].
  - unfold key_release. by repeat case_match.
  - unfold key_release, mods_after. rewrite land_7F by done.
    rewrite !hold_release by lia. rewrite !orb_diag.
    destruct (_ || _), (sc - 128 =? 0x38), (sc - 128 =? 0x1D); done.
Qed.

(** A key that is no modifier and no terminal switch leaves the modifiers alone. *)
Lemma mods_after_plain m sc :
  sc < 128 → sc ∉ [0x2A; 0x36; 0x38; 0x1D] → mods_after m (Plain sc) = m.
Proof.
  intros Hs (? & ? & ? & ?)%not_modifier. destruct m. unfold mods_after, hold. simpl.
  repeat (rewrite decide_False by lia). done.
Qed.

Lemma key_char_spec k t p sc rest B w :
  0 ≤ sc < 128 → sc ∉ [0x2A; 0x36; 0x38; 0x1D] →
  ¬ (alt_down k = true ∧ fn_key_vt sc ≠ -1) →
  ports k = rest → term_ok B w t p [] →
  key_result (mods_of k) (Plain sc) rest B w p (key_char k t sc).
Proof.
  intros Hb Hm Ha Hp Hok. unfold key_result, key_polls. cbn [key_bytes].
  rewrite decide_False by (intros [?|?]; [lia|done]).
  rewrite decide_False by done. rewrite mods_after_plain by (lia || done).
  unfold key_char. destruct (ansi_tail sc) as [tl|] eqn:Han.
  - destruct (ansi_tail_short sc tl Han) as [Hl _].
    destruct (term_ok_enqueue B w t p [] tl Hok) as (t' & -> & Hok'); [rewrite zlen_nil; lia|].
    cbn [rbind]. exists 27, tl, k, t'. split_and!; [done..|lia|lia|done|done|by apply term_ok_weaken].
  - change (zlen scancode_map) with 58. destruct (Z.ltb_spec sc 58).
    + rewrite table_lookup by lia. cbn [rbind].
      change (if ctrl_down k then _ else _) with (table_char (mods_of k) sc).
      pose proof (table_char_bound (mods_of k) sc).
      exists (table_char (mods_of k) sc), [], k, t. case_decide as Hd.
      * split_and!; [done..|lia|lia|done|done|by apply term_ok_weaken].
      * replace (table_char (mods_of k) sc) with 0 by lia.
        split_and!; [done..|lia|lia|done|done|by apply term_ok_weaken].
    + destruct (print_scancode_spec t sc) as [s ->]; [lia|]. cbn [rbind].
      rewrite decide_False by lia. eexists 0, [], k, _.
      split_and!; [done..|lia|lia|done|done|by apply term_ok_weaken, term_ok_print].
Qed.

Lemma key_press_spec k t p sc rest B w :
  0 ≤ sc < 128 → ports k = rest → term_ok B w t p [] →
  key_result (mods_of k) (Plain sc) rest B w p (key_press k t sc).
Proof.
  intros Hb Hp Hok. unfold key_press.
  destruct (decide (sc ∈ [0x2A; 0x36; 0x38; 0x1D])) as [Hin|Hnin].
  - assert (Hk : key_polls (mods_of k) (Plain sc) = [0]).
    { unfold key_polls. cbn [key_bytes]. by rewrite decide_True by (by right). }
    rewrite !elem_of_cons, elem_of_nil in Hin.
    destruct Hin as [-> |[-> |[-> |[-> |[]]]]]; cbn -[mods_after key_polls Z.max];
      eexists 0, [], _, t; (split_and!; [done|exact Hk|done|lia|lia|done|done|by apply term_ok_weaken]).
  - destruct (not_modifier sc Hnin) as (? & ? & ? & ?).
    destruct (Z.eqb_spec sc 0x2A); [done|]. destruct (Z.eqb_spec sc 0x36); [done|]. cbn [orb].
    destruct (Z.eqb_spec sc 0x38); [done|]. destruct (Z.eqb_spec sc 0x1D); [done|].
    destruct (alt_down k && negb (fn_key_vt sc =? -1)) eqn:Ha.
    + bool_to_prop.
      destruct (term_ok_switch B w t p [] (fn_key_vt sc) Hok) as (t' & -> & Hok').
      { unfold fn_key_vt, TTY_NUM_VT in *. repeat case_match; bool_to_prop; lia. }
      cbn [rbind]. exists 0, [], k, t'. unfold key_polls. cbn [key_bytes].
      rewrite decide_False by (intros [?|?]; [lia|done]). rewrite decide_True by done.
      rewrite mods_after_plain by (lia || done). split_and!; [done..|lia|lia|done|done|done].
    + apply key_char_spec; [done|done| |done|done]. intros [Hal Hfn].
      rewrite Hal in Ha. cbn [andb] in Ha. bool_to_prop. done.
Qed.

Lemma poll_key k t p e rest B w :
  key_ok e → ports k = key_ports e ++ rest → term_ok B w t p [] →
  key_result (mods_of k) e rest B w p (keyboard_poll_char k t).
Proof.
  intros He Hp Hok. unfold keyboard_poll_char, inb. rewrite Hp.
  destruct e as [sc|sc]; cbn [key_ports app ports set_ports].
  - destruct He as [Hb Hne]. destruct (Z.eqb_spec sc 0xE0); [done|].
    rewrite testbit_7 by done. unfold is_byte in Hb. change (negb (Z.testbit 1 0)) with false. cbn match.
    change (mods_of k) with (mods_of (set_ports (set_ports k (sc :: rest)) rest)).
    destruct (Z.leb_spec 128 sc); [apply key_release_spec|apply key_press_spec]; done || lia.
  - cbn. change (mods_of k) with (mods_of (set_ports k rest)). by apply ext_key.
Qed.

(** ** Polling a whole stream *)

Lemma poll_pending k t p B w c q :
  term_ok B w t p (c :: q) →
  ∃ t', tty_poll_char k t p = Ret (c, k, t', p) ∧ term_ok B w t' p q.
Proof.
  intros [(logs & Hv & Hl) [Hs Hr Hrd Hwr Hd] Ha Hw]. unfold tty_poll_char.
  rewrite zlen_cons in *. pose proof (zlen_nonneg q).
  assert (Hne : input_read t ≠ input_write t).
  { rewrite Hwr. unfold u32, wrap. intros He.
    pose proof (Z.div_mod (input_read t + (1 + zlen q)) (2 ^ 32) ltac:(lia)). lia. }
  destruct (Z.eqb_spec (input_read t) (input_write t)); [done|]. cbn [negb].
  rewrite input_index.
  rewrite (proj2 (bget_Ret _ _ c)).
  2:{ split; [by apply Z.mod_pos_bound|]. rewrite <- (Z.add_0_r (input_read t)). by apply (Hd 0%nat). }
  cbn [rbind]. eexists. split; [done|]. split; [|split|done|done].
  - exists logs. split; [by destruct Hv|done].
  - done.
  - lia.
  - simpl. apply (wrap_bound 32). lia.
  - simpl. rewrite Hwr. unfold u32, wrap. rewrite Zplus_mod_idemp_l. f_equal. lia.
  - intros i x Hx. simpl.
    rewrite <- (Hd (S i) x Hx). do 2 f_equal.
    rewrite <- (Zplus_mod_idemp_l (u32 _)), u32_mod_256, Zplus_mod_idemp_l. f_equal. lia.
Qed.

Lemma poll_drain q : ∀ k t p B w,
  term_ok B w t p q →
  ∃ t', poll_n (length q) k t p = Ret (q, k, t', p) ∧ term_ok B w t' p [].
Proof.
  induction q as [|c q IH]; intros k t p B w Hok; [by exists t|].
  destruct (poll_pending k t p B w c q Hok) as (t1 & He & Hok1).
  destruct (IH k t1 p B w Hok1) as (t2 & He2 & Hok2).
  exists t2. split; [|done]. cbn [length poll_n]. rewrite He. cbn [rbind]. by rewrite He2.
Qed.

(** The character goes to the active terminal and to the PTY attached to it. *)
Lemma poll_first k t p e rest B w :
  key_ok e → ports k = key_ports e ++ rest → term_ok B w t p [] →
  6 ≤ B → B + 1 < 2 ^ 32 → w + 1 < 2 ^ 64 →
  ∃ c tl k' t' p', tty_poll_char k t p = Ret (c, k', t', p') ∧
    key_polls (mods_of k) e = c :: tl ∧ ports k' = rest ∧
    mods_of k' = mods_after (mods_of k) e ∧ term_ok (B + 1) (w + 1) t' p' tl.
Proof.
  intros He Hp Hok HB6 HB Hw. unfold tty_poll_char.
  assert (Heq : input_read t = input_write t).
  { destruct (to_input _ _ _ _ _ Hok) as [_ _ Hrd -> _]. rewrite zlen_nil, Z.add_0_r.
    by rewrite u32_small. }
  rewrite Heq, Z.eqb_refl. cbn [negb].
  destruct (poll_key k t p e rest B w He Hp Hok) as (c & tl & k' & t' & -> & Hk & Hc0 & Hc & Hp' & Hm & Hok').
  cbn [rbind]. exists c, tl, k'. replace (Z.max B 6) with B in Hok' by lia.
  destruct (Z.eqb_spec c 0) as [->|Hne].
  { exists t', p. split_and!; [done..|]. eapply term_ok_mono; [| |exact Hok']; lia. }
  destruct Hok' as [(logs & Hv & Hl) Hi (a & Ha) Hw0]. unfold vt_append. simpl cstr.
  destruct (Z.eqb_spec c 0); [done|].
  destruct (vts_lookup t' logs (active_vt t') Hv (vo_active _ _ Hv))
    as (row & hd & log & _ & _ & Hlog & _).
  destruct (Forall_lookup_1 _ _ _ _ Hl Hlog) as [Hcs Hlen].
  destruct (vt_puts_spec [c] t' logs (active_vt t') log Hv (vo_active _ _ Hv) Hlog)
    as (t2 & -> & Hv2 & _ & Hact & Hsi); [change (zlen [c]) with 1; lia|].
  cbn [rbind]. rewrite Hact. pose proof (vo_active _ _ Hv) as Hav. unfold TTY_NUM_VT in Hav.
  unfold pty_vt_map_get. destruct (Z.ltb_spec (active_vt t') 0); [lia|].
  destruct (Z.leb_spec 12 (active_vt t')); [lia|]. cbn [orb].
  destruct (pr_map_ok _ _ _ Ha) as [Hml _].
  destruct (lookup_lt_is_Some_2 (pty_vt_map p) (Z.to_nat (active_vt t'))) as [pid Hpid];
    [rewrite (pr_map _ _ _ Ha); lia|].
  rewrite (proj2 (bget_Ret _ _ pid)) by (split; [lia|done]). cbn [rbind].
  assert (Hpush : ∃ p', (if 0 <=? pid then pty_slave_push_input p pid c else Ret p) = Ret p' ∧
                        ∃ a', pty_repr (w + 1) p' a').
  { case_match; [|exists p; split; [done|exists a; eapply repr_mono; [exact Ha|lia]]].
    destruct (push_refines w p a Ha pid c ltac:(lia) Hw0) as (p' & Hcc & Hr).
    unfold ccall in Hcc. inv_ret. eauto. }
  destruct Hpush as (p' & -> & Hp''). cbn [rbind]. exists t2, p'. split_and!; [done..|].
  split; [|by apply (input_repr_same t')|done|lia]. eexists. split; [exact Hv2|].
  apply Forall_insert.
  - eapply Forall_impl; [exact Hl|]. intros l [? ?]. split; [done|lia].
  - split; [|rewrite zlen_app; change (zlen [c]) with 1; lia].
    apply cstr_ok_app; [done|]. constructor; [unfold cchar; lia|constructor].
Qed.

Lemma poll_n_app n : ∀ m k t p cs k1 t1 p1 ds k2 t2 p2,
  poll_n n k t p = Ret (cs, k1, t1, p1) → poll_n m k1 t1 p1 = Ret (ds, k2, t2, p2) →
  poll_n (n + m) k t p = Ret (cs ++ ds, k2, t2, p2).
Proof.
  induction n as [|n IH]; intros m k t p cs k1 t1 p1 ds k2 t2 p2 H1 H2.
  - by injection H1 as <- <- <- <-.
  - cbn [poll_n Nat.add] in *. inv_ret. rewrite E. cbn [rbind].
    by erewrite IH by eauto.
Qed.

Lemma poll_typed es : ∀ k t p B w,
  Forall key_ok es → ports k = mjoin (key_ports <$> es) → term_ok B w t p [] →
  6 ≤ B → B + zlen es < 2 ^ 32 → w + zlen es < 2 ^ 64 →
  let out := typed (mods_of k) es in
  ∃ k' t' p', poll_n (length out) k t p = Ret (out, k', t', p') ∧
    mods_of k' = foldl mods_after (mods_of k) es ∧
    term_ok (B + zlen es) (w + zlen es) t' p' [].
Proof.
  induction es as [|e es IH]; intros k t p B w Hes Hp Hok H6 HB Hw out; subst out.
  { exists k, t, p. change (zlen (@nil key)) with 0. rewrite !Z.add_0_r. done. }
  inversion_clear Hes as [|? ? He Hes']. rewrite zlen_cons in *. pose proof (zlen_nonneg es).
  destruct (poll_first k t p e (mjoin (key_ports <$> es)) B w He Hp Hok)
    as (c & tl & k1 & t1 & p1 & E1 & Hk & Hp1 & Hm1 & Hok1); [lia..|].
  destruct (poll_drain tl k1 t1 p1 _ _ Hok1) as (t2 & E2 & Hok2).
  destruct (IH k1 t2 p1 (B + 1) (w + 1) Hes' Hp1 Hok2) as (k3 & t3 & p3 & E3 & Hm3 & Hok3); [lia..|].
  exists k3, t3, p3. cbn [typed foldl]. rewrite Hk, <- Hm1. split_and!.
  - cbn [app length]. rewrite length_app. cbn [poll_n]. rewrite E1. cbn [rbind].
    by erewrite poll_n_app by eauto.
  - done.
  - by rewrite !Z.add_assoc.
Qed.


Lemma boot_term_ok : term_ok 6 0 tty_boot pty_boot [].
Proof.
  split; [|split; try done|exists apty_boot; apply boot_repr|done].
  exists (replicate 12 []). split; [apply tty_boot_ok|]. apply Forall_replicate.
  split; [constructor|done].
Qed.


(** A PTY attached to the active terminal gets the ESC of a cursor key only: the bytes
    behind it are returned from the input buffer, which is not forwarded. *)
Example arrow_key_truncated_on_pty :
  (let '(_, p) := pty_create_pair pty_boot in
   let '(_, p) := pty_attach_slave_to_vt p 0 0 in
   let! (cs, _, _, p) := poll_n 3 (KbdState (key_ports (Ext 0x48)) false false false) tty_boot p in
   let! (n, d, _) := pty_slave_read p 0 [0; 0; 0] 3 in
   Ret (cs, n, d)) = Ret ([27; 91; 65], 1, [27; 0; 0]).
Proof. vm_compute. reflexivity. Qed.

(** * The keyboard on any input

    Whatever bytes the controller delivers and however full the input buffer is, polling the
    keyboard stays within the terminal's tables. *)


(** The sizes of the terminal's tables. *)
Record tty_shape (t : Tty) : Prop := {
  ts_input : zlen (input_buf t) = 256;
  ts_rows : length (vt_buf t) = 12%nat;
  ts_row : Forall (λ row, zlen row = TTY_BUF_SZ) (vt_buf t);
  ts_heads : length (vt_head t) = 12%nat;
  ts_head : Forall (λ hd, 0 ≤ hd < 2 ^ 32) (vt_head t);
  ts_active : 0 ≤ active_vt t < TTY_NUM_VT
}.

Lemma shape_emit t c : tty_shape t → tty_shape (emit t c).
Proof. by intros []. Qed.

Lemma shape_enqueue s : ∀ t, tty_shape t → ∃ t', tty_enqueue_input t s = Ret t' ∧ tty_shape t'.
Proof.
  induction s as [|c s IH]; intros t Ht; [by exists t|]. cbn [tty_enqueue_input]. rewrite input_index.
  pose proof (Z.mod_pos_bound (input_write t) 256 ltac:(lia)).
  rewrite (proj2 (bset_Ret _ _ _ _)) by (split; [rewrite (ts_input _ Ht); lia|done]). cbn [rbind]. apply IH.
  destruct Ht. split; cbn [set_input input_buf vt_buf vt_head active_vt]; try done. unfold zlen in *. by rewrite length_insert.
Qed.

Lemma shape_row t i : tty_shape t → 0 ≤ i < TTY_NUM_VT →
  ∃ row hd, vt_buf t !! Z.to_nat i = Some row ∧ zlen row = TTY_BUF_SZ ∧ vt_head t !! Z.to_nat i = Some hd ∧ 0 ≤ hd < 2 ^ 32.
Proof.
  intros [_ Hr Hrow Hh Hhd _] Hi. unfold TTY_NUM_VT in Hi.
  destruct (lookup_lt_is_Some_2 (vt_buf t) (Z.to_nat i)) as [row Er]; [lia|].
  destruct (lookup_lt_is_Some_2 (vt_head t) (Z.to_nat i)) as [hd Eh]; [lia|].
  rewrite Forall_lookup in Hrow. rewrite Forall_lookup in Hhd. exists row, hd. split_and!; try done; [by eapply Hrow|by eapply Hhd..].
Qed.

Lemma shape_putc t i c : tty_shape t → 0 ≤ i < TTY_NUM_VT → ∃ t', vt_putc t i c = Ret t' ∧ tty_shape t'.
Proof.
  intros Ht Hi. destruct (shape_row t i Ht Hi) as (row & hd & Er & Hz & Eh & Hd). unfold vt_putc.
  rewrite (proj2 (bget_Ret _ _ hd)) by (split; [lia|done]). cbn [rbind]. rewrite Er. cbn [of_opt rbind]. rewrite vt_index.
  rewrite (proj2 (bset_Ret _ _ _ _)) by (split; [rewrite Hz; apply vt_index_range|done]). cbn [rbind].
  eexists. split; [done|]. destruct Ht. split; cbn; rewrite ?length_insert; try done.
  - apply Forall_insert; [done|]. unfold zlen in *. by rewrite length_insert.
  - apply Forall_insert; [done|]. apply (wrap_bound 32). lia.
Qed.

Lemma shape_puts s : ∀ t i, tty_shape t → 0 ≤ i < TTY_NUM_VT → ∃ t', vt_puts t i s = Ret t' ∧ tty_shape t'.
Proof.
  induction s as [|c s IH]; intros t i Ht Hi; [by exists t|]. cbn [vt_puts].
  destruct (shape_putc t i c Ht Hi) as (t1 & -> & Ht1). cbn [rbind]. by apply IH.
Qed.

Lemma shape_replay fuel : ∀ t row i len,
  tty_shape t → zlen row = TTY_BUF_SZ → 0 ≤ i → len < 2 ^ 32 → len - i ≤ Z.of_nat fuel →
  ∃ t', vt_replay fuel t row i len = Ret t' ∧ tty_shape t'.
Proof.
  induction fuel as [|fuel IH]; intros t row i len Ht Hr Hi Hl Hf; cbn [vt_replay]; destruct (Z.ltb_spec i len); try (by exists t).
  - lia.
  - rewrite vt_index. pose proof (vt_index_range i) as Hx.
    destruct (lookup_lt_is_Some_2 row (Z.to_nat (i `mod` TTY_BUF_SZ))) as [c Ec]; [unfold zlen in Hr; lia|].
    rewrite (proj2 (bget_Ret _ _ c)) by (split; [lia|done]). cbn [rbind]. apply IH; [by apply shape_emit|done|apply (wrap_bound 32); lia|done|].
    rewrite u32_small by lia. lia.
Qed.

Lemma shape_switch t n : tty_shape t → ∃ t', tty_switch_vt t n = Ret t' ∧ tty_shape t'.
Proof.
  intros Ht. unfold tty_switch_vt. destruct (_ || _) eqn:E; [by exists t|]. bool_to_prop. unfold TTY_NUM_VT in *.
  destruct (n - 1 =? active_vt t); [by exists t|].
  set (t1 := emit (set_active t (n - 1)) ClearScreen).
  assert (Ht1 : tty_shape t1) by (destruct Ht; split; cbn; try done; unfold TTY_NUM_VT; lia).
  destruct (shape_row t1 (n - 1) Ht1) as (row & hd & Er & Hz & Eh & Hd); [unfold TTY_NUM_VT; lia|].
  rewrite (proj2 (bget_Ret _ _ hd)) by (split; [lia|done]). cbn [rbind]. destruct (hd =? 0).
  - destruct (shape_puts (vt_header (n - 1 + 1)) t1 (n - 1) Ht1) as (t2 & -> & Ht2); [unfold TTY_NUM_VT; lia|].
    cbn [rbind]. eexists. split; [done|]. by apply shape_emit.
  - rewrite Er. cbn [of_opt rbind]. unfold TTY_BUF_SZ. apply shape_replay; [done|done| |lia|]; destruct (Z.ltb_spec (16 * 1024) hd); lia.
Qed.

Lemma shape_scancode t sc : tty_shape t → 0 ≤ sc → ∃ t', print_scancode t sc = Ret t' ∧ tty_shape t'.
Proof. intros Ht Hs. destruct (print_scancode_spec t sc Hs) as [s ->]. eexists. split; [done|]. by apply shape_emit. Qed.

(** The controller's answers are bytes. *)
Definition kbd_bytes (k : Kbd) : Prop := Forall is_byte (ports k).

Lemma kbd_inb k : kbd_bytes k → is_byte (inb k).1 ∧ kbd_bytes (inb k).2.
Proof.
  unfold kbd_bytes, inb. destruct k as [[|v p] s a c]; cbn; intros Hk; [split; [unfold is_byte; lia|done]|].
  by apply Forall_cons in Hk.
Qed.

Lemma map_lookup (sh : bool) sc : 0 ≤ sc < zlen scancode_map →
  ∃ c, bget (if sh then scancode_map_shift else scancode_map) sc = Ret c ∧ is_byte c.
Proof.
  intros Hsc. assert (sc ∈ seqZ 0 (zlen scancode_map)) as Hin by (apply elem_of_seqZ; lia). clear Hsc.
  revert sc Hin. apply Forall_forall.
  assert (Hb : forallb (λ sc, match bget (if sh then scancode_map_shift else scancode_map) sc with Ret c => (0 <=? c) && (c <? 256) | _ => false end)
    (seqZ 0 (zlen scancode_map)) = true) by (destruct sh; vm_compute; reflexivity).
  rewrite forallb_forall in Hb. apply Forall_forall. intros sc Hsc. specialize (Hb sc (proj1 (list_elem_of_In _ _) Hsc)).
  destruct (bget _ sc) as [c| |]; [|done|done]. exists c. split; [done|]. bool_to_prop. unfold is_byte. lia.
Qed.

(** Polling returns, whatever arrives: a byte for the caller, and the tables keep their sizes. *)
Theorem keyboard_poll_total k t :
  kbd_bytes k → tty_shape t →
  ∃ c k' t', keyboard_poll_char k t = Ret (c, k', t') ∧ is_byte c ∧ kbd_bytes k' ∧ tty_shape t'.
Proof.
  intros Hk Ht. unfold keyboard_poll_char. destruct (kbd_inb k Hk) as [Hst Hk1]. destruct (inb k) as [st k1]. cbn [fst snd] in *.
  destruct (negb (Z.testbit st 0)); [eexists 0, _, _; by split_and!|].
  destruct (kbd_inb k1 Hk1) as [Hsc Hk2]. destruct (inb k1) as [sc k2]. cbn [fst snd] in *.
  assert (Hansi : ∀ tl k t, kbd_bytes k → tty_shape t →
    ∃ c k' t', (let! t := tty_enqueue_input t tl in Ret (0x1B, k, t)) = Ret (c, k', t') ∧ is_byte c ∧ kbd_bytes k' ∧ tty_shape t').
  { intros tl k' t' Hk' Ht'. destruct (shape_enqueue tl t' Ht') as (t2 & -> & Ht2). cbn [rbind]. eexists 27, _, _. by split_and!. }
  destruct (sc =? 0xE0).
  - destruct (kbd_inb k2 Hk2) as [_ Hk3]. destruct (inb k2) as [st2 k3]. cbn [fst snd] in *.
    destruct (negb (Z.testbit st2 0)); [eexists 0, _, _; by split_and!|].
    destruct (kbd_inb k3 Hk3) as [Hn Hk4]. destruct (inb k3) as [nx k4]. cbn [fst snd] in *.
    destruct (ansi_tail nx) as [tl|]; [by apply Hansi|].
    destruct (shape_scancode t 0xE0 Ht ltac:(lia)) as (t1 & -> & Ht1). cbn [rbind].
    destruct (shape_scancode t1 nx Ht1) as (t2 & -> & Ht2); [unfold is_byte in Hn; lia|]. cbn [rbind]. eexists 0, _, _. by split_and!.
  - destruct (Z.testbit sc 7).
    { eexists 0, _, _. split_and!; try done. unfold key_release. by repeat case_match. }
    unfold key_press. unfold is_byte in Hsc.
    destruct ((sc =? 0x2A) || (sc =? 0x36)); [eexists 0, _, _; by split_and!|].
    destruct (sc =? 0x38); [eexists 0, _, _; by split_and!|]. destruct (sc =? 0x1D); [eexists 0, _, _; by split_and!|].
    destruct (alt_down k2 && _).
    { destruct (shape_switch t (fn_key_vt sc) Ht) as (t1 & -> & Ht1). cbn [rbind]. eexists 0, _, _. by split_and!. }
    unfold key_char. destruct (ansi_tail sc) as [tl|]; [by apply Hansi|].
    destruct (Z.ltb_spec sc (zlen scancode_map)).
    + destruct (map_lookup (shift_down k2) sc ltac:(lia)) as (c & -> & Hc). cbn [rbind]. eexists _, _, _. split_and!; try done.
      destruct (ctrl_down k2); [|done]. unfold ctrl_code, is_byte in *. assert (0 ≤ Z.land c 0x1F < 256).
      { change 0x1F with (2 ^ 5 - 1). rewrite land_ones_mod by lia. pose proof (Z.mod_pos_bound c (2 ^ 5) ltac:(lia)). lia. }
      repeat case_match; done.
    + destruct (shape_scancode t sc Ht ltac:(lia)) as (t1 & -> & Ht1). cbn [rbind]. eexists 0, _, _. by split_and!.
Qed.

Lemma tty_boot_shape : tty_shape tty_boot.
Proof.
  split; [done|done| |done| |unfold TTY_NUM_VT; cbn; lia].
  - apply Forall_replicate. unfold zlen. rewrite length_replicate. done.
  - by apply Forall_replicate.
Qed.

Lemma keyboard_poll_total_witness :
  ∃ c k' t', keyboard_poll_char (KbdState [1; 0xE0; 1; 0xFF; 7] false true false) tty_boot = Ret (c, k', t')
    ∧ is_byte c ∧ kbd_bytes k' ∧ tty_shape t'.
Proof. apply keyboard_poll_total; [repeat constructor; unfold is_byte; lia|exact tty_boot_shape]. Defined.
