(* ===== verification/Wm.v ===== *)
(** * The window manager demonstration (kernel/graphics/wm.cpp, cursor.hpp)

    The mouse and the keyboard are polled from one controller: the list of answers of
    Keyboard.v is the bus of the mouse driver too.  [others] is what the rest of the system
    does while the task has yielded. *)
From S2P Require Import Prelude Loop CString Pty Tty Keyboard BlockDev Ide Mouse Framebuffer FbSpec KeyboardSpec.

(** The controller as the mouse sees it; what is written to it does not change its answers. *)
#[export] Instance kbd_bus : Bus Kbd := {
  inb _ k := Keyboard.inb k; inw _ k := Keyboard.inb k; outb _ _ k := k; outw _ _ k := k
}.

(** cursor.hpp *)
Definition WIDTH : Z := 16.
Definition HEIGHT : Z := 16.
Definition bitmap : list (list Z) :=
  [[1; 0; 0; 0; 0; 0; 0; 0; 0; 0; 0; 0; 0; 0; 0; 0];
   [1; 1; 0; 0; 0; 0; 0; 0; 0; 0; 0; 0; 0; 0; 0; 0];
   [1; 1; 1; 0; 0; 0; 0; 0; 0; 0; 0; 0; 0; 0; 0; 0];
   [1; 1; 1; 1; 0; 0; 0; 0; 0; 0; 0; 0; 0; 0; 0; 0];
   [1; 1; 1; 1; 1; 0; 0; 0; 0; 0; 0; 0; 0; 0; 0; 0];
   [1; 1; 1; 1; 1; 1; 0; 0; 0; 0; 0; 0; 0; 0; 0; 0];
   [1; 1; 1; 1; 1; 1; 1; 0; 0; 0; 0; 0; 0; 0; 0; 0];
   [1; 1; 1; 1; 1; 1; 1; 1; 0; 0; 0; 0; 0; 0; 0; 0];
   [1; 1; 1; 1; 1; 1; 1; 1; 1; 0; 0; 0; 0; 0; 0; 0];
   [1; 1; 1; 1; 1; 1; 1; 1; 1; 1; 0; 0; 0; 0; 0; 0];
   [1; 1; 1; 1; 1; 0; 0; 0; 0; 0; 0; 0; 0; 0; 0; 0];
   [1; 1; 0; 0; 0; 0; 0; 0; 0; 0; 0; 0; 0; 0; 0; 0];
   [1; 0; 0; 0; 0; 0; 0; 0; 0; 0; 0; 0; 0; 0; 0; 0];
   [0; 0; 0; 0; 0; 0; 0; 0; 0; 0; 0; 0; 0; 0; 0; 0];
   [0; 0; 0; 0; 0; 0; 0; 0; 0; 0; 0; 0; 0; 0; 0; 0];
   [0; 0; 0; 0; 0; 0; 0; 0; 0; 0; 0; 0; 0; 0; 0; 0]].

(** What the command works on, and the position of the cursor. *)
Record Wm := WmState { display : Display; kbd : Kbd; tty : Tty; mouse : Mouse; cx : Z; cy : Z }.

Definition draw_desktop (d : Display) : res Display :=
  let! d := framebuffer_draw_rect 40 40 360 220 (framebuffer_rgb 200 200 200) d in
  let! d := framebuffer_draw_rect 42 42 356 20 (framebuffer_rgb 60 100 200) d in
  let! d := framebuffer_draw_rect 420 80 300 180 (framebuffer_rgb 220 220 220) d in
  let! d := framebuffer_draw_rect 422 82 296 18 (framebuffer_rgb 80 140 80) d in
  framebuffer_draw_filled_circle 200 150 28 (framebuffer_rgb 255 100 100) d.

Definition white : Z := framebuffer_rgb 255 255 255.
Definition draw_cursor_at (x y : Z) (d : Display) : res Display :=
  each (seqZ 0 HEIGHT) (λ py, each (seqZ 0 WIDTH) (λ px d,
    let! row := of_opt (bitmap !! Z.to_nat py) in
    let! b := bget row px in
    if b =? 0 then Ret d
    else
      let! xx := int (x + px) in
      let! yy := int (y + py) in
      framebuffer_put_pixel (u32 xx) (u32 yy) white d)) d.

Definition cursz : Z := 12.
Definition clamp (c size : Z) : res Z :=
  let c := if c <? 0 then 0 else c in
  let! s := int (c + cursz) in
  if size <=? u32 s then let! a := int (i32 size - cursz) in int (a - 1) else Ret c.

Section loop.
Context (others : Display * Kbd * Tty → Display * Kbd * Tty).

(** One round of the loop; [inr] leaves it. *)
Definition wm_step (width height : Z) (w : Wm) : res (Wm + Wm) :=
  let! (r, m, k) := mouse_poll_delta (mouse w) (kbd w) in
  let! (x, y, moved, quit) :=
    match r with
    | None => Ret (cx w, cy w, false, false)
    | Some (mdx, mdy, mbtn) =>
        let! x := int (cx w + mdx) in
        let! y := int (cy w - mdy) in
        Ret (x, y, negb (mdx =? 0) || negb (mdy =? 0), negb (Z.land mbtn 1 =? 0))
    end in
  if quit : bool then Ret (inr (WmState (display w) k (tty w) m x y))
  else
    let! (kc, k, t) := keyboard_poll_char k (tty w) in
    if (kc =? 113) || (kc =? 81) then Ret (inr (WmState (display w) k t m x y))
    else
      let! x := clamp x width in
      let! y := clamp y height in
      let! d := if moved : bool then let! d := draw_desktop (display w) in draw_cursor_at x y d else Ret (display w) in
      let '(d, k, t) := others (d, k, t) in
      Ret (inl (WmState d k t m x y)).

(** Up to the loop: [None] if there is no framebuffer. *)
Definition wm_start (w : Wm) : res (option Wm) :=
  if negb (framebuffer_available (dev (display w))) then Ret None
  else
    let t := emit (tty w) ClearScreen in
    let x := i32 (framebuffer_get_width (dev (display w)) `div` 2) in
    let y := i32 (framebuffer_get_height (dev (display w)) `div` 2) in
    let! d := draw_desktop (display w) in
    let! d := draw_cursor_at x y d in
    let '(msgs, m, k) := mouse_init (mouse w) (kbd w) in
    Ret (Some (WmState d k (foldl print t msgs) m x y)).

(** [n] rounds at most. *)
Fixpoint wm_loop (n : nat) (width height : Z) (w : Wm) : res Wm :=
  match n with
  | O => Diverges
  | S n => let! r := wm_step width height w in match r with inl w => wm_loop n width height w | inr w => Ret w end
  end.
Definition builtin_wm_cmd (n : nat) (w : Wm) : res Wm :=
  let! o := wm_start w in
  match o with
  | None => Ret (WmState (display w) (kbd w) (print (tty w) (str "wm: framebuffer not available" ++ [10])) (mouse w) (cx w) (cy w))
  | Some w =>
      let! w := wm_loop n (framebuffer_get_width (dev (display w))) (framebuffer_get_height (dev (display w))) w in
      Ret (WmState (display w) (kbd w) (print (tty w) (str "wm: exiting" ++ [10])) (mouse w) (cx w) (cy w))
  end.
End loop.

(** ** The parts of a round *)

Lemma i8_bound z : -128 ≤ i8 z < 128.
Proof.
  unfold i8, sgn, wrap. change (2 ^ 8) with 256. change (2 ^ (8 - 1)) with 128.
  pose proof (Z.mod_pos_bound z 256 ltac:(lia)). destruct (Z.ltb_spec (z `mod` 256) 128); lia.
Qed.

Definition mouse_ok (m : Mouse) : Prop := length (pkt m) = 3%nat ∧ 0 ≤ pkt_idx m < 3.

(** Polling the mouse returns, with a movement of at most a signed byte. *)
Lemma mouse_poll_total m k :
  mouse_ok m → kbd_bytes k →
  ∃ r m' k', mouse_poll_delta m k = Ret (r, m', k') ∧ mouse_ok m' ∧ kbd_bytes k'
    ∧ ∀ dx dy btn, r = Some (dx, dy, btn) → -128 ≤ dx < 128 ∧ -128 ≤ dy < 128.
Proof.
  intros [Hl Hi] Hk. unfold mouse_poll_delta. cbn [inb kbd_bus].
  destruct (kbd_inb k Hk) as [_ Hk1]. destruct (Keyboard.inb k) as [st k1]. cbn [fst snd] in *.
  destruct (Z.land st 1 =? 0); [eexists _, _, _; split; [done|]; by split_and!|].
  destruct (kbd_inb k1 Hk1) as [_ Hk2]. destruct (Keyboard.inb k1) as [v k2]. cbn [fst snd] in *.
  destruct (_ && _); [eexists _, _, _; split; [done|]; by split_and!|].
  rewrite (proj2 (bset_Ret _ _ _ _)) by (split; [unfold zlen; lia|done]). cbn [rbind].
  set (p := <[_ := v]> (pkt m)). assert (Hp : length p = 3%nat) by (unfold p; by rewrite length_insert).
  destruct (Z.ltb_spec (pkt_idx m + 1) 3) as [Hlt|Hge].
  - eexists _, _, _. split; [done|]. split_and!; [split; [done|cbn; lia]|done|done].
  - destruct p as [|b0 [|b1 [|b2 [|]]]]; try done. cbn. eexists _, _, _. split; [done|].
    split_and!; [split; [done|cbn; lia]|done|]. intros dx dy btn [= <- <- <-]. split; apply i8_bound.
Qed.

(** The cells of the cursor. *)
Definition cursor_cell (px py : Z) : bool :=
  match bitmap !! Z.to_nat py with Some row => match row !! Z.to_nat px with Some b => negb (b =? 0) | None => false end | None => false end.
Definition cursor_at (x y X Y : Z) : Prop := ∃ py, py ∈ seqZ 0 HEIGHT ∧ ∃ px, px ∈ seqZ 0 WIDTH ∧ cursor_cell px py = true ∧ X = x + px ∧ Y = y + py.
Global Instance cursor_at_dec x y X Y : Decision (cursor_at x y X Y).
Proof. unfold cursor_at. apply _. Defined.

(** The cells lie in ten columns and thirteen rows. *)
Lemma cursor_cell_bounds px py :
  px ∈ seqZ 0 WIDTH → py ∈ seqZ 0 HEIGHT → cursor_cell px py = true → px ≤ 9 ∧ py ≤ 12.
Proof.
  intros Hx Hy Hc.
  assert (Hb : forallb (λ py, forallb (λ px, negb (cursor_cell px py) || (px <=? 9) && (py <=? 12)) (seqZ 0 WIDTH)) (seqZ 0 HEIGHT) = true)
    by (vm_compute; reflexivity).
  rewrite forallb_forall in Hb. specialize (Hb py (proj1 (list_elem_of_In _ _) Hy)).
  rewrite forallb_forall in Hb. specialize (Hb px (proj1 (list_elem_of_In _ _) Hx)).
  rewrite Hc in Hb. cbn in Hb. bool_to_prop. lia.
Qed.

Lemma draw_cursor_draws x y d :
  display_ok d → 0 ≤ x < 2 ^ 30 → 0 ≤ y < 2 ^ 30 →
  ∃ d', draw_cursor_at x y d = Ret d' ∧ draws d (cursor_at x y) white d'.
Proof.
  intros Hok Hx Hy. unfold draw_cursor_at.
  apply (each_draws (seqZ 0 HEIGHT) _ (λ py X Y, ∃ px, px ∈ seqZ 0 WIDTH ∧ cursor_cell px py = true ∧ X = x + px ∧ Y = y + py));
    [apply _|done|].
  intros py d0 Hpy Hok0 _. apply each_draws; [apply _|done|]. intros px d1 Hpx Hok1 _.
  rewrite elem_of_seqZ' in Hpy, Hpx. unfold WIDTH, HEIGHT in *.
  destruct (lookup_lt_is_Some_2 bitmap (Z.to_nat py)) as [row Er]; [cbn; lia|].
  assert (Hrow : length row = 16%nat).
  { assert (Hall : Forall (λ row, length row = 16%nat) bitmap) by (repeat constructor). rewrite Forall_lookup in Hall. by eapply Hall. }
  destruct (lookup_lt_is_Some_2 row (Z.to_nat px)) as [b Eb]; [lia|].
  rewrite Er. cbn [of_opt rbind]. rewrite (proj2 (bget_Ret _ _ b)) by (split; [lia|done]). cbn [rbind].
  assert (Hc : cursor_cell px py = negb (b =? 0)) by (unfold cursor_cell; by rewrite Er, Eb). rewrite Hc.
  destruct (b =? 0); cbn [negb].
  - exists d1. split; [done|]. apply draws_none. by intros X Y _ [? _].
  - rewrite !int_Ret by lia. cbn [rbind]. rewrite !u32_small by lia.
    destruct (put_pixel_draws (x + px) (y + py) white d1 Hok1 ltac:(lia) ltac:(lia)) as (d' & -> & Hd).
    exists d'. split; [done|]. revert Hd. apply draws_ext. intros; tauto.
Qed.

(** [d'] is [d] outside the positions [P]. *)
Record keeps (d : Display) (P : Z → Z → Prop) (d' : Display) : Prop := {
  ke_dev : dev d' = dev d;
  ke_size : vsize (vram d') = vsize (vram d);
  ke_out x y : on_screen d x y → ¬ P x y → pixel d' x y = pixel d x y;
  ke_frame i : ¬ in_pixel d i → vget (vram d') i = vget (vram d) i
}.
Lemma draws_keeps d P Q c d' : (∀ x y, on_screen d x y → P x y → Q x y) → draws d P c d' → keeps d Q d'.
Proof. intros Hpq []. split; try done. intros x y Hs Hq. apply dr_out; [done|]. auto. Qed.
Lemma keeps_trans d d1 d2 P : keeps d P d1 → keeps d1 P d2 → keeps d P d2.
Proof.
  intros H1 H2. destruct (same_dev d d1 (ke_dev _ _ _ H1) (ke_size _ _ _ H1)) as (Hon & _ & Hin & _).
  destruct H1, H2. split; try congruence.
  - intros x y Hs Hn. rewrite ke_out1 by (by apply Hon || done). by apply ke_out0.
  - intros i Hi. rewrite ke_frame1 by (by rewrite Hin). by apply ke_frame0.
Qed.

(** The area of the two windows. *)
Definition windows (X Y : Z) : Prop := 40 ≤ X < 400 ∧ 40 ≤ Y < 260 ∨ 420 ≤ X < 720 ∧ 80 ≤ Y < 260.
Lemma in_span X x w : 0 ≤ X < 2 ^ 31 → 0 ≤ x < 2 ^ 31 → 0 ≤ w < 2 ^ 31 → u32 (X - x) < w → x ≤ X < x + w.
Proof.
  intros HX Hx Hw Hlt. destruct (Z_lt_le_dec X x).
  - unfold u32, wrap in Hlt. rewrite <- (Z_mod_plus_full (X - x) 1 (2 ^ 32)), Z.mod_small in Hlt by lia. lia.
  - rewrite u32_small in Hlt by lia. lia.
Qed.

Lemma rect_keeps x y w h c d :
  display_ok d → 0 ≤ x < 2 ^ 31 → 0 ≤ y < 2 ^ 31 → 0 ≤ w < 2 ^ 31 → 0 ≤ h < 2 ^ 31 →
  (∀ X Y, x ≤ X < x + w → y ≤ Y < y + h → windows X Y) →
  ∃ d', framebuffer_draw_rect x y w h c d = Ret d' ∧ keeps d windows d' ∧ display_ok d'.
Proof.
  intros Hok Hx Hy Hw Hh Hin. destruct (draw_rect_draws x y w h c d Hok) as (d' & -> & Hd); [lia..|].
  exists d'. split; [done|]. split; [|by apply (same_dev d d' (dr_dev _ _ _ _ Hd) (dr_size _ _ _ _ Hd))].
  revert Hd. apply draws_keeps. intros X Y [HX HY] [H1 H2].
  pose proof (do_width _ Hok). pose proof (do_height _ Hok).
  apply Hin; [apply (in_span X x w)|apply (in_span Y y h)]; done || lia.
Qed.

Lemma draw_desktop_keeps d :
  display_ok d → ∃ d', draw_desktop d = Ret d' ∧ keeps d windows d' ∧ display_ok d'.
Proof.
  intros Hok. unfold draw_desktop, windows.
  destruct (rect_keeps 40 40 360 220 (framebuffer_rgb 200 200 200) d Hok) as (d1 & -> & K1 & O1); [lia..|unfold windows; lia|]. cbn [rbind].
  destruct (rect_keeps 42 42 356 20 (framebuffer_rgb 60 100 200) d1 O1) as (d2 & -> & K2 & O2); [lia..|unfold windows; lia|]. cbn [rbind].
  destruct (rect_keeps 420 80 300 180 (framebuffer_rgb 220 220 220) d2 O2) as (d3 & -> & K3 & O3); [lia..|unfold windows; lia|]. cbn [rbind].
  destruct (rect_keeps 422 82 296 18 (framebuffer_rgb 80 140 80) d3 O3) as (d4 & -> & K4 & O4); [lia..|unfold windows; lia|]. cbn [rbind].
  destruct (draw_circle_draws 200 150 28 (framebuffer_rgb 255 100 100) d4 O4) as (d5 & -> & D5); [lia..|].
  exists d5. split; [done|]. split; [|by apply (same_dev d4 d5 (dr_dev _ _ _ _ D5) (dr_size _ _ _ _ D5))].
  do 4 (eapply keeps_trans; [eassumption|]). revert D5. apply draws_keeps. intros X Y _ Hc.
  pose proof (square_bound (X - 200) (Y - 150) 28 ltac:(lia) Hc).
  pose proof (square_bound (Y - 150) (X - 200) 28 ltac:(lia) ltac:(lia)). unfold windows. lia.
Qed.

Lemma clamp_range c size :
  - 2 ^ 30 ≤ c < 2 ^ 30 + 2 ^ 8 → 13 ≤ size < 2 ^ 30 → ∃ c', clamp c size = Ret c' ∧ 0 ≤ c' ≤ size - 13 ∧ (0 ≤ c ≤ size - 13 → c' = c).
Proof.
  intros Hc Hs. unfold clamp, cursz. rewrite (i32_small size) by lia.
  set (c0 := if c <? 0 then 0 else c). assert (H0 : 0 ≤ c0 < 2 ^ 30 + 2 ^ 8 ∧ (0 ≤ c → c0 = c)) by (unfold c0; destruct (Z.ltb_spec c 0); lia).
  rewrite int_Ret by lia. cbn [rbind]. rewrite u32_small by lia. destruct (Z.leb_spec size (c0 + 12)).
  - rewrite int_Ret by lia. cbn [rbind]. rewrite int_Ret by lia. exists (size - 12 - 1). split; [done|]. lia.
  - exists c0. split; [done|]. lia.
Qed.

(** ** Rounds of the loop *)

(** A screen of [W] by [H] pixels in working order, and the cursor where it can be seen whole. *)
Record wm_ok (W H : Z) (w : Wm) : Prop := {
  wo_display : display_ok (display w);
  wo_size : fb_width (dev (display w)) = W ∧ fb_height (dev (display w)) = H;
  wo_kbd : kbd_bytes (kbd w);
  wo_tty : tty_shape (tty w);
  wo_mouse : mouse_ok (mouse w);
  wo_x : 0 ≤ cx w ≤ W - 13;
  wo_y : 0 ≤ cy w ≤ H - 13
}.
(** The other tasks leave the devices in working order. *)
Definition others_ok (others : Display * Kbd * Tty → Display * Kbd * Tty) : Prop :=
  ∀ d k t, display_ok d → kbd_bytes k → tty_shape t →
    let '(d', k', t') := others (d, k, t) in
    display_ok d' ∧ dev d' = dev d ∧ kbd_bytes k' ∧ tty_shape t'.

(** The cursor on the screen: every cell is there, and white. *)
Definition cursor_shown (d : Display) (x y : Z) : Prop :=
  ∀ X Y, cursor_at x y X Y → on_screen d X Y ∧ pixel d X Y = shade d white.

Lemma cursor_on_screen W H x y X Y d :
  fb_width (dev d) = W → fb_height (dev d) = H → 0 ≤ x ≤ W - 13 → 0 ≤ y ≤ H - 13 → cursor_at x y X Y → on_screen d X Y.
Proof.
  intros HW HH Hx Hy (py & Hpy & px & Hpx & Hc & -> & ->). pose proof (cursor_cell_bounds px py Hpx Hpy Hc).
  rewrite elem_of_seqZ' in Hpx, Hpy. unfold on_screen. lia.
Qed.

(** Drawing a round: the cursor whole, nothing changed outside the windows and the cursor. *)
Lemma redraw_shows W H x y d :
  display_ok d → fb_width (dev d) = W → fb_height (dev d) = H → W < 2 ^ 30 → H < 2 ^ 30 →
  0 ≤ x ≤ W - 13 → 0 ≤ y ≤ H - 13 →
  ∃ d', (let! d := draw_desktop d in draw_cursor_at x y d) = Ret d' ∧ display_ok d' ∧ cursor_shown d' x y
    ∧ keeps d (λ X Y, windows X Y ∨ cursor_at x y X Y) d'.
Proof.
  intros Hok HW HH HW' HH' Hx Hy. destruct (draw_desktop_keeps d Hok) as (d1 & -> & K1 & O1). cbn [rbind].
  destruct (draw_cursor_draws x y d1 O1 ltac:(lia) ltac:(lia)) as (d2 & -> & D2). exists d2.
  destruct (same_dev d1 d2 (dr_dev _ _ _ _ D2) (dr_size _ _ _ _ D2)) as (Hon & Hsh & _ & Ho). split; [done|]. split; [auto|].
  pose proof (ke_dev _ _ _ K1) as Hd1. split.
  - intros X Y Hc. assert (Hs : on_screen d1 X Y) by (eapply cursor_on_screen; [by rewrite Hd1|by rewrite Hd1|..]; done).
    split; [by apply Hon|]. rewrite Hsh. by apply (dr_in _ _ _ _ D2).
  - eapply (keeps_trans d d1).
    + destruct K1. split; try done. intros X Y Hs Hn. apply ke_out0; tauto.
    + revert D2. apply draws_keeps. tauto.
Qed.

(** *** Setting the mouse up keeps the controller's answers bytes *)

Lemma bytes_inb p k v k' : kbd_bytes k → inb p k = (v, k') → kbd_bytes k'.
Proof. intros Hk E. destruct (kbd_inb k Hk) as [_ H2]. cbn in E. rewrite E in H2. exact H2. Qed.
Lemma bytes_wait n k ok k' : kbd_bytes k → wait_input_clear n k = (ok, k') → kbd_bytes k'.
Proof.
  revert k. induction n as [|n IH]; intros k Hk; cbn [wait_input_clear]; [by intros [= <- <-]|].
  destruct (inb PS2_STATUS k) as [v k1] eqn:E. apply bytes_inb in E; [|done]. destruct (_ =? 0); [by intros [= <- <-]|].
  by apply IH.
Qed.
Lemma bytes_ack n k ok k' : kbd_bytes k → read_ack n k = (ok, k') → kbd_bytes k'.
Proof.
  revert k. induction n as [|n IH]; intros k Hk; cbn [read_ack]; [by intros [= <- <-]|].
  destruct (inb PS2_STATUS k) as [v k1] eqn:E. apply bytes_inb in E; [|done]. destruct (negb _); [|by apply IH].
  destruct (inb PS2_DATA k1) as [b k2] eqn:E2. apply bytes_inb in E2; [|done]. destruct (b =? _); [by intros [= <- <-]|].
  by apply IH.
Qed.
Lemma bytes_drain n k : kbd_bytes k → kbd_bytes (drain_pending n k).
Proof.
  revert k. induction n as [|n IH]; intros k Hk; cbn [drain_pending]; [done|].
  destruct (inb PS2_STATUS k) as [v k1] eqn:E. apply bytes_inb in E; [|done]. destruct (negb _); [|done].
  destruct (inb PS2_DATA k1) as [b k2] eqn:E2. apply bytes_inb in E2; [|done]. by apply IH.
Qed.
Lemma bytes_send v s1 s2 k l k' : kbd_bytes k → send_mouse v s1 s2 k = (l, k') → kbd_bytes k'.
Proof.
  intros Hk. unfold send_mouse. destruct (wait_input_clear 500 k) as [a k1] eqn:E1. apply bytes_wait in E1; [|done].
  destruct (wait_input_clear 500 (command PS2_STATUS 0xD4 k1)) as [b k2] eqn:E2. apply bytes_wait in E2; [|exact E1]. by intros [= _ <-].
Qed.

Lemma mouse_init_keeps m k :
  mouse_ok m → kbd_bytes k → let '(_, m', k') := mouse_init m k in mouse_ok m' ∧ kbd_bytes k'.
Proof.
  intros Hm Hk. unfold mouse_init. pose proof (bytes_drain 32 k Hk) as K0. set (k0 := drain_pending 32 k) in *. clearbody k0.
  destruct (wait_input_clear 500 k0) as [okE1 k1] eqn:E1. apply bytes_wait in E1; [|done]. destruct okE1; cbn [negb]; [|by split].
  destruct (wait_input_clear 500 (command PS2_STATUS 0xA8 k1)) as [okE2 k2] eqn:E2. apply bytes_wait in E2; [|done]. destruct okE2; cbn [negb]; [|by split].
  destruct (inb PS2_STATUS (command PS2_STATUS 0x20 k2)) as [st k3] eqn:E3. apply bytes_inb in E3; [|done].
  destruct (inb PS2_DATA k3) as [cmd k4] eqn:E4. apply bytes_inb in E4; [|done].
  destruct (wait_input_clear 500 k4) as [okE5 k5] eqn:E5. apply bytes_wait in E5; [|done]. destruct okE5; cbn [negb]; [|by split].
  destruct (wait_input_clear 500 (command PS2_STATUS 0x60 k5)) as [okE6 k6] eqn:E6. apply bytes_wait in E6; [|done]. destruct okE6; cbn [negb]; [|by split].
  destruct (send_mouse 0xF6 _ _ (command PS2_DATA (Z.lor cmd 2) k6)) as [m1 k7] eqn:E7. apply bytes_send in E7; [|done].
  destruct (read_ack 200 k7) as [a k8] eqn:E8. apply bytes_ack in E8; [|done].
  destruct (send_mouse 0xF4 _ _ k8) as [m2 k9] eqn:E9. apply bytes_send in E9; [|done].
  destruct (read_ack 500 k9) as [ack k10] eqn:E10. apply bytes_ack in E10; [|done].
  split; [|done]. destruct Hm. split; [done|cbn; lia].
Qed.

Lemma shape_prints l t : tty_shape t → tty_shape (foldl print t l).
Proof. revert t. induction l as [|s l IH]; intros t Ht; [done|]. cbn. by apply IH, shape_emit. Qed.

(** *** The theorems *)

Section rounds.
Context (others : Display * Kbd * Tty → Display * Kbd * Tty) (Hothers : others_ok others).
Context (W H : Z) (HW : 26 ≤ W < 2 ^ 30) (HH : 26 ≤ H < 2 ^ 30).

(** What a round that stays in the loop does. *)
Definition round_shows (w w' : Wm) : Prop :=
  ∃ d k t, others (d, k, t) = (display w', kbd w', tty w')
    ∧ keeps (display w) (λ X Y, windows X Y ∨ cursor_at (cx w') (cy w') X Y) d
    ∧ ((cx w', cy w') ≠ (cx w, cy w) → cursor_shown d (cx w') (cy w')).

Lemma keeps_refl d P : keeps d P d.
Proof. by split. Qed.

Lemma wm_step_spec w :
  wm_ok W H w →
  ∃ r, wm_step others W H w = Ret r ∧ match r with inl w' => wm_ok W H w' ∧ round_shows w w' | inr w' => display w' = display w end.
Proof.
  intros [Hd [HdW HdH] Hk Ht Hm Hx Hy]. unfold wm_step.
  destruct (mouse_poll_total (mouse w) (kbd w) Hm Hk) as (r & m & k & -> & Hm' & Hk' & Hr). cbn [rbind].
  set (upd := match r with None => _ | Some _ => _ end).
  assert (∃ x y moved quit, upd = Ret (x, y, moved, quit) ∧ -128 ≤ x < W + 128 ∧ -128 ≤ y < H + 128
    ∧ (moved = false → x = cx w ∧ y = cy w)) as (x & y & moved & quit & -> & Hxr & Hyr & Hmv).
  { unfold upd. destruct r as [[[dx dy] btn]|].
    - destruct (Hr _ _ _ eq_refl). rewrite !int_Ret by lia. cbn [rbind]. eexists _, _, _, _. split; [done|]. split; [lia|]. split; [lia|].
      intros Hz. rewrite orb_false_iff, !negb_false_iff, !Z.eqb_eq in Hz. lia.
    - exists (cx w), (cy w), false, false. split; [done|]. split; [lia|]. split; [lia|]. done. }
  cbn [rbind]. destruct quit; [eexists; by split|].
  destruct (keyboard_poll_total k (tty w) Hk' Ht) as (c & k2 & t & -> & _ & Hk2 & Ht2). cbn [rbind].
  destruct (_ || _); [eexists; by split|].
  destruct (clamp_range x W ltac:(lia) ltac:(lia)) as (x' & -> & Hx' & Hsx). cbn [rbind].
  destruct (clamp_range y H ltac:(lia) ltac:(lia)) as (y' & -> & Hy' & Hsy). cbn [rbind].
  assert (∃ d, (if moved then let! d := draw_desktop (display w) in draw_cursor_at x' y' d else Ret (display w)) = Ret d
    ∧ display_ok d ∧ keeps (display w) (λ X Y, windows X Y ∨ cursor_at x' y' X Y) d
    ∧ ((x', y') ≠ (cx w, cy w) → cursor_shown d x' y')) as (d & -> & Hok & Hke & Hsh).
  { destruct moved.
    - destruct (redraw_shows W H x' y' (display w)) as (d & -> & ? & ? & ?); [done..|lia|lia|lia|lia|]. by exists d.
    - exists (display w). destruct (Hmv eq_refl) as [-> ->]. split_and!; [done|done|apply keeps_refl|].
      intros Hne. destruct Hne. f_equal; lia. }
  cbn [rbind]. pose proof (Hothers d k2 t Hok Hk2 Ht2) as Ho. destruct (others (d, k2, t)) as [[d' k'] t'] eqn:Eo.
  destruct Ho as (Hok' & Hdev & Hk3 & Ht3). eexists. split; [done|]. split.
  - split; cbn; try done. rewrite Hdev, (ke_dev _ _ _ Hke). done.
  - exists d, k2, t. done.
Qed.

Lemma rbind_seq {A B C} (m : res A) (f : A → res B) (K : B → res C) b :
  rbind m f = Ret b → rbind m (λ a, rbind (f a) K) = K b.
Proof. intros E. rewrite <- rbind_assoc. by rewrite E. Qed.

(** The command up to its loop. *)
Lemma wm_start_spec w :
  display_ok (display w) → fb_width (dev (display w)) = W → fb_height (dev (display w)) = H →
  kbd_bytes (kbd w) → tty_shape (tty w) → mouse_ok (mouse w) →
  ∃ w', wm_start w = Ret (Some w') ∧ wm_ok W H w' ∧ cursor_shown (display w') (cx w') (cy w').
Proof.
  intros Hok HdW HdH Hk Ht Hm. unfold wm_start, framebuffer_available, framebuffer_get_width, framebuffer_get_height.
  destruct (do_dev _ Hok) as [g Hg]. rewrite bool_decide_true by (by rewrite Hg). cbn [negb]. rewrite HdW, HdH, !u32_small by lia.
  assert (0 ≤ W `div` 2 ≤ W - 13) by (split; [apply Z.div_pos; lia|]; pose proof (Z.mul_div_le W 2 ltac:(lia)); lia).
  assert (0 ≤ H `div` 2 ≤ H - 13) by (split; [apply Z.div_pos; lia|]; pose proof (Z.mul_div_le H 2 ltac:(lia)); lia).
  rewrite !i32_small by lia.
  destruct (redraw_shows W H (W `div` 2) (H `div` 2) (display w)) as (d & E & Hod & Hsh & Hke); [done..|lia|lia|lia|lia|].
  rewrite (rbind_seq _ _ _ _ E). clear E.
  pose proof (mouse_init_keeps (mouse w) (kbd w) Hm Hk) as Hi. destruct (mouse_init (mouse w) (kbd w)) as [[msgs m] k].
  destruct Hi as [Hm' Hk']. eexists. split; [done|]. split; [|done].
  split; cbn; try done.
  - by rewrite (ke_dev _ _ _ Hke).
  - by apply shape_prints, shape_emit.
Qed.

End rounds.

Definition idle (x : Display * Kbd * Tty) : Display * Kbd * Tty := x.
Lemma idle_ok : others_ok idle.
Proof. by intros d k t Hd Hk Ht. Qed.
Definition wm_demo (keys : list Z) : Wm := WmState (small_display 64 64) (KbdState keys false false false) tty_boot mouse_boot 0 0.


(** The cursor leaves a trail: a cell of the old cursor outside the windows and the new cursor
    stays as it was. *)
Theorem wm_leaves_trail others w w' X Y :
  round_shows others w w' → cursor_shown (display w) (cx w) (cy w) → cursor_at (cx w) (cy w) X Y →
  ¬ windows X Y → ¬ cursor_at (cx w') (cy w') X Y →
  ∃ d k t, others (d, k, t) = (display w', kbd w', tty w') ∧ pixel d X Y = shade (display w) white.
Proof.
  intros (d & k & t & Ho & Hke & _) Hsh Hc Hnw Hnc. exists d, k, t. split; [done|]. destruct (Hsh X Y Hc) as [Hs Hp].
  rewrite (ke_out _ _ _ Hke X Y Hs) by tauto. done.
Qed.

(** The mouse is polled first and takes the code of a 'q' that was waiting: the loop goes on. *)
Example wm_misses_q :
  match wm_step idle 64 64 (WmState (small_display 64 64) (KbdState [1; 0x10; 0; 0; 0] false false false) tty_boot mouse_boot 20 20) with
  | Ret (inl w) => bool_decide (ports (kbd w) = [0; 0])
  | _ => false
  end = true.
Proof. vm_compute. reflexivity. Qed.
