(* ===== verification/InitrdSpec.v ===== *)
(** * Unpacking an archive replays its entries *)
From S2P Require Import Prelude CString HeapSpec HanaPath BlockDev HanaFs HanaInv HanaImage HanaOps HanaRefine Initrd.

(** ** Encoding *)

Inductive tar_entry :=
| TDir (dot : bool) (p : list Z)
| TFile (dot : bool) (p : list Z) (d : list Z).

(** [k] octal digits of [n], most significant first. *)
Fixpoint octal (k : nat) (n : Z) : list Z :=
  match k with
  | O => []
  | S k => (48 + (n `div` 8 ^ Z.of_nat k) `mod` 8) :: octal k n
  end.

Definition pad (n : nat) (s : list Z) : list Z := s ++ replicate (n - length s) 0.
Definition tar_name (dot : bool) (p : list Z) : list Z := (if dot then [46; 47] else []) ++ p.
Definition tar_header (name : list Z) (size flag : Z) : list Z :=
  pad 100 name ++ replicate 24 0 ++ (octal 11 size ++ [0]) ++ replicate 20 0 ++ [flag] ++
  replicate 188 0 ++ replicate 155 0 ++ replicate 12 0.

Definition tar_encode (e : tar_entry) : list Z :=
  match e with
  | TDir dot p => tar_header (tar_name dot p) 0 53
  | TFile dot p d =>
      tar_header (tar_name dot p) (zlen d) 48 ++ d ++
      replicate (Z.to_nat ((zlen d + 511) `div` 512 * 512 - zlen d)) 0
  end.
Definition tar_archive (es : list tar_entry) : list Z := concat (tar_encode <$> es) ++ replicate 1024 0.

Definition tar_path_ok (dot : bool) (p : list Z) : Prop :=
  cstr_ok p ∧ p ≠ [] ∧ zlen p ≤ 97 ∧ head p ≠ Some 46 ∧ head p ≠ Some 47.
Definition tar_ok (e : tar_entry) : Prop :=
  match e with
  | TDir dot p => tar_path_ok dot p
  | TFile dot p d => tar_path_ok dot p ∧ last p ≠ Some 47 ∧ zlen d < 8 ^ 11
  end.

(** ** Decoding *)

Lemma octal_digit_i8 d : 0 ≤ d < 8 → i8 (48 + d) = 48 + d.
Proof. intros Hd. unfold i8, sgn, wrap. rewrite Z.mod_small by lia. by rewrite (proj2 (Z.ltb_lt _ _)) by (cbn; lia). Qed.

Lemma octal_loop_spec k n : ∀ v r, 0 ≤ n → 0 ≤ v → (v + 1) * 8 ^ Z.of_nat k < 2 ^ 64 →
  octal_loop (octal k n ++ 0 :: r) v = v * 8 ^ Z.of_nat k + n `mod` 8 ^ Z.of_nat k.
Proof.
  induction k as [|k IH]; intros v r Hn Hv Hb; cbn [octal app octal_loop].
  { change (8 ^ Z.of_nat 0) with 1. rewrite Z.eqb_refl, Z.mod_1_r. lia. }
  set (d := (n `div` 8 ^ Z.of_nat k) `mod` 8). assert (Hd : 0 ≤ d < 8) by (apply Z.mod_pos_bound; lia).
  rewrite Nat2Z.inj_succ, Z.pow_succ_r in Hb by lia. assert (Hp : 0 < 8 ^ Z.of_nat k) by lia.
  rewrite (proj2 (Z.eqb_neq (48 + d) 0)), octal_digit_i8 by lia.
  rewrite (proj2 (Z.ltb_ge (48 + d) 48)), (proj2 (Z.ltb_ge 55 (48 + d))) by lia. cbn [orb].
  rewrite Z.shiftl_mul_pow2 by lia. change (2 ^ 3) with 8.
  set (P := 8 ^ Z.of_nat k) in *. assert (Hv8 : (v + 1) * 8 ≤ (v + 1) * (8 * P)) by nia.
  rewrite (u64_small (v * 8)), u64_small by lia. rewrite IH; [|done|lia|].
  2: { eapply Z.le_lt_trans; [|exact Hb]. replace ((v + 1) * (8 * P)) with ((v * 8 + 8) * P) by ring.
       apply Z.mul_le_mono_nonneg_r; lia. }
  rewrite Nat2Z.inj_succ, Z.pow_succ_r, (Z.mul_comm 8 (8 ^ Z.of_nat k)) by lia. fold P.
  rewrite Z.rem_mul_r by lia. fold d. ring.
Qed.

Lemma length_octal k n : length (octal k n) = k.
Proof. induction k as [|k IH]; cbn; [done|by rewrite IH]. Qed.

Lemma parse_octal_roundtrip n : 0 ≤ n < 8 ^ 11 → parse_octal (octal 11 n ++ [0]) = n.
Proof.
  intros Hn. unfold parse_octal. rewrite (octal_loop_spec 11 n 0 []) by lia.
  change (Z.of_nat 11) with 11. rewrite Z.mod_small by lia. lia.
Qed.

Lemma copy_field_pad p m n : Forall cchar p → (length p + 2 ≤ n)%nat →
  copy_field_nul (p ++ replicate m 0) n = p.
Proof.
  intros Hp. revert n. induction Hp as [|c p Hc Hp IH]; intros n Hn; cbn [app].
  - destruct m; [by destruct n as [|[|]]|]. by destruct n as [|[|]].
  - destruct n as [|[|n]]; cbn in Hn; [lia|lia|]. cbn [copy_field_nul].
    rewrite (proj2 (Z.eqb_neq c 0)) by (unfold cchar in Hc; lia). f_equal. apply IH. lia.
Qed.

Lemma tar_header_length name size flag : zlen name ≤ 100 → zlen (tar_header name size flag) = 512.
Proof.
  intros Hn. unfold tar_header, pad, zlen in *. rewrite !length_app, !length_replicate, length_octal. cbn. lia.
Qed.

(** The fields of a header in the middle of an archive. *)
Lemma read_header_at pre name size flag post :
  zlen name ≤ 100 →
  read_header (pre ++ tar_header name size flag ++ post) (zlen pre)
  = Ret (Tar (pad 100 name) (octal 11 size ++ [0]) flag (replicate 155 0)).
Proof.
  intros Hn. assert (Hl0 : length (pad 100 name) = 100%nat)
    by (unfold pad, zlen in *; rewrite length_app, length_replicate; lia).
  assert (Hl2 : length (octal 11 size ++ [0]) = 12%nat) by (rewrite length_app, length_octal; done).
  pose proof (tar_header_length name size flag Hn) as Hlen.
  unfold read_header. pose proof (zlen_nonneg pre). pose proof (zlen_nonneg post).
  rewrite !zlen_app, Hlen. rewrite (proj2 (Z.leb_le 0 _)), (proj2 (Z.leb_le _ _)) by lia. cbn [andb].
  set (W := tar_header name size flag) in *.
  assert (Hdrop : ∀ n k : nat, (n + k ≤ 512)%nat →
    take k (drop (Z.to_nat (zlen pre + Z.of_nat n)) (pre ++ W ++ post)) = take k (drop n W)).
  { intros n k Hk. rewrite drop_app_ge by (unfold zlen; lia).
    replace (Z.to_nat (zlen pre + Z.of_nat n) - length pre)%nat with n by (unfold zlen; lia).
    rewrite drop_app_le by (unfold zlen in Hlen; lia). apply take_app_le. rewrite length_drop. unfold zlen in Hlen. lia. }
  rewrite (proj2 (bget_Ret _ (zlen pre + 156) flag)).
  - cbn [rbind]. unfold field. f_equal. f_equal.
    + pose proof (Hdrop 0%nat 100%nat ltac:(lia)) as E. rewrite Z.add_0_r in E.
      change (Z.to_nat 100) with 100%nat. rewrite E, drop_0. unfold W, tar_header.
      apply take_app_length'. by rewrite Hl0.
    + pose proof (Hdrop 124%nat 12%nat ltac:(lia)) as E. change (Z.to_nat 12) with 12%nat.
      change (zlen pre + 124) with (zlen pre + Z.of_nat 124). rewrite E. unfold W, tar_header.
      rewrite (app_assoc (pad 100 name)), drop_app_length' by (rewrite length_app, Hl0, length_replicate; done).
      apply take_app_length'. by rewrite Hl2.
    + pose proof (Hdrop 345%nat 155%nat ltac:(lia)) as E. change (Z.to_nat 155) with 155%nat.
      change (zlen pre + 345) with (zlen pre + Z.of_nat 345). rewrite E. unfold W, tar_header.
      rewrite !app_assoc. rewrite <- (app_assoc _ (replicate 155 0)). rewrite drop_app_length'; [apply take_app_length'; done|].
      rewrite !length_app, Hl0, !length_replicate, length_octal. done.
  - split; [lia|]. pose proof (Hdrop 156%nat 1%nat ltac:(lia)) as E.
    assert (E1 : take 1 (drop 156 W) = [flag]).
    { unfold W, tar_header. rewrite !app_assoc. rewrite <- (app_assoc _ [flag]), <- (app_assoc _ ([flag] ++ _)), <- (app_assoc _ (([flag] ++ _) ++ _)).
      rewrite drop_app_length'; [done|]. rewrite !length_app, Hl0, !length_replicate, length_octal. done. }
    rewrite E1 in E. change (zlen pre + 156) with (zlen pre + Z.of_nat 156).
    rewrite <- (Nat.add_0_r (Z.to_nat _)), <- lookup_drop, <- (lookup_take_lt _ 1) by lia. by rewrite E.
Qed.

Lemma snprintf_id n s : (length s < n)%nat → snprintf n s = s.
Proof. intros Hn. apply take_ge. lia. Qed.

Lemma entry_path_at dot p sz fl : tar_path_ok dot p →
  entry_path (Tar (pad 100 (tar_name dot p)) sz fl (replicate 155 0)) = Some (47 :: p) ∧
  head (pad 100 (tar_name dot p)) ≠ Some 0.
Proof.
  intros (Hs & Hne & Hl & Hh1 & Hh2). unfold zlen in Hl.
  assert (Hname : Forall cchar (tar_name dot p)).
  { unfold tar_name. apply Forall_app. split; [|done]. destruct dot; [|constructor].
    repeat constructor; unfold cchar; lia. }
  assert (Hlen : (length (tar_name dot p) ≤ 99)%nat) by (unfold tar_name; rewrite length_app; destruct dot; cbn; lia).
  split.
  - unfold entry_path, pad. cbn [h_name h_prefix]. rewrite copy_field_pad by (done || lia).
    replace (copy_field_nul (replicate 155 0) 256) with (@nil Z) by reflexivity.
    rewrite (bool_decide_true (@nil Z = [])) by done.
    rewrite snprintf_id by lia.
    assert (Hfn : (if bool_decide (take 2 (tar_name dot p) = [46; 47]) then drop 2 (tar_name dot p) else tar_name dot p) = p).
    { destruct dot; [done|]. unfold tar_name. cbn [app]. rewrite bool_decide_false; [done|].
      intros Ht. apply Hh1. destruct p as [|c [|d p]]; cbn in *; congruence. }
    rewrite Hfn, (bool_decide_false (p = [])), (bool_decide_false (p = [46])), (bool_decide_false (head p = Some 47)) by
      (first [done | intros ->; by apply Hh1]). cbn [orb]. rewrite snprintf_id by (cbn; lia). done.
  - unfold pad. destruct (tar_name dot p) as [|c l] eqn:E.
    + unfold tar_name in E. destruct dot; by destruct p.
    + apply Forall_cons in Hname as [Hc _]. cbn. unfold cchar in Hc. intros [= ->]. lia.
Qed.

Section replay.
Context {H D : Type} `{Allocator H} `{BlockDev D}.
Notation St := (HanaFS H D).

(** What an entry asks of the file system; [false] when a file cannot be written. *)
Definition replay_entry (e : tar_entry) (s : St) : res (bool * St) :=
  match e with
  | TDir _ p => let! (_, s) := hanafs_make_dir (Some (47 :: p)) s in Ret (true, s)
  | TFile _ p [] =>
      let! s := ensure_parent_dirs (47 :: p) s in
      let! (_, s) := hanafs_create_file (Some (47 :: p)) s in Ret (true, s)
  | TFile _ p d =>
      let! s := ensure_parent_dirs (47 :: p) s in
      let! (rc, s) := hanafs_write_file (Some (47 :: p)) (Some d) (zlen d) s in Ret (rc =? 0, s)
  end.

Fixpoint replay (es : list tar_entry) (s : St) : res (Z * St) :=
  match es with
  | [] => Ret (0, s)
  | e :: es =>
      let! (ok, s) := replay_entry e s in
      if ok : bool then replay es s else Ret (-1, s)
  end.

(** A write takes its bytes from the front of the buffer. *)
Lemma write_file_prefix p d rest (s : St) :
  hanafs_write_file p (Some (d ++ rest)) (zlen d) s = hanafs_write_file p (Some d) (zlen d) s.
Proof.
  unfold hanafs_write_file. destruct p as [p|]; [|done]. destruct (kmalloc (strlen p + 2) s) as [pb s1].
  destruct (pb =? 0); [done|]. destruct (resolve p) as [[[drv q] ip]| |]; [|done..]. cbn [rbind].
  destruct (remove_existing ip s1) as [s2| |]; [|done..]. cbn [rbind].
  destruct (kmalloc sizeof_HanaEntry s2) as [e s3]. destruct (e =? 0); [done|].
  destruct (strdup_k ip s3) as [[pp ps] s4].
  replace (take (Z.to_nat (zlen d)) (d ++ rest)) with (take (Z.to_nat (zlen d)) d)
    by (rewrite take_app_le; [done|unfold zlen; lia]).
  pose proof (zlen_nonneg rest). rewrite zlen_app.
  by rewrite (proj2 (Z.leb_le (zlen d) (zlen d + zlen rest))), (Z.leb_refl (zlen d)) by lia.
Qed.

Lemma tar_name_length dot p : tar_path_ok dot p → zlen (tar_name dot p) ≤ 100.
Proof. intros (_ & _ & Hl & _). unfold tar_name. rewrite zlen_app. destruct dot; unfold zlen in *; cbn; lia. Qed.

Definition tar_size (e : tar_entry) : Z := match e with TDir _ _ => 0 | TFile _ _ d => zlen d end.

Lemma tar_encode_length e : tar_ok e → zlen (tar_encode e) = 512 + (tar_size e + 511) `div` 512 * 512.
Proof.
  destruct e as [dot p|dot p d]; cbn [tar_ok tar_encode tar_size].
  - intros Hp. rewrite tar_header_length by by apply tar_name_length. done.
  - intros (Hp & _ & _). rewrite zlen_app, tar_header_length, zlen_app by by apply tar_name_length.
    assert (Hr : zlen d ≤ (zlen d + 511) `div` 512 * 512).
    { pose proof (Z.div_mod (zlen d + 511) 512). pose proof (Z.mod_pos_bound (zlen d + 511) 512). lia. }
    unfold zlen at 2. rewrite length_replicate. lia.
Qed.

(** The header that [unpack] reads for an entry. *)
Definition tar_head (e : tar_entry) : TarHeader :=
  let '(dot, p, flag) := match e with TDir dot p => (dot, p, 53) | TFile dot p _ => (dot, p, 48) end in
  Tar (pad 100 (tar_name dot p)) (octal 11 (tar_size e) ++ [0]) flag (replicate 155 0).

Lemma tar_head_read pre e post : tar_ok e →
  read_header (pre ++ tar_encode e ++ post) (zlen pre) = Ret (tar_head e) ∧
  head (h_name (tar_head e)) ≠ Some 0 ∧ parse_octal (h_size (tar_head e)) = tar_size e ∧
  entry_path (tar_head e) = Some (47 :: match e with TDir _ p => p | TFile _ p _ => p end).
Proof.
  destruct e as [dot p|dot p d]; cbn [tar_ok tar_encode tar_head tar_size h_size h_name].
  - intros Hp. destruct (entry_path_at dot p (octal 11 0 ++ [0]) 53 Hp) as [He Hh].
    rewrite read_header_at by by apply tar_name_length. split_and!; [done|done|by apply parse_octal_roundtrip|done].
  - intros (Hp & Hl & Hd). destruct (entry_path_at dot p (octal 11 (zlen d) ++ [0]) 48 Hp) as [He Hh].
    rewrite <- app_assoc, read_header_at by by apply tar_name_length.
    split_and!; [done|done|apply parse_octal_roundtrip; split; [apply zlen_nonneg|done]|done].
Qed.

Lemma unpack_entry_at pre e post (s : St) :
  let data := pre ++ tar_encode e ++ post in
  tar_ok e → zlen data < 2 ^ 40 →
  unpack_entry data (zlen data) (zlen pre) (tar_head e) (47 :: match e with TDir _ p => p | TFile _ p _ => p end) s
  = replay_entry e s.
Proof.
  intros data Hok Hd. destruct (tar_head_read pre e post Hok) as (_ & _ & Hsz & _).
  pose proof (zlen_nonneg pre). pose proof (zlen_nonneg post). unfold unpack_entry. rewrite Hsz.
  destruct e as [dot p|dot p d]; [done|]. cbn [tar_ok tar_size] in *. destruct Hok as (Hp & Hl & Hdl).
  pose proof (tar_encode_length (TFile dot p d) ltac:(done)) as Hlen. cbn [tar_size] in Hlen.
  assert (Hdata : zlen data = zlen pre + zlen (tar_encode (TFile dot p d)) + zlen post) by (unfold data; rewrite !zlen_app; lia).
  unfold entry_kind. cbn [tar_head h_typeflag]. change (48 =? 53) with false. cbv iota.
  rewrite bool_decide_false by (destruct p as [|c p]; [by destruct Hp as (_ & ? & _)|exact Hl]).
  destruct d as [|c d]; [done|]. set (dd := c :: d) in *.
  pose proof (Z.div_mod (zlen dd + 511) 512). pose proof (Z.mod_pos_bound (zlen dd + 511) 512).
  assert (Hpos : 0 < zlen dd) by (unfold dd; rewrite zlen_cons; pose proof (zlen_nonneg d); lia).
  rewrite (proj2 (Z.ltb_lt 0 _)) by done.
  rewrite (u64_small (zlen pre + 512)), u64_small, (proj2 (Z.ltb_ge _ _)) by lia.
  unfold replay_entry, dd. fold dd. destruct (ensure_parent_dirs (47 :: p) s) as [s1| |]; cbn [rbind]; [|done..].
  assert (Hdrop : drop (Z.to_nat (zlen pre + 512)) data
    = dd ++ replicate (Z.to_nat ((zlen dd + 511) `div` 512 * 512 - zlen dd)) 0 ++ post).
  { unfold data. cbn [tar_encode]. rewrite drop_app_ge by (unfold zlen; lia). rewrite <- !app_assoc.
    apply drop_app_length'. pose proof (tar_header_length (tar_name dot p) (zlen dd) 48 (tar_name_length _ _ Hp)) as Hh.
    unfold zlen in Hh |- *. lia. }
  rewrite Hdrop. by rewrite write_file_prefix.
Qed.

Lemma unpack_step pre e post fuel (s : St) :
  let data := pre ++ tar_encode e ++ post in
  tar_ok e → zlen data < 2 ^ 40 →
  unpack (S fuel) data (zlen data) (zlen pre) s
  = let! (ok, s) := replay_entry e s in
    if ok : bool then unpack fuel data (zlen data) (zlen (pre ++ tar_encode e)) s else Ret (-1, s).
Proof.
  intros data Hok Hd. destruct (tar_head_read pre e post Hok) as (Hr & Hn & Hsz & Hp).
  pose proof (tar_encode_length e Hok) as Hlen. pose proof (zlen_nonneg pre). pose proof (zlen_nonneg post).
  assert (Hs0 : 0 ≤ tar_size e) by (destruct e; [done|apply zlen_nonneg]).
  assert (Hdata : zlen data = zlen pre + zlen (tar_encode e) + zlen post) by (unfold data; rewrite !zlen_app; lia).
  assert (Hdiv : 0 ≤ (tar_size e + 511) `div` 512) by (apply Z.div_pos; lia).
  pose proof (Z.div_mod (tar_size e + 511) 512). pose proof (Z.mod_pos_bound (tar_size e + 511) 512).
  cbn [unpack]. rewrite (u64_small (zlen pre + 512)), (proj2 (Z.leb_le _ _)) by lia.
  unfold data at 1. rewrite Hr. cbn [rbind]. rewrite bool_decide_false by done. rewrite Hp.
  unfold data at 1 2. rewrite unpack_entry_at by done. fold data. rewrite Hsz.
  rewrite (u64_small (tar_size e + 511)), (u64_small (_ * 512)), u64_small by lia.
  by replace (zlen pre + 512 + (tar_size e + 511) `div` 512 * 512) with (zlen (pre ++ tar_encode e)) by (rewrite zlen_app; lia).
Qed.

Lemma unpack_archive es : ∀ pre fuel (s : St),
  let data := pre ++ tar_archive es in
  Forall tar_ok es → zlen data < 2 ^ 40 → (length es < fuel)%nat →
  unpack fuel data (zlen data) (zlen pre) s = replay es s.
Proof.
  induction es as [|e es IH]; intros pre [|fuel] s data Hok Hd Hf; cbn in Hf; try lia.
  - cbn [unpack replay]. unfold data, tar_archive in *. cbn [fmap list_fmap concat app] in *.
    rewrite zlen_app in *. change (zlen (replicate 1024 0)) with 1024 in *. pose proof (zlen_nonneg pre).
    rewrite u64_small, (proj2 (Z.leb_le _ _)) by lia. unfold read_header.
    rewrite zlen_app. change (zlen (replicate 1024 0)) with 1024.
    rewrite (proj2 (Z.leb_le 0 _)), (proj2 (Z.leb_le _ _)) by lia. cbn [andb].
    rewrite (proj2 (bget_Ret _ (zlen pre + 156) 0)).
    + cbn [rbind]. unfold field. cbn [h_name]. rewrite drop_app_length' by (unfold zlen; lia). done.
    + split; [lia|]. rewrite lookup_app_r by (unfold zlen; lia). apply lookup_replicate_2. unfold zlen. lia.
  - apply Forall_cons in Hok as [He Hok]. unfold tar_archive in *. cbn [fmap list_fmap concat] in *.
    unfold data in *. rewrite <- app_assoc in Hd |- *. rewrite unpack_step by done. cbn [replay].
    destruct (replay_entry e s) as [[[] s']| |]; cbn [rbind]; [|done..].
    specialize (IH (pre ++ tar_encode e) fuel s'). cbn zeta in IH. rewrite <- app_assoc in IH. apply IH; [done|done|lia].
Qed.

Lemma tar_archive_length es : Forall tar_ok es → 512 * zlen es + 1024 ≤ zlen (tar_archive es).
Proof.
  unfold tar_archive. rewrite zlen_app. change (zlen (replicate 1024 0)) with 1024.
  induction 1 as [|e es He _ IH]; [unfold zlen; cbn; lia|]. rewrite fmap_cons. cbn [concat]. rewrite zlen_app, zlen_cons, tar_encode_length by done.
  assert (Hs0 : 0 ≤ tar_size e) by (destruct e; [done|apply zlen_nonneg]).
  assert (0 ≤ (tar_size e + 511) `div` 512) by (apply Z.div_pos; lia).
  lia.
Qed.

Lemma initrd_replays es (s : St) :
  Forall tar_ok es → zlen (tar_archive es) < 2 ^ 40 →
  init_from_memory (Some (tar_archive es)) (zlen (tar_archive es)) s = replay es s.
Proof.
  intros Hok Hl. pose proof (tar_archive_length es Hok) as Hlen. pose proof (zlen_nonneg es).
  unfold init_from_memory. rewrite (proj2 (Z.eqb_neq _ 0)) by lia.
  apply (unpack_archive es [] _ s Hok Hl).
  assert (Hq : zlen es ≤ zlen (tar_archive es) `div` 512) by (apply Z.div_le_lower_bound; lia).
  unfold zlen at 1 in Hq. lia.
Qed.

(** Unpacking the initrd: on an archive of directories and regular files, however long,
    [init_from_memory] terminates and does to HanaFS exactly what its entries say, in order
    (make the directory; or make the parents, then write the file's bytes), stopping with -1
    at the first file that cannot be written. *)
Theorem initrd_replays_archive es (s : St) :
  Forall tar_ok es → zlen (tar_archive es) < 2 ^ 40 →
  init_from_memory (Some (tar_archive es)) (zlen (tar_archive es)) s = replay es s.
Proof. apply initrd_replays. Qed.
End replay.

Lemma initrd_replays_archive_witness :
  let es := [TDir true (str "etc/"); TFile true (str "etc/motd") (str "hi"); TFile false (str "bin/sh") []] in
  init_from_memory (H0 := heap_allocator bi0) (Some (tar_archive es)) (zlen (tar_archive es)) fs0
  = replay (H0 := heap_allocator bi0) es fs0.
Proof.
  intros es. apply (initrd_replays_archive (H0 := heap_allocator bi0) es fs0).
  - repeat constructor; cbn [tar_ok]; unfold tar_path_ok;
      repeat (apply conj); first [done | by apply (bool_decide_unpack _) | vm_compute; congruence].
  - vm_compute. reflexivity.
Defined.

(** The files the archive above leaves. *)
Example initrd_files :
  (let es := [TDir true (str "etc/"); TFile true (str "etc/motd") (str "hi"); TFile false (str "bin/sh") []] in
   let! (rc, s) := init_from_memory (H0 := heap_allocator bi0) (Some (tar_archive es)) (zlen (tar_archive es)) fs0 in
   Ret (rc, fs_abs s !! str "/etc/motd", fs_abs s !! str "/bin", fs_abs s !! str "/bin/sh"))
  = Ret (0, Some (File (str "hi")), Some Dir, Some (File [])).
Proof. vm_compute. reflexivity. Qed.

(** A module path shorter than the name that is looked for is read from before its start. *)
Example short_module_path :
  init_from_module (H0 := heap_allocator bi0) [(Some (str "/x"), [])] (str "initrd.img") fs0 = UB.
Proof. vm_compute. reflexivity. Qed.

(** * What an initrd leaves in HanaFS

    Unpacking an archive makes the calls its entries stand for; with
    the refinement of HanaRefine.v those calls build the archive's tree in the abstract file
    system. *)


(** The parents of a path, shortest first: its prefixes before a slash, from index [i] on. *)
Fixpoint parents_from (n i : nat) (p : list Z) : list (list Z) :=
  match n with
  | O => []
  | S n => (if bool_decide (p !! i = Some 47) then [take i p] else []) ++ parents_from n (S i) p
  end.
Definition parents (p : list Z) : list (list Z) := parents_from (length p - 1) 1 p.

(** An entry as calls on the abstract file system. *)
Definition tar_calls (e : tar_entry) : list call :=
  match e with
  | TDir _ p => [Mkdir (47 :: p)]
  | TFile _ p d => (Mkdir <$> parents (47 :: p)) ++ [Write (47 :: p) d]
  end.
Definition archive_calls (es : list tar_entry) : list call := es ≫= tar_calls.

(** The abstract state after calls, and the room they leave. *)
Fixpoint aafter (m : AFs) (cs : list call) : AFs :=
  match cs with [] => m | c :: cs => aafter (acall m c).2 cs end.
Fixpoint aroom (r : Z) (m : AFs) (cs : list call) : Z :=
  match cs with [] => r | c :: cs => aroom (r - room (map_size m) c) (acall m c).2 cs end.

Lemma calls_app cs1 : ∀ r m cs2,
  aafter m (cs1 ++ cs2) = aafter (aafter m cs1) cs2 ∧
  aroom r m (cs1 ++ cs2) = aroom (aroom r m cs1) (aafter m cs1) cs2 ∧
  (run_fits r m (cs1 ++ cs2) ↔ run_fits r m cs1 ∧ run_fits (aroom r m cs1) (aafter m cs1) cs2).
Proof.
  induction cs1 as [|c cs1 IH]; intros r m cs2; cbn [app aafter aroom run_fits]; [tauto|].
  destruct (IH (r - room (map_size m) c) (acall m c).2 cs2) as (-> & -> & ->). tauto.
Qed.

Section archive.
Context {H D : Type} `{AllocatorSpec H} `{BlockDevSpec D}.
Notation St := (HanaFS H D).

(** [f] makes the calls [cs]: with room for them it ends in the state they lead to. *)
Definition makes (cs : list call) (f : St → res St) : Prop :=
  ∀ r s, fs_inv r [] s → Forall call_ok cs → run_fits r (fs_abs s) cs →
    ∃ s', f s = Ret s' ∧ fs_abs s' = aafter (fs_abs s) cs ∧ fs_inv (aroom r (fs_abs s) cs) [] s'.

Lemma makes_nil : makes [] Ret.
Proof. intros r s Hi _ _. by exists s. Qed.

Lemma makes_app cs1 cs2 f g : makes cs1 f → makes cs2 g → makes (cs1 ++ cs2) (λ s, let! s := f s in g s).
Proof.
  intros Hf Hg r s Hi [H1ok H2ok]%Forall_app Hr. destruct (calls_app cs1 r (fs_abs s) cs2) as (-> & -> & Hb).
  apply Hb in Hr as [Hr1 Hr2]. destruct (Hf r s Hi H1ok Hr1) as (s1 & -> & Ha1 & Hi1).
  rewrite <- Ha1 in *. cbn [rbind]. by apply Hg.
Qed.

Lemma makes_ext cs f g : (∀ s, f s = g s) → makes cs g → makes cs f.
Proof. intros Hfg Hg r s Hi Hok Hr. rewrite Hfg. by apply Hg. Qed.

Lemma makes_mkdir p : makes [Mkdir p] (λ s, let! (_, s) := hanafs_make_dir (Some p) s in Ret s).
Proof.
  intros r s Hi Hok (Hr & Hg & Hn & _). apply Forall_cons in Hok as [Hok _].
  destruct (hana_call_refines r [] s _ Hi Hok Hr Hg Hn) as (s' & He & Ha & Hi'). exists s'.
  unfold ccall in He. apply rbind_Ret in He as ([rc s1] & -> & [= _ <-]). by split_and!.
Qed.

(** A file is written with result 0. *)
Lemma makes_write p d : makes [Write p d] (λ s,
  let! (rc, s) := hanafs_write_file (Some p) (Some d) (zlen d) s in if rc =? 0 then Ret s else UB).
Proof.
  intros r s Hi Hok (Hr & Hg & Hn & _). apply Forall_cons in Hok as [Hok _].
  destruct (hana_call_refines r [] s _ Hi Hok Hr Hg Hn) as (s' & He & Ha & Hi'). exists s'.
  unfold ccall in He. apply rbind_Ret in He as ([rc s1] & -> & [= Hrc <-]). cbn [rbind]. rewrite Hrc. by split_and!.
Qed.

Lemma makes_parents p n : (length p ≤ 511)%nat → ∀ i, makes (Mkdir <$> parents_from n i p) (parents_loop n i p).
Proof.
  intros Hp. induction n as [|n IH]; intros i; cbn [parents_from parents_loop]; [apply makes_nil|].
  rewrite fmap_app. destruct (decide (p !! i = Some 47)) as [E|E].
  - rewrite bool_decide_true by done.
    apply (makes_ext _ _ (λ s, let! s := (let! (_, s) := hanafs_make_dir (Some (take i p)) s in Ret s) in parents_loop n (S i) p s)).
    { intros s. unfold snprintf. rewrite (take_ge (take i p)) by (rewrite length_take; lia). by destruct (hanafs_make_dir _ s) as [[? ?]| |]. }
    apply makes_app; [apply makes_mkdir|apply IH].
  - rewrite bool_decide_false by done. apply IH.
Qed.

(** The parents of an absolute path. *)
Lemma makes_ensure p : (length p < 511)%nat → makes (Mkdir <$> parents (47 :: p)) (ensure_parent_dirs (47 :: p)).
Proof.
  intros Hp. unfold parents. apply (makes_ext _ _ (parents_loop (length (47 :: p) - 1) 1 (47 :: p))).
  - intros s. unfold ensure_parent_dirs. rewrite (proj2 (Z.leb_gt _ _)) by (unfold strlen, zlen; cbn; lia). done.
  - apply makes_parents. cbn. lia.
Qed.

Lemma makes_entry e : tar_ok e →
  makes (tar_calls e) (λ s, let! (ok, s) := replay_entry e s in if ok : bool then Ret s else UB).
Proof.
  destruct e as [dot p|dot p d]; cbn [tar_ok tar_calls replay_entry].
  - intros _. eapply makes_ext; [|apply makes_mkdir]. intros s. cbn beta. by destruct (hanafs_make_dir _ s) as [[? ?]| |].
  - intros ((_ & _ & Hl & _) & _). destruct d as [|c d].
    + apply (makes_ext _ _ (λ s, let! s := ensure_parent_dirs (47 :: p) s in
               let! (_, s) := hanafs_write_file (Some (47 :: p)) (Some []) 0 s in Ret s)).
      { intros s. destruct (ensure_parent_dirs _ s) as [s1| |]; try done; cbn [rbind]. unfold hanafs_create_file.
        change (hanafs_write_file (Some (47 :: p)) (Some []) 0 s1) with (hanafs_write_file (Some (47 :: p)) None 0 s1).
        by destruct (hanafs_write_file _ _ _ s1) as [[? ?]| |]. }
      apply makes_app; [apply makes_ensure; unfold zlen in Hl; lia|].
      intros r s Hi Hok Hr. destruct (makes_write (47 :: p) [] r s Hi Hok Hr) as (s' & He & Hrest). exists s'. split; [|done].
      change (zlen []) with 0 in He. destruct (hanafs_write_file _ _ _ s) as [[rc s1]| |]; cbn [rbind] in *; [|done..].
      by destruct (rc =? 0).
    + apply (makes_ext _ _ (λ s, let! s := ensure_parent_dirs (47 :: p) s in
        let! (rc, s) := hanafs_write_file (Some (47 :: p)) (Some (c :: d)) (zlen (c :: d)) s in if rc =? 0 then Ret s else UB)).
      { intros s. destruct (ensure_parent_dirs _ s) as [s1| |]; try done; cbn [rbind].
        by destruct (hanafs_write_file _ _ _ s1) as [[? ?]| |]. }
      apply makes_app; [apply makes_ensure; unfold zlen in Hl; lia|apply makes_write].
Qed.

Lemma makes_replay es : Forall tar_ok es →
  makes (archive_calls es) (λ s, let! (rc, s) := replay es s in if rc =? 0 then Ret s else UB).
Proof.
  induction 1 as [|e es He _ IH]; [by eapply makes_ext; [|apply makes_nil]|].
  unfold archive_calls in *. rewrite bind_cons.
  eapply makes_ext; [|exact (makes_app _ _ _ _ (makes_entry e He) IH)]. intros s. cbn [replay].
  by destruct (replay_entry e s) as [[[] s1]| |].
Qed.

Lemma initrd_unpacks es r (s : St) :
  fs_inv r [] s → Forall tar_ok es → zlen (tar_archive es) < 2 ^ 40 →
  Forall call_ok (archive_calls es) → run_fits r (fs_abs s) (archive_calls es) →
  ∃ s', init_from_memory (Some (tar_archive es)) (zlen (tar_archive es)) s = Ret (0, s') ∧
        fs_abs s' = aafter (fs_abs s) (archive_calls es) ∧ fs_inv (aroom r (fs_abs s) (archive_calls es)) [] s'.
Proof.
  intros Hi Hes Hl Hok Hr. rewrite initrd_replays by done.
  destruct (makes_replay es Hes r s Hi Hok Hr) as (s' & He & Ha & Hi'). exists s'. split; [|done].
  destruct (replay es s) as [[rc s1]| |]; cbn [rbind] in He; [|done..].
  destruct (Z.eqb_spec rc 0) as [->|]; [by injection He as ->|done].
Qed.

End archive.

