(* ===== verification/Boot.v ===== *)
(** * Starting the kernel (kernel/kernel.cpp, boot/limine_entry.c)

    [kernel_main] over the state of all components it sets up: the frame buffer's statics, the
    processor's tables and MSRs, the keyboard, and the session of Commands.v, whose kernel part
    has the heap, the file systems, the scheduler and the terminals.  Text goes to the
    terminal's screen.  The bootloader's answers, link-time addresses and global constructors
    are parameters. *)
From S2P Require Import Prelude CString HeapSpec Tty Keyboard BlockDev HanaFs Vfs Sched Syscalls Initrd Users LibC Fat FatMount Commands Login Arch Framebuffer Logger.

Record Machine (D : Type) := MachineState {
  video : Fb;
  gdt : list Gdt.gdt_entry; gdtr : Gdt.gdt_ptr; segs : Gdt.segments;
  idt : list Idt.idt_entry; idtr : Idt.idt_ptr;
  msrs : gmap Z Z;
  kbd : Kbd;
  session : Session Heap.Heap D
}.
Arguments MachineState {D} _ _ _ _ _ _ _ _ _.
Arguments video {D} _.
Arguments gdt {D} _.
Arguments gdtr {D} _.
Arguments segs {D} _.
Arguments idt {D} _.
Arguments idtr {D} _.
Arguments msrs {D} _.
Arguments kbd {D} _.
Arguments session {D} _.

(** ** The bootloader protocol (boot/limine_entry.c, boot/limine.h)

    The 64-bit words by which the loader finds what the kernel asks for. *)

Definition LIMINE_COMMON_MAGIC : list Z := [0xc7b1dd30df4c8b88; 0x0a82e883a194f07b].
Definition LIMINE_REQUESTS_START_MARKER : list Z :=
  [0xf6b8f4b39de7d1ae; 0xfab91a6940fcb9cf; 0x785c6ed015d3e316; 0x181e920a7852b9d9].
Definition LIMINE_REQUESTS_END_MARKER : list Z := [0xadc0e0531bb10d03; 0x9572709f31764c62].
Definition LIMINE_BASE_REVISION (n : Z) : list Z := [0xf9562b2d5c95a6c8; 0x6a7b384944536bdc; n].
Definition LIMINE_MODULE_REQUEST : list Z := LIMINE_COMMON_MAGIC ++ [0x3e7e279702be32af; 0xca1c4f3bd1280cee].

Definition limine_requests_start_marker : list Z := [0xf03dcc8458224f02; 0x6fe4038153e7e6eb; 0; 0].
Definition limine_base_revision : list Z := [0xf3dde7e28e7f38f9; 0x29450aabb7e8d74d; 0; 0].
Definition limine_requests_end_marker : list Z := [0; 0].
Definition module_request_id : list Z :=
  [0xc7b1dd30df4c8b88; 0x0a82e883a194f07b; 0x3e7e279702be32af; 0xca1c4f3bd1280cee].

(** The module request carries the protocol's identifier; the base revision tag and the
    markers do not carry theirs, so the loader takes the kernel for one of base revision 0
    without a delimited request area. *)
Lemma base_revision_not_announced :
  module_request_id = LIMINE_MODULE_REQUEST ∧
  (∀ n, take 2 limine_base_revision ≠ take 2 (LIMINE_BASE_REVISION n)) ∧
  limine_requests_start_marker ≠ LIMINE_REQUESTS_START_MARKER ∧
  limine_requests_end_marker ≠ LIMINE_REQUESTS_END_MARKER.
Proof. split_and!; done. Qed.

(** [memcmp (s + sl - fl, suffix, fl)] when the suffix is not longer. *)
Definition ends_with (s suffix : option (list Z)) : res bool :=
  match s, suffix with
  | Some s, Some suffix =>
      if (length s <? length suffix)%nat then Ret false
      else let! c := memcmp (length suffix) (drop (length s - length suffix) s) suffix in Ret (c =? 0)
  | _, _ => Ret false
  end.

(** An array of function pointers: every one that is not NULL is called, in order. *)
Fixpoint call_all {M} (fs : list (option (M → res M))) (m : M) : res M :=
  match fs with
  | [] => Ret m
  | f :: fs => let! m := match f with Some f => f m | None => Ret m end in call_all fs m
  end.

Section kernel.
Context {D : Type} `{BlockDev D} `{FatFs Heap.Heap D}.
Context (bi : Bump.Boot).
#[local] Hint Extern 0 (Allocator _) => exact (heap_allocator bi) : typeclass_instances.
#[local] Hint Extern 0 (Loader _) => exact (heap_loader bi) : typeclass_instances.
(** Link-time addresses and the stack pointer at the call of [init_scheduler]. *)
Context (static_heap gdt_addr idt_addr isr_stub syscall_entry main_storage sp : Z).
(** What the bootloader answers. *)
Context (resp : option (list limine_framebuffer)) (hhdm : option Z) (modules : option (list BootModule)).
Context (init_array fini_array : list (option (Machine D → res (Machine D)))) (build_date version : list Z).
Notation M := (Machine D).
Notation S := (Session Heap.Heap D).

Definition call_constructors : M → res M := call_all init_array.
Definition call_destructors : M → res M := call_all fini_array.

(** ** Logging *)

Definition console (s : list Z) (t : Tty) : Tty := Tty.print t s.
Definition set_screen (s : S) (t : Tty) : S := with_kern (set_ktty (kern s) t) s.
Definition say (log : list Z → list Arg → Tty → res Tty) (fmt : string) (args : list Arg) (s : S) : res S :=
  let! t := log (str fmt) args (ktty (kern s)) in Ret (set_screen s t).
Definition ok := say (log_ok console).
Definition fail := say (log_fail console).
Definition info := say (log_info console).
Fixpoint info_each (fmt : string) (names : list (list Z)) (s : S) : res S :=
  match names with
  | [] => Ret s
  | n :: names => let! s := info fmt [AStr n] s in info_each fmt names s
  end.

(** ** The sequence *)

Definition on_session (f : S → res S) (m : M) : res M :=
  let! s := f (session m) in
  Ret (MachineState (video m) (gdt m) (gdtr m) (segs m) (idt m) (idtr m) (msrs m) (kbd m) s).
Definition on_fs (f : HanaFS Heap.Heap D → res (HanaFS Heap.Heap D)) (s : S) : res S :=
  let! x := f (fs (kvfs (kern s))) in Ret (with_kern (set_kfs (kern s) x) s).
Definition on_vfs (f : Vfs Heap.Heap D → Vfs Heap.Heap D) (s : S) : S :=
  with_kern (set_kvfs (kern s) (f (kvfs (kern s)))) s.

Definition start_video (m : M) : res M :=
  let '(up, f) := framebuffer_init resp hhdm (video m) in
  let m := MachineState f (gdt m) (gdtr m) (segs m) (idt m) (idtr m) (msrs m) (kbd m) (session m) in
  on_session (λ s,
    if up : bool then ok "Framebuffer initialized" [] (set_screen s (emit (ktty (kern s)) ClearScreen))
    else fail "No framebuffer detected" [] s) m.

Definition start_cpu (m : M) : res M :=
  let! (g, p, sg) := Gdt.gdt_install gdt_addr (gdt m) in
  let! (t, q) := Idt.idt_install isr_stub idt_addr (idt m) in
  Ret (MachineState (video m) g p sg t q (init_syscall syscall_entry (msrs m)) (kbd m) (session m)).

Definition start_heap (s : S) : S :=
  with_kern (set_kheap (kern s) (Heap.heap_init static_heap (1024 * 1024) (kheap (kern s)))) s.
Definition start_keyboard (m : M) : M :=
  MachineState (video m) (gdt m) (gdtr m) (segs m) (idt m) (idtr m) (msrs m) (keyboard_init (kbd m)) (session m).

Definition load_initrd (s : S) : res S :=
  let! (rc, x) := init_from_module (default [] modules) (str "initrd.tar") (fs (kvfs (kern s))) in
  let s := with_kern (set_kfs (kern s) x) s in
  if rc =? 0 then ok "Loaded initrd.tar into ramfs/HanaFS" [] s
  else info "No initrd.tar module found or extraction failed" [] s.

Definition list_to_log (dir fmt : string) (s : S) : res S :=
  let! (_, names, v) := vfs_list_dir (Some (str dir)) (kvfs (kern s)) in
  info_each fmt names (with_kern (set_kvfs (kern s) v) s).

Definition start_scheduler (s : S) : res S :=
  let! (h, t) := init_scheduler bi static_heap main_storage sp (kheap (kern s)) (ksched (kern s)) in
  Ret (with_kern (set_ksched (set_kheap (kern s) h) t) s).

Definition start_files (s : S) : res S :=
  let! s := info "Attempting to load initrd.tar (initrd) from Limine modules" [] s in
  let! s := load_initrd s in
  let s := on_vfs devfs_init (on_vfs procfs_init (on_vfs vfs_init s)) in
  let! s := info "Listing mounted filesystems:" [] s in
  let! s := info_each "  %s" (vfs_list_mounts (kvfs (kern s))).2 s in
  let! s := info "Listing root directory (/):" [] s in
  let! s := list_to_log "/" "  / entry: %s" s in
  let! s := info "Listing /bin directory:" [] s in
  list_to_log "/bin" "  /bin entry: %s" s.

(** Everything before the call of [login_main]. *)
Definition kernel_start (m : M) : res M :=
  let! m := start_video m in
  let! m := on_session (info "=== HanaCore Kernel Starting ===" []) m in
  let! m := call_constructors m in
  let! m := on_session (ok "Global constructors called" []) m in
  let! m := start_cpu m in
  let! m := on_session (λ s, Ret (start_heap s)) m in
  let m := start_keyboard m in
  let! m := on_session (ok "Core subsystems initialized" []) m in
  let! m := on_session (info "Build: %s | Version: %s" [AStr build_date; AStr version]) m in
  let! m := on_session start_files m in
  on_session (λ s, let! s := start_scheduler s in info "Scheduler initialized" [] s) m.

(** [login_main] halts the machine or goes on for ever; what follows it is not reached. *)
Definition kernel_main (task_trampoline user_mode_entry_trampoline : Z)
    (run_entry : Z → Kernel Heap.Heap D → Kernel Heap.Heap D) (date time : list Z)
    (others : Heap.Heap → Sched → Heap.Heap * Sched) (fuel : nat) (m : M) : res (ending * M) :=
  let! m := kernel_start m in
  let! (e, s) := login_main task_trampoline user_mode_entry_trampoline modules run_entry date time others fuel (session m) in
  Ret (e, MachineState (video m) (gdt m) (gdtr m) (segs m) (idt m) (idtr m) (msrs m) (kbd m) s).
End kernel.
