(* ===== verification/ModuleRunner.v ===== *)
(** * Running a boot module (kernel/userland/module_runner.cpp)

    The first module whose path ends in the given name is run: at its ELF entry point if it
    loads, at its first byte otherwise.  A call of code is a parameter; so is the memory behind
    the bootloader's pointers.  The log lines are left out. *)
From S2P Require Import Prelude CString Bump HeapSpec Elf LibC.

(** [struct limine_file], the fields that are read. *)
Record limine_file := LimineFile { mod_address : Z; mod_size : Z; mod_path : Z }.

(** [if (addr < off) addr = off + addr], when there is an offset. *)
Definition direct_map (hhdm : option Z) (a : Z) : Z :=
  match hhdm with Some off => if a <? off then u64 (off + a) else a | None => a end.

Section runner.
Context {K : Type} (bi : Boot) (hhdm : option Z).
(** The string and the bytes at an address, and the effect of calling code there. *)
Context (string_at : Z → list Z) (bytes_at : Z → Z → list Z) (call : Z → Z * K → Z * K).

(** The state is the page allocator's pointer and the rest of the system. *)
Definition run_elf_from_module (f : limine_file) (s : Z * K) : res (Z * (Z * K)) :=
  let addr := direct_map hhdm (mod_address f) in
  let! (o, b) := elf64_load_from_memory bi (Some (bytes_at addr (mod_size f))) (mod_size f) s.1 in
  match o with
  | None => Ret (-1, (b, s.2))
  | Some (entry, _, _) => Ret (0, call entry (b, s.2))
  end.

Fixpoint run_first (filename : list Z) (mods : list limine_file) (s : Z * K) : res (Z * (Z * K)) :=
  match mods with
  | [] => Ret (-1, s)
  | f :: mods =>
      let p := if mod_path f =? 0 then 0 else direct_map hhdm (mod_path f) in
      if p =? 0 then run_first filename mods s
      else
        let path := string_at p in
        let! same :=
          (if zlen filename <=? zlen path
           then let! c := memcmp (length filename) (drop (length path - length filename) path) filename in Ret (c =? 0)
           else Ret false) in
        if same : bool then
          let! (rc, s) := run_elf_from_module f s in
          if rc =? 0 then Ret (0, s) else Ret (0, call (direct_map hhdm (mod_address f)) s)
        else run_first filename mods s
  end.

Definition exec_module_by_name (mods : option (list limine_file)) (filename : option (list Z)) (s : Z * K)
  : res (Z * (Z * K)) :=
  match mods, filename with
  | Some mods, Some filename => run_first filename mods s
  | _, _ => Ret (-1, s)
  end.

(** ** The module chosen *)

Lemma memcmp_eq name : ∀ a, length a = length name →
  ∃ c, memcmp (length name) a name = Ret c ∧ (c = 0 ↔ a = name).
Proof.
  induction name as [|y name IH]; intros a Ha.
  - apply nil_length_inv in Ha as ->. exists 0. done.
  - destruct a as [|x a]; [done|]. injection Ha as Ha. cbn [length memcmp]. destruct (Z.ltb_spec x y).
    { exists (-1). split; [done|]. split; [lia|]. intros [= -> _]. lia. }
    destruct (Z.ltb_spec y x); [exists 1; split; [done|]; split; [lia|intros [= -> _]; lia]|].
    assert (x = y) as -> by lia. destruct (IH a Ha) as (c & -> & Hc). exists c. split; [done|]. rewrite Hc.
    split; [by intros ->|by intros [= ->]].
Qed.

Lemma memcmp_suffix name p :
  (length name ≤ length p)%nat →
  ∃ c, memcmp (length name) (drop (length p - length name) p) name = Ret c ∧ (c = 0 ↔ name `suffix_of` p).
Proof.
  intros Hl. destruct (memcmp_eq name (drop (length p - length name) p)) as (c & Hm & Hc); [rewrite length_drop; lia|].
  exists c. split; [done|]. rewrite Hc. split.
  - intros E. exists (take (length p - length name) p). by rewrite <- E at 2; rewrite take_drop.
  - intros [q ->]. rewrite length_app, Nat.add_sub. by rewrite drop_app_length.
Qed.

(** A module with a path that ends in the name. *)
Definition named (name : list Z) (f : limine_file) : Prop :=
  mod_path f ≠ 0 ∧ direct_map hhdm (mod_path f) ≠ 0 ∧ name `suffix_of` string_at (direct_map hhdm (mod_path f)).

(** The first module of that name is the one that runs, whatever comes before and behind it;
    without one, nothing runs and the answer is -1. *)
Theorem exec_runs_first_named name pre f post s :
  Forall (λ g, ¬ named name g) pre → named name f →
  exec_module_by_name (Some (pre ++ f :: post)) (Some name) s
  = (let! (rc, s) := run_elf_from_module f s in
     Ret (0, if rc =? 0 then s else call (direct_map hhdm (mod_address f)) s)).
Proof.
  assert (Hstep : ∀ g mods s, run_first name (g :: mods) s
    = if decide (named name g) then (let! (rc, s) := run_elf_from_module g s in
         Ret (0, if rc =? 0 then s else call (direct_map hhdm (mod_address g)) s)) else run_first name mods s).
  { intros g mods s'. cbn [run_first]. unfold named. destruct (Z.eqb_spec (mod_path g) 0) as [E|Hp].
    { rewrite decide_False by tauto. done. }
    destruct (Z.eqb_spec (direct_map hhdm (mod_path g)) 0) as [E|Hd]; [by rewrite decide_False by tauto|].
    set (p := string_at _). destruct (Z.leb_spec (zlen name) (zlen p)) as [Hl|Hl].
    - destruct (memcmp_suffix name p) as (c & -> & Hc); [unfold zlen in Hl; lia|]. cbn [rbind].
      destruct (Z.eqb_spec c 0) as [Ec|Ec].
      + rewrite decide_True by (split_and!; tauto). destruct (run_elf_from_module g s') as [[rc s2]| |]; [|done..].
        cbn [rbind]. by destruct (rc =? 0).
      + rewrite decide_False by tauto. done.
    - cbn [rbind]. rewrite decide_False; [done|]. intros (_ & _ & Hsuf). apply suffix_length in Hsuf. unfold zlen in Hl. lia. }
  intros Hpre Hf. cbn [exec_module_by_name]. revert s. induction Hpre as [|g pre Hg _ IH]; intros s; cbn [app]; rewrite Hstep.
  - by rewrite decide_True.
  - by rewrite decide_False.
Qed.

Theorem exec_unknown_name name mods s :
  Forall (λ g, ¬ named name g) mods → exec_module_by_name (Some mods) (Some name) s = Ret (-1, s).
Proof.
  cbn [exec_module_by_name]. induction 1 as [|g mods Hg _ IH]; [done|]. cbn [run_first]. unfold named in Hg.
  destruct (Z.eqb_spec (mod_path g) 0) as [E|Hp]; [exact IH|].
  destruct (Z.eqb_spec (direct_map hhdm (mod_path g)) 0) as [E|Hd]; [exact IH|].
  set (p := string_at _) in *. destruct (Z.leb_spec (zlen name) (zlen p)) as [Hl|Hl]; [|exact IH].
  destruct (memcmp_suffix name p) as (c & -> & Hc); [unfold zlen in Hl; lia|]. cbn [rbind].
  destruct (Z.eqb_spec c 0) as [Ec|Ec]; [tauto|exact IH].
Qed.
End runner.
