(* ===== verification/Iso.v ===== *)
(** * ISO 9660 mounts (kernel/filesystem/hanafs.cpp)

    [hanafs_mount_iso_drive] reads the volume descriptor of a CD and copies its directory
    tree into HanaFS.  The drives are an interface of their own, [Drives]; the bytes of a
    fresh allocation are whatever [junk] says.  A directory may contain itself on a bad disc:
    the recursion is bounded by [depth] and runs out as [Diverges]. *)
From S2P Require Import Prelude CString HeapSpec HanaPath BlockDev HanaFs LibC.

(** ata_read_sector_drive of ide.hpp; the bytes count when the result is 0. *)
Class Drives (D : Type) := {
  ata_read_sector_drive : Z → Z → D → Z * list Z * D
}.

(** [le32 (b + i)]. *)
Definition le32 (b : list Z) (i : Z) : res Z :=
  let! b0 := bget b i in
  let! b1 := bget b (i + 1) in
  let! b2 := bget b (i + 2) in
  let! b3 := bget b (i + 3) in
  Ret (Z.lor (Z.lor (Z.lor b0 (u32 (Z.shiftl b1 8))) (u32 (Z.shiftl b2 16))) (u32 (Z.shiftl b3 24))).

(** The string left in [out]. *)
Definition make_path_join (out_sz : Z) (base name : list Z) : list Z :=
  let out := take (Z.to_nat (out_sz - 1)) base in
  let out :=
    if bool_decide (out = []) || negb (bool_decide (last out = Some 47)) then
      (if zlen out + 1 <? out_sz then out ++ [47] else out)
    else out in
  out ++ take (Z.to_nat (out_sz - 1 - zlen out)) name.

(** [name]: at most 255 bytes, cut at the first [';']; [n] bytes are left. *)
Fixpoint copy_name (n : nat) (b : list Z) (i ni : Z) : res (list Z) :=
  match n with
  | O => Ret []
  | S n =>
      if ni + 1 <? 256 then
        let! ch := bget b i in
        if ch =? 59 then Ret [] else let! r := copy_name n b (i + 1) (ni + 1) in Ret (ch :: r)
      else Ret []
  end.

Section iso.
Context {H D : Type} `{Allocator H} `{BlockDev D} `{Drives D}.
Notation St := (HanaFS H D).

(** The byte at an offset of a fresh allocation. *)
Variable junk : Z → Z → Z.

(** A fresh allocation of [n] bytes at [p] with [bytes] stored at its front. *)
Definition filled (p n : Z) (bytes : list Z) : list Z :=
  bytes ++ drop (length bytes) (junk p <$> seqZ 0 n).

(** [for (i = 0; i < sectors; ++i) if (ata_read_sector_drive(drive, lba + i, buf + i*512) != 0) ...]
    with [buf] of [cap] bytes: whether all reads succeeded, and the bytes stored. *)
Fixpoint read_extent (n : nat) (drive lba i cap : Z) (got : list Z) (s : St)
  : res (bool * list Z * St) :=
  match n with
  | O => Ret (true, got, s)
  | S n =>
      let '(rc, b, d) := ata_read_sector_drive drive (u32 (lba + i)) (disk s) in
      let s := set_disk s d in
      if negb (rc =? 0) then Ret (false, got, s)
      else if i * 512 + 512 <=? cap then read_extent n drive lba (i + 1) cap (got ++ b) s
      else UB
  end.

Definition sectors_of (size : Z) : nat := Z.to_nat (u32 (size + 511) `div` 512).

(** The file branch: copy the extent and write it under [path]. *)
Definition copy_file (drive lba size : Z) (path : list Z) (s : St) : res St :=
  let cap := if size =? 0 then 1 else size in
  let '(fbuf, s) := kmalloc cap s in
  if fbuf =? 0 then Ret s
  else
    let! (_, got, s) := read_extent (sectors_of size) drive lba 0 cap [] s in
    let! (_, s) := hanafs_write_file (Some path) (Some (filled fbuf cap got)) size s in
    Ret (kfree fbuf s).

(** One record of a directory at [off], its length byte [len] not being 0. *)
Definition dir_record (parse : Z → Z → list Z → St → res St)
    (drive : Z) (mount_prefix buf : list Z) (off : Z) (s : St) : res St :=
  let! rec_lba := le32 buf (off + 2) in
  let! rec_size := le32 buf (off + 10) in
  let! name_len := bget buf (off + 32) in
  let! skip :=
    (if name_len =? 1 then let! c := bget buf (off + 33) in Ret (c <=? 1) else Ret false) in
  if skip : bool then Ret s
  else
    let! name := copy_name (Z.to_nat name_len) buf (off + 33) 0 in
    let! flags := bget buf (off + 25) in
    let path := make_path_join 512 mount_prefix (cstr name) in
    if negb (Z.land flags 0x02 =? 0) then
      let! (_, s) := hanafs_make_dir (Some path) s in
      parse rec_lba rec_size path s
    else copy_file drive rec_lba rec_size path s.

Fixpoint dir_loop (parse : Z → Z → list Z → St → res St) (fuel : nat)
    (drive : Z) (mount_prefix buf : list Z) (size off : Z) (s : St) : res St :=
  if off <? size then
    match fuel with
    | O => Diverges
    | S fuel =>
        let! len := bget buf off in
        if len =? 0 then
          dir_loop parse fuel drive mount_prefix buf size (u32 ((off `div` 512 + 1) * 512)) s
        else
          let! s := dir_record parse drive mount_prefix buf off s in
          dir_loop parse fuel drive mount_prefix buf size (u32 (off + len)) s
    end
  else Ret s.

Fixpoint parse_iso_dir_recursive (depth : nat) (drive lba size : Z) (mount_prefix : list Z) (s : St)
  : res St :=
  match depth with
  | O => Diverges
  | S depth =>
      if size =? 0 then Ret s
      else
        let '(buf, s) := kmalloc size s in
        if buf =? 0 then Ret s
        else
          let! (ok, got, s) := read_extent (sectors_of size) drive lba 0 size [] s in
          if negb ok then Ret (kfree buf s)
          else
            let! s := dir_loop (parse_iso_dir_recursive depth drive) (S (Z.to_nat size))
                        drive mount_prefix (filled buf size got) size 0 s in
            Ret (kfree buf s)
  end.

Definition hanafs_mount_iso_drive (depth : nat) (drive : Z) (mount_point : option (list Z)) (s : St)
  : res (Z * St) :=
  match mount_point with
  | None => Ret (-1, s)
  | Some mount_point =>
      let '(rc, sec, d) := ata_read_sector_drive drive 16 (disk s) in
      let s := set_disk s d in
      if negb (rc =? 0) then Ret (-1, s)
      else
        let! c := memcmp 5 (drop 1 sec) (str "CD001") in
        if negb (c =? 0) then Ret (-1, s)
        else
          let! root_lba := le32 sec (156 + 2) in
          let! root_size := le32 sec (156 + 10) in
          let! (_, s) := hanafs_make_dir (Some mount_point) s in
          let old := g_hanafs_persist_enabled s in
          let s := set_persist s false in
          let! s := parse_iso_dir_recursive depth drive root_lba root_size mount_point s in
          let s := set_persist s old in
          let! (_, s) := hanafs_persist_to_ata s in
          Ret (0, s)
  end.
End iso.

(** * ramfs (kernel/filesystem/ramfs.cpp)

    Every function forwards to the HanaFS function of its name. *)


Section ramfs.
Context {H D : Type} `{Allocator H} `{BlockDev D} `{Drives D}.
Notation St := (HanaFS H D).

Definition ramfs_init : St → res (Z * St) := hanafs_init.
Definition ramfs_write_file : option (list Z) → option (list Z) → Z → St → res (Z * St) := hanafs_write_file.
Definition ramfs_get_file_alloc : option (list Z) → St → res (option (Z * list Z * Z) * St) := hanafs_get_file_alloc.
Definition ramfs_list_dir : option (list Z) → St → res (Z * list (list Z) * St) := hanafs_list_dir.
Definition ramfs_create_file : option (list Z) → St → res (Z * St) := hanafs_create_file.
Definition ramfs_unlink : option (list Z) → St → res (Z * St) := hanafs_unlink.
Definition ramfs_make_dir : option (list Z) → St → res (Z * St) := hanafs_make_dir.
Definition ramfs_remove_dir : option (list Z) → St → res (Z * St) := hanafs_remove_dir.
Definition ramfs_persist_to_ata : St → res (Z * St) := hanafs_persist_to_ata.
Definition ramfs_load_from_ata : St → res (Z * St) := hanafs_load_from_ata.
Definition ramfs_set_persist_enabled : Z → St → St := hanafs_set_persist_enabled.
Definition ramfs_mount_iso_drive (junk : Z → Z → Z) (depth : nat) : Z → option (list Z) → St → res (Z * St) :=
  hanafs_mount_iso_drive junk depth.
Definition ramfs_stat : option (list Z) → St → res (option hana_stat * St) := hanafs_stat.
Definition ramfs_opendir : option (list Z) → St → res (option HanaDirObj * St) := hanafs_opendir.
Definition ramfs_readdir := hanafs_readdir (H := H) (D := D).
Definition ramfs_closedir := hanafs_closedir (H := H) (D := D).
Definition ramfs_format_ata_master := hanafs_format_ata_master (H := H) (D := D).
End ramfs.
