(* ===== verification/IsoSpec.v ===== *)
(** * Mounting a CD copies its tree

    [iso_node] is a directory record with what it stands for; [on_disc] says that a drive
    holds the records and extents of a tree as ISO 9660 lays them out, in the 512-byte
    sectors this reader addresses.  [iso_mount_copies_tree] shows that the mount makes the
    directories and writes the files of the tree, in depth-first order. *)
From S2P Require Import Prelude CString HeapSpec HanaPath BlockDev HanaFs HanaInv HanaImage HanaOps HanaRefine HanaFrame LibC InitrdSpec Iso.

(** ** Drives *)

(** What the mount relies on: a ready drive returns the sectors it has, and neither reads nor
    writes to the master change them. *)
Class DrivesSpec (D : Type) `{BlockDev D} `{Drives D} := {
  drive_ready : Z → D → Prop;
  drive_has : D → Z → Z → Prop;
  drive_sector : D → Z → Z → list Z;
  drive_sector_ok d dr l : length (drive_sector d dr l) = 512%nat ∧ Forall is_byte (drive_sector d dr l);
  drive_same (dr : Z) (d d' : D) : Prop :=
    drive_ready dr d' ∧ (∀ l, drive_has d' dr l ↔ drive_has d dr l) ∧
    ∀ l, drive_sector d' dr l = drive_sector d dr l;
  drive_read dr lba d :
    drive_ready dr d → drive_has d dr lba →
    ∃ d', ata_read_sector_drive dr lba d = (0, drive_sector d dr lba, d') ∧ drive_same dr d d';
  drive_write dr d d' : drive_ready dr d → wrote (λ _, True) d d' → drive_same dr d d'
}.

(** ** Discs *)

Inductive iso_node :=
| IsoSelf (w : list Z)
| IsoFile (w name : list Z) (lba : Z) (contents : list Z)
| IsoDir (w name : list Z) (lba : Z) (kids : list (list iso_node)).

(** The bytes of a record, of a sector of records, and of a directory. *)
Definition record_bytes (n : iso_node) : list Z :=
  match n with IsoSelf w | IsoFile w _ _ _ | IsoDir w _ _ _ => w end.
Definition records_bytes (ns : list iso_node) : list Z := concat (record_bytes <$> ns).
Definition dir_sector (ns : list iso_node) : list Z :=
  records_bytes ns ++ replicate (512 - length (records_bytes ns)) 0.
Definition extent (kids : list (list iso_node)) : list Z := concat (dir_sector <$> kids).

(** A directory record: its length, the extent's position and size, the flags and the
    identifier, whose name is cut before the version. *)
Definition record_ok (w ident : list Z) (lba size : Z) (dir : bool) : Prop :=
  Forall is_byte w ∧ w !! 0%nat = Some (zlen w) ∧
  take 4 (drop 2 w) = le_bytes 4 lba ∧ take 4 (drop 10 w) = le_bytes 4 size ∧
  (λ flags, Z.testbit flags 1) <$> w !! 25%nat = Some dir ∧
  w !! 32%nat = Some (zlen ident) ∧ take (length ident) (drop 33 w) = ident ∧
  0 ≤ lba < 2 ^ 32 ∧ 0 ≤ size < 2 ^ 32.
Global Instance record_ok_dec w ident lba size dir : Decision (record_ok w ident lba size dir).
Proof. unfold record_ok. apply _. Defined.
Definition names (ident name : list Z) : Prop :=
  cstr_ok name ∧ 59 ∉ name ∧ (ident = name ∨ ∃ version, ident = name ++ 59 :: version) ∧
  (zlen ident = 1 → head ident ≠ Some 1).

(** The sectors from [lba] on hold [bytes]. *)
Definition holds (has : Z → Prop) (f : Z → list Z) (lba : Z) (bytes : list Z) : Prop :=
  (512 | zlen bytes) ∧ lba + zlen bytes `div` 512 ≤ 2 ^ 32 ∧
  ∀ i, 0 ≤ i < zlen bytes `div` 512 →
    has (lba + i) ∧ f (lba + i) = take 512 (drop (Z.to_nat (512 * i)) bytes).

Section on_disc.
Context (has : Z → Prop) (f : Z → list Z).

(** A node and what it refers to, at most [depth] directories deep. *)
Fixpoint on_disc (depth : nat) (n : iso_node) : Prop :=
  match n with
  | IsoSelf w => ∃ c lba size dir, 0 ≤ c ≤ 1 ∧ record_ok w [c] lba size dir
  | IsoFile w name lba contents =>
      (∃ ident, names ident name ∧ record_ok w ident lba (zlen contents) false) ∧
      zlen contents < 2 ^ 31 ∧ holds has f lba contents
  | IsoDir w name lba kids =>
      (∃ ident, names ident name ∧ record_ok w ident lba (zlen (extent kids)) true) ∧
      match depth with
      | O => False
      | S depth =>
          holds has f lba (extent kids) ∧ zlen (extent kids) < 2 ^ 31 ∧
          Forall (λ ns, (length (records_bytes ns) ≤ 512)%nat ∧ Forall (on_disc depth) ns) kids
      end
  end.
Definition dir_on_disc (depth : nat) (lba : Z) (kids : list (list iso_node)) : Prop :=
  holds has f lba (extent kids) ∧ zlen (extent kids) < 2 ^ 31 ∧
  Forall (λ ns, (length (records_bytes ns) ≤ 512)%nat ∧ Forall (on_disc depth) ns) kids.
End on_disc.

(** ** What a mount asks of the heap and of HanaFS *)

Inductive event := Alloc (n : Z) | Do (c : call) | Save.

Definition join (p name : list Z) : list Z :=
  p ++ (if bool_decide (last p = Some 47) then [] else [47]) ++ name.

Fixpoint events (p : list Z) (n : iso_node) : list event :=
  match n with
  | IsoSelf _ => []
  | IsoFile _ name _ contents =>
      [Alloc (Z.max 1 (zlen contents)); Do (Write (join p name) contents)]
  | IsoDir _ name _ kids =>
      Do (Mkdir (join p name)) ::
      match kids with
      | [] => []
      | _ => Alloc (zlen (extent kids)) ::
             concat ((λ ns, concat (events (join p name) <$> ns)) <$> kids)
      end
  end.
Definition sector_events (p : list Z) (ns : list iso_node) : list event := concat (events p <$> ns).
Definition dir_events (p : list Z) (kids : list (list iso_node)) : list event :=
  match kids with
  | [] => []
  | _ => Alloc (zlen (extent kids)) :: concat (sector_events p <$> kids)
  end.

(** The map after the events, the heap room left, and that there is enough of it. *)
Fixpoint after (m : AFs) (es : list event) : AFs :=
  match es with
  | [] => m
  | Do c :: es => after (acall m c).2 es
  | _ :: es => after m es
  end.
Fixpoint room_left (r : Z) (m : AFs) (es : list event) : Z :=
  match es with
  | [] => r
  | Alloc n :: es => room_left (r - cost n) m es
  | Do c :: es => room_left (r - room (map_size m) c) (acall m c).2 es
  | Save :: es => room_left (r - (80 + map_size m)) m es
  end.
Fixpoint enough (r : Z) (m : AFs) (es : list event) : Prop :=
  match es with
  | [] => True
  | Alloc n :: es => cost n ≤ r ∧ enough (r - cost n) m es
  | Do c :: es =>
      call_ok c ∧ room (map_size m) c ≤ r ∧ map_size m + grow c < 2 ^ 31 ∧
      Z.of_nat (size m) + 1 < 2 ^ 31 ∧ enough (r - room (map_size m) c) (acall m c).2 es
  | Save :: es =>
      80 + map_size m ≤ r ∧ map_size m < 2 ^ 31 ∧ Z.of_nat (size m) < 2 ^ 31 ∧
      enough (r - (80 + map_size m)) m es
  end.

Lemma events_app es1 : ∀ r m es2,
  after m (es1 ++ es2) = after (after m es1) es2 ∧
  room_left r m (es1 ++ es2) = room_left (room_left r m es1) (after m es1) es2 ∧
  (enough r m (es1 ++ es2) → enough r m es1 ∧ enough (room_left r m es1) (after m es1) es2).
Proof.
  induction es1 as [|[n|c|] es1 IH]; intros r m es2; cbn [app after room_left enough]; [done|..].
  - destruct (IH (r - cost n) m es2) as (? & ? & ?). tauto.
  - destruct (IH (r - room (map_size m) c) (acall m c).2 es2) as (? & ? & ?). tauto.
  - destruct (IH (r - (80 + map_size m)) m es2) as (? & ? & ?). tauto.
Qed.

(** ** Reading the bytes of a record *)

(** [w] stands at [off] in [buf]. *)
Definition at_off (buf : list Z) (off : Z) (w : list Z) : Prop :=
  0 ≤ off ∧ take (length w) (drop (Z.to_nat off) buf) = w.

Lemma at_off_app pre w post : at_off (pre ++ w ++ post) (zlen pre) w.
Proof.
  split; [apply zlen_nonneg|]. rewrite drop_app_length' by (unfold zlen; lia). by apply take_app_length'.
Qed.

Lemma at_off_get buf off w i v : at_off buf off w → 0 ≤ i → w !! Z.to_nat i = Some v → bget buf (off + i) = Ret v.
Proof.
  intros [Ho Hw] Hi Hv. apply bget_Ret. split; [lia|]. pose proof (lookup_lt_Some _ _ _ Hv).
  rewrite <- Hw, lookup_take_lt, lookup_drop in Hv by lia. by replace (Z.to_nat (off + i)) with (Z.to_nat off + Z.to_nat i)%nat by lia.
Qed.

Lemma at_off_trans buf off w i x : at_off buf off w → at_off w i x → at_off buf (off + i) x.
Proof.
  intros [Ho Hw] [Hi Hx]. split; [lia|].
  assert (Hl : (length x ≤ length w - Z.to_nat i)%nat) by (rewrite <- Hx, length_take, length_drop; lia).
  transitivity (take (length x) (drop (Z.to_nat i) (take (length w) (drop (Z.to_nat off) buf)))); [|by rewrite Hw].
  rewrite skipn_firstn_comm, take_take, drop_drop, Nat.min_l by done. do 2 f_equal. lia.
Qed.

Lemma le32_at b i v : at_off b i (le_bytes 4 v) → 0 ≤ v < 2 ^ 32 → le32 b i = Ret v.
Proof.
  intros Hb Hv. unfold le32. cbn [le_bytes] in Hb.
  rewrite <- (Z.add_0_r i), (at_off_get _ _ _ 0 _ Hb ltac:(lia) eq_refl), Z.add_0_r.
  rewrite (at_off_get _ _ _ 1 _ Hb ltac:(lia) eq_refl), (at_off_get _ _ _ 2 _ Hb ltac:(lia) eq_refl),
    (at_off_get _ _ _ 3 _ Hb ltac:(lia) eq_refl). cbn [rbind]. f_equal.
  rewrite !Z.shiftl_mul_pow2 by lia. set (x0 := v `mod` 256). set (x1 := _ `mod` 256). set (x2 := _ `mod` 256). set (x3 := _ `mod` 256).
  assert (0 ≤ x0 < 256 ∧ 0 ≤ x1 < 256 ∧ 0 ≤ x2 < 256 ∧ 0 ≤ x3 < 256) by (split_and!; apply Z.mod_pos_bound; lia).
  rewrite !u32_small by lia. rewrite <- (Z.shiftl_mul_pow2 x1 8), <- (Z.shiftl_mul_pow2 x2 16), <- (Z.shiftl_mul_pow2 x3 24) by lia.
  rewrite (lor_shiftl_add x0 x1 8), (lor_shiftl_add _ x2 16), (lor_shiftl_add _ x3 24) by lia.
  pose proof (le_val_bytes_small 4 v ltac:(lia)) as E. cbn [le_bytes le_val] in E. unfold x0, x1, x2, x3. lia.
Qed.

Lemma copy_name_at buf name tail : ∀ i ni,
  at_off buf i (name ++ tail) → 0 ≤ ni → ni + zlen (name ++ tail) ≤ 255 → 59 ∉ name →
  (tail = [] ∨ ∃ version, tail = 59 :: version) →
  copy_name (length (name ++ tail)) buf i ni = Ret name.
Proof.
  induction name as [|c name IH]; intros i ni Hb Hn Hl H59 Ht.
  - cbn [app] in *. destruct Ht as [->|[version ->]]; [done|]. rewrite zlen_cons in Hl. pose proof (zlen_nonneg version).
    cbn [length copy_name]. rewrite (proj2 (Z.ltb_lt _ _)) by lia.
    rewrite <- (Z.add_0_r i), (at_off_get _ _ _ 0 _ Hb ltac:(lia) eq_refl). done.
  - apply not_elem_of_cons in H59 as [Hc H59]. cbn [app length copy_name] in *. rewrite zlen_cons in Hl.
    pose proof (zlen_nonneg (name ++ tail)). rewrite (proj2 (Z.ltb_lt _ _)) by lia.
    rewrite <- (Z.add_0_r i) at 1. rewrite (at_off_get _ _ _ 0 _ Hb ltac:(lia) eq_refl). cbn [rbind].
    rewrite (proj2 (Z.eqb_neq _ _)) by congruence. rewrite IH; [done| |lia|lia|done|done].
    apply (at_off_trans _ _ _ 1 _ Hb). split; [lia|]. by apply take_ge.
Qed.

Lemma make_path_join_id p name : zlen (join p name) ≤ 511 → make_path_join 512 p name = join p name.
Proof.
  unfold join, make_path_join. intros Hl. rewrite !zlen_app in Hl. pose proof (zlen_nonneg name). pose proof (zlen_nonneg p).
  change (Z.to_nat (512 - 1)) with 511%nat.
  destruct (decide (last p = Some 47)) as [Hs|Hs].
  - rewrite (bool_decide_true (last p = Some 47)) in Hl |- * by done. rewrite zlen_nil in Hl.
    rewrite take_ge by (unfold zlen in *; lia). rewrite (bool_decide_true (last p = _)), (bool_decide_false (p = [])) by (done || by intros ->).
    cbn [orb negb app]. rewrite take_ge; [done|unfold zlen in *; lia].
  - rewrite (bool_decide_false (last p = Some 47)) in Hl |- * by done. rewrite zlen_cons, zlen_nil in Hl.
    rewrite take_ge by (unfold zlen in *; lia). rewrite (bool_decide_false (last p = _)) by done. rewrite orb_true_r.
    rewrite (proj2 (Z.ltb_lt _ _)) by lia. rewrite zlen_app, zlen_cons, zlen_nil, <- app_assoc.
    rewrite take_ge; [done|unfold zlen in *; lia].
Qed.

(** ** The mount *)

Section mount.
Context {H D : Type} `{AllocatorSpec H} `{BlockDevSpec D} `{Drives D} `{!DrivesSpec D}.
Notation St := (HanaFS H D).
Context (junk : Z → Z → Z) (dr : Z).

Lemma drive_same_trans d1 d2 d3 : drive_same dr d1 d2 → drive_same dr d2 d3 → drive_same dr d1 d3.
Proof. intros (R & Hh & Hs) (R' & Hh' & Hs'). split_and!; [done| |]; intros l; [by rewrite Hh'|by rewrite Hs']. Qed.

(** The drive still holds what [d0] holds, and the persistence flag is [e]. *)
Definition steady (d0 : D) (e : bool) (s : St) : Prop :=
  drive_same dr d0 (disk s) ∧ g_hanafs_persist_enabled s = e.

Lemma steady_frame d0 e (s s' : St) : frame (λ _, True) s s' → steady d0 e s → steady d0 e s'.
Proof.
  intros [Hf Hw] [Hd He]. split; [|congruence]. clear Hf He. induction Hw as [d|d d1 d2 H1w _ IH]; [done|].
  apply IH. eapply drive_same_trans; [exact Hd|]. apply drive_write; [apply Hd|done].
Qed.
Lemma steady_disk d0 e (s : St) d : steady d0 e s → drive_same dr (disk s) d → steady d0 e (set_disk s d).
Proof. intros [Hd He] Hs. split; [|done]. by eapply drive_same_trans. Qed.

Lemma holds_same has f has' f' lba bytes :
  (∀ l, has' l ↔ has l) → (∀ l, f' l = f l) → holds has f lba bytes → holds has' f' lba bytes.
Proof.
  intros Hh Hf (Hd & Hl & Hb). split_and!; [done..|]. intros i Hi. by rewrite Hh, Hf; apply Hb.
Qed.

(** Reading an extent: the remaining sectors from [i] on. *)
Lemma read_extent_at d0 e lba bytes cap n : ∀ i got (s : St),
  steady d0 e s → holds (drive_has d0 dr) (drive_sector d0 dr) lba bytes → 0 ≤ lba → 0 ≤ i →
  i + Z.of_nat n = zlen bytes `div` 512 → zlen bytes ≤ cap → got = take (Z.to_nat (512 * i)) bytes →
  ∃ d, read_extent n dr lba i cap got s = Ret (true, bytes, set_disk s d) ∧ steady d0 e (set_disk s d).
Proof.
  induction n as [|n IH]; intros i got s Hs Hh Hl Hi Hn Hc Hg; cbn [read_extent].
  - exists (disk s). destruct s; cbn in *. split; [|done]. do 3 f_equal. rewrite Hg. apply take_ge.
    destruct Hh as ([k Hk] & _). rewrite Hk, Z.div_mul in Hn by lia. unfold zlen in Hk. lia.
  - pose proof Hh as ([k Hk] & Hmax & Hb). destruct (Hb i ltac:(lia)) as [Hhas Hsec].
    rewrite u32_small by lia. destruct Hs as [Hd He]. pose proof Hd as (Hr & Hhas' & Hsec').
    destruct (drive_read dr (lba + i) (disk s) Hr) as (d & -> & Hd'); [by apply Hhas'|]. cbn [negb].
    change (0 =? 0) with true. cbn [negb].
    assert (Hk' : i + 1 ≤ k) by (rewrite Hk, Z.div_mul in Hn; lia).
    rewrite (proj2 (Z.leb_le _ _)) by lia.
    destruct (IH (i + 1) (got ++ drive_sector (disk s) dr (lba + i)) (set_disk s d)) as (d2 & -> & Hs2); [|done|lia|lia|lia|lia| |].
    + by apply steady_disk.
    + rewrite Hg, Hsec', Hsec. replace (Z.to_nat (512 * (i + 1))) with (Z.to_nat (512 * i) + 512)%nat by lia.
      by rewrite <- take_take_drop.
    + by exists d2.
Qed.

Lemma filled_all p n bytes : zlen bytes = n → filled junk p n bytes = bytes.
Proof.
  intros Hn. unfold filled. rewrite drop_ge; [by rewrite app_nil_r|]. rewrite length_fmap, length_seqZ. unfold zlen in Hn. lia.
Qed.

Lemma sectors_of_extent lba bytes has f : holds has f lba bytes → zlen bytes < 2 ^ 31 →
  Z.of_nat (sectors_of (zlen bytes)) = zlen bytes `div` 512.
Proof.
  intros ([k Hk] & _) Hl. pose proof (zlen_nonneg bytes). unfold sectors_of. rewrite u32_small by lia. rewrite Hk, Z.div_mul by lia.
  replace (k * 512 + 511) with (511 + k * 512) by lia. rewrite Z.div_add, Z.div_small by lia. lia.
Qed.

(** [f] does the events: it ends, leaves the map they lead to and keeps the rest. *)
Definition does (d0 : D) (e : bool) (es : list event) (f : St → res St) : Prop :=
  ∀ r X s, fs_inv r X s → steady d0 e s → enough r (fs_abs s) es →
    ∃ s', f s = Ret s' ∧ fs_abs s' = after (fs_abs s) es ∧
          fs_inv (room_left r (fs_abs s) es) X s' ∧ steady d0 e s'.

Lemma does_nil d0 e : does d0 e [] Ret.
Proof. intros r X s Hi Hs _. by exists s. Qed.

Lemma does_seq d0 e es1 es2 f g :
  does d0 e es1 f → does d0 e es2 g → does d0 e (es1 ++ es2) (λ s, let! s := f s in g s).
Proof.
  intros Hf Hg r X s Hi Hs He. destruct (events_app es1 r (fs_abs s) es2) as (Ha & Hr & He').
  destruct (He' He) as [He1 He2]. destruct (Hf r X s Hi Hs He1) as (s1 & -> & Ha1 & Hi1 & Hs1).
  rewrite <- Ha1 in He2. destruct (Hg _ X s1 Hi1 Hs1 He2) as (s2 & Hg2 & Ha2 & Hi2 & Hs2).
  exists s2. rewrite Ha, Hr, <- Ha1. by split_and!.
Qed.

Lemma does_ext d0 e es f g : (∀ s, f s = g s) → does d0 e es g → does d0 e es f.
Proof. intros Hfg Hd r X s Hi Hs He. rewrite Hfg. by apply Hd. Qed.

(** One HanaFS call. *)
Lemma make_dir_does d0 e p : does d0 e [Do (Mkdir p)] (λ s, let! (_, s) := hanafs_make_dir (Some p) s in Ret s).
Proof.
  intros r X s Hi Hs (Hok & Hr & Hg & Hn & _). pose proof Hok as (_ & Hl & _).
  destruct (call_path_arg (Mkdir p) Hok) as (drv & pb & Hp). cbn [call_path grow HanaRefine.room] in *.
  rewrite <- (map_size_records _ _ _ Hi) in *. rewrite <- (map_size_len _ _ _ Hi) in Hn.
  destruct (make_dir_spec r X s p drv pb _ Hi Hp) as (s' & Em & Ha & Hi'); [split; lia|unfold op_room; lia|].
  rewrite Em. cbn [rbind]. exists s'. split_and!; [done| | |].
  - rewrite Ha. cbn [after acall call_path]. by case_decide.
  - cbn [room_left HanaRefine.room]. rewrite <- (map_size_records _ _ _ Hi). eapply fs_inv_le; [|exact Hi']. unfold op_room. lia.
  - eapply steady_frame; [|exact Hs]. eapply make_dir_frame; [exact Em|apply (fi_entries _ _ _ Hi')|done].
Qed.

Lemma copy_file_does d0 e lba contents p :
  holds (drive_has d0 dr) (drive_sector d0 dr) lba contents → 0 ≤ lba → zlen contents < 2 ^ 31 →
  does d0 e [Alloc (Z.max 1 (zlen contents)); Do (Write p contents)] (copy_file junk dr lba (zlen contents) p).
Proof.
  intros Hh Hlba Hc r X s Hi Hs (Hc1 & Hok & Hr & Hg & Hn & _). pose proof Hok as (_ & Hl & Hby & _).
  destruct (call_path_arg _ Hok) as (drv & pb & Hp). cbn [call_path grow HanaRefine.room] in *.
  pose proof (map_size_records _ _ _ Hi) as Em. pose proof (map_size_len _ _ _ Hi) as El. pose proof (zlen_nonneg contents).
  unfold copy_file. set (cap := if zlen contents =? 0 then 1 else zlen contents).
  assert (Hcap : cap = Z.max 1 (zlen contents)) by (unfold cap; destruct (Z.eqb_spec (zlen contents) 0); lia).
  cbn [room_left after HanaRefine.room]. rewrite <- Hcap in *. clearbody cap.
  destruct (kmalloc_step r X s cap Hi) as (b & h & -> & Hb & Hi1); [lia|lia|].
  rewrite (proj2 (Z.eqb_neq _ _)) by done.
  destruct (read_extent_at d0 e lba contents cap (sectors_of (zlen contents)) 0 [] (set_heap s h))
    as (d & -> & Hs1); [exact Hs|done|lia|lia|by apply sectors_of_extent with lba (drive_has d0 dr) (drive_sector d0 dr)|lia|done|].
  cbn [rbind]. set (src := filled junk b cap contents).
  assert (Hpre : ∃ rest, src = contents ++ rest) by (unfold src, filled; eauto). destruct Hpre as [rest Hsrc].
  assert (Hi2 : fs_inv (r - cost cap) (b :: X) (set_disk (set_heap s h) d)) by (by destruct Hi1; split).
  destruct (write_file_spec (r - cost cap) (b :: X) (set_disk (set_heap s h) d) p (Some contents) (zlen contents) drv pb _ Hi2 Hp)
    as (s' & Ew & Ha & Hi'); [lia|intros ? [= <-]; done| | |].
  { split; cbn [g_head set_disk set_heap]; lia. }
  { unfold op_room. cbn [g_head set_disk set_heap]. lia. }
  rewrite Hsrc, write_file_prefix, Ew. cbn [rbind]. exists (kfree b s'). split_and!; [done| | |].
  - cbn [acall call_path snd]. change (fs_abs (kfree b s')) with (fs_abs s'). rewrite Ha.
    unfold file_content, zlen. by rewrite Nat2Z.id, firstn_all.
  - apply kfree_step. rewrite <- Em. eapply fs_inv_le; [|exact Hi'].
    unfold op_room. cbn [g_head set_disk set_heap]. lia.
  - change (steady d0 e s'). eapply steady_frame; [|exact Hs1]. eapply write_file_frame; [exact Ew|apply (fi_entries _ _ _ Hi')|done].
Qed.

(** The fields of a record where it stands. *)
Lemma iso_record_fields buf off w ident lba size dir :
  at_off buf off w → record_ok w ident lba size dir →
  bget buf off = Ret (zlen w) ∧ le32 buf (off + 2) = Ret lba ∧ le32 buf (off + 10) = Ret size ∧
  bget buf (off + 32) = Ret (zlen ident) ∧ at_off buf (off + 33) ident ∧ 0 < zlen w < 256 ∧ zlen ident < 256 ∧
  ∃ flags, bget buf (off + 25) = Ret flags ∧ negb (Z.land flags 2 =? 0) = dir.
Proof.
  intros Hw (Hby & F0 & F2 & F10 & F25 & F32 & F33 & Hlba & Hsize).
  apply fmap_Some in F25 as (flags & F25 & Hd).
  assert (Hfield : ∀ i b, 0 ≤ i → take (length b) (drop (Z.to_nat i) w) = b → at_off buf (off + i) b).
  { intros i b Hi Hb. by apply (at_off_trans _ _ w). }
  split_and!.
  - rewrite <- (Z.add_0_r off). by apply (at_off_get _ _ w).
  - apply le32_at; [|done]. by apply Hfield.
  - apply le32_at; [|done]. by apply Hfield.
  - by apply (at_off_get _ _ w).
  - by apply Hfield.
  - apply lookup_lt_Some in F25. unfold zlen. lia.
  - pose proof (Forall_lookup_1 _ _ _ _ Hby F0) as Hb. unfold is_byte in Hb. lia.
  - pose proof (Forall_lookup_1 _ _ _ _ Hby F32) as Hb. unfold is_byte in Hb. lia.
  - exists flags. split; [by apply (at_off_get _ _ w)|]. rewrite Hd.
    replace (Z.land flags 2) with (if Z.testbit flags 1 then 2 else 0); [by destruct (Z.testbit flags 1)|].
    apply Z.bits_inj'. intros k Hk. rewrite Z.land_spec. change 2 with (2 ^ 1).
    destruct (Z.eq_dec k 1) as [->|Hne].
    + rewrite Z.pow2_bits_true by lia. by destruct (Z.testbit flags 1).
    + rewrite Z.pow2_bits_false, andb_false_r by lia.
      destruct (Z.testbit flags 1); [by rewrite Z.pow2_bits_false by lia|apply Z.bits_0].
Qed.

(** The name of a record that is neither [.] nor [..]. *)
Lemma record_name buf off ident name :
  names ident name → at_off buf (off + 33) ident → zlen ident < 256 →
  (if zlen ident =? 1 then let! c := bget buf (off + 33) in Ret (c <=? 1) else Ret false) = Ret false ∧
  copy_name (Z.to_nat (zlen ident)) buf (off + 33) 0 = Ret name ∧ cstr name = name.
Proof.
  intros (Hs & H59 & Hid & H1n) Hb Hl. split_and!; [|unfold zlen; rewrite Nat2Z.id|by apply cstr_id].
  - destruct (Z.eqb_spec (zlen ident) 1) as [E|]; [|done].
    destruct ident as [|c [|c' ident]]; [done| |by rewrite !zlen_cons in E; pose proof (zlen_nonneg ident); lia].
    rewrite <- (Z.add_0_r (off + 33)), (at_off_get _ _ _ 0 c Hb) by done. cbn [rbind]. f_equal. apply Z.leb_gt.
    assert (c ≠ 1) by (intros ->; by apply H1n). assert (0 < c); [|lia].
    destruct Hid as [<-|[version E']]; [by apply Forall_cons in Hs as [[? ?] _]|].
    destruct name; injection E' as Ec _; [lia|]. subst c. by apply Forall_cons in Hs as [[? ?] _].
  - destruct Hid as [->|[version ->]].
    + pose proof (copy_name_at buf name [] (off + 33) 0) as E. rewrite app_nil_r in E. apply E; [done|lia|lia|done|by left].
    + apply copy_name_at; [done|lia|lia|done|]. right. eauto.
Qed.

Lemma dir_record_named parse p buf off w ident name lba size dir (s : St) :
  at_off buf off w → record_ok w ident lba size dir → names ident name →
  dir_record junk parse dr p buf off s
  = if dir then (let! (_, s) := hanafs_make_dir (Some (make_path_join 512 p name)) s in
                 parse lba size (make_path_join 512 p name) s)
    else copy_file junk dr lba size (make_path_join 512 p name) s.
Proof.
  intros Hat Hok Hid.
  destruct (iso_record_fields _ _ _ _ _ _ _ Hat Hok) as (_ & F2 & F10 & F32 & F33 & Hw & Hil & flags & F25 & <-).
  destruct (record_name _ _ _ _ Hid F33 Hil) as (E1 & E2 & E3).
  unfold dir_record. rewrite F2, F10, F32. cbn [rbind]. rewrite E1. cbn [rbind]. rewrite E2. cbn [rbind].
  by rewrite F25, E3.
Qed.

(** One record, the directories below being read correctly. *)
Lemma dir_record_does d0 e depth parse p buf off n :
  on_disc (drive_has d0 dr) (drive_sector d0 dr) depth n → at_off buf off (record_bytes n) →
  (∀ q lba kids k, depth = S k → dir_on_disc (drive_has d0 dr) (drive_sector d0 dr) k lba kids → 0 ≤ lba →
     does d0 e (dir_events q kids) (parse lba (zlen (extent kids)) q)) →
  does d0 e (events p n) (dir_record junk parse dr p buf off).
Proof.
  intros Hn Hat Hparse. destruct n as [w|w name lba contents|w name lba kids]; cbn [record_bytes] in Hat.
  - assert (Hn' : ∃ c lba size dir, 0 ≤ c ≤ 1 ∧ record_ok w [c] lba size dir) by (by destruct depth).
    destruct Hn' as (c & lba & size & dir & Hc & Hok).
    destruct (iso_record_fields _ _ _ _ _ _ _ Hat Hok) as (_ & F2 & F10 & F32 & F33 & _).
    apply (does_ext _ _ _ _ Ret); [|apply does_nil]. intros s. unfold dir_record. rewrite F2, F10, F32. cbn [rbind].
    change (zlen [c] =? 1) with true. cbv iota.
    rewrite <- (Z.add_0_r (off + 33)), (at_off_get _ _ _ 0 c F33) by done. cbn [rbind].
    by rewrite (proj2 (Z.leb_le _ _)) by lia.
  - assert (Hn' : (∃ ident, names ident name ∧ record_ok w ident lba (zlen contents) false) ∧
      zlen contents < 2 ^ 31 ∧ holds (drive_has d0 dr) (drive_sector d0 dr) lba contents) by (by destruct depth).
    destruct Hn' as ((ident & Hid & Hok) & Hl & Hh). pose proof Hok as (_ & _ & _ & _ & _ & _ & _ & Hlba & _).
    intros r X s Hi Hs He. pose proof He as (_ & (_ & Hjl & _) & _). cbn [call_path] in Hjl.
    rewrite (dir_record_named _ _ _ _ _ _ _ _ _ _ _ Hat Hok Hid), make_path_join_id by lia.
    apply (copy_file_does d0 e lba contents (join p name) Hh ltac:(lia) Hl r X s Hi Hs He).
  - destruct depth as [|depth]; [by destruct Hn as [_ []]|]. destruct Hn as ((ident & Hid & Hok) & Hd).
    pose proof Hok as (_ & _ & _ & _ & _ & _ & _ & Hlba & _).
    intros r X s Hi Hs He. pose proof He as ((_ & Hjl & _) & _). cbn [call_path] in Hjl.
    rewrite (dir_record_named _ _ _ _ _ _ _ _ _ _ _ Hat Hok Hid), make_path_join_id by lia.
    pose proof (does_seq d0 e _ _ _ _ (make_dir_does d0 e (join p name)) (Hparse (join p name) lba kids depth eq_refl Hd ltac:(lia))) as Hboth.
    destruct (Hboth r X s Hi Hs) as (s' & Hr & Hrest); [by destruct kids|].
    exists s'. split; [|by destruct kids]. rewrite <- Hr. by destruct (hanafs_make_dir _ s) as [[? ?]| |].
Qed.

Lemma on_disc_length d0 depth n :
  on_disc (drive_has d0 dr) (drive_sector d0 dr) depth n →
  ∀ buf off, at_off buf off (record_bytes n) → bget buf off = Ret (zlen (record_bytes n)) ∧ 33 ≤ zlen (record_bytes n) < 256.
Proof.
  intros Hn buf off Hat.
  assert (Hok : ∃ ident lba size dir, record_ok (record_bytes n) ident lba size dir).
  { destruct n as [w|w name lba contents|w name lba kids].
    - assert (Hn' : ∃ c lba size dir, 0 ≤ c ≤ 1 ∧ record_ok w [c] lba size dir) by (by destruct depth).
      destruct Hn' as (c & ? & ? & ? & _ & ?). eauto.
    - assert (Hn' : ∃ ident, names ident name ∧ record_ok w ident lba (zlen contents) false) by (by destruct depth as [|?], Hn).
      destruct Hn' as (? & _ & ?). eauto.
    - assert (Hn' : ∃ ident, names ident name ∧ record_ok w ident lba (zlen (extent kids)) true) by (by destruct depth as [|?], Hn).
      destruct Hn' as (? & _ & ?). eauto 10. }
  destruct Hok as (ident & lba & size & dir & Hok).
  destruct (iso_record_fields _ _ _ _ _ _ _ Hat Hok) as (Hg & _ & _ & _ & _ & Hw & _).
  destruct Hok as (_ & _ & _ & _ & _ & F32 & _). apply lookup_lt_Some in F32. split; [done|]. unfold zlen in *. lia.
Qed.

(** The records of one sector from [off] on; [rest] is the loop from the next sector. *)
Lemma sector_loop d0 e depth parse p buf size k need es ns : ∀ pre post fuel,
  buf = pre ++ records_bytes ns ++ post → 512 * k ≤ zlen pre → 0 ≤ k →
  (post = [] → zlen pre + zlen (records_bytes ns) = 512 * (k + 1)) →
  (zlen pre + zlen (records_bytes ns) ≠ 512 * (k + 1) → head post = Some 0) →
  zlen pre + zlen (records_bytes ns) ≤ 512 * (k + 1) → 512 * (k + 1) ≤ size → size < 2 ^ 31 → zlen buf = size →
  Forall (on_disc (drive_has d0 dr) (drive_sector d0 dr) depth) ns →
  (∀ q lba kids k, depth = S k → dir_on_disc (drive_has d0 dr) (drive_sector d0 dr) k lba kids → 0 ≤ lba →
     does d0 e (dir_events q kids) (parse lba (zlen (extent kids)) q)) →
  (∀ fuel, (need ≤ fuel)%nat → does d0 e es (dir_loop junk parse fuel dr p buf size (512 * (k + 1)))) →
  (need + length ns + 1 ≤ fuel)%nat →
  does d0 e (sector_events p ns ++ es) (dir_loop junk parse fuel dr p buf size (zlen pre)).
Proof.
  induction ns as [|n ns IH]; intros pre post fuel Hbuf Hk Hk0 Hend Hz Hsec Hsize Hmax Hlen Hns Hparse Hrest Hfuel.
  - change (records_bytes []) with (@nil Z) in *. rewrite zlen_nil in *. cbn [app] in Hbuf.
    change (sector_events p [] ++ es) with es.
    destruct (Z.eq_dec (zlen pre + 0) (512 * (k + 1))) as [E|Hne]; [rewrite Z.add_0_r in E; rewrite E; apply Hrest; cbn in Hfuel; lia|].
    destruct fuel as [|fuel]; [cbn in Hfuel; lia|]. specialize (Hz Hne).
    apply (does_ext _ _ _ _ (dir_loop junk parse fuel dr p buf size (512 * (k + 1)))); [|apply Hrest; cbn in Hfuel; lia].
    intros s. cbn [dir_loop]. rewrite (proj2 (Z.ltb_lt _ _)) by lia. destruct post as [|z post]; [done|]. injection Hz as ->.
    rewrite (proj2 (bget_Ret buf (zlen pre) 0)).
    + cbn [rbind]. change (0 =? 0) with true. cbv iota.
      assert (Hq : zlen pre `div` 512 = k) by (symmetry; apply (Z.div_unique_pos _ _ _ (zlen pre - 512 * k)); lia).
      rewrite Hq, u32_small by lia. by replace ((k + 1) * 512) with (512 * (k + 1)) by lia.
    + split; [apply zlen_nonneg|]. rewrite Hbuf, lookup_app_r by (unfold zlen; lia). unfold zlen. by rewrite Nat2Z.id, Nat.sub_diag.
  - apply Forall_cons in Hns as [Hn Hns]. change (records_bytes (n :: ns)) with (record_bytes n ++ records_bytes ns) in *.
    change (sector_events p (n :: ns)) with (events p n ++ sector_events p ns). rewrite <- !app_assoc in *.
    rewrite zlen_app in *. pose proof (zlen_nonneg (records_bytes ns)). pose proof (zlen_nonneg pre).
    assert (Hat : at_off buf (zlen pre) (record_bytes n)) by (rewrite Hbuf; apply at_off_app).
    destruct (on_disc_length d0 depth n Hn buf (zlen pre) Hat) as [Hget Hw].
    cbn [length] in Hfuel. destruct fuel as [|fuel]; [lia|].
    apply (does_ext _ _ _ _ (λ s, let! s := dir_record junk parse dr p buf (zlen pre) s in
                               dir_loop junk parse fuel dr p buf size (zlen (pre ++ record_bytes n)) s)).
    + intros s. cbn [dir_loop]. rewrite (proj2 (Z.ltb_lt _ _)), Hget by lia. cbn [rbind].
      rewrite (proj2 (Z.eqb_neq _ _)), u32_small by lia. by rewrite zlen_app.
    + apply does_seq; [by apply dir_record_does with depth|].
      apply (IH (pre ++ record_bytes n) post fuel); rewrite ?zlen_app; try lia; try done.
      * by rewrite <- app_assoc.
      * intros Hp. specialize (Hend Hp). lia.
      * intros Hne. apply Hz. lia.
Qed.

Lemma dir_sector_length ns : (length (records_bytes ns) ≤ 512)%nat → zlen (dir_sector ns) = 512.
Proof. intros Hl. unfold dir_sector, zlen. rewrite length_app, length_replicate. lia. Qed.

Lemma extent_length kids :
  Forall (λ ns, (length (records_bytes ns) ≤ 512)%nat) kids → zlen (extent kids) = 512 * zlen kids.
Proof.
  induction 1 as [|ns kids Hns _ IH]; [done|]. unfold extent in *. cbn [fmap list_fmap concat].
  rewrite zlen_app, zlen_cons, IH, dir_sector_length by done. lia.
Qed.

(** A sector of records has fewer than 512 of them. *)
Lemma records_count d0 depth ns : Forall (on_disc (drive_has d0 dr) (drive_sector d0 dr) depth) ns →
  33 * zlen ns ≤ zlen (records_bytes ns).
Proof.
  induction 1 as [|n ns Hn _ IH]; [done|]. change (records_bytes (n :: ns)) with (record_bytes n ++ records_bytes ns).
  rewrite zlen_app, zlen_cons. destruct (on_disc_length _ _ _ Hn _ 0 (at_off_app [] (record_bytes n) [])) as [_ ?]. lia.
Qed.

Lemma extent_loop d0 e depth parse p size kids : ∀ pre buf k fuel,
  buf = pre ++ extent kids → zlen pre = 512 * k → zlen buf = size → size < 2 ^ 31 →
  Forall (λ ns, (length (records_bytes ns) ≤ 512)%nat ∧ Forall (on_disc (drive_has d0 dr) (drive_sector d0 dr) depth) ns) kids →
  (∀ q lba kids k, depth = S k → dir_on_disc (drive_has d0 dr) (drive_sector d0 dr) k lba kids → 0 ≤ lba →
     does d0 e (dir_events q kids) (parse lba (zlen (extent kids)) q)) →
  (512 * length kids ≤ fuel)%nat →
  does d0 e (concat (sector_events p <$> kids)) (dir_loop junk parse fuel dr p buf size (zlen pre)).
Proof.
  induction kids as [|ns kids IH]; intros pre buf k fuel Hbuf Hpre Hlen Hmax Hk Hparse Hfuel.
  - apply (does_ext _ _ _ _ Ret); [|apply does_nil]. intros s. unfold extent in Hbuf. cbn [fmap list_fmap concat] in Hbuf.
    rewrite app_nil_r in Hbuf. subst buf. rewrite Hlen. destruct fuel; cbn [dir_loop]; by rewrite Z.ltb_irrefl.
  - apply Forall_cons in Hk as [[Hl Hns] Hk]. cbn [length] in Hfuel. pose proof (zlen_nonneg pre).
    change (extent (ns :: kids)) with (dir_sector ns ++ extent kids) in Hbuf.
    assert (Hext : zlen (extent kids) = 512 * zlen kids) by (apply extent_length; eapply Forall_impl; [exact Hk|]; by intros ? []).
    pose proof (zlen_nonneg kids).
    assert (Hsz : size = 512 * (k + 1) + 512 * zlen kids) by (rewrite <- Hlen, Hbuf, !zlen_app, dir_sector_length, Hext; lia).
    pose proof (records_count _ _ _ Hns) as Hcount.
    assert (Hend : zlen (pre ++ dir_sector ns) = 512 * (k + 1)) by (rewrite zlen_app, dir_sector_length; lia).
    unfold dir_sector in Hbuf. rewrite <- app_assoc in Hbuf. rewrite fmap_cons. cbn [concat].
    apply (sector_loop d0 e depth parse p buf size k (512 * length kids) _ ns pre
             (replicate (512 - length (records_bytes ns)) 0 ++ extent kids) fuel); try done; try (unfold zlen in *; lia).
    + intros [E _]%app_nil. apply (f_equal length) in E. rewrite length_replicate in E. unfold zlen in *. cbn in E. lia.
    + intros Hne. destruct (512 - length (records_bytes ns))%nat eqn:E; [unfold zlen in *; lia|done].
    + intros fuel' Hf'. rewrite <- Hend. apply (IH _ _ (k + 1)); try done; try lia.
      rewrite Hbuf. unfold dir_sector. by rewrite <- !app_assoc.
Qed.

Lemma parse_does d0 e depth : ∀ p lba kids,
  dir_on_disc (drive_has d0 dr) (drive_sector d0 dr) depth lba kids → 0 ≤ lba →
  does d0 e (dir_events p kids) (parse_iso_dir_recursive junk (S depth) dr lba (zlen (extent kids)) p).
Proof.
  induction depth as [depth IHd] using lt_wf_ind. intros p lba kids (Hh & Hmax & Hk) Hlba.
  assert (Hext : zlen (extent kids) = 512 * zlen kids) by (apply extent_length; eapply Forall_impl; [exact Hk|]; by intros ? []).
  destruct kids as [|ns kids0] eqn:Ek; [apply (does_ext _ _ _ _ Ret); [done|apply does_nil]|]. rewrite <- Ek in *.
  assert (Hpos : 0 < zlen (extent kids)) by (rewrite Hext, Ek, zlen_cons; pose proof (zlen_nonneg kids0); lia).
  replace (dir_events p kids) with (Alloc (zlen (extent kids)) :: concat (sector_events p <$> kids)) by (by rewrite Ek).
  clear Ek ns kids0. intros r X s Hi Hs [Hc He]. cbn [parse_iso_dir_recursive].
  rewrite (proj2 (Z.eqb_neq _ _)) by lia.
  destruct (kmalloc_step r X s (zlen (extent kids)) Hi) as (b & h & -> & Hb & Hi1); [lia|done|].
  rewrite (proj2 (Z.eqb_neq _ _)) by done.
  destruct (read_extent_at d0 e lba (extent kids) (zlen (extent kids)) (sectors_of (zlen (extent kids))) 0 [] (set_heap s h))
    as (d & -> & Hs1); [exact Hs|done|lia|lia|by apply sectors_of_extent with lba (drive_has d0 dr) (drive_sector d0 dr)|lia|done|].
  cbn [rbind negb]. rewrite filled_all by done.
  assert (Hi2 : fs_inv (r - cost (zlen (extent kids))) (b :: X) (set_disk (set_heap s h) d)) by (by destruct Hi1; split).
  destruct (extent_loop d0 e depth (parse_iso_dir_recursive junk depth dr) p (zlen (extent kids)) kids [] (extent kids) 0
              (S (Z.to_nat (zlen (extent kids)))) eq_refl eq_refl eq_refl Hmax Hk) with (r - cost (zlen (extent kids))) (b :: X)
              (set_disk (set_heap s h) d) as (s' & Hr & Ha & Hi' & Hs'); [| |done|done|done|].
  - intros q lba' kids' k -> Hd Hl. apply IHd; [lia|done|done].
  - unfold zlen in *. lia.
  - change (zlen []) with 0 in Hr. rewrite Hr. cbn [rbind]. exists (kfree b s').
    split_and!; [done|exact Ha|apply kfree_step; exact Hi'|exact Hs'].
Qed.

(** The volume descriptor in sector 16 names the root directory. *)
Definition volume_ok (sec : list Z) (lba size : Z) : Prop :=
  take 5 (drop 1 sec) = str "CD001" ∧ take 4 (drop 158 sec) = le_bytes 4 lba ∧ take 4 (drop 166 sec) = le_bytes 4 size.

Lemma memcmp_same a b : take (length b) a = b → memcmp (length b) a b = Ret 0.
Proof.
  revert a. induction b as [|y b IH]; intros a Ha; [done|]. destruct a as [|x a]; [done|]. cbn in Ha. injection Ha as -> Ha.
  cbn [length memcmp]. rewrite Z.ltb_irrefl. by apply IH.
Qed.

(** C17. Mounting a CD: when a ready drive holds a volume descriptor and a directory tree in
    the layout the reader expects (extents of whole 512-byte sectors, [depth] directories
    deep at most), and the heap has room, [hanafs_mount_iso_drive] returns 0 without undefined
    behaviour and leaves in HanaFS what making the directories and writing the files of the
    tree under the mount point leaves; the persistence flag has its old value again. *)
Theorem iso_mount_copies_tree depth lba kids mount_point r X (s : St) :
  let disc := drive_sector (disk s) dr in
  let es := [Do (Mkdir mount_point)] ++ dir_events mount_point kids ++ [Save] in
  fs_inv r X s → drive_ready dr (disk s) → drive_has (disk s) dr 16 →
  volume_ok (disc 16) lba (zlen (extent kids)) → 0 ≤ lba < 2 ^ 32 →
  dir_on_disc (drive_has (disk s) dr) disc depth lba kids → enough r (fs_abs s) es →
  ∃ s', hanafs_mount_iso_drive junk (S depth) dr (Some mount_point) s = Ret (0, s') ∧
        fs_abs s' = after (fs_abs s) es ∧ fs_inv (room_left r (fs_abs s) es) X s' ∧
        g_hanafs_persist_enabled s' = g_hanafs_persist_enabled s.
Proof.
  intros disc es Hi Hrd H16 (Hcd & Hv1 & Hv2) Hlba Hdisc He. pose proof Hdisc as (_ & Hmax & _).
  pose proof (zlen_nonneg (extent kids)). unfold hanafs_mount_iso_drive.
  destruct (drive_read dr 16 (disk s) Hrd H16) as (d & -> & Hd). change (0 =? 0) with true. cbn [negb]. fold (disc 16).
  pose proof (memcmp_same (drop 1 (disc 16)) (str "CD001") Hcd) as Hcmp. change (length (str "CD001")) with 5%nat in Hcmp.
  rewrite Hcmp. cbn [rbind]. change (0 =? 0) with true. cbn [negb].
  rewrite (le32_at _ _ lba), (le32_at _ _ (zlen (extent kids))) by (first [split; [lia|done] | lia]). cbn [rbind].
  assert (Hi0 : fs_inv r X (set_disk s d)) by (by destruct Hi; split).
  assert (Hst : steady (disk s) (g_hanafs_persist_enabled s) (set_disk s d)) by (split; done).
  destruct (events_app [Do (Mkdir mount_point)] r (fs_abs s) (dir_events mount_point kids ++ [Save])) as (Ea & Er & Ee).
  fold es in Ea, Er, Ee. destruct (Ee He) as [He1 He']. clear Ee.
  destruct (make_dir_does (disk s) _ mount_point r X (set_disk s d) Hi0 Hst He1) as (s1 & Em & Ha1 & Hi1 & Hs1).
  apply rbind_Ret in Em as ([rc s1'] & -> & [= ->]). cbn [rbind].
  change (fs_abs (set_disk s d)) with (fs_abs s) in Ha1, Hi1. rewrite <- Ha1 in He', Ea, Er.
  set (r1 := room_left r (fs_abs s) [Do (Mkdir mount_point)]) in *. clearbody r1.
  destruct (events_app (dir_events mount_point kids) r1 (fs_abs s1) [Save]) as (Ea2 & Er2 & Ee2).
  destruct (Ee2 He') as [He2 He3]. clear Ee2.
  destruct (parse_does (disk s) false depth mount_point lba kids Hdisc ltac:(lia) r1 X (set_persist s1 false))
    as (s2 & -> & Ha2 & Hi2 & Hs2); [by destruct Hi1; split|split; [apply Hs1|done]|done|].
  cbn [rbind]. change (fs_abs (set_persist s1 false)) with (fs_abs s1) in Ha2, Hi2. rewrite <- Ha2 in He3, Ea2, Er2.
  set (r2 := room_left r1 (fs_abs s1) (dir_events mount_point kids)) in *. clearbody r2. destruct He3 as (Hc & Hm1 & Hm2 & _).
  set (s3 := set_persist s2 _). assert (Hi3 : fs_inv r2 X s3) by (by destruct Hi2; split).
  pose proof (map_size_records _ _ _ Hi3) as Em. pose proof (map_size_len _ _ _ Hi3) as El.
  change (fs_abs s3) with (fs_abs s2) in Em, El.
  destruct (persist_spec r2 X s3 Hi3) as (rc' & s4 & -> & _ & Hg4 & Hf4 & Hi4 & _).
  { split; lia. }
  { unfold persist_cost, cost. rewrite image_length. lia. }
  cbn [rbind]. exists s4. split_and!; [done| | |].
  - rewrite Ea, Ea2. cbn [after]. unfold fs_abs. by rewrite Hg4.
  - rewrite Er, Er2. cbn [room_left]. eapply fs_inv_le; [|exact Hi4]. unfold persist_cost, cost. rewrite image_length. lia.
  - rewrite Hf4. unfold s3. cbn. apply Hs1.
Qed.
End mount.
