(* ===== verification/IsoDisc.v ===== *)
(** * The mount on the IDE driver, and discs

    The driver of Ide.v provides the drives that IsoSpec.v relies on: reads of the slave while
    the persistence code writes the master.  The disc of the examples has a file and a
    directory with an empty file. *)
From S2P Require Import Prelude CString HeapSpec BlockDev Ide IdeSpec IdeThm HanaFs HanaInv HanaRefine Iso IsoSpec.

Section ide.
Context {B : Type} `{AtaDevice B}.

#[export] Instance ide_drives : Drives (IdeState B) := {
  ata_read_sector_drive drive lba d :=
    match Ide.ata_read_sector_drive drive lba d with Ret r => r | _ => (-1, [], d) end
}.

(** A drive other than the master. *)
#[export] Instance ide_drives_spec : DrivesSpec (IdeState B).
Proof.
  refine {| drive_ready dr d := dr ≠ 0 ∧ ident (view (bus d)) ≠ [];
            drive_has d dr l := fits (view (bus d)) (dr =? 0) l 1 = true;
            drive_sector d dr l := disk_sector (disk_of (dr =? 0) (media (view (bus d)))) l |}.
  - intros d dr l. apply disk_sector_ok.
  - intros dr lba d [Hdr Hid] Hf. cbn. unfold Ide.ata_read_sector_drive.
    destruct (read_drive_ok (read_drive_init d) (dr =? 0) lba (bus d)) as (i & b & -> & Hs). cbn [rbind].
    rewrite (bool_decide_eq_false_2 _ Hid), orb_true_r, Hf. cbn [andb negb fst snd]. eexists. split; [done|].
    cbn [bus]. destruct Hs as (E1 & E2 & E3). split_and!; [done|by rewrite E3|intros l; unfold fits; by rewrite E2|].
    intros l. by rewrite E1.
  - intros dr d d' [Hdr Hid] (lba & b & _ & Hl & Hb & ->). cbn. unfold ide_write_sector.
    destruct (write_drive_ok (write_init d) true lba b (bus d) Hl Hb) as (i & b' & -> & Hw). cbn [rbind snd bus].
    rewrite (proj2 (Z.eqb_neq _ _) Hdr). destruct (_ && _).
    + destruct Hw as (E1 & E2 & E3). split_and!; [done|by rewrite E3|intros l; unfold fits; by rewrite E2|].
      intros l. by rewrite E1.
    + destruct Hw as (E1 & E2 & E3). split_and!; [done|by rewrite E3|intros l; unfold fits; by rewrite E2|].
      intros l. by rewrite E1.
Defined.
End ide.

(** ** A disc *)

Definition iso_record (ident : list Z) (lba size flags : Z) : list Z :=
  [33 + zlen ident; 0] ++ le_bytes 4 lba ++ rev (le_bytes 4 lba) ++ le_bytes 4 size ++ rev (le_bytes 4 size)
  ++ [126; 1; 1; 0; 0; 0; 0; flags; 0; 0; 1; 0; 0; 1; zlen ident] ++ ident.

Definition motd : list Z := str "welcome to hana " ++ replicate 496 10.

Definition disc_kids : list (list iso_node) :=
  [[IsoSelf (iso_record [0] 20 512 2); IsoSelf (iso_record [1] 20 512 2);
    IsoFile (iso_record (str "MOTD.TXT;1") 21 512 0) (str "MOTD.TXT") 21 motd;
    IsoDir (iso_record (str "BOOT") 22 512 2) (str "BOOT") 22
      [[IsoSelf (iso_record [0] 22 512 2); IsoSelf (iso_record [1] 20 512 2);
        IsoFile (iso_record (str "EMPTY.;1") 23 0 0) (str "EMPTY.") 23 []]]]].

Definition store (l : Z) (b : list Z) (d : Disk) : Disk := (ata_write_sector l b d).2.
Definition volume (lba size : Z) : list Z :=
  [1] ++ str "CD001" ++ replicate 150 0 ++ iso_record [0] lba size 2 ++ replicate 322 0.
Definition sub_kids : list (list iso_node) :=
  match disc_kids with [[_; _; _; IsoDir _ _ _ k]] => k | _ => [] end.
Definition cd : Disk :=
  store 16 (volume 20 512) (store 20 (extent disc_kids) (store 21 motd (store 22 (extent sub_kids) ∅))).

(** The master is blank and has 8192 sectors, the CD is the slave. *)
Definition cd_state : HanaFS Heap.Heap (IdeState busy_ata) :=
  FsState h0 (Ide.Ide (true, AtaState 0 0 0 0 0 Idle (∅, cd) (λ m, if m : bool then 8192 else 24) (replicate 256 0)) false false false false) [] false true.

(** One sector that holds an extent. *)
Lemma holds_sector has f lba bytes :
  length bytes = 512%nat → lba + 1 ≤ 2 ^ 32 → has lba → f lba = bytes → holds has f lba bytes.
Proof.
  intros Hl Hm Hh Hf. assert (E : zlen bytes = 512) by (unfold zlen; lia). unfold holds. rewrite E. split_and!.
  - by exists 1.
  - exact Hm.
  - intros i Hi. change (512 `div` 512) with 1 in Hi. assert (i = 0) as -> by lia. rewrite Z.add_0_r. split; [done|].
    rewrite drop_0, take_ge by lia. exact Hf.
Qed.

Ltac by_compute := apply (bool_decide_unpack _); vm_compute; exact I.

Lemma cd_holds : dir_on_disc (drive_has (disk cd_state) 1) (drive_sector (disk cd_state) 1) 1 20 disc_kids.
Proof.
  assert (Hself : ∀ depth c lba size, 0 ≤ c ≤ 1 → record_ok (iso_record [c] lba size 2) [c] lba size true →
    on_disc (drive_has (disk cd_state) 1) (drive_sector (disk cd_state) 1) depth (IsoSelf (iso_record [c] lba size 2))).
  { intros depth c lba size Hc Hok. destruct depth; exists c, lba, size, true; done. }
  assert (Hsub : dir_on_disc (drive_has (disk cd_state) 1) (drive_sector (disk cd_state) 1) 0 22 sub_kids).
  { split_and!.
    - apply holds_sector; [vm_compute; reflexivity|lia|vm_compute; reflexivity|vm_compute; reflexivity].
    - vm_compute. reflexivity.
    - apply Forall_cons. split; [|constructor]. split; [apply Nat.leb_le; vm_compute; reflexivity|].
      repeat (apply Forall_cons_2); [apply Hself; [lia|by_compute]|apply Hself; [lia|by_compute]| |constructor].
      split_and!; [|done|split_and!; [by exists 0|done|intros i Hi; change (zlen (@nil Z) `div` 512) with 0 in Hi; lia]].
      exists (str "EMPTY.;1"). split; [|by_compute]. split_and!; [by_compute|by_compute|right; by exists [49]|done]. }
  split_and!.
  - apply holds_sector; [vm_compute; reflexivity|lia|vm_compute; reflexivity|vm_compute; reflexivity].
  - vm_compute. reflexivity.
  - apply Forall_cons. split; [|constructor]. split; [apply Nat.leb_le; vm_compute; reflexivity|].
    repeat (apply Forall_cons_2); [apply Hself; [lia|by_compute]|apply Hself; [lia|by_compute]| | |constructor].
    + split_and!; [|vm_compute; reflexivity|apply holds_sector; [vm_compute; reflexivity|lia|vm_compute; reflexivity|vm_compute; reflexivity]].
      exists (str "MOTD.TXT;1"). split; [|by_compute]. split_and!; [by_compute|by_compute|right; by exists [49]|done].
    + split; [|exact Hsub]. exists (str "BOOT"). split; [|by_compute]. split_and!; [by_compute|by_compute|by left|done].
Qed.

Lemma cd_inv : fs_inv (H0 := heap_allocator bi0) (H1 := heap_allocator_spec bi0) 262000 [] cd_state.
Proof.
  split; [|constructor|constructor]. exists ∅. split_and!; [apply h0_alloc_inv|constructor|constructor].
Qed.

Lemma iso_mount_copies_tree_witness :
  ∃ s', hanafs_mount_iso_drive (H0 := heap_allocator bi0) (λ _ _, 0) 2 1 (Some (str "/cd")) cd_state = Ret (0, s') ∧
        fs_abs s' !! str "/cd/MOTD.TXT" = Some (File motd) ∧ fs_abs s' !! str "/cd/BOOT" = Some Dir ∧
        fs_abs s' !! str "/cd/BOOT/EMPTY." = Some (File []) ∧ size (fs_abs s') = 4%nat.
Proof.
  destruct (iso_mount_copies_tree (H0 := heap_allocator bi0) (λ _ _, 0) 1 1 20 disc_kids (str "/cd") 262000 [] cd_state cd_inv)
    as (s' & Hm & Ha & _).
  - split; [done|]. vm_compute. discriminate.
  - vm_compute. reflexivity.
  - vm_compute. split; [reflexivity|split; reflexivity].
  - lia.
  - exact cd_holds.
  - vm_compute. repeat split; try discriminate; repeat constructor; vm_compute; congruence.
  - exists s'. split; [exact Hm|]. rewrite Ha. vm_compute. split; [reflexivity|split; [reflexivity|split; reflexivity]].
Defined.

(** A file whose size is not a multiple of 512: the buffer has the file's size, but whole
    sectors are read into it. *)
Example iso_odd_size_overflows :
  copy_file (H0 := heap_allocator bi0) (λ _ _, 0) 1 21 100 (str "/cd/MOTD.TXT") cd_state = UB.
Proof. vm_compute. reflexivity. Qed.

(** Making a directory writes the image to the disk also while persistence is disabled. *)
Example make_dir_ignores_persist_flag :
  (let! (_, s) := hanafs_make_dir (H0 := heap_allocator bi0) (Some (str "/d")) (set_persist fs0 false) in
   Ret (bool_decide (disk_sector (disk s) HANAFS_PERSIST_LBA = replicate 512 0)))
  = Ret false.
Proof. vm_compute. reflexivity. Qed.
