(* ===== verification/Context.v ===== *)
(** * Context switches and the system-call entry (kernel/scheduler/switch.S, kernel/arch/syscall.S)

    The two assembly routines as programs of a small machine: the sixteen registers and the
    64-bit words of memory.  [context_switch] works on the words and the saved stack pointers
    of the scheduler's state. *)
From S2P Require Import Prelude Loop CString Bump Heap HeapSpec Ide Fdtable Sched SchedInv SchedSpec SchedThm SchedLife Arch.

Inductive reg := RAX | RBX | RCX | RDX | RSI | RDI | RBP | RSP | R8 | R9 | R10 | R11 | R12 | R13 | R14 | R15.
Scheme Equality for reg.
Global Instance reg_eq_decision : EqDecision reg := reg_eq_dec.

Definition regs : Type := reg → Z.
Definition set_reg (r : reg) (v : Z) (g : regs) : regs := λ x, if reg_beq x r then v else g x.

(** The registers and the words of memory. *)
Record machine := Machine { file : regs; mem : gmap Z Z }.

Inductive instr :=
| Push (r : reg)
| Pop (r : reg)
| Mov (src dst : reg)
| SubRsp (n : Z)
| AddRsp (n : Z)
| StoreRsp (src : reg).     (* mov src, (%rsp) *)

Definition exec (i : instr) (m : machine) : res machine :=
  let g := file m in
  match i with
  | Push r => let sp := u64 (g RSP - 8) in Ret (Machine (set_reg RSP sp g) (<[sp := g r]> (mem m)))
  | Pop r =>
      let! v := of_opt (mem m !! g RSP) in
      Ret (Machine (set_reg r v (set_reg RSP (u64 (g RSP + 8)) g)) (mem m))
  | Mov src dst => Ret (Machine (set_reg dst (g src) g) (mem m))
  | SubRsp n => Ret (Machine (set_reg RSP (u64 (g RSP - n)) g) (mem m))
  | AddRsp n => Ret (Machine (set_reg RSP (u64 (g RSP + n)) g) (mem m))
  | StoreRsp src => Ret (Machine g (<[g RSP := g src]> (mem m)))
  end.
Fixpoint run (p : list instr) (m : machine) : res machine :=
  match p with
  | [] => Ret m
  | i :: p => let! m := exec i m in run p m
  end.

(** ** The context switch *)

(** [*old_sp_ptr = %rsp] through [&prev->rsp]. *)
Definition set_rsp (sp : Z) (t : Task) : Task :=
  MkTask (pid t) (state t) sp (next t) (entry t) (entry_arg t) (fds t) (fd_count t) (exit_status t)
    (parent_pid t) (is_user t) (user_entry t) (user_stack t) (user_stack_size t) (kstack t).

Definition save : list instr := [Push RBP; Push RBX; Push R12; Push R13; Push R14; Push R15].
Definition restore : list instr := [Pop R15; Pop R14; Pop R13; Pop R12; Pop RBX; Pop RBP].

(** [call context_switch]: [ret] is the return address the call pushes; the answer is the
    registers, the address [ret] goes to, and the scheduler's state. *)
Definition context_switch (prev nxt ret : Z) (g : regs) (s : Sched) : res (regs * Z * Sched) :=
  let sp := u64 (g RSP - 8) in
  let! m := run save (Machine (set_reg RSP sp g) (<[sp := ret]> (words s))) in
  let! T := upd (set_rsp (file m RSP)) prev (tasks s) in
  let! t := of_opt (T !! nxt) in
  let! m := run restore (Machine (set_reg RSP (rsp t) (file m)) (mem m)) in
  let! rip := of_opt (mem m !! file m RSP) in
  Ret (set_reg RSP (u64 (file m RSP + 8)) (file m), rip,
       SchedState T (fdtabs s) (mem m) (next_pid s) (current_task s) (task_list s)).

Definition callee_saved (r : reg) : bool := bool_decide (r ∈ [RBP; RBX; R12; R13; R14; R15]).

(** The words of a suspended context: return address and callee-saved registers from the top. *)
Definition context_words (ret : Z) (g : regs) : list Z := [ret; g RBP; g RBX; g R12; g R13; g R14; g R15].
(** The frame of context [ws] lies in the words below [top]. *)
Definition frame_at (top : Z) (ws : list Z) (M : gmap Z Z) : Prop :=
  ∀ (i : nat) w, ws !! i = Some w → M !! (top - 8 * (Z.of_nat i + 1)) = Some w.

(** Remove the wrap-around of addresses, innermost first. *)
Ltac u64_addr H :=
  repeat match type of H with
  | context [u64 ?x] => lazymatch x with context [u64 _] => fail | _ => rewrite (u64_small x) in H by lia end
  end.
Ltac u64_addr_goal :=
  repeat match goal with
  | |- context [u64 ?x] => lazymatch x with context [u64 _] => fail | _ => rewrite (u64_small x) by lia end
  end.

Lemma save_frame sp ret g M :
  56 ≤ sp < 2 ^ 64 → g RSP = sp →
  ∃ g' M', run save (Machine (set_reg RSP (u64 (g RSP - 8)) g) (<[u64 (g RSP - 8) := ret]> M)) = Ret (Machine g' M')
    ∧ g' RSP = sp - 56 ∧ (∀ r, r ≠ RSP → g' r = g r) ∧ frame_at sp (context_words ret g) M'
    ∧ (∀ x, x < sp - 56 ∨ sp ≤ x → M' !! x = M !! x).
Proof.
  intros Hsp Hg. destruct (push_frame_spec (context_words ret g) sp M) as (M' & Hp & Hw & Hx).
  { change (zlen (context_words ret g)) with 7. lia. }
  change (zlen (context_words ret g)) with 7 in *.
  cbn [push_frame context_words] in Hp. u64_addr Hp.
  injection Hp as _ HM.
  unfold save. cbn [run exec rbind file mem]. cbn [set_reg]. unfold set_reg. cbn. rewrite Hg.
  u64_addr_goal. eexists _, M'. split_and!.
  - f_equal. f_equal. exact HM.
  - cbn. lia.
  - by intros [].
  - exact Hw.
  - intros x Hx'. apply Hx. lia.
Qed.

Lemma restore_frame top ret g0 g M :
  56 ≤ top < 2 ^ 64 → frame_at top (context_words ret g0) M → g RSP = top - 56 →
  ∃ g', run restore (Machine g M) = Ret (Machine g' M) ∧ g' RSP = top - 8 ∧ M !! (top - 8) = Some ret
    ∧ (∀ r, callee_saved r = true → g' r = g0 r) ∧ (∀ r, callee_saved r = false → r ≠ RSP → g' r = g r).
Proof.
  intros Ht Hf Hg.
  assert (F : M !! (top - 8) = Some ret ∧ M !! (top - 16) = Some (g0 RBP) ∧ M !! (top - 24) = Some (g0 RBX)
    ∧ M !! (top - 32) = Some (g0 R12) ∧ M !! (top - 40) = Some (g0 R13) ∧ M !! (top - 48) = Some (g0 R14)
    ∧ M !! (top - 56) = Some (g0 R15)).
  { split_and!; [apply (Hf 0%nat)|apply (Hf 1%nat)|apply (Hf 2%nat)|apply (Hf 3%nat)|apply (Hf 4%nat)
      |apply (Hf 5%nat)|apply (Hf 6%nat)]; done. }
  destruct F as (F0 & F1 & F2 & F3 & F4 & F5 & F6). clear Hf.
  unfold restore. cbn [run exec rbind file mem]. unfold set_reg. cbn. rewrite Hg.
  rewrite F6. cbn. replace (top - 56 + 8) with (top - 48) by lia. rewrite (u64_small (top - 48)), F5 by lia.
  cbn. replace (top - 48 + 8) with (top - 40) by lia. rewrite (u64_small (top - 40)), F4 by lia.
  cbn. replace (top - 40 + 8) with (top - 32) by lia. rewrite (u64_small (top - 32)), F3 by lia.
  cbn. replace (top - 32 + 8) with (top - 24) by lia. rewrite (u64_small (top - 24)), F2 by lia.
  cbn. replace (top - 24 + 8) with (top - 16) by lia. rewrite (u64_small (top - 16)), F1 by lia.
  cbn. replace (top - 16 + 8) with (top - 8) by lia. rewrite (u64_small (top - 8)) by lia.
  eexists. split; [reflexivity|]. split; [done|]. split; [done|]. split; intros []; cbn; done.
Qed.

(** ** Suspended tasks *)

(** What a task that calls [context_switch] will find when it runs again: its stack pointer,
    then the return address and the callee-saved registers. *)
Definition context : Type := Z * list Z.
Definition here (ret : Z) (g : regs) : context := (g RSP, context_words ret g).

(** Task [a] is suspended with context [c] within the stack [lo, hi). *)
Definition suspended (s : Sched) (a lo hi : Z) (c : context) : Prop :=
  ∃ t, tasks s !! a = Some t ∧ rsp t = c.1 - 56 ∧ lo + 56 ≤ c.1 ≤ hi
    ∧ frame_at c.1 c.2 (words s) ∧ ∃ ret g, c.2 = context_words ret g.

Lemma frame_at_ext top ws M M' :
  length ws = 7%nat → (∀ x, top - 56 ≤ x < top → M' !! x = M !! x) → frame_at top ws M → frame_at top ws M'.
Proof.
  intros Hl Hx Hf i w Hw. rewrite Hx; [by apply Hf|]. apply lookup_lt_Some in Hw. lia.
Qed.

(** One switch: the caller becomes suspended with its own context, the chosen task resumes
    with the one it was suspended with, and nothing but the caller's frame and its saved stack
    pointer changes. *)
Lemma context_switch_spec prev nxt ret g s tp lo hi c :
  tasks s !! prev = Some tp → 56 ≤ g RSP < 2 ^ 64 → 0 ≤ lo → hi < 2 ^ 64 →
  (nxt = prev ∧ c = here ret g
   ∨ nxt ≠ prev ∧ suspended s nxt lo hi c ∧ (hi ≤ g RSP - 56 ∨ g RSP ≤ lo)) →
  ∃ g' rip s', context_switch prev nxt ret g s = Ret (g', rip, s') ∧ here rip g' = c
    ∧ tasks s' = <[prev := set_rsp (g RSP - 56) tp]> (tasks s)
    ∧ frame_at (g RSP) (context_words ret g) (words s')
    ∧ (∀ x, x < g RSP - 56 ∨ g RSP ≤ x → words s' !! x = words s !! x).
Proof.
  intros Hp Hsp Hlo Hhi Hn. unfold context_switch.
  destruct (save_frame (g RSP) ret g (words s) Hsp eq_refl) as (g1 & M1 & -> & Hg1 & Hr1 & Hf1 & Hx1).
  cbn [rbind file mem]. unfold upd. rewrite Hp. cbn [rbind]. rewrite Hg1.
  set (T := <[prev := set_rsp (g RSP - 56) tp]> (tasks s)).
  assert (Hc : ∃ t ret' g0, T !! nxt = Some t ∧ rsp t = c.1 - 56 ∧ 56 ≤ c.1 < 2 ^ 64
            ∧ c.2 = context_words ret' g0 ∧ frame_at c.1 (context_words ret' g0) M1).
  { destruct Hn as [[-> ->]|(Hne & (t & Ht & Hrsp & Htop & Hf & ret' & g0 & Hc) & Hd)].
    - exists (set_rsp (g RSP - 56) tp), ret, g. unfold T. by rewrite lookup_insert_eq.
    - exists t, ret', g0. unfold T. rewrite lookup_insert_ne by done. split_and!; try done; [lia|lia|].
      rewrite <- Hc. apply (frame_at_ext _ _ (words s)); [by rewrite Hc|intros x Hx; apply Hx1; lia|done]. }
  destruct Hc as (t & ret' & g0 & -> & Hrsp & Htop & Hc2 & Hf). cbn [rbind of_opt]. rewrite Hrsp.
  destruct (restore_frame c.1 ret' g0 (set_reg RSP (c.1 - 56) g1) M1 Htop Hf eq_refl)
    as (g2 & -> & Hg2 & Hret & Hcs & _).
  cbn [rbind file mem]. rewrite Hg2, Hret. cbn [rbind of_opt].
  do 3 eexists. split; [reflexivity|]. split_and!; try done.
  unfold here. rewrite (surjective_pairing c), Hc2. f_equal.
  - cbn. rewrite u64_small by lia. lia.
  - unfold context_words. cbn. by rewrite !Hcs.
Qed.

(** A task fresh from [create_task] is suspended in the frame built for it: it will start at
    the trampoline, with zero registers and its stack pointer at the top of its stack. *)
Lemma new_task_suspended tramp s s' l a t :
  new_task tramp s s' l a t → 0 < kstack t → kstack t + TASK_STACK_SIZE < 2 ^ 64 →
  suspended s' a (kstack t) (kstack t + TASK_STACK_SIZE) (rsp t + 56, tramp :: replicate 6 0)
  ∧ (rsp t + 56) `mod` 16 = 0.
Proof.
  intros Hn Hk Hk'. pose proof (new_frame_layout tramp (kstack t) (words s) Hk Hk') as Hf.
  rewrite <- (nt_frame _ _ _ _ _ _ Hn) in Hf. destruct Hf as (H1 & H2 & H3 & H4 & H5 & _).
  split; [|done]. exists t. split; [apply Hn|]. cbn [fst snd].
  split_and!; [lia|lia|lia| |exists tramp, (λ _, 0); done].
  intros i w Hw. destruct i as [|i]; cbn in Hw.
  - injection Hw as <-. rewrite <- H5. f_equal. lia.
  - apply (lookup_replicate_1 6 0 w i) in Hw as [-> Hi]. rewrite <- (H4 (5 - Z.of_nat i)) by lia. f_equal. lia.
Qed.

(** ** Tasks as coroutines *)

(** A turn of the running task: what it writes to its stack, and the registers, return address
    and target of its next call. *)
Record turn := Turn { writes : list (Z * Z); t_ret : Z; t_regs : regs; t_next : Z }.

Definition store_all (l : list (Z * Z)) (s : Sched) : Sched :=
  SchedState (tasks s) (fdtabs s) (foldl (λ M av, <[av.1 := av.2]> M) (words s) l)
    (next_pid s) (current_task s) (task_list s).

(** The contexts the tasks resume with, turn by turn. *)
Fixpoint run_turns (l : list turn) (cur : Z) (s : Sched) : res (list context) :=
  match l with
  | [] => Ret []
  | t :: l =>
      let! (g, rip, s) := context_switch cur (t_next t) (t_ret t) (t_regs t) (store_all (writes t) s) in
      let! cs := run_turns l (t_next t) s in
      Ret (here rip g :: cs)
  end.

(** The specification: a table of contexts; a call stores the caller's and takes the other's. *)
Fixpoint coroutines (l : list turn) (cur : Z) (K : gmap Z context) : option (list context) :=
  match l with
  | [] => Some []
  | t :: l =>
      let K := <[cur := here (t_ret t) (t_regs t)]> K in
      c ← K !! t_next t; (c ::.) <$> coroutines l (t_next t) K
  end.

(** Every task has a stack of its own. *)
Definition disjoint_stacks (stack : Z → Z * Z) (l : list Z) : Prop :=
  (∀ a, a ∈ l → 0 ≤ (stack a).1 ∧ (stack a).2 < 2 ^ 64) ∧
  (∀ a b, a ∈ l → b ∈ l → a ≠ b → (stack a).2 ≤ (stack b).1 ∨ (stack b).2 ≤ (stack a).1).
(** A turn stays within the running task's stack and switches to a task. *)
Definition turn_ok (stack : Z → Z * Z) (l : list Z) (cur : Z) (t : turn) : Prop :=
  (stack cur).1 + 56 ≤ t_regs t RSP ≤ (stack cur).2 ∧ t_next t ∈ l
  ∧ Forall (λ av, (stack cur).1 ≤ av.1 < (stack cur).2) (writes t).
Fixpoint turns_ok (stack : Z → Z * Z) (l : list Z) (cur : Z) (ts : list turn) : Prop :=
  match ts with [] => True | t :: ts => turn_ok stack l cur t ∧ turns_ok stack l (t_next t) ts end.

(** All tasks but the running one are suspended as the table says. *)
Definition coroutine_inv (stack : Z → Z * Z) (l : list Z) (cur : Z) (s : Sched) (K : gmap Z context) : Prop :=
  cur ∈ l ∧ is_Some (tasks s !! cur)
  ∧ ∀ a, a ∈ l → a ≠ cur → ∃ c, K !! a = Some c ∧ suspended s a (stack a).1 (stack a).2 c.

Lemma store_all_frame l s x :
  (∀ av, av ∈ l → x ≠ av.1) → words (store_all l s) !! x = words s !! x.
Proof.
  intros Hx. unfold store_all. cbn [words]. generalize (words s). induction l as [|[a v] l IH]; intros M; [done|].
  cbn [foldl]. rewrite IH by (intros; apply Hx; by right). cbn [fst snd]. apply lookup_insert_ne.
  intros ->. by apply (Hx (x, v)); [left|].
Qed.

Lemma suspended_ext s s' a lo hi c :
  tasks s' !! a = tasks s !! a → (∀ x, lo ≤ x < hi → words s' !! x = words s !! x) →
  suspended s a lo hi c → suspended s' a lo hi c.
Proof.
  intros HT Hx (t & Ht & Hr & Htop & Hf & ret & g & Hc). exists t. rewrite HT. split_and!; try done; [lia|lia| |eauto].
  apply (frame_at_ext _ _ (words s)); [by rewrite Hc|intros; apply Hx; lia|done].
Qed.

Lemma inv_writes stack l cur s K ws :
  disjoint_stacks stack l → Forall (λ av, (stack cur).1 ≤ av.1 < (stack cur).2) ws →
  coroutine_inv stack l cur s K → coroutine_inv stack l cur (store_all ws s) K.
Proof.
  intros [_ Hd] Hw (Hc & Ht & Hs). split_and!; [done|done|]. intros a Ha Hne.
  destruct (Hs a Ha Hne) as (c & HK & Hsu). exists c. split; [done|].
  revert Hsu. apply suspended_ext; [done|]. intros x Hx. apply store_all_frame.
  intros av Hav. rewrite Forall_forall in Hw. specialize (Hw av Hav).
  destruct (Hd a cur Ha Hc Hne); lia.
Qed.

(** One turn keeps the invariant and resumes the context the table holds. *)
Lemma turn_spec stack l cur s K t :
  disjoint_stacks stack l → turn_ok stack l cur t → coroutine_inv stack l cur s K →
  let K' := <[cur := here (t_ret t) (t_regs t)]> K in
  ∃ g rip s' c, context_switch cur (t_next t) (t_ret t) (t_regs t) (store_all (writes t) s) = Ret (g, rip, s')
    ∧ K' !! t_next t = Some c ∧ here rip g = c ∧ coroutine_inv stack l (t_next t) s' K'.
Proof.
  intros Hd (Hrsp & Hnx & Hw) Hi. cbn zeta. pose proof (inv_writes _ _ _ _ _ _ Hd Hw Hi) as (Hc & [tc Htc] & Hs).
  destruct Hd as [Hb Hd]. pose proof (Hb cur Hc) as Hbc. pose proof (Hb _ Hnx) as Hbn.
  set (K' := <[cur := _]> K). set (s1 := store_all (writes t) s) in *.
  assert (∃ c, K' !! t_next t = Some c ∧ (t_next t = cur ∧ c = here (t_ret t) (t_regs t)
     ∨ t_next t ≠ cur ∧ suspended s1 (t_next t) (stack (t_next t)).1 (stack (t_next t)).2 c
       ∧ ((stack (t_next t)).2 ≤ t_regs t RSP - 56 ∨ t_regs t RSP ≤ (stack (t_next t)).1))) as (c & HK & Hcase).
  { destruct (decide (t_next t = cur)) as [Heq|Hne].
    - exists (here (t_ret t) (t_regs t)). unfold K'. rewrite Heq, lookup_insert_eq. eauto.
    - destruct (Hs _ Hnx Hne) as (c & HK & Hsu). exists c. unfold K'. rewrite lookup_insert_ne by done.
      split; [done|]. right. split_and!; [done|done|]. destruct (Hd _ _ Hnx Hc Hne); lia. }
  destruct (context_switch_spec cur (t_next t) (t_ret t) (t_regs t) s1 tc _ _ c Htc
    ltac:(lia) ltac:(apply Hbn) ltac:(apply Hbn) Hcase) as (g & rip & s' & Hsw & Hh & HT & Hf & Hx).
  exists g, rip, s', c. do 3 (split; [done|]). split; [done|]. split.
  { rewrite HT. destruct (decide (t_next t = cur)) as [->|Hne]; [by rewrite lookup_insert_eq|].
    destruct (Hs _ Hnx Hne) as (? & _ & ? & Ht & _). rewrite lookup_insert_ne by done. by rewrite Ht. }
  intros a Ha Hne. destruct (decide (a = cur)) as [->|Hac].
  - exists (here (t_ret t) (t_regs t)). split; [apply lookup_insert_eq|].
    eexists. rewrite HT, lookup_insert_eq. split_and!; try done; cbn; [lia|lia|eauto].
  - destruct (Hs a Ha Hac) as (ca & HKa & Hsu). exists ca. unfold K'. rewrite lookup_insert_ne by done.
    split; [done|]. revert Hsu. apply suspended_ext; [by rewrite HT, lookup_insert_ne by done|].
    intros x Hx'. apply Hx. destruct (Hd a cur Ha Hc Hac); lia.
Qed.

(** C28. Context switches implement coroutines.  Let every task have a stack of its own and all
    but the running one be suspended as the table [K] says.  Then however the tasks call
    [context_switch] in turn, and whatever each writes to its own stack before it does, every
    call returns, in the task that was chosen, with exactly the stack pointer, the
    callee-saved registers and the return address that task called it with (or, the first
    time, the ones in [K]). *)
Theorem switches_are_coroutines stack l ts cur s K :
  disjoint_stacks stack l → coroutine_inv stack l cur s K → turns_ok stack l cur ts →
  ∃ cs, run_turns ts cur s = Ret cs ∧ coroutines ts cur K = Some cs.
Proof.
  intros Hd. revert cur s K. induction ts as [|t ts IH]; intros cur s K Hi Hts; [by exists []|].
  destruct Hts as [Ht Hts].
  destruct (turn_spec stack l cur s K t Hd Ht Hi) as (g & rip & s' & c & Hsw & HK & Hh & Hi').
  destruct (IH _ _ _ Hi' Hts) as (cs & Hrun & Hco). exists (c :: cs). cbn [run_turns coroutines].
  rewrite Hsw, HK. cbn [rbind mbind option_bind]. rewrite Hrun, Hco. cbn. by rewrite Hh.
Qed.

(** A main task and a task just created, on stacks at 0x20000 and 0x10000. *)
Definition demo_stack (a : Z) : Z * Z := if a =? 0x200 then (0x10000, 0x14000) else (0x20000, 0x24000).
Definition demo_sched : Sched :=
  let '(sp, M) := new_frame 0x4000 0x10000 ∅ in
  SchedState {[0x100 := task_zero; 0x200 := set_kstack sp 0x10000 task_zero]} ∅ M 3 0x100 0x100.
Definition demo_table : gmap Z context := {[0x200 := (0x14000, 0x4000 :: replicate 6 0)]}.
Definition demo_turns : list turn :=
  [Turn [(0x23FF8, 5)] 0x111 (λ r, if reg_beq r RSP then 0x23FF0 else 7) 0x200;
   Turn [(0x13FF8, 9); (0x13FF0, 8)] 0x222 (λ r, if reg_beq r RSP then 0x13FF0 else 2) 0x100;
   Turn [(0x23F00, 1)] 0x333 (λ r, if reg_beq r RSP then 0x23FF0 else 3) 0x200].

Lemma switches_are_coroutines_witness :
  ∃ cs, run_turns demo_turns 0x100 demo_sched = Ret cs ∧ coroutines demo_turns 0x100 demo_table = Some cs.
Proof.
  apply (switches_are_coroutines demo_stack [0x100; 0x200]).
  - split.
    + intros a Ha. repeat (apply elem_of_cons in Ha as [->|Ha]; [cbn; lia|]). by apply not_elem_of_nil in Ha.
    + intros a b Ha Hb Hne. apply elem_of_cons in Ha as [->|Ha%list_elem_of_singleton];
        apply elem_of_cons in Hb as [->|Hb%list_elem_of_singleton]; subst; cbn; lia.
  - split; [by left|]. split; [by vm_compute; eexists|].
    intros a Ha Hne. apply elem_of_cons in Ha as [->|Ha%list_elem_of_singleton]; [done|]. subst a.
    eexists. split; [reflexivity|]. eexists. split; [reflexivity|]. split; [reflexivity|]. split; [cbn; lia|].
    split; [|by exists 0x4000, (λ _, 0)].
    intros i w Hw. cbn in Hw. do 7 (destruct i as [|i]; [injection Hw as <-; reflexivity|]). done.
  - cbn -[Z.le Z.lt]. unfold turn_ok. cbn. split_and!; try lia; try done; try set_solver.
    all: repeat constructor; cbn; lia.
Defined.

(** ** The system-call entry *)

Definition entry_save : list instr :=
  [Push R11; Push RCX; Push R15; Push R14; Push R13; Push R12; Push RBX; Mov RSP RBP].
Definition entry_args : list instr :=
  [Mov RDI R11; Mov RSI R12; Mov RDX R13; Mov R10 R14; Mov R8 R15; Mov R9 RBX;
   SubRsp 8; StoreRsp RBX;
   Mov RAX RDI; Mov R11 RSI; Mov R12 RDX; Mov R13 RCX; Mov R14 R8; Mov R15 R9].
Definition entry_restore : list instr :=
  [AddRsp 8; Mov RBP RSP; Pop RBX; Pop R12; Pop R13; Pop R14; Pop R15; Pop RCX; Pop R11].

(** [dispatch] is the call of [syscall_dispatch]; [sysretq] goes to [rcx] with the flags of
    [r11]. *)
Definition syscall_entry (dispatch : machine → machine) (m : machine) : res machine :=
  let! m := run (entry_save ++ entry_args) m in
  run entry_restore (dispatch m).

(** The calling convention of the compiled dispatcher: it keeps the callee-saved registers, the
    stack pointer and the words from its caller's stack pointer up. *)
Definition abi_call (dispatch : machine → machine) : Prop :=
  ∀ m, (∀ r, callee_saved r = true ∨ r = RSP → file (dispatch m) r = file m r)
     ∧ ∀ x, file m RSP ≤ x < 2 ^ 64 → mem (dispatch m) !! x = mem m !! x.

Lemma run_app p q m : run (p ++ q) m = rbind (run p m) (run q).
Proof.
  revert m. induction p as [|i p IH]; intros m; [done|]. cbn [app run].
  destruct (exec i m) as [m'| |]; cbn [rbind]; [apply IH|done|done].
Qed.

(** Look a word up among the stores that were made. *)
Ltac find_word :=
  repeat first
    [ rewrite lookup_insert_ne by lia
    | match goal with |- <[?a := _]> _ !! ?b = _ => replace b with a by lia; rewrite lookup_insert_eq; reflexivity end ].

(** The stages of the entry. *)
Lemma entry_save_spec g M :
  64 ≤ g RSP < 2 ^ 64 →
  ∃ g' M', run entry_save (Machine g M) = Ret (Machine g' M') ∧ g' RSP = g RSP - 56 ∧ g' RBP = g RSP - 56
    ∧ (∀ r, r ≠ RSP → r ≠ RBP → g' r = g r)
    ∧ M' !! (g RSP - 56) = Some (g RBX) ∧ M' !! (g RSP - 48) = Some (g R12)
    ∧ M' !! (g RSP - 40) = Some (g R13) ∧ M' !! (g RSP - 32) = Some (g R14)
    ∧ M' !! (g RSP - 24) = Some (g R15) ∧ M' !! (g RSP - 16) = Some (g RCX)
    ∧ M' !! (g RSP - 8) = Some (g R11) ∧ (∀ x, g RSP ≤ x → M' !! x = M !! x).
Proof.
  intros Hs. unfold entry_save. cbn [run exec rbind file mem]. unfold set_reg. cbn.
  set (sp := g RSP) in *. u64_addr_goal. do 2 eexists. split; [reflexivity|]. cbn [reg_beq].
  split; [lia|]. split; [lia|]. split; [by intros []|].
  split_and!; [find_word..|]. intros x Hx. by rewrite !lookup_insert_ne by lia.
Qed.

Definition to_temps : list instr := [Mov RDI R11; Mov RSI R12; Mov RDX R13; Mov R10 R14; Mov R8 R15; Mov R9 RBX].
Definition pass_sixth : list instr := [SubRsp 8; StoreRsp RBX].
Definition to_args : list instr := [Mov RAX RDI; Mov R11 RSI; Mov R12 RDX; Mov R13 RCX; Mov R14 R8; Mov R15 R9].

Lemma to_temps_spec g M :
  ∃ g', run to_temps (Machine g M) = Ret (Machine g' M)
    ∧ g' R11 = g RDI ∧ g' R12 = g RSI ∧ g' R13 = g RDX ∧ g' R14 = g R10 ∧ g' R15 = g R8 ∧ g' RBX = g R9
    ∧ g' RAX = g RAX ∧ g' RSP = g RSP ∧ g' RBP = g RBP.
Proof. eexists. split; [reflexivity|]. split_and!; reflexivity. Qed.
Lemma to_args_spec g M :
  ∃ g', run to_args (Machine g M) = Ret (Machine g' M)
    ∧ g' RDI = g RAX ∧ g' RSI = g R11 ∧ g' RDX = g R12 ∧ g' RCX = g R13 ∧ g' R8 = g R14 ∧ g' R9 = g R15
    ∧ g' RSP = g RSP ∧ g' RBP = g RBP.
Proof. eexists. split; [reflexivity|]. split_and!; reflexivity. Qed.

(** The machine at the call of the dispatcher. *)
Lemma entry_reaches_dispatch g M :
  64 ≤ g RSP < 2 ^ 64 →
  ∃ m, run (entry_save ++ entry_args) (Machine g M) = Ret m
    ∧ file m RDI = g RAX ∧ file m RSI = g RDI ∧ file m RDX = g RSI ∧ file m RCX = g RDX
    ∧ file m R8 = g R10 ∧ file m R9 = g R8
    ∧ file m RSP = g RSP - 64 ∧ file m RBP = g RSP - 56
    ∧ mem m !! (g RSP - 64) = Some (g R9)
    ∧ mem m !! (g RSP - 56) = Some (g RBX) ∧ mem m !! (g RSP - 48) = Some (g R12)
    ∧ mem m !! (g RSP - 40) = Some (g R13) ∧ mem m !! (g RSP - 32) = Some (g R14)
    ∧ mem m !! (g RSP - 24) = Some (g R15) ∧ mem m !! (g RSP - 16) = Some (g RCX)
    ∧ mem m !! (g RSP - 8) = Some (g R11)
    ∧ (∀ x, g RSP ≤ x → mem m !! x = M !! x).
Proof.
  intros Hs. rewrite run_app. destruct (entry_save_spec g M Hs) as (g1 & M1 & -> & Hsp & Hbp & Hk & W).
  destruct W as (W1 & W2 & W3 & W4 & W5 & W6 & W7 & Hx). cbn [rbind].
  change entry_args with (to_temps ++ (pass_sixth ++ to_args)). rewrite run_app.
  destruct (to_temps_spec g1 M1) as (g2 & E2 & T1 & T2 & T3 & T4 & T5 & T6 & T7 & T8 & T9).
  rewrite E2. cbn [rbind]. rewrite run_app. unfold pass_sixth. cbn [run exec rbind file mem].
  rewrite T8, Hsp, u64_small by lia.
  destruct (to_args_spec (set_reg RSP (g RSP - 56 - 8) g2) (<[g RSP - 56 - 8 := g2 RBX]> M1))
    as (g3 & E3 & A0 & A1 & A2 & A3 & A4 & A5 & A6 & A7).
  cbn in E3 |- *. rewrite E3. eexists. split; [reflexivity|]. cbn [file mem].
  cbn in A0, A1, A2, A3, A4, A5, A6, A7.
  rewrite A0, A1, A2, A3, A4, A5, A6, A7, T1, T2, T3, T4, T5, T6, T7, T9, Hbp.
  rewrite !Hk by done. split_and!; try done; try lia.
  1-8: find_word; done.
  intros x Hx'. rewrite lookup_insert_ne by lia. by apply Hx.
Qed.

Lemma entry_roundtrip dispatch g M :
  abi_call dispatch → 64 ≤ g RSP < 2 ^ 64 →
  ∃ m m', run (entry_save ++ entry_args) (Machine g M) = Ret m
    ∧ (file m <$> [RDI; RSI; RDX; RCX; R8; R9]) = (g <$> [RAX; RDI; RSI; RDX; R10; R8])
    ∧ mem m !! file m RSP = Some (g R9)
    ∧ syscall_entry dispatch (Machine g M) = Ret m'
    ∧ file m' RAX = file (dispatch m) RAX
    ∧ (file m' <$> [RSP; RBX; R12; R13; R14; R15; RCX; R11]) = (g <$> [RSP; RBX; R12; R13; R14; R15; RCX; R11])
    ∧ (∀ x, g RSP ≤ x < 2 ^ 64 → mem m' !! x = M !! x)
    ∧ file m' RBP = g RSP - 56.
Proof.
  intros Habi Hs. destruct (entry_reaches_dispatch g M Hs)
    as (m & Hrun & A0 & A1 & A2 & A3 & A4 & A5 & Hsp & Hbp & W0 & W1 & W2 & W3 & W4 & W5 & W6 & W7 & Hx).
  destruct (Habi m) as [Hr Hm]. set (d := dispatch m) in *.
  assert (Hdsp : file d RSP = g RSP - 64) by (rewrite Hr; auto).
  assert (Hdbp : file d RBP = g RSP - 56) by (rewrite Hr by auto; done).
  exists m. unfold syscall_entry. rewrite Hrun. cbn [rbind]. fold d.
  unfold entry_restore. cbn [run exec rbind file mem]. unfold set_reg. cbn. rewrite Hdbp.
  repeat match goal with
  | |- context [mem d !! u64 (?a + 8)] => first [rewrite (u64_small (a + 8)) by lia]
  | |- context [mem d !! (?a - ?k + 8)] =>
      let k' := eval vm_compute in (k - 8) in replace (a - k + 8) with (a - k') by lia
  | |- context [mem d !! ?a] => rewrite (Hm a) by lia; first [rewrite W1|rewrite W2|rewrite W3|rewrite W4|rewrite W5|rewrite W6|rewrite W7]; cbn
  end.
  eexists. split; [done|]. split; [cbn; congruence|]. split; [by rewrite Hsp|]. split; [reflexivity|].
  cbn [file mem reg_beq fmap list_fmap]. split; [reflexivity|]. split; [u64_addr_goal; do 2 f_equal; lia|].
  split; [|exact Hdbp]. intros x Hx'. rewrite Hm by lia. apply Hx. lia.
Qed.

(** The system-call entry.  The dispatcher is called with the number and five arguments in
    its registers and the sixth on the stack, and on the way back the user's stack pointer,
    [rbx], [r12] to [r15], the return address in [rcx] and the flags in [r11] are restored and
    the dispatcher's result is in [rax], with the user's stack untouched; but [rbp] is left
    pointing into the entry's own frame. *)
Theorem syscall_entry_preserves dispatch g M :
  abi_call dispatch → 64 ≤ g RSP < 2 ^ 64 →
  ∃ m m', run (entry_save ++ entry_args) (Machine g M) = Ret m
    ∧ (file m <$> [RDI; RSI; RDX; RCX; R8; R9]) = (g <$> [RAX; RDI; RSI; RDX; R10; R8])
    ∧ mem m !! file m RSP = Some (g R9)
    ∧ syscall_entry dispatch (Machine g M) = Ret m'
    ∧ file m' RAX = file (dispatch m) RAX
    ∧ (file m' <$> [RSP; RBX; R12; R13; R14; R15; RCX; R11]) = (g <$> [RSP; RBX; R12; R13; R14; R15; RCX; R11])
    ∧ (∀ x, g RSP ≤ x < 2 ^ 64 → mem m' !! x = M !! x)
    ∧ file m' RBP = g RSP - 56.
Proof. apply entry_roundtrip. Qed.

(** A dispatcher that returns 42 and writes below the stack pointer. *)
Definition demo_dispatch (m : machine) : machine :=
  Machine (set_reg RCX 0 (set_reg RAX 42 (file m))) (<[file m RSP - 8 := 1]> (mem m)).
Definition demo_user (r : reg) : Z := if reg_beq r RSP then 0x7000 else if reg_beq r RBP then 0x7100 else 5.

Lemma syscall_entry_preserves_witness :
  ∃ m m', run (entry_save ++ entry_args) (Machine demo_user ∅) = Ret m
    ∧ (file m <$> [RDI; RSI; RDX; RCX; R8; R9]) = (demo_user <$> [RAX; RDI; RSI; RDX; R10; R8])
    ∧ mem m !! file m RSP = Some (demo_user R9)
    ∧ syscall_entry demo_dispatch (Machine demo_user ∅) = Ret m'
    ∧ file m' RAX = file (demo_dispatch m) RAX
    ∧ (file m' <$> [RSP; RBX; R12; R13; R14; R15; RCX; R11]) = (demo_user <$> [RSP; RBX; R12; R13; R14; R15; RCX; R11])
    ∧ (∀ x, demo_user RSP ≤ x < 2 ^ 64 → mem m' !! x = (∅ : gmap Z Z) !! x)
    ∧ file m' RBP = demo_user RSP - 56.
Proof.
  apply syscall_entry_preserves; [|unfold demo_user; cbn; lia].
  intros m. split; [intros [] [Hr|Hr]; (reflexivity || discriminate)|].
  intros x Hx. apply lookup_insert_ne. lia.
Defined.

(** * The timer's interrupt entry (kernel/arch/pit_entry.S)

    The wrapper saves fifteen registers, calls the C handler and restores them: the
    interrupted program does not notice. *)


Definition saved_regs : list reg :=
  [RAX; RBX; RCX; RDX; RSI; RDI; RBP; R8; R9; R10; R11; R12; R13; R14; R15].

(** Pushes, a body, and the pops in reverse order. *)
Definition bracket (rs : list reg) (f : machine → machine) (m : machine) : res machine :=
  let! m := run (Push <$> rs) m in run (Pop <$> reverse rs) (f m).

(** Up to the [iretq]; [isr] is the call of [pit_isr]. *)
Definition pit_entry (isr : machine → machine) (m : machine) : res machine := bracket saved_regs isr m.

(** The body keeps the stack pointer and the words above it. *)
Definition keeps_stack (f : machine → machine) : Prop :=
  ∀ m, file (f m) RSP = file m RSP ∧ ∀ x, file m RSP ≤ x < 2 ^ 64 → mem (f m) !! x = mem m !! x.

Lemma set_reg_ne r x v g : x ≠ r → set_reg r v g x = g x.
Proof. unfold set_reg. destruct (reg_beq x r) eqn:E; [|done]. by apply internal_reg_dec_bl in E. Qed.
Lemma set_reg_eq r v g : set_reg r v g r = v.
Proof. by destruct r. Qed.

Lemma bracket_restores f rs : keeps_stack f → RSP ∉ rs → ∀ m, 8 * zlen rs ≤ file m RSP < 2 ^ 64 →
  ∃ m', bracket rs f m = Ret m' ∧ file m' RSP = file m RSP ∧ (∀ r, r ∈ rs → file m' r = file m r) ∧
        ∀ x, file m RSP ≤ x < 2 ^ 64 → mem m' !! x = mem m !! x.
Proof.
  intros Hf. induction rs as [|r rs IH]; intros Hr m Hm; unfold bracket in *.
  - cbn. destruct (Hf m) as [Hs Hx]. exists (f m). split_and!; [done|done| |done]. by intros r ?%not_elem_of_nil.
  - apply not_elem_of_cons in Hr as [Hr Hrs]. rewrite zlen_cons in Hm. pose proof (zlen_nonneg rs).
    rewrite reverse_cons, !fmap_app, fmap_cons. cbn [fmap list_fmap run exec rbind].
    rewrite (u64_small (file m RSP - 8)) by lia. set (sp := file m RSP - 8).
    set (m1 := Machine (set_reg RSP sp (file m)) (<[sp := file m r]> (mem m))).
    assert (H1 : file m1 RSP = sp) by (apply (set_reg_eq RSP)).
    destruct (IH Hrs m1) as (m2 & He & Hsp & Hregs & Hmem); [lia|].
    destruct (run (Push <$> rs) m1) as [m3| |]; cbn [rbind] in He |- *; [|done..]. rewrite run_app, He. cbn [rbind run exec].
    rewrite Hsp, H1, Hmem by lia. cbn [m1 mem]. rewrite lookup_insert_eq. cbn [of_opt rbind].
    eexists. split; [done|]. cbn [file mem]. rewrite (u64_small (sp + 8)) by lia. split_and!.
    + rewrite set_reg_ne, set_reg_eq by done. unfold sp. lia.
    + intros x Hx. destruct (decide (x = r)) as [->|Hne]; [apply set_reg_eq|].
      apply elem_of_cons in Hx as [->|Hx]; [done|]. assert (x ≠ RSP) by (by intros ->).
      rewrite !set_reg_ne, Hregs by done. unfold m1. cbn [file]. by rewrite set_reg_ne.
    + intros x Hx. rewrite Hmem by lia. unfold m1. cbn [mem]. by rewrite lookup_insert_ne by lia.
Qed.

Lemma saved_all r : r ≠ RSP → r ∈ saved_regs.
Proof. intros Hr. apply list_elem_of_In. destruct r; cbn; try congruence; tauto. Qed.

(** C35. A timer interrupt is transparent: whatever the C handler does within the calling
    convention, when [pit_entry] reaches its [iretq] all sixteen registers and the words from
    the stack pointer up are as they were. *)
Theorem timer_interrupt_transparent isr m :
  abi_call isr → 120 ≤ file m RSP < 2 ^ 64 →
  ∃ m', pit_entry isr m = Ret m' ∧ (∀ r, file m' r = file m r) ∧
        ∀ x, file m RSP ≤ x < 2 ^ 64 → mem m' !! x = mem m !! x.
Proof.
  intros Habi Hm. destruct (bracket_restores isr saved_regs) with m as (m' & He & Hsp & Hregs & Hmem).
  - intros m0. destruct (Habi m0) as [Hr Hx]. split; [apply Hr; by right|done].
  - rewrite list_elem_of_In. cbn. intuition discriminate.
  - change (zlen saved_regs) with 15. lia.
  - exists m'. split; [exact He|]. split; [|done]. intros r. destruct (decide (r = RSP)) as [->|Hne]; [done|].
    by apply Hregs, saved_all.
Qed.

Lemma timer_interrupt_transparent_witness :
  ∃ m', pit_entry demo_dispatch (Machine demo_user ∅) = Ret m' ∧ file m' RAX = 5 ∧ file m' RSP = 0x7000.
Proof.
  destruct (timer_interrupt_transparent demo_dispatch (Machine demo_user ∅)) as (m' & He & Hr & _).
  - intros m. split; [intros [] [Hr|Hr]; (reflexivity || discriminate)|].
    intros x Hx. apply lookup_insert_ne. lia.
  - unfold demo_user. cbn. lia.
  - exists m'. split; [exact He|]. split; [exact (Hr RAX)|exact (Hr RSP)].
Defined.
