(* ===== verification/UserApi.v ===== *)
(** * User-space side of the system calls (kernel/userland/musl_shim, kernel/api/hanaapi.h)

    The shim behind musl's [syscall] loads the argument registers and executes [syscall]; with
    Context.v this is the whole path to the dispatcher and back.  The open flags of hanaapi.h
    are compared with those of the kernel. *)
From S2P Require Import Prelude CString HeapSpec BlockDev Syscalls Pipes Context.

(** The instruction keeps the return address in [rcx] and the flags in [r11]. *)
Definition syscall_insn (next flags : Z) (dispatch : machine → machine) (m : machine) : res machine :=
  syscall_entry dispatch (Machine (set_reg R11 flags (set_reg RCX next (file m))) (mem m)).

(** [syscall (num, a1, ..., a6)]: the result is [rax]. *)
Definition syscall (num a1 a2 a3 a4 a5 a6 next flags : Z) (dispatch : machine → machine) (m : machine)
  : res (Z * machine) :=
  let g := set_reg RDX a3 (set_reg RSI a2 (set_reg RDI a1 (set_reg RAX num
             (set_reg R9 a6 (set_reg R8 a5 (set_reg R10 a4 (file m))))))) in
  let! m := syscall_insn next flags dispatch (Machine g (mem m)) in
  Ret (file m RAX, m).



(** ** Open flags *)

Definition HANA_O_CREAT : Z := 0x0100.
Definition HANA_O_TRUNC : Z := 0x0200.
Definition HANA_O_APPEND : Z := 0x0400.

(** The create flag of the header is not the kernel's; truncate and append are. *)
Lemma hana_create_ignored : Z.land HANA_O_CREAT O_CREAT = 0 ∧ HANA_O_TRUNC = O_TRUNC ∧ HANA_O_APPEND = O_APPEND.
Proof. done. Qed.
