(* ===== verification/BootSpec.v ===== *)
(** * The kernel reaches its log-in

    The second call of [heap_init], from [init_scheduler], must not reset the heap under the
    files of the initrd: [started_allocator] adds to the heap's interface that it knows it is
    initialized.  [boot_reaches_login] composes the components; [boot_refuses_intruder] goes on
    through the log-in. *)
From S2P Require Import Prelude CString Bump Heap HeapInv HeapRefine HeapSpec Tty Keyboard HanaPath BlockDev HanaFs HanaInv HanaImage HanaOps HanaRefine Vfs VfsSpec Sched SchedSpec SchedLife Syscalls Initrd Users LibC Fat FatMount FatFresh Commands Login Floppy VfsUnion Arch Framebuffer Logger InitrdSpec Boot.

(** ** The heap stays initialized *)

Lemma store_next_start blk n h h' : store_next blk n h = Ret h' → heap_start h' = heap_start h.
Proof. unfold store_next. destruct (hmem h !! blk); [by intros [= <-]|done]. Qed.
Lemma store_size_start blk n h h' : store_size blk n h = Ret h' → heap_start h' = heap_start h.
Proof. unfold store_size. destruct (hmem h !! blk); [by intros [= <-]|done]. Qed.
Lemma link_start prev n h h' : link prev n h = Ret h' → heap_start h' = heap_start h.
Proof. unfold link. destruct (negb _); [apply store_next_start|by intros [= <-]]. Qed.

Lemma take_block_start total prev cur b h r : take_block total prev cur b h = Ret r → heap_start r.2 = heap_start h.
Proof.
  unfold take_block. intros Ht. apply rbind_Ret in Ht as (h1 & Hl & [= <-]). cbn [snd].
  destruct (_ <=? _); [|by apply link_start in Hl].
  apply rbind_Ret in Hl as (h2 & Hs & Hl). apply store_size_start in Hs. apply link_start in Hl. by rewrite Hl, Hs.
Qed.

Lemma kmalloc_search_start fuel : ∀ total prev cur h r,
  kmalloc_search fuel total prev cur h = Ret r → heap_start r.2 = heap_start h.
Proof.
  induction fuel as [|fuel IH]; intros total prev cur h r Hk; [done|]. cbn [kmalloc_search] in Hk.
  destruct (cur =? 0); [by injection Hk as <-|]. apply rbind_Ret in Hk as (b & _ & Hk).
  destruct (total <=? _); [|by apply IH in Hk]. apply rbind_Ret in Hk as (x & Ht & [= <-]). by apply take_block_start in Ht.
Qed.

Lemma kmalloc_start bi n h r : Heap.kmalloc bi n h = Ret r → heap_start r.2 = heap_start h.
Proof.
  unfold Heap.kmalloc. intros Hk. destruct (_ =? 0); [by injection Hk as <-|]. destruct (n =? 0); [by injection Hk as <-|].
  apply rbind_Ret in Hk as ([[p|] h1] & Hs & Hk); apply kmalloc_search_start in Hs; cbn [snd] in Hs; [by injection Hk as <-|].
  set (pages := if _ <? 4 then _ else _) in Hk. destruct (heap_grow_pages bi pages h1) as [grew h2] eqn:Hg.
  assert (H2 : heap_start h2 = heap_start h1).
  { unfold heap_grow_pages in Hg. destruct (pages =? 0); [by injection Hg as <- <-|].
    destruct (pma_alloc_pages _ _ _) as [blk b']. destruct (blk =? 0); [by injection Hg as <- <-|].
    destruct (negb _); by injection Hg as <- <-. }
  destruct (negb grew); [by injection Hk as <-; cbn; congruence|].
  apply rbind_Ret in Hk as ([[p|] h3] & Hs3 & Hk); apply kmalloc_search_start in Hs3; injection Hk as <-; cbn [snd] in *; congruence.
Qed.

Lemma kfree_start p h h' : Heap.kfree p h = Ret h' → heap_start h' = heap_start h.
Proof.
  unfold Heap.kfree. destruct (p =? 0); [by intros [= <-]|]. intros Hk.
  apply rbind_Ret in Hk as (w & _ & Hk). apply rbind_Ret in Hk as ([b h1] & Hp & Hk).
  assert (Hp' : heap_start h1 = heap_start h).
  { unfold kfree_prev in Hp. destruct (negb _); [|by injection Hp as <- <-].
    apply rbind_Ret in Hp as (pb & _ & Hp). destruct (_ =? _).
    - apply rbind_Ret in Hp as (bb & _ & Hp). apply rbind_Ret in Hp as (h2 & Hs & [= <- <-]). by apply store_size_start in Hs.
    - apply rbind_Ret in Hp as (h2 & Hs & [= <- <-]). by apply store_next_start in Hs. }
  rewrite <- Hp'. unfold kfree_next in Hk. cbn [fst snd] in Hk. destruct (negb _); [|by apply store_next_start in Hk].
  apply rbind_Ret in Hk as (bb & _ & Hk). destruct (_ =? _); [|by apply store_next_start in Hk].
  apply rbind_Ret in Hk as (cb & _ & Hk). apply rbind_Ret in Hk as (h2 & Hs & Hk).
  apply store_size_start in Hs. apply store_next_start in Hk. congruence.
Qed.

(** The heap of HeapSpec.v with the guard of [heap_init] in its invariant. *)
Definition started_allocator (bi : Bump.Boot) : @AllocatorSpec Heap (heap_allocator bi).
Proof.
  refine (@Build_AllocatorSpec Heap (heap_allocator bi)
            (λ r h L, @alloc_inv _ _ (heap_allocator_spec bi) r h L ∧ heap_start h ≠ 0) _ _ _ _ _).
  - intros r r' h L Hr [Hi Hs]. split; [|done]. by eapply (@alloc_inv_le _ _ (heap_allocator_spec bi)).
  - intros r h L n [Hi Hs] Hn Hc.
    destruct (@amalloc_spec _ _ (heap_allocator_spec bi) r h L n Hi Hn Hc) as (p & c & h' & He & Hp & HL & Hnc & Hi').
    exists p, c, h'. split_and!; [done..|]. cbn in He. destruct (Heap.kmalloc bi n h) as [x| |] eqn:E; [|by injection He..].
    apply kmalloc_start in E. subst x. cbn [snd] in E. congruence.
  - intros r h L p c [Hi Hs] HL. split; [by eapply (@afree_spec _ _ (heap_allocator_spec bi))|].
    cbn. destruct (Heap.kfree p h) as [x| |] eqn:E; [|done..]. apply kfree_start in E. congruence.
  - apply (@afree_null _ _ (heap_allocator_spec bi)).
  - intros r h L [Hi _]. by apply (@alloc_nonnull _ _ (heap_allocator_spec bi) r h).
Defined.

(** ** Log lines *)

Lemma vsprintf_text lit : ∀ n rest args out, 37 ∉ lit →
  vsprintf_loop (length lit + n) (lit ++ rest) args out = vsprintf_loop n rest args (out ++ lit).
Proof.
  induction lit as [|c lit IH]; intros n rest args out Hl; [by rewrite app_nil_r|].
  apply not_elem_of_cons in Hl as [Hc Hl]. cbn [length Nat.add app vsprintf_loop].
  rewrite (proj2 (Z.eqb_neq _ _)) by congruence. cbn [negb]. rewrite IH by done. by rewrite <- app_assoc.
Qed.

(** A format of text and one string. *)
Lemma vsprintf_str lit s : 37 ∉ lit → vsprintf (lit ++ str "%s") [AStr s] = Ret (lit ++ s).
Proof.
  intros Hl. unfold vsprintf. replace (Datatypes.S (length (lit ++ str "%s"))) with (length lit + 3)%nat by (rewrite length_app; cbn; lia).
  by rewrite vsprintf_text.
Qed.

Lemma log_total color tag fmt args t x :
  vsprintf fmt args = Ret t → zlen t < 1024 → zlen tag < 500 → ∃ x', print_colorv console color tag fmt args x = Ret x'.
Proof.
  intros Hv Hl Htag. unfold print_colorv. set (b := if _ <? _ then _ else _).
  assert (Hb : zlen b < 512).
  { unfold b. rewrite copy_tag_take by done. cbn [app]. rewrite take_ge by (unfold zlen in Htag; lia).
    rewrite (proj2 (Z.ltb_lt _ _)), zlen_app, zlen_cons, zlen_nil by lia. lia. }
  pose proof (zlen_nonneg t). unfold vsnprintf. rewrite Hv. cbn [rbind]. rewrite (proj2 (Z.ltb_ge _ _)) by lia.
  rewrite (proj2 (Z.eqb_neq _ _)) by lia. cbn [rbind].
  rewrite (proj2 (Z.ltb_ge _ 0)) by (destruct (_ <=? _); lia). eauto.
Qed.

Section boot.
Context {D : Type} `{BlockDevSpec D} `{FatFs Heap D}.
Notation S := (Session Heap D).

(** A log line changes the screen only. *)
Definition spoke (s s' : S) : Prop := ∃ t, s' = set_screen s t.
Lemma spoke_refl s : spoke s s.
Proof. exists (ktty (kern s)). by destruct s as [[] ? ? ? ?]. Qed.
Lemma spoke_trans s1 s2 s3 : spoke s1 s2 → spoke s2 s3 → spoke s1 s3.
Proof. intros [t ->] [t' ->]. by exists t'. Qed.
Lemma spoke_vfs s s' : spoke s s' → kvfs (kern s') = kvfs (kern s) ∧ ksched (kern s') = ksched (kern s).
Proof. by intros [t ->]. Qed.

Lemma say_spoke color tag fmt args t s :
  vsprintf (str fmt) args = Ret t → zlen t < 1024 → zlen tag < 500 →
  ∃ s', say (print_colorv console color tag) fmt args s = Ret s' ∧ spoke s s'.
Proof.
  intros Hv Hl Ht. unfold say. destruct (log_total color tag (str fmt) args t (ktty (kern s)) Hv Hl Ht) as [x ->].
  cbn [rbind]. eexists. split; [done|]. by exists x.
Qed.

Lemma info_spoke fmt args t s : vsprintf (str fmt) args = Ret t → zlen t < 1024 → ∃ s', info fmt args s = Ret s' ∧ spoke s s'.
Proof. intros Hv Hl. by apply (say_spoke ANSI_CYAN (str "[INFO]") fmt args t). Qed.
Lemma ok_spoke fmt args t s : vsprintf (str fmt) args = Ret t → zlen t < 1024 → ∃ s', ok fmt args s = Ret s' ∧ spoke s s'.
Proof. intros Hv Hl. by apply (say_spoke ANSI_GREEN (str "[OK]") fmt args t). Qed.
Lemma fail_spoke fmt args t s : vsprintf (str fmt) args = Ret t → zlen t < 1024 → ∃ s', fail fmt args s = Ret s' ∧ spoke s s'.
Proof. intros Hv Hl. by apply (say_spoke ANSI_RED (str "[FAIL]") fmt args t). Qed.

Lemma info_each_spoke lit fmt names : str fmt = lit ++ str "%s" → 37 ∉ lit → zlen lit ≤ 100 →
  Forall (λ n, zlen n ≤ 511) names → ∀ s, ∃ s', info_each fmt names s = Ret s' ∧ spoke s s'.
Proof.
  intros Hf Hl Hlit. induction 1 as [|n names Hn _ IH]; intros s; [exists s; split; [done|apply spoke_refl]|].
  cbn [info_each]. destruct (info_spoke fmt [AStr n] (lit ++ n) s) as (s1 & -> & Hs1).
  - by rewrite Hf, vsprintf_str.
  - rewrite zlen_app. lia.
  - cbn [rbind]. destruct (IH s1) as (s2 & -> & Hs2). exists s2. split; [done|by eapply spoke_trans].
Qed.

(** ** Listings *)

Lemma strchr_suffix l c : ∀ q, strchr l c = Some q → zlen q ≤ zlen l.
Proof.
  induction l as [|x l IH]; intros q Hq; [done|]. cbn [strchr] in Hq. rewrite zlen_cons.
  destruct (x =? c); [injection Hq as <-; rewrite zlen_cons; lia|]. specialize (IH q Hq). lia.
Qed.

Lemma list_names_short drv pb ip l : Forall entry_ok l →
  ∃ names, list_names drv pb ip l = Ret names ∧ Forall (λ n, zlen n ≤ 511) names.
Proof.
  induction 1 as [|e l He _ (names & IH & Hn)]; [by exists []|]. cbn [list_names].
  rewrite (eo_path _ He), IH. cbn [of_opt rbind]. eexists. split; [done|].
  pose proof (eo_short _ He) as Hs. unfold listed_name. set (q := node_path e) in *.
  assert (Hd : ∀ k, zlen (drop k q) ≤ 511) by (intros k; unfold zlen in *; rewrite length_drop; lia).
  set (cand := if _ =? 0 then _ else _). assert (Hc : ∀ x, cand = Some x → zlen x ≤ 511).
  { unfold cand. intros x. destruct (_ =? 0); [by intros [= <-]|]. destruct (_ && _); [by intros [= <-]|done]. }
  destruct cand as [[|c rest]|]; try done. specialize (Hc _ eq_refl). rewrite zlen_cons in Hc.
  destruct (c =? 47); (destruct (strchr _ 47); [done|]); constructor; rewrite ?zlen_cons; lia || done.
Qed.
End boot.

Section reach.
Context {D : Type} `{BlockDevSpec D} `{FatFs Heap D} (bi : Bump.Boot).
#[local] Hint Extern 0 (Allocator _) => exact (heap_allocator bi) : typeclass_instances.
#[local] Hint Extern 0 (AllocatorSpec _) => exact (started_allocator bi) : typeclass_instances.
Notation S := (Session Heap D).

Lemma list_dir_step r X (s : HanaFS Heap D) p drv pb ip :
  fs_inv r X s → path_arg p drv pb ip → zlen p + 66 ≤ r →
  ∃ names s', hanafs_list_dir (Some p) s = Ret (0, names, s') ∧ g_head s' = g_head s ∧
    fs_inv (r - (zlen p + 66)) X s' ∧ Forall (λ n, zlen n ≤ 511) names.
Proof.
  intros Hi Hp Hr. unfold hanafs_list_dir.
  destruct (open_path r X s p drv pb ip Hi Hp) as (b & h & -> & Hb & Hi1); [lia|].
  rewrite (proj2 (Z.eqb_neq _ _)), (path_arg_resolve _ _ _ _ Hp) by done. cbn [rbind g_head set_heap].
  destruct (list_names_short drv pb ip (g_head s) (fi_entries _ _ _ Hi)) as (names & -> & Hn). cbn [rbind].
  eexists _, _. split_and!; [done|done| |done]. by apply kfree_step.
Qed.

(** What the kernel has in place, as far as the log lines do not matter. *)
Definition holds_files (r : Z) (m : AFs) (s : S) : Prop :=
  ∃ a1 a2, mounts (kvfs (kern s)) = [Mount (str "procfs") a1 (str "/proc"); Mount (str "devfs") a2 (str "/dev")] ∧
    fs_inv r [a1; a2] (fs (kvfs (kern s))) ∧ fs_abs (fs (kvfs (kern s))) = m ∧ ksched (kern s) = sched_boot.

Lemma holds_files_spoke r m s s' : spoke s s' → holds_files r m s → holds_files r m s'.
Proof. intros [E1 E2]%spoke_vfs. unfold holds_files. by rewrite E1, E2. Qed.

Lemma list_to_log_step r m dir fmt lit drv pb ip (s : S) :
  holds_files r m s → path_arg (str dir) drv pb ip → zlen (str dir) + 66 ≤ r →
  covers (str dir) (str "/proc") = false → covers (str dir) (str "/dev") = false →
  str fmt = lit ++ str "%s" → 37 ∉ lit → zlen lit ≤ 100 →
  ∃ s', list_to_log bi dir fmt s = Ret s' ∧ holds_files (r - (zlen (str dir) + 66)) m s'.
Proof.
  intros (a1 & a2 & Hm & Hi & Ha & Hs) Hp Hr Hc1 Hc2 Hf Hl Hlit. unfold list_to_log, vfs_list_dir. rewrite Hm.
  unfold find_mount. cbn [list_find]. rewrite !decide_False by (cbn [mountpoint]; rewrite ?Hc1, ?Hc2; auto). cbn [fmap option_fmap option_map prod_map].
  unfold list_dir_fallback. destruct (list_dir_step r _ _ (str dir) drv pb ip Hi Hp Hr) as (names & x & -> & Hg & Hi' & Hn).
  cbn [rbind]. change (0 =? 0) with true. cbn [rbind].
  destruct (info_each_spoke lit fmt names Hf Hl Hlit Hn (with_kern (set_kvfs (kern s) (set_fs (kvfs (kern s)) x)) s)) as (s' & -> & Hsp).
  exists s'. split; [done|]. eapply holds_files_spoke; [exact Hsp|]. exists a1, a2. cbn. split_and!; [done|done| |done].
  rewrite <- Ha. unfold fs_abs. by rewrite Hg.
Qed.

Lemma module_initrd dir data rest (x : HanaFS Heap D) :
  init_from_module ((Some (dir ++ str "initrd.tar"), data) :: rest) (str "initrd.tar") x
  = init_from_memory (Some data) (zlen data) x.
Proof.
  cbn [init_from_module]. destruct (strcmp (dir ++ str "initrd.tar") _ =? 0); [done|].
  unfold strlen. rewrite zlen_app. pose proof (zlen_nonneg dir). rewrite (proj2 (Z.ltb_ge _ _)) by lia.
  rewrite length_app, Nat.add_sub, drop_app_length. done.
Qed.

(** The file part: the initrd's tree, the two pseudo file systems, and the listings. *)
Lemma start_files_step es dir rest r (s : S) :
  fs_inv r [] (fs (kvfs (kern s))) → fs_abs (fs (kvfs (kern s))) = ∅ → mounts (kvfs (kern s)) = [] → ksched (kern s) = sched_boot →
  Forall tar_ok es → zlen (tar_archive es) < 2 ^ 40 → Forall call_ok (archive_calls es) → run_fits r ∅ (archive_calls es) →
  276 ≤ aroom r ∅ (archive_calls es) →
  ∃ s', start_files bi (Some ((Some (dir ++ str "initrd.tar"), tar_archive es) :: rest)) s = Ret s' ∧
        holds_files (aroom r ∅ (archive_calls es) - 276) (aafter ∅ (archive_calls es)) s'.
Proof.
  intros Hi Ha Hm Hs Hes Hlen Hok Hfits Hroom. unfold start_files.
  destruct (info_spoke "Attempting to load initrd.tar (initrd) from Limine modules" [] _ s eq_refl ltac:(done))
    as (s1 & E & Hs1). rewrite E. cbn [rbind]. clear E. destruct (spoke_vfs _ _ Hs1) as [Ev1 Es1].
  unfold load_initrd. cbn [from_option id]. rewrite module_initrd, Ev1. rewrite <- Ha in Hfits, Hroom |- *.
  destruct (initrd_unpacks es r _ Hi Hes Hlen Hok Hfits) as (x & -> & Hax & Hix). cbn [rbind].
  change (0 =? 0) with true. cbv iota. set (R := aroom r _ _) in *. set (T := aafter _ _) in *. clearbody R T.
  set (s2 := with_kern _ s1).
  destruct (ok_spoke "Loaded initrd.tar into ramfs/HanaFS" [] _ s2 eq_refl ltac:(done)) as (s3 & E & Hs3).
  rewrite E. cbn [rbind]. clear E. destruct (spoke_vfs _ _ Hs3) as [Ev3 Es3].
  set (v0 := kvfs (kern s3)).
  assert (Hv0 : vfs_inv R (vfs_init v0) ∧ mounts (vfs_init v0) = [] ∧ fs_abs (fs (vfs_init v0)) = T).
  { unfold vfs_init, v0. rewrite Ev3. cbn. rewrite Ev1, Hm. split_and!; [|done|done]. split; [exact Hix|done|constructor]. }
  destruct Hv0 as (Hv0 & Hm0 & Ha0).
  destruct (vfs_mount_table R (vfs_init v0) (str "procfs") (str "/proc") Hv0) as (Hv1 & Ha1 & Hm1 & _);
    [by apply (bool_decide_unpack _)|done|change (zlen (str "/proc")) with 5; lia|].
  rewrite Hm0, decide_True in Hm1 by done. destruct Hm1 as [a1 Hm1]. change (zlen (str "/proc")) with 5 in Hv1.
  fold (procfs_init (vfs_init v0)) in Hv1, Ha1, Hm1.
  destruct (vfs_mount_table _ (procfs_init (vfs_init v0)) (str "devfs") (str "/dev") Hv1) as (Hv2 & Ha2 & Hm2 & _);
    [by apply (bool_decide_unpack _)|done|change (zlen (str "/dev")) with 4; lia|].
  rewrite Hm1, decide_True in Hm2 by done. destruct Hm2 as [a2 Hm2]. change (zlen (str "/dev")) with 4 in Hv2.
  fold (devfs_init (procfs_init (vfs_init v0))) in Hv2, Ha2, Hm2. cbn [app] in Hm2.
  set (s4 := on_vfs devfs_init _).
  assert (Hf4 : holds_files (R - 139) T s4).
  { exists a1, a2. change (kvfs (kern s4)) with (devfs_init (procfs_init (vfs_init v0))).
    change (ksched (kern s4)) with (ksched (kern s3)). split_and!; [exact Hm2| |congruence|].
    - pose proof (vi_fs _ _ Hv2) as Hf. rewrite Hm2 in Hf. eapply fs_inv_le; [|exact Hf]. lia.
    - rewrite Es3. change (ksched (kern s2)) with (ksched (kern s1)). congruence. }
  clearbody s4.
  destruct (info_spoke "Listing mounted filesystems:" [] _ s4 eq_refl ltac:(done)) as (s5 & E & Hs5).
  rewrite E. cbn [rbind]. clear E. pose proof (holds_files_spoke _ _ _ _ Hs5 Hf4) as Hf5.
  destruct (info_each_spoke (D := D) (str "  ") "  %s" (vfs_list_mounts (kvfs (kern s5))).2 eq_refl) with s5 as (s6 & E & Hs6).
  { by apply (bool_decide_unpack _). } { done. }
  { unfold vfs_list_mounts. apply Forall_fmap, Forall_true. intros mt. unfold zlen, compose. rewrite length_take. lia. }
  rewrite E. cbn [rbind]. clear E. pose proof (holds_files_spoke _ _ _ _ Hs6 Hf5) as Hf6.
  destruct (info_spoke "Listing root directory (/):" [] _ s6 eq_refl ltac:(done)) as (s7 & E & Hs7).
  rewrite E. cbn [rbind]. clear E. pose proof (holds_files_spoke _ _ _ _ Hs7 Hf6) as Hf7.
  destruct (list_to_log_step (R - 139) T "/" "  / entry: %s" (str "  / entry: ") (-1) (str "/") (str "/") s7 Hf7) as (s8 & -> & Hf8);
    [split; [by apply (bool_decide_unpack _)|done|reflexivity]|change (zlen (str "/")) with 1; lia|done|done|done|by apply (bool_decide_unpack _)|done|].
  cbn [rbind].
  destruct (info_spoke "Listing /bin directory:" [] _ s8 eq_refl ltac:(done)) as (s9 & E & Hs9).
  rewrite E. cbn [rbind]. clear E. pose proof (holds_files_spoke _ _ _ _ Hs9 Hf8) as Hf9. change (zlen (str "/")) with 1 in Hf9.
  destruct (list_to_log_step _ T "/bin" "  /bin entry: %s" (str "  /bin entry: ") (-1) (str "/bin") (str "/bin") s9 Hf9) as (s10 & -> & Hf10);
    [split; [by apply (bool_decide_unpack _)|done|reflexivity]|change (zlen (str "/bin")) with 4; lia|done|done|done|by apply (bool_decide_unpack _)|done|].
  exists s10. split; [done|]. change (zlen (str "/bin")) with 4 in Hf10. by replace (R - 276) with (R - 139 - (1 + 66) - (4 + 66)) by lia.
Qed.

(** ** From power on *)

Definition with_session (m : Machine D) (s : S) : Machine D :=
  MachineState (video m) (gdt m) (gdtr m) (segs m) (idt m) (idtr m) (msrs m) (kbd m) s.

(** Zeroed statics, the disk as it is, and nothing mounted. *)
Record powered_on (m : Machine D) : Prop := {
  po_fs : ∃ d, fs (kvfs (kern (session m))) = FsState heap_zero d [] false true;
  po_mounts : mounts (kvfs (kern (session m))) = [];
  po_sched : ksched (kern (session m)) = sched_boot;
  po_gdt : zlen (gdt m) = 6;
  po_idt : zlen (idt m) = 256
}.

Lemma on_session_Ret f m s : f (session m) = Ret s → on_session f m = Ret (with_session m s).
Proof. unfold on_session. by intros ->. Qed.

(** The static heap where the linker put it, below the page allocator. *)
Record heap_placed (static_heap : Z) : Prop := {
  hp_pos : 0 < static_heap;
  hp_align : static_heap `mod` 16 = 0;
  hp_below : static_heap + sizeof_static_heap ≤ bump_start bi;
  hp_high : bump_start bi < 2 ^ 63;
  hp_page : bump_start bi `mod` 4096 = 0
}.

Lemma heap_started static_heap :
  heap_placed static_heap → mem_ok 1048575 (heap_init static_heap (1024 * 1024) heap_zero) [].
Proof.
  intros [Hp Ha Hb Hh Hpg]. destruct (heap_init_spec bi static_heap (1024 * 1024)) as (Hi & Hs & _); [done|done|done|lia|done|].
  set (h := heap_init static_heap (1024 * 1024) heap_zero) in *. assert (Hsz : heap_size h = 1048576) by done.
  exists ∅. split_and!; [|constructor|constructor]. cbn. split; [|unfold h, heap_init; cbn; lia].
  exists [(static_heap, heap_size h)]. split_and!; [done|exact Hh|]. apply Exists_cons. left. cbn [snd]. lia.
Qed.

(** [init_scheduler] finds the heap initialized and allocates the main task from it. *)
Lemma start_scheduler_step static_heap main_storage sp r m (s : S) :
  holds_files r m s → 168 ≤ r →
  ∃ s' a, start_scheduler bi static_heap main_storage sp s = Ret s' ∧
    let k := kern s' in
    mounts (kvfs k) = mounts (kvfs (kern s)) ∧ g_head (fs (kvfs k)) = g_head (fs (kvfs (kern s))) ∧
    sched_inv (r - 168) ((mp_addr <$> mounts (kvfs k)) ++ owned_all (g_head (fs (kvfs k)))) (kheap k) (ksched k) [a] ∧
    current_task (ksched k) = a ∧ sched_getpid (ksched k) = Ret 1.
Proof.
  intros (a1 & a2 & Hm & Hi & Ha & Hs) Hr. pose proof (fi_mem _ _ _ Hi) as Hmem.
  unfold start_scheduler, init_scheduler. set (h := kheap (kern s)).
  assert (Hh : heap_init static_heap (256 * 1024) h = h).
  { destruct Hmem as (L & [_ Hst] & _). unfold heap_init. rewrite (proj2 (Z.eqb_neq (heap_start h) 0)); [done|exact Hst]. }
  rewrite Hh, Hs. destruct (init_main_spec r _ h main_storage sp Hmem Hr) as (a & h' & t & -> & Hsi & Hc & Hpid & _).
  cbn [rbind]. eexists _, a. split; [done|]. cbn. rewrite Hm. by split_and!.
Qed.

Lemma start_video_step resp hhdm (m : Machine D) :
  ∃ f s, start_video resp hhdm m
    = Ret (MachineState f (gdt m) (gdtr m) (segs m) (idt m) (idtr m) (msrs m) (kbd m) s) ∧ spoke (session m) s.
Proof.
  unfold start_video. destruct (framebuffer_init resp hhdm (video m)) as [[] f].
  - set (s0 := set_screen (session m) (emit (ktty (kern (session m))) ClearScreen)).
    destruct (ok_spoke "Framebuffer initialized" [] _ s0 eq_refl ltac:(done)) as (s & E & Hs).
    eexists f, s. split; [|eapply spoke_trans; [|exact Hs]; by eexists].
    apply (on_session_Ret _ (MachineState f (gdt m) (gdtr m) (segs m) (idt m) (idtr m) (msrs m) (kbd m) (session m)) s E).
  - destruct (fail_spoke "No framebuffer detected" [] _ (session m) eq_refl ltac:(done)) as (s & E & Hs).
    eexists f, s. split; [|exact Hs].
    apply (on_session_Ret _ (MachineState f (gdt m) (gdtr m) (segs m) (idt m) (idtr m) (msrs m) (kbd m) (session m)) s E).
Qed.

Lemma build_line build version : zlen build + zlen version ≤ 900 →
  ∃ t, vsprintf (str "Build: %s | Version: %s") [AStr build; AStr version] = Ret t ∧ zlen t < 1024.
Proof.
  intros Hl. exists (str "Build: " ++ build ++ str " | Version: " ++ version). split.
  - unfold vsprintf. change (str "Build: %s | Version: %s") with (str "Build: " ++ 37 :: 115 :: str " | Version: " ++ str "%s").
    change (Datatypes.S _) with (length (str "Build: ") + 17)%nat. rewrite vsprintf_text by by apply (bool_decide_unpack _).
    change (vsprintf_loop 17 (37 :: 115 :: str " | Version: " ++ str "%s") [AStr build; AStr version] ([] ++ str "Build: "))
      with (vsprintf_loop (length (str " | Version: ") + 4) (str " | Version: " ++ str "%s") [AStr version] (([] ++ str "Build: ") ++ build)).
    rewrite vsprintf_text by by apply (bool_decide_unpack _).
    change (vsprintf_loop 4 (str "%s") [AStr version] ((([] ++ str "Build: ") ++ build) ++ str " | Version: "))
      with (Ret (((([] ++ str "Build: ") ++ build) ++ str " | Version: ") ++ version)).
    by rewrite <- !app_assoc.
  - rewrite !zlen_app. change (zlen (str "Build: ")) with 7. change (zlen (str " | Version: ")) with 12. lia.
Qed.

(** What is in place when [login_main] is called. *)
Definition ready (isr_stub : Z) (files : AFs) (r : Z) (main : Z) (m : Machine D) : Prop :=
  let k := kern (session m) in
  fs_abs (fs (kvfs k)) = files ∧
  ((λ x, (fsname x, mountpoint x)) <$> mounts (kvfs k)) = [(str "procfs", str "/proc"); (str "devfs", str "/dev")] ∧
  sched_inv r ((mp_addr <$> mounts (kvfs k)) ++ owned_all (g_head (fs (kvfs k)))) (kheap k) (ksched k) [main] ∧
  current_task (ksched k) = main ∧ sched_getpid (ksched k) = Ret 1 ∧
  (∀ v, 0 ≤ v < 256 → Idt.deliver (idt m) (idtr m) v = Some (0x08, isr_stub)) ∧ Gdt.cs (segs m) = 0x08 ∧
  ∃ e, Gdt.select (gdt m) (gdtr m) 0x08 = Some e ∧
       Gdt.is_code e ∧ Gdt.present e ∧ Gdt.long_mode e ∧ Gdt.dpl e = 0.

Lemma kernel_starts static_heap gdt_addr idt_addr isr_stub syscall_entry main_storage sp resp hhdm
    init_array build_date version es dir rest (m : Machine D) :
  let calls := archive_calls es in
  powered_on m → heap_placed static_heap → Idt.code_address isr_stub →
  (∀ m, call_all init_array m = Ret m) → zlen build_date + zlen version ≤ 900 →
  Forall tar_ok es → zlen (tar_archive es) < 2 ^ 40 → Forall call_ok calls → run_fits 1048575 ∅ calls →
  444 ≤ aroom 1048575 ∅ calls →
  ∃ main m', kernel_start bi static_heap gdt_addr idt_addr isr_stub syscall_entry main_storage sp resp hhdm
               (Some ((Some (dir ++ str "initrd.tar"), tar_archive es) :: rest)) init_array build_date version m = Ret m' ∧
             ready isr_stub (aafter ∅ calls) (aroom 1048575 ∅ calls - 444) main m'.
Proof.
  intros calls Hm Hheap Hstub Hctor Hver Hes Hlen Hok Hfits Hroom. subst calls. unfold kernel_start.
  destruct (start_video_step resp hhdm m) as (f & s1 & -> & Hs1). cbn [rbind].
  set (m1 := MachineState f _ _ _ _ _ _ _ _).
  destruct (info_spoke "=== HanaCore Kernel Starting ===" [] _ s1 eq_refl ltac:(done)) as (s2 & E2 & Hs2).
  rewrite (on_session_Ret _ m1 s2 E2). cbn [rbind]. unfold call_constructors. rewrite Hctor. cbn [rbind].
  destruct (ok_spoke "Global constructors called" [] _ s2 eq_refl ltac:(done)) as (s3 & E3 & Hs3).
  rewrite (on_session_Ret _ (with_session m1 s2) s3 E3). cbn [rbind].
  pose proof (spoke_trans _ _ _ (spoke_trans _ _ _ Hs1 Hs2) Hs3) as Hs. destruct (spoke_vfs _ _ Hs) as [Ev Es].
  destruct Hm as [[d Hfs] Hmnt Hsch Hg6 Hi256].
  unfold start_cpu. change (gdt (with_session (with_session m1 s2) s3)) with (gdt m). change (idt (with_session (with_session m1 s2) s3)) with (idt m).
  destruct (gdt_install_Ret gdt_addr (gdt m) Hg6) as (g & e1 & e2 & e3 & e4 & -> & Hsel & _ & _ & _ & Hc1 & Hc2 & Hc3 & Hc4 & _).
  cbn [rbind]. rewrite Idt.idt_install_Ret by done. cbn [rbind].
  set (m2 := MachineState _ g _ _ _ _ _ _ _).
  rewrite (on_session_Ret _ m2 (start_heap static_heap s3) eq_refl). cbn [rbind].
  set (s4 := start_heap static_heap s3) in *.
  assert (Hi4 : fs_inv 1048575 [] (fs (kvfs (kern s4)))).
  { change (fs (kvfs (kern s4))) with (HanaFs.set_heap (fs (kvfs (kern s3))) (heap_init static_heap (1024 * 1024) (heap (fs (kvfs (kern s3)))))).
    rewrite Ev, Hfs. split; [exact (heap_started _ Hheap)|constructor|constructor]. }
  assert (Ha4 : fs_abs (fs (kvfs (kern s4))) = ∅).
  { change (fs_abs (fs (kvfs (kern s4)))) with (fs_abs (fs (kvfs (kern s3)))). by rewrite Ev, Hfs. }
  assert (Hm4 : mounts (kvfs (kern s4)) = []) by (change (mounts (kvfs (kern s3)) = []); by rewrite Ev).
  assert (Hk4 : ksched (kern s4) = sched_boot) by (change (ksched (kern s3) = sched_boot); congruence).
  clearbody s4. clear Hs1 Hs2 Hs3 Hs Ev Es E2 E3.
  set (m3 := start_keyboard _).
  destruct (ok_spoke "Core subsystems initialized" [] _ s4 eq_refl ltac:(done)) as (s5 & E5 & Hs5).
  rewrite (on_session_Ret _ m3 s5 E5). cbn [rbind].
  destruct (build_line build_date version Hver) as (line & Hline & Hll).
  destruct (info_spoke "Build: %s | Version: %s" [AStr build_date; AStr version] line s5 Hline Hll) as (s6 & E6 & Hs6).
  rewrite (on_session_Ret _ (with_session m3 s5) s6 E6). cbn [rbind].
  destruct (spoke_vfs _ _ (spoke_trans _ _ _ Hs5 Hs6)) as [Ev Es].
  destruct (start_files_step es dir rest 1048575 s6) as (s7 & E7 & Hf7);
    [by rewrite Ev|by rewrite Ev|by rewrite Ev|by rewrite Es|done|done|done|done|lia|].
  rewrite (on_session_Ret _ (with_session (with_session m3 s5) s6) s7 E7). cbn [rbind].
  destruct (start_scheduler_step static_heap main_storage sp _ _ s7 Hf7 ltac:(lia)) as (s8 & a & E8 & Hm8 & Hg8 & Hsi & Hcur & Hpid).
  destruct (info_spoke "Scheduler initialized" [] _ s8 eq_refl ltac:(done)) as (s9 & E9 & Hs9).
  destruct (spoke_vfs _ _ Hs9) as [Ev9 Es9].
  exists a. eexists. split.
  { apply (on_session_Ret _ (with_session _ s7) s9). change (session (with_session _ s7)) with s7. cbv beta. rewrite E8. cbn [rbind]. exact E9. }
  destruct Hf7 as (a1 & a2 & Hmm & _ & Ha7 & _).
  unfold ready, kheap. change (session (with_session _ s9)) with s9. rewrite Ev9, Es9. split_and!.
  - rewrite <- Ha7. unfold fs_abs. by rewrite Hg8.
  - by rewrite Hm8, Hmm.
  - replace (aroom 1048575 ∅ (archive_calls es) - 444) with (aroom 1048575 ∅ (archive_calls es) - 276 - 168) by lia. exact Hsi.
  - exact Hcur.
  - exact Hpid.
  - intros v Hv. apply (Idt.deliver_leads _ _ idt_addr v (Idt.leads_install isr_stub) Hv Hstub).
  - done.
  - exists e1. by split_and!.
Qed.

End reach.

(** A machine at power on, with a blank disk. *)
Definition pc : Machine Disk :=
  MachineState fb_boot Gdt.gdt0 (Gdt.Gdt_ptr 0 0) (Gdt.Segments 0 0 0 0 0 0) Idt.idt0 (Idt.Idt_ptr 0 0) ∅ (KbdState [] false false false)
    (SessionState (KState (VfsState (FsState heap_zero ∅ [] false true) []) sched_boot ∅ tty_boot ∅) users0 boot_fat (str "/") []).


(** * From power on to the log-in prompt and back

    [kernel_start] reads no key and writes to the terminal by printing only; so the log-in
    finds the keys that were typed and terminals with room, and the lemmas of Login.v apply. *)


Section quiet.
Context {D : Type} `{BlockDevSpec D} `{FatFs Heap D} (bi : Bump.Boot).
#[local] Hint Extern 0 (Allocator _) => exact (heap_allocator bi) : typeclass_instances.
#[local] Hint Extern 0 (Loader _) => exact (heap_loader bi) : typeclass_instances.
Notation S := (Session Heap D).

(** Keys, accounts and the FAT32 globals stay; the terminal shows more. *)
Definition quiet (s s' : S) : Prop :=
  keys s' = keys s ∧ accounts s' = accounts s ∧ fat s' = fat s ∧ ∃ l, ktty (kern s') = foldl emit (ktty (kern s)) l.
Definition quietly (f : S → res S) : Prop := ∀ s s', f s = Ret s' → quiet s s'.

#[local] Instance quiet_preorder : PreOrder quiet.
Proof.
  split; [intros s; split_and!; [done..|by exists []]|].
  intros s1 s2 s3 (E1 & E2 & E3 & l & E) (E1' & E2' & E3' & k & E'). split_and!; [congruence..|].
  exists (l ++ k). by rewrite E', E, foldl_app.
Qed.

Lemma quiet_kern (s : S) k : ktty k = ktty (kern s) → quiet s (with_kern k s).
Proof. intros E. split_and!; [done..|by exists []]. Qed.

Lemma quietly_say color tag fmt args : quietly (say (print_colorv console color tag) fmt args).
Proof.
  intros s s' (t & E & [= <-])%rbind_Ret. unfold print_colorv in E. apply rbind_Ret in E as ([written text] & _ & E).
  split_and!; [done..|]. destruct (written <? 0); injection E as <-; [by exists []|]. eexists [Put _; Put _; Put _]. reflexivity.
Qed.
Lemma quietly_ok fmt args : quietly (ok fmt args).
Proof. apply quietly_say. Qed.
Lemma quietly_info fmt args : quietly (info fmt args).
Proof. apply quietly_say. Qed.
Lemma quietly_fail fmt args : quietly (fail fmt args).
Proof. apply quietly_say. Qed.
Lemma quietly_info_each fmt names : quietly (info_each fmt names).
Proof.
  induction names as [|n names IH]; intros s s' E; [by injection E as <-|].
  cbn [info_each] in E. apply rbind_Ret in E as (s1 & E1 & E). etrans; [by eapply quietly_info|by apply IH].
Qed.

Lemma quietly_load_initrd modules : quietly (load_initrd bi modules).
Proof.
  intros s s' ([rc x] & _ & E)%rbind_Ret. etrans; [apply (quiet_kern s (set_kfs (kern s) x)); done|].
  destruct (rc =? 0); [by eapply quietly_ok|by eapply quietly_info].
Qed.
Lemma quietly_list_to_log dir fmt : quietly (list_to_log bi dir fmt).
Proof.
  intros s s' ([[rc names] v] & _ & E)%rbind_Ret. etrans; [apply (quiet_kern s (set_kvfs (kern s) v)); done|by eapply quietly_info_each].
Qed.
Lemma quietly_start_scheduler static_heap main_storage sp : quietly (start_scheduler bi static_heap main_storage sp).
Proof. intros s s' ([h t] & _ & [= <-])%rbind_Ret. by apply quiet_kern. Qed.

Lemma quiet_on_vfs f (s : S) : quiet s (on_vfs f s).
Proof. by apply quiet_kern. Qed.

Lemma quietly_start_files modules : quietly (start_files bi modules).
Proof.
  intros s s' E. unfold start_files in E.
  apply rbind_Ret in E as (s1 & E1 & E). etrans; [by eapply quietly_info|].
  apply rbind_Ret in E as (s2 & E2 & E). etrans; [by eapply quietly_load_initrd|].
  apply rbind_Ret in E as (s3 & E3 & E). etrans; [|etrans; [by eapply quietly_info|]].
  { etrans; [apply (quiet_on_vfs vfs_init)|]. etrans; [apply (quiet_on_vfs procfs_init)|apply (quiet_on_vfs devfs_init)]. }
  apply rbind_Ret in E as (s4 & E4 & E). etrans; [by eapply quietly_info_each|].
  apply rbind_Ret in E as (s5 & E5 & E). etrans; [by eapply quietly_info|].
  apply rbind_Ret in E as (s6 & E6 & E). etrans; [by eapply quietly_list_to_log|].
  apply rbind_Ret in E as (s7 & E7 & E). etrans; [by eapply quietly_info|]. by eapply quietly_list_to_log.
Qed.

(** ** The machine *)

Lemma on_session_inv f (m m' : Machine D) : on_session f m = Ret m' → f (session m) = Ret (session m').
Proof. intros (s & E & [= <-])%rbind_Ret. exact E. Qed.

Lemma quiet_start_video resp hhdm (m m' : Machine D) : start_video resp hhdm m = Ret m' → quiet (session m) (session m').
Proof.
  unfold start_video. destruct (framebuffer_init resp hhdm (video m)) as [[] f]; intros E%on_session_inv; cbn [session] in E.
  - etrans; [|by eapply quietly_ok]. split_and!; [done..|]. by exists [ClearScreen].
  - by eapply quietly_fail.
Qed.

Lemma kernel_start_quiet static_heap gdt_addr idt_addr isr_stub syscall_entry main_storage sp resp hhdm modules
    init_array build_date version (m m' : Machine D) :
  (∀ m, call_all init_array m = Ret m) →
  kernel_start bi static_heap gdt_addr idt_addr isr_stub syscall_entry main_storage sp resp hhdm modules init_array build_date version m = Ret m' →
  quiet (session m) (session m').
Proof.
  intros Hctor E. unfold kernel_start in E.
  apply rbind_Ret in E as (m1 & E1%quiet_start_video & E). etrans; [exact E1|].
  apply rbind_Ret in E as (m2 & E2%on_session_inv & E). etrans; [by eapply quietly_info|].
  apply rbind_Ret in E as (m3 & E3 & E). unfold call_constructors in E3. rewrite Hctor in E3. injection E3 as <-.
  apply rbind_Ret in E as (m4 & E4%on_session_inv & E). etrans; [by eapply quietly_ok|].
  apply rbind_Ret in E as (m5 & E5 & E). assert (Hs : session m5 = session m4).
  { unfold start_cpu in E5. apply rbind_Ret in E5 as ([[g p] sg] & _ & E5). by apply rbind_Ret in E5 as ([t q] & _ & [= <-]). }
  rewrite <- Hs. apply rbind_Ret in E as (m6 & E6%on_session_inv & E). injection E6 as E6.
  assert (quiet (session m5) (session m6)) as Hh by (rewrite <- E6; by apply quiet_kern). etrans; [exact Hh|].
  apply rbind_Ret in E as (m7 & E7%on_session_inv & E). change (session (start_keyboard m6)) with (session m6) in E7. etrans; [by eapply quietly_ok|].
  apply rbind_Ret in E as (m8 & E8%on_session_inv & E). etrans; [by eapply quietly_info|].
  apply rbind_Ret in E as (m9 & E9%on_session_inv & E). etrans; [by eapply quietly_start_files|].
  apply on_session_inv in E. apply rbind_Ret in E as (s1 & E10 & E). etrans; [by eapply quietly_start_scheduler|by eapply quietly_info].
Qed.

Lemma quiet_room n s s' : quiet s s' → tty_room n (ktty (kern s)) → tty_room n (ktty (kern s')).
Proof.
  intros (_ & _ & _ & l & ->). generalize (ktty (kern s)). induction l as [|c l IH]; intros t Ht; [done|]. apply IH.
  destruct Ht as (logs & Hok & Hl). exists logs. split; [by apply vts_ok_screen|done].
Qed.

End quiet.

(** A machine at power on with keys typed, a blank disk, and the FAT32 and floppy drivers. *)
Definition pc_typed (ks : list Z) : Machine (FatDev Disk) :=
  MachineState fb_boot Gdt.gdt0 (Gdt.Gdt_ptr 0 0) (Gdt.Segments 0 0 0 0 0 0) Idt.idt0 (Idt.Idt_ptr 0 0) ∅ (KbdState [] false false false)
    (SessionState (KState (VfsState (FsState heap_zero (FatDevState ∅ boot_fat (FloppyState 0 [] 0)) [] false true) []) sched_boot ∅ tty_boot ∅)
       users0 boot_fat (str "/") ks).

